(* ===== verification/_CoqProject ===== *)
-Q . S2P
Prelude.v
Memory.v
Text.v
BTree.v
Pmm.v
Heap.v
Vmm.v
Task.v
Scheduler.v
Locks.v
Console.v
Arch.v
Modules.v
Vfs.v
Ntfs.v
Acpi.v
Device.v
Timer.v
Apic.v
Syscall.v
Interrupts.v
Switch.v
Entry.v
Drivers.v
User.v
UserShell.v
Shell.v
Threads.v
Boot.v
Startup.v
Mbr.v
Segments.v
Live.v
Typing.v
