(* ===== verification/Prelude.v ===== *)
(** * DeltaOS kernel: verification development

    DeltaOS is a 64-bit x86 kernel in Rust with assembly for the entry points.
    This library models the system from the boot sector and the disk image to the
    line editor of the kernel's shell and the programs of user mode, and proves the
    properties that make its parts correct, and the ones that show where they are
    not.

    ** The program and its models

    - Prelude: [KernelError], results, panics, machine arithmetic, loops, and the
      tactics and lemmas on lists, integers and bits the other files share.
    - Memory: physical memory as a map from addresses to bytes, with
      little-endian accesses.  The page bitmap, page tables, heap pages, stacks
      and firmware tables are all bytes of it.
    - Text, BTree: the parts of [core::fmt], [str] and [BTreeMap] the kernel uses.
    - Pmm (src/memory/pmm.rs): the physical page allocator over its bitmap.
    - Heap (src/memory/heap.rs): the slab allocator behind [GlobalAlloc].
    - Vmm (src/memory/vmm.rs): four-level page tables, walked and changed.
    - Task (src/sched/task.rs, context_switch.asm): tasks, their stacks and initial
      frames, signals, and the save and restore sequences of the switch.
    - Scheduler (src/sched/scheduler.rs): the ready queue and every operation on
      tasks.  An [Arc<Mutex<Task>>] is a key of a store of tasks, so that the
      queue and the list of all tasks share them as in the source.
    - Locks (src/sched/scheduler.rs): the same operations with the spin locks of the
      tasks taken and released where the source does.
    - Console (src/lib.rs): screen and serial output.
    - Arch (src/arch, boot/long_mode.asm): segment and interrupt descriptors.
    - Modules (src/module/manager.rs), Vfs (src/fs/vfs.rs), Ntfs (src/fs/ntfs.rs):
      kernel modules and file systems.  The traits [Inode] and [FileSystem] are
      type classes; Vfs is proved against them, Ntfs provides instances.
    - Acpi (src/acpi/mod.rs): the firmware tables in memory, as packed layouts, and
      the parser with what it prints.
    - Device (src/lib.rs): a monad over the sequence of port and register accesses.
      What a device answers is an instance of the class [Device], a function of
      the accesses before; theorems hold for every instance unless they say
      which behaviour of the device they need.  A line the code prints between its
      accesses is an event of the sequence too.
    - Timer (src/timer/mod.rs): PIT, HPET and the tick counters.
    - Apic (src/apic/mod.rs), Syscall (src/syscall.rs), Interrupts
      (src/interrupts.rs): the interrupt controllers, system calls, the keyboard
      and the handlers.
    - Switch (sched/context_switch.asm): the timer's interrupt from the registers of
      one task to those of the next, composed of Task, Scheduler and Interrupts.
    - Entry (boot/long_mode.asm, sched/context_switch.asm): the interrupt stubs
      around the handlers.
    - Drivers (drivers/keyboard.c, drivers/ahci.c): the drivers in C.
    - User (user/cpp_std.cpp, parts of user/init.cpp and user/shell.cpp) and UserShell
      (user/init.cpp, user/shell.cpp): the C++ runtime, and init and the shell of
      user mode with every command, over the kernel's system calls.
    - Shell, Threads (src/lib.rs): the commands, the number parsers and the line
      editor; the kernel's own tasks and the panic handler.
    - Boot (boot/boot.asm, src/lib.rs): the first page tables, the PIC, and
      [kernel_main], which composes the initialisation of all components.
    - Startup (boot/boot.asm, boot/long_mode.asm): the processor's control registers
      and segments, the 32-bit entry up to [kernel_main], and the multiboot headers.
    - Mbr (boot/mbr.asm, build_img.py): the boot sector, and the image it is in.
    - Segments (src/arch/gdt.rs, src/arch/idt.rs): both descriptor tables in memory,
      how the kernel loads them and how the processor uses them.
    - Live (src/lib.rs, src/interrupts.rs, src/sched): the kernel after the boot, as one
      step relation over the shell, the handlers, the switches and the tasks.
    - Typing (src/interrupts.rs, src/lib.rs): the keyboard, its interrupt and the line
      editor together, from the keys to the command.

    Operations keep the names of the source.  State is passed explicitly: each
    operation takes the records and the memory it changes and returns them.
    [outcome] is a call that may panic, [result] is [Result], [flow] a handler
    that may stop the processor.  Arithmetic on [usize] and [u64] wraps, written
    [(a + b)%usize], as in the release build; other widths use [wrap] and [swrap].

    ** What the theorems show

    Invariants over all executions, by induction on step relations: the page
    allocator never hands out a page twice and keeps its counter and bitmap exact;
    live heap blocks are disjoint and kept; a task is queued exactly when it is
    ready; module names are unique.  Exact effects of single operations on every
    branch: allocation is first fit and fails only when nothing fits; mapping and
    unmapping change exactly one translation; paths resolve at the longest mount
    point; interrupts are acknowledged exactly once; the shell runs exactly the
    line that was edited.  Round trips: register save and restore, in the timer
    handler and in the interrupt stubs; run lists; printed numbers.  Refinement: the
    keyboard's ring buffer implements a queue, the line editor an edited list, and
    [Typing.typed_line_executed] composes the two through the interrupts.
    Equivalence: [KeyboardC.keyboard_drivers_agree], for the two keyboard drivers.
    Types: [Acpi.acpi_info_typed], whatever the firmware's memory holds.
    Composition: [Switch.preempted_task_resumes] follows a task through the timer's
    interrupt, the scheduler and other tasks back to its own registers;
    [Locks.locked_operations_atomic] shows that the operations with their locks are
    the atomic ones; [Boot.boot_establishes] runs the whole of [kernel_main] and
    derives the invariants of the components from their own theorems;
    [LongMode.startup_reaches_shell] starts it at the 32-bit entry,
    [Mbr.mbr_loads_kernel] and [Image.image_boots_kernel] bring the kernel there from
    the disk image; [Segments.tables_dispatch] follows an interrupt through the
    descriptor tables in memory; [UserShell.init_prompts_forever] runs the programs of
    user mode on the system calls; [Live.kernel_keeps_running] takes the state the boot
    leaves through every sequence of interrupts, commands and switches: the invariants
    hold after each, and none of them panics.

    Theorems that show a defect state exactly what goes wrong: for example
    [Task.fresh_task_resumed_wrong], [Boot.first_tick_abandons_shell],
    [Locks.timer_spins_iff], [Segments.tables_dispatch] (vectors 33 to 47 and the
    stack of the task state segment), [Mbr.mbr_copy_faults],
    [Multiboot.multiboot_headers_unaligned], [UserShell.respawn_spins],
    [Interrupts.keyboard_irq_ticks_timer], [Mmio.lapic_init_faults],
    [Boot.first_page_in_task_stack], [Scheduler.preempt_revives_current],
    [Heap.slab_page_misaligned], [Vmm.map_page_overwrites_large_page],
    [Vfs.resolve_splits_component], [Ntfs.nonresident_reads_zeros] and
    [Live.job_control_refused].

    ** Bounds and fuel

    [for] loops run over their range by the binary representation of the number
    of rounds and need no fuel.  [Vmm.identity_map] takes a number of rounds and
    [identity_map_correct] says how many are enough.  [Ntfs] and [Acpi] recurse with
    fuel taken from the length of the input, of which every round consumes a byte
    at least.  Waits for a device take a number of polls and return whether the
    wait has ended; the 1000 polls of [wait_icr] are the source's own bound.  The
    radix conversion of a 64-bit number has fuel for 64 digits.  The string loops of
    [User] and [UserShell] take fuel that their theorems bound by the length of the
    string.  Endless loops - the shell of user mode, the kernel's tasks - take a
    number of turns, and their theorems hold for every number.  Hypotheses such as
    [n < 2 ^ 63] on the number of operations exclude the wrap-around of counters
    that no execution reaches.

    ** What is not modelled

    Interrupts that arrive while [kernel_main] or a command runs: in [Live] a round of
    the shell and a handler are each one step, and what an interrupt inside a command
    can do to the scheduler's locks is the subject of Locks; the BIOS and the
    disk behind it, a parameter of Mbr; the build and run scripts other than
    build_img.py; instructions without an effect on the modelled state ([invlpg],
    [hlt]); trait derivations; the formatting of a panic, which is core's.  The fields of
    the FADT are laid out and read by nothing.  The locks are modelled for the
    scheduler only, which is where the source has them; everywhere else an operation
    runs to its end before the next one starts.  A memory access of the kernel is to
    physical memory directly: the identity mapping this relies on is
    [PageTables.boot_tables], and what lies outside it is the subject of
    [Mmio.lapic_init_faults].  The system calls that switch tasks from user mode are
    not there: the kernel never enters user mode, and the programs of UserShell run
    as they would if it did. *)

From stdpp Require Import base numbers list gmap strings.
From Stdlib Require Import ZArith Lia.
Open Scope Z_scope.

(** ** Errors and outcomes *)

(** [KernelError] of lib.rs. *)
Inductive KernelError :=
  | OutOfMemory
  | InvalidAddress
  | PageNotMapped
  | PageAlreadyMapped
  | InvalidArgument
  | DeviceNotFound
  | FileSystemNotFound
  | FileNotFound
  | IoError
  | ModuleNotFound
  | AccessDenied
  | GeneralFault.

#[export] Instance KernelError_eq_dec : EqDecision KernelError.
Proof. solve_decision. Defined.

(** Rust's [Result<T, E>]. *)
Inductive result (E A : Type) :=
  | Ok (a : A)
  | Err (e : E).
Arguments Ok {E A} _.
Arguments Err {E A} _.

#[export] Instance result_eq_dec {E A} `{EqDecision E, EqDecision A} :
  EqDecision (result E A).
Proof. solve_decision. Defined.

(** [KernelResult<T>] of lib.rs. *)
Abbreviation KernelResult := (result KernelError).

(** [impl From<KernelError> for isize]. *)
Definition errno (e : KernelError) : Z :=
  match e with
  | OutOfMemory => -12
  | InvalidAddress => -14
  | PageNotMapped => -2
  | PageAlreadyMapped => -17
  | InvalidArgument => -22
  | DeviceNotFound => -19
  | FileSystemNotFound => -19
  | FileNotFound => -2
  | IoError => -5
  | ModuleNotFound => -2
  | AccessDenied => -13
  | GeneralFault => -1
  end.

(** A computation that returns, or panics (an index out of range, a division by
    zero, an [unwrap] of [None]). *)
Inductive outcome (A : Type) :=
  | Ret (a : A)
  | Panic.
Arguments Ret {A} _.
Arguments Panic {A}.

Definition obind {A B} (x : outcome A) (k : A → outcome B) : outcome B :=
  match x with
  | Ret a => k a
  | Panic => Panic
  end.

(** A handler that returns, stops the processor for good in a loop of [hlt], or
    panics. *)
Inductive flow (A : Type) :=
  | Returns (a : A)
  | Halts
  | Panics.
Arguments Returns {A} _.
Arguments Halts {A}.
Arguments Panics {A}.


(** The result of a stateful operation, evaluated on its own. *)
Lemma eta3 {A B C} (x : A * B * C) c : x.2 = c → x = (x.1.1, x.1.2, c).
Proof. by destruct x as [[]]; simpl; intros ->. Qed.

(** ** Constants of lib.rs *)

Definition PAGE_SIZE : Z := 4096.
Definition KERNEL_BASE : Z := 0x100000.
Definition HEAP_BASE : Z := 0x800000.
Definition HEAP_SIZE : Z := 0x200000.
Definition PMM_BITMAP_BASE : Z := 0x500000.
Definition PMM_BITMAP_SIZE : Z := 0x200000.
Definition VMM_PAGES_BASE : Z := 0x700000.
Definition VMM_PAGES_SIZE : Z := 0x100000.
Definition TASK_STACKS_BASE : Z := 0xA00000.
Definition PAGE_ENTRIES : Z := 512.

(** ** Machine integers

    The kernel is built with [--release]: arithmetic on a [w]-bit unsigned
    integer wraps modulo [2^w].  The notations of [usize_scope] wrap the value of
    the whole expression, which is that of wrapping after each [+], [-] and [*];
    a division, a shift or a comparison is written outside of it. *)

Definition wrap (w z : Z) : Z := z mod 2 ^ w.

Declare Scope usize_scope.
Delimit Scope usize_scope with usize.
Notation "a + b" := (wrap 64 (Z.add a b)) : usize_scope.
Notation "a - b" := (wrap 64 (Z.sub a b)) : usize_scope.
Notation "a * b" := (wrap 64 (Z.mul a b)) : usize_scope.

Definition saturating_sub (a b : Z) : Z := Z.max 0 (a - b).

(** A signed integer of width [w], in two's complement. *)
Definition swrap (w z : Z) : Z := if wrap w z <? 2 ^ (w - 1) then wrap w z else wrap w z - 2 ^ w.

Create HintDb delta.
Create Rewrite HintDb delta_arith.

(** Case analysis on the boolean comparisons and matches of an operation. *)
Ltac break_cmp :=
  repeat match goal with
  | H : (_ =? _) = true |- _ => apply Z.eqb_eq in H
  | H : (_ =? _) = false |- _ => apply Z.eqb_neq in H
  | H : (_ <? _) = true |- _ => apply Z.ltb_lt in H
  | H : (_ <? _) = false |- _ => apply Z.ltb_ge in H
  | H : (_ <=? _) = true |- _ => apply Z.leb_le in H
  | H : (_ <=? _) = false |- _ => apply Z.leb_gt in H
  | H : negb _ = true |- _ => apply negb_true_iff in H
  | H : negb _ = false |- _ => apply negb_false_iff in H
  | H : _ && _ = true |- _ => apply andb_true_iff in H; destruct H
  | H : _ || _ = false |- _ => apply orb_false_iff in H; destruct H
  end.

Ltac case_if :=
  match goal with
  | |- context [if ?b then _ else _] =>
      let E := fresh "E" in destruct b eqn:E; break_cmp
  | H : context [if ?b then _ else _] |- _ =>
      let E := fresh "E" in destruct b eqn:E; break_cmp
  end.

(** Linear arithmetic with division and modulo by constants. *)
Ltac dlia := Z.to_euclidean_division_equations; lia.

Lemma wrap_small w z : 0 ≤ z < 2 ^ w → wrap w z = z.
Proof. intros. by apply Z.mod_small. Qed.

Lemma wrap_bounds w z : 0 ≤ w → 0 ≤ wrap w z < 2 ^ w.
Proof. intros. apply Z.mod_pos_bound. lia. Qed.

Lemma usize_small z : 0 ≤ z < 18446744073709551616 → wrap 64 z = z.
Proof. intros. apply wrap_small. lia. Qed.

#[export] Hint Rewrite usize_small using lia : delta_arith.

Lemma swrap_small w z : 0 < w → - 2 ^ (w - 1) ≤ z < 2 ^ (w - 1) → swrap w z = z.
Proof.
  intros Hw Hz. unfold swrap, wrap.
  assert (Hp : 2 ^ w = 2 * 2 ^ (w - 1)) by (rewrite <- Z.pow_succ_r by lia; f_equal; lia).
  destruct (Z.le_gt_cases 0 z).
  - rewrite Z.mod_small by lia. case_if; lia.
  - rewrite <- (Z_mod_plus_full z 1), Z.mod_small by lia. case_if; lia.
Qed.

(** Removes the wrap-around of every operation that cannot overflow. *)
Ltac unwrap := repeat (rewrite usize_small by lia).

(** ** Loops

    [for i in lo..hi { body }] with an early [return]: the body maps the loop's
    state to a new state ([inl]) or to the function's result ([inr]).  The
    iteration is by the binary representation of the number of rounds, so that
    a loop over millions of pages evaluates as soon as it returns. *)

Section Loops.
Context {S R : Type}.
Implicit Types (f : S → S + R) (body : Z → S → S + R).

Definition sbind {T} (x : S + R) (k : S → T + R) : T + R :=
  match x with
  | inl s => k s
  | inr r => inr r
  end.

Fixpoint iter_until f (p : positive) (s : S) : S + R :=
  match p with
  | xH => f s
  | xO q => sbind (iter_until f q s) (iter_until f q)
  | xI q => sbind (f s) (λ s1, sbind (iter_until f q s1) (iter_until f q))
  end.

Lemma sbind_assoc {T} (x : S + R) (k : S → S + R) (h : S → T + R) :
  sbind (sbind x k) h = sbind x (λ s, sbind (k s) h).
Proof. by destruct x. Qed.

Lemma sbind_ext {T} (x : S + R) (k h : S → T + R) :
  (∀ s, k s = h s) → sbind x k = sbind x h.
Proof. intros E. destruct x; simpl; auto. Qed.

Lemma iter_until_comm f p s :
  sbind (f s) (iter_until f p) = sbind (iter_until f p s) f.
Proof.
  revert s. induction p as [q IH|q IH|]; intros s; simpl; [| |done].
  - destruct (f s) as [s1|]; simpl; [|done].
    rewrite sbind_assoc.
    rewrite (sbind_ext _ (λ s0, sbind (iter_until f q s0) f)
      (λ s0, sbind (f s0) (iter_until f q))) by (intros; by rewrite IH).
    rewrite <- !sbind_assoc, IH. by rewrite sbind_assoc.
  - rewrite sbind_assoc.
    rewrite (sbind_ext _ (λ s0, sbind (iter_until f q s0) f)
      (λ s0, sbind (f s0) (iter_until f q))) by (intros; by rewrite IH).
    rewrite <- !sbind_assoc, <- IH. by rewrite sbind_assoc.
Qed.

Lemma iter_until_succ f p s :
  iter_until f (Pos.succ p) s = sbind (f s) (iter_until f p).
Proof.
  revert s. induction p as [q IH|q IH|]; intros s; simpl; [|done|done].
  rewrite IH, sbind_assoc. apply sbind_ext. intros s1.
  rewrite (sbind_ext _ (iter_until f (Pos.succ q))
    (λ s0, sbind (f s0) (iter_until f q))) by (intros; apply IH).
  rewrite <- sbind_assoc, <- iter_until_comm. by rewrite sbind_assoc.
Qed.

Definition for_step body (x : Z * S) : (Z * S) + R :=
  match body x.1 x.2 with
  | inl s => inl (x.1 + 1, s)
  | inr r => inr r
  end.
End Loops.

Definition for_loop {S R} (lo hi : Z) (body : Z → S → S + R) (s : S) : S + R :=
  match hi - lo with
  | Zpos p => sbind (iter_until (for_step body) p (lo, s)) (λ x, inl x.2)
  | _ => inl s
  end.

Section Loop_lemmas.
Context {S R : Type}.
Implicit Types (body : Z → S → S + R).

Lemma for_loop_done lo hi body s : hi ≤ lo → for_loop lo hi body s = inl s.
Proof.
  intros. unfold for_loop. destruct (hi - lo) eqn:E; try done. lia.
Qed.

Lemma for_loop_step lo hi body s :
  lo < hi → for_loop lo hi body s = sbind (body lo s) (for_loop (lo + 1) hi body).
Proof.
  intros Hlt. unfold for_loop.
  destruct (hi - lo) as [|p|p] eqn:E; [lia| |lia].
  destruct (Pos.succ_pred_or p) as [->|Hp].
  - replace (hi - (lo + 1)) with 0 by lia. simpl. unfold for_step. simpl.
    by destruct (body lo s).
  - rewrite <- Hp in E |- *.
    replace (hi - (lo + 1)) with (Zpos (Pos.pred p)) by lia.
    rewrite iter_until_succ. unfold for_step at 1. simpl.
    by destruct (body lo s).
Qed.

(** The proof rule: an invariant [I] of the rounds, a postcondition [Q] of an
    early return. *)
Lemma for_loop_rule (I : Z → S → Prop) (Q : R → Prop) lo hi body s :
  lo ≤ hi →
  I lo s →
  (∀ i s', lo ≤ i < hi → I i s' →
     match body i s' with inl s'' => I (i + 1) s'' | inr r => Q r end) →
  match for_loop lo hi body s with inl s' => I hi s' | inr r => Q r end.
Proof.
  intros Hle Hs Hstep.
  remember (Z.to_nat (hi - lo)) as n eqn:Hn. revert lo s Hle Hs Hstep Hn.
  induction n as [|n IH]; intros lo s Hle Hs Hstep Hn.
  - rewrite for_loop_done by lia. by replace hi with lo by lia.
  - rewrite for_loop_step by lia.
    pose proof (Hstep lo s ltac:(lia) Hs) as H1.
    destruct (body lo s) as [s1|r]; simpl; [|done].
    apply IH; [lia|done| |lia]. intros i s' Hi. apply Hstep. lia.
Qed.

Lemma for_loop_ext lo hi body1 body2 s :
  (∀ i s', lo ≤ i < hi → body1 i s' = body2 i s') →
  for_loop lo hi body1 s = for_loop lo hi body2 s.
Proof.
  remember (Z.to_nat (hi - lo)) as n eqn:Hn. revert lo s Hn.
  induction n as [|n IH]; intros lo s Hn Hext.
  - rewrite !for_loop_done by lia. done.
  - rewrite !for_loop_step by lia. rewrite Hext by lia.
    destruct (body2 lo s); simpl; [|done].
    apply IH; [lia|]. intros. apply Hext. lia.
Qed.
End Loop_lemmas.

(** The rule, applied to the loop of the goal: the first subgoal uses what the
    loop establishes, the others are the premises of the rule. *)
Ltac loop_inv I Q :=
  match goal with
  | |- context [for_loop ?lo ?hi ?b ?s] =>
      cut (match for_loop lo hi b s with inl s' => I hi s' | inr r => Q r end);
      [|apply (for_loop_rule I Q)]
  end.

(** A loop that never returns early. *)
Definition for_each {S} (lo hi : Z) (body : Z → S → S) (s : S) : S :=
  match for_loop (R := Empty_set) lo hi (λ i s, inl (body i s)) s with
  | inl s' => s'
  | inr r => match r with end
  end.

Lemma for_each_done {S} lo hi (body : Z → S → S) s :
  hi ≤ lo → for_each lo hi body s = s.
Proof. intros. unfold for_each. by rewrite for_loop_done. Qed.

Lemma for_each_step {S} lo hi (body : Z → S → S) s :
  lo < hi → for_each lo hi body s = for_each (lo + 1) hi body (body lo s).
Proof. intros. unfold for_each. by rewrite for_loop_step. Qed.

Lemma for_each_rule {S} (I : Z → S → Prop) lo hi (body : Z → S → S) s :
  lo ≤ hi → I lo s →
  (∀ i s', lo ≤ i < hi → I i s' → I (i + 1) (body i s')) →
  I hi (for_each lo hi body s).
Proof.
  intros Hle Hs Hstep. unfold for_each.
  pose proof (for_loop_rule I (λ _ : Empty_set, True) lo hi
    (λ i s, inl (body i s)) s Hle Hs Hstep) as H.
  by destruct (for_loop _ _ _ _) as [|[]].
Qed.

(** ** Counting over a range of integers *)

(** How many [i] in [0..n) satisfy [P]. *)
Definition countZ (P : Z → bool) (n : Z) : Z :=
  Z.of_nat (length (filter (λ i, P i = true) (seqZ 0 n))).

Lemma seqZ_split i n :
  0 ≤ i < n → seqZ 0 n = seqZ 0 i ++ i :: seqZ (i + 1) (n - i - 1).
Proof.
  intros Hi. replace n with (i + (1 + (n - i - 1))) at 1 by lia.
  rewrite seqZ_app by lia. f_equal. rewrite seqZ_app by lia.
  rewrite seqZ_cons by lia. simpl.
  by replace (0 + i) with i by lia.
Qed.

Lemma filter_ext_range (P Q : Z → bool) lo n :
  (∀ i, lo ≤ i < lo + n → P i = Q i) →
  filter (λ i, P i = true) (seqZ lo n) = filter (λ i, Q i = true) (seqZ lo n).
Proof.
  intros HPQ. assert (Forall (λ i, P i = Q i) (seqZ lo n)) as HF.
  { apply Forall_forall. intros i Hi%elem_of_seqZ. by apply HPQ. }
  induction HF as [|i l Hi _ IH]; [done|].
  rewrite !filter_cons, Hi, IH. done.
Qed.

Lemma countZ_ext P Q n : (∀ i, 0 ≤ i < n → P i = Q i) → countZ P n = countZ Q n.
Proof.
  intros HPQ. unfold countZ. rewrite (filter_ext_range P Q 0 n); [done|].
  intros. apply HPQ. lia.
Qed.

(** Turning one element off lowers the count by one. *)
Lemma countZ_off P Q n i :
  0 ≤ i < n → P i = true → Q i = false →
  (∀ j, 0 ≤ j < n → j ≠ i → P j = Q j) →
  countZ Q n = countZ P n - 1.
Proof.
  intros Hi HP HQ Heq. unfold countZ. rewrite (seqZ_split i n) by done.
  rewrite !filter_app, !filter_cons, HP, HQ.
  rewrite (decide_True (P := true = true)), (decide_False (P := false = true)) by done.
  rewrite (filter_ext_range P Q 0 i), (filter_ext_range P Q (i + 1) (n - i - 1)).
  - rewrite !length_app. simpl. lia.
  - intros. apply Heq; lia.
  - intros. apply Heq; lia.
Qed.

Lemma countZ_nonneg P n : 0 ≤ countZ P n.
Proof. unfold countZ. lia. Qed.

Lemma countZ_le P n : 0 ≤ n → countZ P n ≤ n.
Proof.
  intros. unfold countZ. pose proof (length_filter (λ i, P i = true) (seqZ 0 n)) as H1.
  rewrite length_seqZ in H1. lia.
Qed.

Lemma countZ_pos P n : 0 < countZ P n ↔ ∃ i, 0 ≤ i < n ∧ P i = true.
Proof.
  unfold countZ. split.
  - intros Hlen. destruct (filter _ _) as [|i l] eqn:E; simpl in Hlen; [lia|].
    assert (i ∈ i :: l) as Hin by left. rewrite <- E in Hin.
    apply list_elem_of_filter in Hin as [HP Hin]. apply elem_of_seqZ in Hin.
    exists i. split; [lia|done].
  - intros (i & Hi & HP). rewrite (seqZ_split i n) by done.
    rewrite filter_app, filter_cons, decide_True by done.
    rewrite length_app. simpl. lia.
Qed.

Lemma countZ_all P n : 0 ≤ n → (∀ i, 0 ≤ i < n → P i = true) → countZ P n = n.
Proof.
  intros Hn HP. rewrite (countZ_ext P (λ _, true)) by done. unfold countZ.
  assert (∀ l : list Z, filter (λ _, true = true) l = l) as ->.
  { induction l as [|i l IH]; [done|]. rewrite filter_cons, IH. by rewrite decide_True. }
  rewrite length_seqZ. lia.
Qed.

(** [lo ≤ j < hi], as a boolean. *)
Definition inrange (lo hi j : Z) : bool := (lo <=? j) && (j <? hi).

Lemma inrange_true lo hi j : inrange lo hi j = true ↔ lo ≤ j < hi.
Proof. unfold inrange. rewrite andb_true_iff, Z.leb_le, Z.ltb_lt. done. Qed.

Lemma inrange_false lo hi j : inrange lo hi j = false ↔ ¬ lo ≤ j < hi.
Proof. rewrite <- inrange_true. by destruct (inrange lo hi j). Qed.

(** Turning off a run of elements lowers the count by its length. *)
Lemma countZ_run P Q n start count :
  0 ≤ start → 0 ≤ count → start + count ≤ n →
  (∀ i, start ≤ i < start + count → P i = true) →
  (∀ j, 0 ≤ j < n → Q j = negb (inrange start (start + count) j) && P j) →
  countZ Q n = countZ P n - count.
Proof.
  intros Hs Hc. rewrite <- (Z2Nat.id count) by done.
  generalize (Z.to_nat count) as k. clear Hc count. intros k. revert Q.
  induction k as [|k IH]; intros Q Hn HP HQ.
  - rewrite (countZ_ext Q P); [lia|]. intros j Hj. rewrite HQ by done.
    destruct (inrange _ _ j) eqn:E; [|done]. apply inrange_true in E. lia.
  - pose (Q' j := negb (inrange start (start + Z.of_nat k) j) && P j).
    rewrite (countZ_off Q' Q n (start + Z.of_nat k)), (IH Q'); try lia.
    + intros. apply HP. lia.
    + done.
    + unfold Q'. rewrite HP by lia. rewrite andb_true_r. apply negb_true_iff.
      apply inrange_false. lia.
    + rewrite HQ by lia. apply andb_false_iff. left. apply negb_false_iff.
      apply inrange_true. lia.
    + intros j Hj Hne. rewrite HQ by done. unfold Q'. f_equal. f_equal.
      apply eq_true_iff_eq. rewrite !inrange_true. lia.
Qed.

(** ** Bit operations *)

Lemma land_shiftr_1 b k : (Z.land (Z.shiftr b k) 1 =? 1) = Z.testbit b k.
Proof.
  rewrite Z.testbit_odd. change 1 with (Z.ones 1) at 1.
  rewrite Z.land_ones, Zmod_odd by lia. by destruct (Z.odd _).
Qed.

Lemma bits_above n a i : 0 ≤ a < 2 ^ n → n ≤ i → Z.testbit a i = false.
Proof.
  intros Ha Hi. destruct (decide (n < 0)) as [Hn|Hn].
  { rewrite Z.pow_neg_r in Ha; lia. }
  rewrite <- (Z.mod_small a (2 ^ n)) by done.
  by apply Z.mod_pow2_bits_high; lia.
Qed.

(** A nonnegative integer with no bit at or above [n] is below [2^n]. *)
Lemma below_pow2 n a :
  0 ≤ n → 0 ≤ a → (∀ i, n ≤ i → Z.testbit a i = false) → a < 2 ^ n.
Proof.
  intros Hn Ha Hbits. rewrite <- (Z.mod_small a (2 ^ Z.max n (a + 1))).
  2:{ split; [lia|]. apply Z.lt_le_trans with (2 ^ (a + 1)).
      - pose proof (Z.pow_gt_lin_r 2 (a + 1)). lia.
      - apply Z.pow_le_mono_r; lia. }
  replace (a mod 2 ^ Z.max n (a + 1)) with (a mod 2 ^ n).
  { apply Z.mod_pos_bound. lia. }
  apply Z.bits_inj'. intros i Hi.
  destruct (decide (i < n)).
  - rewrite !Z.mod_pow2_bits_low by lia. done.
  - rewrite (Z.mod_pow2_bits_high a n) by lia.
    destruct (decide (i < Z.max n (a + 1))).
    + rewrite Z.mod_pow2_bits_low by lia. symmetry. apply Hbits. lia.
    + rewrite Z.mod_pow2_bits_high by lia. done.
Qed.

Lemma lor_bounds n a b :
  0 ≤ n → 0 ≤ a < 2 ^ n → 0 ≤ b < 2 ^ n → 0 ≤ Z.lor a b < 2 ^ n.
Proof.
  intros Hn Ha Hb. assert (0 ≤ Z.lor a b) by (apply Z.lor_nonneg; lia).
  split; [done|]. apply below_pow2; [done|done|]. intros i Hi.
  rewrite Z.lor_spec, (bits_above n a), (bits_above n b) by done. done.
Qed.

Lemma land_bounds n a b : 0 ≤ n → 0 ≤ a < 2 ^ n → 0 ≤ Z.land a b < 2 ^ n.
Proof.
  intros Hn Ha. assert (0 ≤ Z.land a b) by (apply Z.land_nonneg; lia).
  split; [done|]. apply below_pow2; [done|done|]. intros i Hi.
  by rewrite Z.land_spec, (bits_above n a).
Qed.

(** [!x] on a [usize]. *)
(** A fact about bytes, by evaluation of all of them. *)
Lemma byte_cases (P : Z → bool) :
  forallb P (seqZ 0 256) = true → ∀ b, 0 ≤ b < 256 → P b = true.
Proof.
  intros Hall b Hb. rewrite forallb_forall in Hall.
  apply Hall, list_elem_of_In, elem_of_seqZ. lia.
Qed.

(** A number below [2 ^ k] and a multiple of it share no bits. *)
Lemma lor_shiftl_add a b k : 0 ≤ k → 0 ≤ a < 2 ^ k → Z.lor a (Z.shiftl b k) = a + b * 2 ^ k.
Proof.
  intros Hk Ha.
  assert (Hl : Z.land a (Z.shiftl b k) = 0).
  { apply Z.bits_inj_iff'. intros n Hn. rewrite Z.land_spec, Z.bits_0.
    destruct (Z.lt_ge_cases n k).
    - by rewrite Z.shiftl_spec_low, andb_false_r by lia.
    - by rewrite (bits_above k) by lia. }
  rewrite <- Z.lxor_lor, <- Z.add_nocarry_lxor by done. by rewrite Z.shiftl_mul_pow2.
Qed.

Definition usize_not (x : Z) : Z := Z.lxor (Z.ones 64) x.

(** Masking with [!(2^k - 1)] rounds down to a multiple of [2^k]. *)
Lemma mask_round x k :
  0 ≤ x < 2 ^ 64 → 0 ≤ k ≤ 63 →
  Z.land x (usize_not (2 ^ k - 1)) = x / 2 ^ k * 2 ^ k.
Proof.
  intros Hx Hk. rewrite <- Z.shiftr_div_pow2, <- Z.shiftl_mul_pow2 by lia.
  rewrite <- Z.ldiff_ones_r by lia. unfold usize_not.
  replace (2 ^ k - 1) with (Z.ones k) by (rewrite Z.ones_equiv; lia).
  apply Z.bits_inj'. intros i Hi. rewrite Z.land_spec, Z.lxor_spec, Z.ldiff_spec.
  destruct (decide (i < 64)).
  - by rewrite (Z.ones_spec_low 64) by lia.
  - by rewrite (bits_above 64 x) by lia.
Qed.

(** ** Disjoint byte ranges

    A range is its first address and its length. *)

Definition disj (x y : Z * Z) : Prop := x.1 + x.2 ≤ y.1 ∨ y.1 + y.2 ≤ x.1.

Fixpoint disjoint_list (l : list (Z * Z)) : Prop :=
  match l with
  | [] => True
  | x :: l' => Forall (disj x) l' ∧ disjoint_list l'
  end.

#[export] Instance disj_sym : Symmetric disj.
Proof. intros x y. unfold disj. tauto. Qed.

Lemma disjoint_list_perm l1 l2 : l1 ≡ₚ l2 → disjoint_list l1 → disjoint_list l2.
Proof.
  induction 1 as [|x l1 l2 HP IH|x y l|l1 l2 l3 _ IH1 _ IH2]; simpl.
  - done.
  - intros [HF HD]. split; [by rewrite <- HP|by apply IH].
  - intros [Hy [Hx HD]]. inversion Hy as [|? ? Hyx Hyl]; subst.
    split_and!; [constructor; [by symmetry|done]|done|done].
  - tauto.
Qed.

#[export] Instance disjoint_list_proper : Proper ((≡ₚ) ==> iff) disjoint_list.
Proof. intros l1 l2 HP. split; by apply disjoint_list_perm. Qed.

Lemma disjoint_list_app l1 l2 :
  disjoint_list (l1 ++ l2) ↔
  disjoint_list l1 ∧ disjoint_list l2 ∧ (∀ x y, x ∈ l1 → y ∈ l2 → disj x y).
Proof.
  induction l1 as [|x l1 IH]; simpl.
  - split; [|tauto]. intros H. split_and!; [done|done|].
    intros x y Hx. by apply elem_of_nil in Hx.
  - rewrite IH, Forall_app, !Forall_forall. split.
    + intros ((Hx1 & Hx2) & H1 & H2 & H12). split_and!; [done|done|done|].
      intros a b [->|Ha]%elem_of_cons Hb; [by apply Hx2|by apply H12].
    + intros ((Hx & H1) & H2 & H12). split_and!; [done| |done|done|].
      * intros b Hb. apply H12; [by left|done].
      * intros a b Ha Hb. apply H12; [by right|done].
Qed.

(** The ranges of a list all end at or before [b], the new ones start there. *)
Lemma disjoint_list_above l1 l2 b :
  Forall (λ e, e.1 + e.2 ≤ b) l1 → Forall (λ e, b ≤ e.1) l2 →
  disjoint_list l1 → disjoint_list l2 → disjoint_list (l1 ++ l2).
Proof.
  rewrite !Forall_forall. intros H1 H2 D1 D2. apply disjoint_list_app.
  split_and!; [done|done|]. intros x y Hx Hy. left.
  specialize (H1 x Hx). specialize (H2 y Hy). simpl in *. lia.
Qed.

(** Consecutive blocks of one size. *)
Definition blocks (page size n : Z) : list (Z * Z) :=
  (λ j, (page + j * size, size)) <$> seqZ 0 n.

Lemma blocks_snoc page size n :
  0 ≤ n → blocks page size (n + 1) = blocks page size n ++ [(page + n * size, size)].
Proof.
  intros Hn. unfold blocks. rewrite seqZ_app by lia. rewrite fmap_app. f_equal.
Qed.

Lemma blocks_bound page size n :
  0 ≤ size → Forall (λ e, page ≤ e.1 ∧ e.2 = size ∧ e.1 + e.2 ≤ page + n * size) (blocks page size n).
Proof.
  intros Hs. unfold blocks. apply Forall_fmap, Forall_forall. intros j Hj%elem_of_seqZ.
  simpl. split_and!; [nia|done|nia].
Qed.

Lemma blocks_disjoint page size n : 0 ≤ size → disjoint_list (blocks page size n).
Proof.
  intros Hs. destruct (decide (0 ≤ n)) as [Hn|Hn].
  - pattern n. apply natlike_ind; [done| |done]. clear n Hn. intros n Hn IH.
    unfold Z.succ. rewrite blocks_snoc by done.
    apply (disjoint_list_above _ _ (page + n * size)); [|by repeat constructor|done|done].
    eapply Forall_impl; [by apply blocks_bound|]. simpl. tauto.
  - unfold blocks. by rewrite seqZ_nil by lia.
Qed.

(** ** Queues as lists *)

Section Queues.
Context {A : Type}.
Implicit Types (q : list A) (x y : A).

Lemma NoDup_snoc q x : NoDup q → x ∉ q → NoDup (q ++ [x]).
Proof.
  intros Hq Hx. apply NoDup_app. split; [done|]. split; [|apply NoDup_singleton].
  intros y Hy ->%list_elem_of_singleton. done.
Qed.

Lemma elem_of_snoc q x : x ∈ q ++ [x].
Proof. apply elem_of_app. right. by left. Qed.

Lemma elem_of_snoc_ne q x y : y ≠ x → y ∈ q ++ [x] ↔ y ∈ q.
Proof. intros Hne. rewrite elem_of_app, list_elem_of_singleton. tauto. Qed.

Lemma elem_of_middle_ne q1 q2 x y : y ≠ x → y ∈ q1 ++ q2 ↔ y ∈ q1 ++ x :: q2.
Proof. intros Hne. rewrite !elem_of_app, elem_of_cons. tauto. Qed.
End Queues.

#[export] Hint Resolve NoDup_snoc elem_of_snoc : delta.
