(* ===== verification/Memory.v ===== *)
(** * Physical memory

    The byte-addressed store the kernel reads and writes through raw pointers
    ([ptr::read_volatile], [ptr::write_volatile], [ptr::write_bytes]): the frame
    bitmap of the physical memory manager, the page tables, the kernel heap and
    the task stacks all live in it.  A byte that was never written reads as 0;
    the initial contents of a store are arbitrary.  Multi-byte accesses are
    little endian, as on x86_64. *)

From stdpp Require Import base numbers list gmap.
From S2P Require Import Prelude.
Open Scope Z_scope.

Abbreviation mem := (gmap Z Z).

(** One byte. *)
Definition rd (m : mem) (a : Z) : Z := default 0 (m !! a).
Definition wr (m : mem) (a v : Z) : mem := <[a := v]> m.

(** [core::ptr::write_bytes(a as *mut u8, 0, n)]. *)
Definition write_zeros (m : mem) (a n : Z) : mem :=
  filter (λ kv, ¬ (a ≤ kv.1 < a + n)) m.

(** An [n]-byte little-endian access. *)
Fixpoint load (m : mem) (a : Z) (n : nat) : Z :=
  match n with
  | O => 0
  | S n' => rd m a + 256 * load m (a + 1) n'
  end.

Fixpoint store (m : mem) (a : Z) (n : nat) (v : Z) : mem :=
  match n with
  | O => m
  | S n' => store (wr m a (v mod 256)) (a + 1) n' (v / 256)
  end.

Definition load64 (m : mem) (a : Z) : Z := load m a 8.
Definition store64 (m : mem) (a v : Z) : mem := store m a 8 v.

(** Every cell holds a byte. *)
Definition bytes (m : mem) : Prop := ∀ a, 0 ≤ rd m a < 256.

(** ** Lemmas *)

Lemma rd_wr m a v b : rd (wr m a v) b = if decide (a = b) then v else rd m b.
Proof.
  unfold rd, wr. rewrite lookup_insert. by case_decide.
Qed.

Lemma rd_wr_eq m a v : rd (wr m a v) a = v.
Proof. rewrite rd_wr. by rewrite decide_True. Qed.

Lemma rd_wr_ne m a v b : a ≠ b → rd (wr m a v) b = rd m b.
Proof. intros. rewrite rd_wr. by rewrite decide_False. Qed.

Lemma rd_write_zeros m a n b :
  rd (write_zeros m a n) b = if decide (a ≤ b < a + n) then 0 else rd m b.
Proof.
  unfold rd, write_zeros. rewrite map_lookup_filter.
  destruct (m !! b) as [x|]; simpl; [|by case_decide].
  case_guard as Hg; case_decide as Hd; simpl in *; tauto.
Qed.

Lemma rd_write_zeros_out m a n b :
  ¬ (a ≤ b < a + n) → rd (write_zeros m a n) b = rd m b.
Proof. intros. rewrite rd_write_zeros. by rewrite decide_False. Qed.

Lemma rd_write_zeros_in m a n b :
  a ≤ b < a + n → rd (write_zeros m a n) b = 0.
Proof. intros. rewrite rd_write_zeros. by rewrite decide_True. Qed.

Lemma bytes_wr m a v : bytes m → 0 ≤ v < 256 → bytes (wr m a v).
Proof. intros Hm Hv b. rewrite rd_wr. by case_decide. Qed.

Lemma bytes_write_zeros m a n : bytes m → bytes (write_zeros m a n).
Proof. intros Hm b. rewrite rd_write_zeros. case_decide; [lia|apply Hm]. Qed.

Lemma bytes_store m a n v : bytes m → bytes (store m a n v).
Proof.
  revert m a v. induction n as [|n IH]; intros m a v Hm; simpl; [done|].
  apply IH, bytes_wr; [done|]. apply Z.mod_pos_bound. lia.
Qed.

Lemma bytes_empty : bytes ∅.
Proof. intros a. unfold rd. rewrite lookup_empty. simpl. lia. Qed.

#[export] Hint Resolve bytes_wr bytes_write_zeros bytes_store bytes_empty : delta.

Lemma rd_store_out m a n v b :
  ¬ (a ≤ b < a + Z.of_nat n) → rd (store m a n v) b = rd m b.
Proof.
  revert m a v. induction n as [|n IH]; intros m a v Hb; simpl; [done|].
  rewrite IH by lia. apply rd_wr_ne. lia.
Qed.

Lemma load_ext m1 m2 a n :
  (∀ b, a ≤ b < a + Z.of_nat n → rd m1 b = rd m2 b) → load m1 a n = load m2 a n.
Proof.
  revert a. induction n as [|n IH]; intros a Hb; simpl; [done|].
  rewrite (Hb a) by lia. rewrite IH; [done|]. intros. apply Hb. lia.
Qed.

Lemma load_store_eq m a n v :
  0 ≤ v < 256 ^ Z.of_nat n → load (store m a n v) a n = v.
Proof.
  revert m a v. induction n as [|n IH]; intros m a v Hv; simpl.
  - change (256 ^ Z.of_nat 0) with 1 in Hv. lia.
  - rewrite Nat2Z.inj_succ, Z.pow_succ_r in Hv by lia.
    rewrite rd_store_out, rd_wr_eq, IH by (dlia || (split; dlia)). dlia.
Qed.

(** Storing what was loaded copies the bytes. *)
Lemma rd_store_load m' m a b n x :
  (∀ i, b ≤ i < b + Z.of_nat n → 0 ≤ rd m i < 256) → a ≤ x < a + Z.of_nat n →
  rd (store m' a n (load m b n)) x = rd m (b + (x - a)).
Proof.
  revert m' a b. induction n as [|n IH]; intros m' a b Hb Hx; [lia|]. cbn [store load].
  pose proof (Hb b ltac:(lia)) as H0.
  replace ((rd m b + 256 * load m (b + 1) n) mod 256) with (rd m b) by dlia.
  replace ((rd m b + 256 * load m (b + 1) n) / 256) with (load m (b + 1) n) by dlia.
  destruct (decide (x = a)) as [->|].
  - rewrite rd_store_out, rd_wr_eq by lia. f_equal. lia.
  - rewrite IH by (intros; apply Hb || lia; lia). f_equal. lia.
Qed.

Lemma load_bounds m a n : bytes m → 0 ≤ load m a n < 256 ^ Z.of_nat n.
Proof.
  intros Hm. revert a. induction n as [|n IH]; intros a; simpl; [lia|].
  rewrite Nat2Z.inj_succ, Z.pow_succ_r by lia.
  specialize (IH (a + 1)). specialize (Hm a). lia.
Qed.

(** The 64-bit accesses. *)
Lemma load64_store64_eq m a v :
  0 ≤ v < 2 ^ 64 → load64 (store64 m a v) a = v.
Proof. intros. apply load_store_eq. lia. Qed.

Lemma load64_store64_ne m a v b :
  a + 8 ≤ b ∨ b + 8 ≤ a → load64 (store64 m a v) b = load64 m b.
Proof. intros. apply load_ext. intros. apply rd_store_out. lia. Qed.

Lemma load64_zeros_in m a n b :
  a ≤ b → b + 8 ≤ a + n → load64 (write_zeros m a n) b = 0.
Proof.
  intros. unfold load64, load. rewrite !rd_write_zeros_in by lia. done.
Qed.

Lemma load64_zeros_out m a n b :
  b + 8 ≤ a ∨ a + n ≤ b → load64 (write_zeros m a n) b = load64 m b.
Proof. intros. apply load_ext. intros. apply rd_write_zeros_out. lia. Qed.

Lemma load64_bounds m a : bytes m → 0 ≤ load64 m a < 2 ^ 64.
Proof. intros Hm. pose proof (load_bounds m a 8 Hm). unfold load64. lia. Qed.

#[export] Hint Resolve load64_bounds : delta.

(** ** Numbers as lists of bytes *)

(** The [n] low bytes of [v], the lowest first. *)
Fixpoint le_bytes (n : nat) (v : Z) : list Z :=
  match n with
  | O => []
  | S n => v mod 256 :: le_bytes n (v / 256)
  end.

Lemma le_bytes_length n v : length (le_bytes n v) = n.
Proof. revert v. induction n as [|n IH]; intros v; simpl; [done|]. by rewrite IH. Qed.

Lemma le_bytes_range n v : Forall (λ b, 0 ≤ b < 256) (le_bytes n v).
Proof.
  revert v. induction n as [|n IH]; intros v; simpl; constructor; [|apply IH].
  apply Z.mod_pos_bound. lia.
Qed.

(** The bytes [l] lie at [a]. *)
Fixpoint bytes_at (m : mem) (a : Z) (l : list Z) : Prop :=
  match l with
  | [] => True
  | b :: l => rd m a = b ∧ bytes_at m (a + 1) l
  end.

Lemma bytes_at_app m a l1 l2 :
  bytes_at m a (l1 ++ l2) ↔ bytes_at m a l1 ∧ bytes_at m (a + Z.of_nat (length l1)) l2.
Proof.
  revert a. induction l1 as [|b l1 IH]; intros a; simpl.
  { rewrite Z.add_0_r. tauto. }
  rewrite IH. replace (a + 1 + Z.of_nat (length l1)) with (a + Z.pos (Pos.of_succ_nat (length l1)))
    by lia. tauto.
Qed.

Lemma bytes_at_load m a n v : bytes_at m a (le_bytes n v) → load m a n = v mod 256 ^ Z.of_nat n.
Proof.
  revert a v. induction n as [|n IH]; intros a v; simpl; [by rewrite Z.mod_1_r|].
  intros [-> H]. rewrite (IH (a + 1) (v / 256)) by done.
  change (Z.pos (Pos.of_succ_nat n)) with (Z.of_nat (S n)).
  rewrite Nat2Z.inj_succ, Z.pow_succ_r by lia. by rewrite Z.rem_mul_r by lia.
Qed.
