(* ===== verification/Text.v ===== *)
(** * Text

    Rust's [str] and [String] as lists of bytes, with the parts of [core::fmt]
    and of the string methods the kernel uses: decimal and hexadecimal numbers,
    padding, prefixes, trimming and splitting.  All text of the kernel is ASCII,
    so that a character is a byte. *)

From stdpp Require Import base numbers list gmap strings.
From Stdlib Require Import Ascii.
From S2P Require Import Prelude.
Open Scope Z_scope.

Module Text.

Abbreviation text := (list Z).

(** A literal. *)
Fixpoint str (s : string) : text :=
  match s with
  | EmptyString => []
  | String a s => Z.of_N (N_of_ascii a) :: str s
  end.

(** ** Numbers *)

Fixpoint radix_digits (fuel : nat) (base n : Z) : list Z :=
  match fuel with
  | O => []
  | S fuel => if n <? base then [n] else radix_digits fuel base (n / base) ++ [n mod base]
  end.

Definition digit_char (d : Z) : Z := if d <? 10 then 48 + d else 55 + d.

(** A [u64] has at most 64 digits in any base. *)
Definition fmt_radix (base n : Z) : text := digit_char <$> radix_digits 64 base n.

(** [{}] of an unsigned integer, and [{:#X}]. *)
Definition fmt_dec (n : Z) : text := fmt_radix 10 n.
Definition fmt_hex (n : Z) : text := str "0x" ++ fmt_radix 16 n.

(** [{}] of a signed integer. *)
Definition fmt_int (n : Z) : text := if n <? 0 then str "-" ++ fmt_dec (- n) else fmt_dec n.

Definition fmt_bool (b : bool) : text := if b then str "true" else str "false".

(** [{:>w}] with the fill character [c], and [{:<w}]. *)
Definition pad_left (w : nat) (c : Z) (s : text) : text := replicate (w - length s) c ++ s.
Definition pad_right (w : nat) (s : text) : text := s ++ replicate (w - length s) 32.

(** [{:?}] of a [KernelError]. *)
Definition fmt_error (e : KernelError) : text :=
  str match e with
  | OutOfMemory => "OutOfMemory"
  | InvalidAddress => "InvalidAddress"
  | PageNotMapped => "PageNotMapped"
  | PageAlreadyMapped => "PageAlreadyMapped"
  | InvalidArgument => "InvalidArgument"
  | DeviceNotFound => "DeviceNotFound"
  | FileSystemNotFound => "FileSystemNotFound"
  | FileNotFound => "FileNotFound"
  | IoError => "IoError"
  | ModuleNotFound => "ModuleNotFound"
  | AccessDenied => "AccessDenied"
  | GeneralFault => "GeneralFault"
  end.

(** The value of a list of digits. *)
Definition digits_value (base : Z) (ds : list Z) : Z := foldl (λ a d, a * base + d) 0 ds.

Lemma digits_value_snoc base ds d :
  digits_value base (ds ++ [d]) = digits_value base ds * base + d.
Proof. unfold digits_value. by rewrite foldl_app. Qed.

Lemma radix_digits_value fuel base n :
  2 ≤ base → 0 ≤ n < base ^ Z.of_nat fuel → digits_value base (radix_digits fuel base n) = n.
Proof.
  intros Hb. revert n. induction fuel as [|fuel IH]; intros n Hn.
  { unfold digits_value. simpl in *. lia. }
  simpl. case_if; [unfold digits_value; simpl; lia|].
  rewrite digits_value_snoc, IH.
  - pose proof (Z.div_mod n base). lia.
  - rewrite Nat2Z.inj_succ, Z.pow_succ_r in Hn by lia.
    split; [apply Z.div_pos; lia|]. apply Z.div_lt_upper_bound; lia.
Qed.

Lemma radix_digits_range fuel base n :
  2 ≤ base → 0 ≤ n → Forall (λ d, 0 ≤ d < base) (radix_digits fuel base n).
Proof.
  intros Hb. revert n. induction fuel as [|fuel IH]; intros n Hn; simpl; [constructor|].
  case_if; [repeat constructor; lia|].
  apply Forall_app_2; [apply IH; apply Z.div_pos; lia|].
  repeat constructor; apply Z.mod_pos_bound; lia.
Qed.

(** A number does not print as a sequence that starts with the digit zero, but
    for zero itself. *)
Lemma radix_digits_head fuel base n :
  2 ≤ base → 0 ≤ n < base ^ Z.of_nat fuel →
  (n = 0 ∧ radix_digits fuel base n = [] ∧ fuel = O) ∨
  (n = 0 ∧ radix_digits fuel base n = [0]) ∨
  ∃ d ds, radix_digits fuel base n = d :: ds ∧ 0 < d < base.
Proof.
  intros Hb. revert n. induction fuel as [|fuel IH]; intros n Hn.
  { left. simpl in *. split_and!; [lia|done|done]. }
  right. simpl. case_if.
  { destruct (decide (n = 0)) as [->|]; [by left|]. right. exists n, []. split; [done|lia]. }
  rewrite Nat2Z.inj_succ, Z.pow_succ_r in Hn by lia.
  assert (Hq : 0 < n / base) by (apply Z.div_str_pos; lia).
  destruct (IH (n / base)) as [(? & _)|[(? & _)|(d & ds & -> & Hd)]].
  - split; [lia|]. apply Z.div_lt_upper_bound; lia.
  - lia.
  - lia.
  - right. by exists d, (ds ++ [n mod base]).
Qed.

(** ** String methods *)

Fixpoint starts_with (s prefix : text) {struct prefix} : bool :=
  match prefix, s with
  | [], _ => true
  | p :: prefix, c :: s => (p =? c) && starts_with s prefix
  | _ :: _, [] => false
  end.

Definition strip_prefix (s prefix : text) : option text :=
  if starts_with s prefix then Some (drop (length prefix) s) else None.

Definition is_whitespace (c : Z) : bool := (c =? 32) || ((9 <=? c) && (c <=? 13)).

Fixpoint trim_start (s : text) : text :=
  match s with
  | c :: s' => if is_whitespace c then trim_start s' else s
  | [] => []
  end.

Definition trim (s : text) : text := reverse (trim_start (reverse (trim_start s))).

(** [s.split(c)]: the pieces between the occurrences of [c], at least one. *)
Fixpoint split_at (c : Z) (s : text) : list text :=
  match s with
  | [] => [[]]
  | x :: s =>
      if x =? c then [] :: split_at c s
      else match split_at c s with
           | piece :: rest => (x :: piece) :: rest
           | [] => [[x]]
           end
  end.

(** [s.split(c).filter(|s| !s.is_empty())]. *)
Definition split_nonempty (c : Z) (s : text) : list text :=
  filter (λ p, p ≠ []) (split_at c s).

Lemma starts_with_spec s prefix :
  starts_with s prefix = true ↔ ∃ rest, s = prefix ++ rest.
Proof.
  revert s. induction prefix as [|p prefix IH]; intros s; simpl.
  { split; [intros _; by exists s|done]. }
  destruct s as [|c s].
  { split; [intros ?; discriminate|]. intros [? ?]; discriminate. }
  rewrite andb_true_iff, Z.eqb_eq, IH. split.
  - intros [-> [rest ->]]. by exists rest.
  - intros [rest [= -> ->]]. split; [done|by exists rest].
Qed.

Lemma starts_with_app prefix rest : starts_with (prefix ++ rest) prefix = true.
Proof. apply starts_with_spec. by exists rest. Qed.

(** The pieces contain no separator, and joined by it they give the text. *)
Fixpoint join (c : Z) (l : list text) : text :=
  match l with
  | [] => []
  | [p] => p
  | p :: rest => p ++ c :: join c rest
  end.

Lemma split_at_ne c s : split_at c s ≠ [].
Proof. destruct s as [|x s]; simpl; [done|]. case_if; [done|]. by destruct (split_at c s). Qed.

Lemma split_at_join c s : join c (split_at c s) = s.
Proof.
  induction s as [|x s IH]; simpl; [done|]. pose proof (split_at_ne c s) as Hne.
  case_if.
  - subst x. simpl. destruct (split_at c s) as [|p rest] eqn:E; [done|]. by rewrite IH.
  - destruct (split_at c s) as [|p rest] eqn:E2; [done|].
    rewrite <- IH. by destruct rest.
Qed.

Lemma split_at_pieces c s : Forall (λ p, c ∉ p) (split_at c s).
Proof.
  induction s as [|x s IH]; simpl; [repeat constructor; apply not_elem_of_nil|].
  case_if.
  - constructor; [apply not_elem_of_nil|done].
  - destruct (split_at c s) as [|p rest]; inversion IH as [|? ? Hp Hr]; subst.
    + repeat constructor. rewrite list_elem_of_singleton. congruence.
    + constructor; [|done]. rewrite elem_of_cons. intros [?|?]; congruence.
Qed.

(** Words put together with single separators split into the same words. *)
Lemma split_at_word c w : c ∉ w → split_at c w = [w].
Proof.
  induction w as [|x w IH]; intros Hw; simpl; [done|].
  apply not_elem_of_cons in Hw as [Hx Hw]. rewrite (proj2 (Z.eqb_neq x c)) by congruence.
  by rewrite IH.
Qed.

Lemma split_at_cons c w s : c ∉ w → split_at c (w ++ c :: s) = w :: split_at c s.
Proof.
  induction w as [|x w IH]; intros Hw; simpl; [by rewrite Z.eqb_refl|].
  apply not_elem_of_cons in Hw as [Hx Hw]. rewrite (proj2 (Z.eqb_neq x c)) by congruence.
  by rewrite IH.
Qed.

Lemma split_nonempty_join c ws :
  ws ≠ [] → Forall (λ w, w ≠ [] ∧ c ∉ w) ws → split_nonempty c (join c ws) = ws.
Proof.
  unfold split_nonempty. induction ws as [|w ws IH]; intros Hne Hws; [done|].
  apply Forall_cons in Hws as [[Hw Hc] Hws]. destruct ws as [|w2 ws].
  - simpl. rewrite split_at_word by done. by rewrite filter_cons_True.
  - change (join c (w :: w2 :: ws)) with (w ++ c :: join c (w2 :: ws)).
    rewrite split_at_cons, filter_cons_True by done. f_equal. by apply IH.
Qed.

Lemma trim_start_id c s : is_whitespace c = false → trim_start (c :: s) = c :: s.
Proof. simpl. by intros ->. Qed.

Lemma trim_id s a b l r :
  s = a :: l → s = r ++ [b] → is_whitespace a = false → is_whitespace b = false → trim s = s.
Proof.
  intros E1 E2 Ha Hb. unfold trim. rewrite E1, trim_start_id, <- E1, E2 by done.
  rewrite reverse_snoc, trim_start_id by done. by rewrite reverse_cons, reverse_involutive.
Qed.

(** The characters of a number. *)
Lemma fmt_radix_chars base n c :
  2 ≤ base ≤ 16 → 0 ≤ n → c ∈ fmt_radix base n → 48 ≤ c ≤ 57 ∨ 65 ≤ c ≤ 70.
Proof.
  intros Hb Hn. unfold fmt_radix. intros (d & -> & Hd)%list_elem_of_fmap.
  pose proof (radix_digits_range 64 base n ltac:(lia) Hn) as H.
  rewrite Forall_forall in H. specialize (H d Hd). unfold digit_char. case_if; lia.
Qed.

Lemma radix_digits_ne fuel base n : radix_digits (S fuel) base n ≠ [].
Proof. cbn [radix_digits]. case_if; [done|]. by intros [_ ?]%app_eq_nil. Qed.

Lemma fmt_radix_ne base n : fmt_radix base n ≠ [].
Proof. unfold fmt_radix. intros E%fmap_nil_inv. by apply (radix_digits_ne 63) in E. Qed.

Lemma fmt_dec_chars n c : 0 ≤ n → c ∈ fmt_dec n → 48 ≤ c ≤ 57.
Proof.
  intros Hn. unfold fmt_dec, fmt_radix. intros (d & -> & Hd)%list_elem_of_fmap.
  pose proof (radix_digits_range 64 10 n ltac:(lia) Hn) as H.
  rewrite Forall_forall in H. specialize (H d Hd). unfold digit_char. case_if; lia.
Qed.

End Text.
