(* ===== verification/BTree.v ===== *)
(** * Ordered maps

    Rust's [BTreeMap], which the file system layer and the module manager use:
    a list of entries in the order of their keys, with insertion, lookup,
    removal and iteration.  The order of the keys is a class, with the integers
    and the byte strings as instances. *)

From stdpp Require Import base numbers list gmap sorting.
From S2P Require Import Prelude.
Open Scope Z_scope.

Module BTree.

(** [Ord] of the keys. *)
Class Ordered (K : Type) := {
  cmp : K → K → comparison;
  cmp_eq a b : cmp a b = Eq ↔ a = b;
  cmp_flip a b : cmp b a = CompOpp (cmp a b);
  cmp_trans a b c : cmp a b = Lt → cmp b c = Lt → cmp a c = Lt
}.

#[export] Instance Z_ordered : Ordered Z.
Proof.
  refine {| cmp := Z.compare |}.
  - apply Z.compare_eq_iff.
  - apply Z.compare_antisym.
  - intros a b c. rewrite !Z.compare_lt_iff. lia.
Defined.

(** Byte strings compare lexicographically. *)
Fixpoint text_cmp (a b : list Z) : comparison :=
  match a, b with
  | [], [] => Eq
  | [], _ => Lt
  | _, [] => Gt
  | x :: a, y :: b => match x ?= y with Eq => text_cmp a b | c => c end
  end.

Lemma text_cmp_eq a b : text_cmp a b = Eq ↔ a = b.
Proof.
  revert b. induction a as [|x a IH]; intros [|y b]; simpl; try done.
  destruct (Z.compare_spec x y) as [->|Hl|Hl].
  - rewrite IH. split; congruence.
  - split; [done|]. intros [= -> _]. lia.
  - split; [done|]. intros [= -> _]. lia.
Qed.

Lemma text_cmp_flip a b : text_cmp b a = CompOpp (text_cmp a b).
Proof.
  revert b. induction a as [|x a IH]; intros [|y b]; simpl; try done.
  rewrite (Z.compare_antisym x y). destruct (x ?= y); simpl; [apply IH|done|done].
Qed.

Lemma text_cmp_trans a b c : text_cmp a b = Lt → text_cmp b c = Lt → text_cmp a c = Lt.
Proof.
  revert b c. induction a as [|x a IH]; intros [|y b] [|z c]; simpl; try done.
  destruct (Z.compare_spec x y) as [->|Hxy|Hxy]; try done.
  - destruct (y ?= z); try done. apply IH.
  - intros _. destruct (Z.compare_spec y z) as [->|Hyz|Hyz]; try done.
    + intros _. by rewrite (proj2 (Z.compare_lt_iff x z)).
    + intros _. by rewrite (proj2 (Z.compare_lt_iff x z)) by lia.
Qed.

#[export] Instance text_ordered : Ordered (list Z) :=
  {| cmp := text_cmp; cmp_eq := text_cmp_eq; cmp_flip := text_cmp_flip;
     cmp_trans := text_cmp_trans |}.

Section BTree.
Context {K V : Type} `{Ordered K}.

Definition btree : Type := list (K * V).

Fixpoint get (m : btree) (k : K) : option V :=
  match m with
  | [] => None
  | (k', v) :: m => match cmp k k' with Eq => Some v | _ => get m k end
  end.

(** Replaces the value of a key that is there. *)
Fixpoint insert (m : btree) (k : K) (v : V) : btree :=
  match m with
  | [] => [(k, v)]
  | (k', v') :: m' =>
      match cmp k k' with
      | Lt => (k, v) :: m
      | Eq => (k, v) :: m'
      | Gt => (k', v') :: insert m' k v
      end
  end.

Fixpoint remove (m : btree) (k : K) : btree :=
  match m with
  | [] => []
  | (k', v') :: m' => match cmp k k' with Eq => m' | _ => (k', v') :: remove m' k end
  end.

Definition contains_key (m : btree) (k : K) : bool :=
  match get m k with Some _ => true | None => false end.

Definition keys (m : btree) : list K := m.*1.
Definition values (m : btree) : list V := m.*2.

(** ** The order *)

Definition before (x y : K * V) : Prop := cmp x.1 y.1 = Lt.
Definition sorted (m : btree) : Prop := StronglySorted before m.

Lemma cmp_refl k : cmp k k = Eq.
Proof. by apply cmp_eq. Qed.

Lemma cmp_gt_lt a b : cmp a b = Gt ↔ cmp b a = Lt.
Proof. rewrite (cmp_flip a b). by destruct (cmp a b). Qed.

Lemma sorted_nil : sorted [].
Proof. constructor. Qed.

Lemma insert_elem m k v x : x ∈ insert m k v → x = (k, v) ∨ x ∈ m.
Proof.
  induction m as [|[k' v'] m IH]; simpl; [rewrite list_elem_of_singleton; by left|].
  destruct (cmp k k'); rewrite !elem_of_cons; tauto.
Qed.

Lemma insert_sorted m k v : sorted m → sorted (insert m k v).
Proof.
  unfold sorted. induction m as [|[k' v'] m IH]; intros Hs; simpl.
  { repeat constructor. }
  inversion Hs as [|? ? Hs' Hall]; subst. destruct (cmp k k') eqn:E.
  - apply cmp_eq in E as ->. by constructor.
  - constructor; [done|]. constructor; [done|].
    apply (Forall_impl _ _ _ Hall). intros y Hy. by apply (cmp_trans k k' y.1).
  - constructor; [by apply IH|]. apply Forall_forall. intros y [->|Hy]%insert_elem.
    + by apply cmp_gt_lt.
    + by apply (proj1 (Forall_forall _ _) Hall).
Qed.

Lemma remove_elem m k x : x ∈ remove m k → x ∈ m.
Proof.
  induction m as [|[k' v'] m IH]; simpl; [done|].
  destruct (cmp k k'); rewrite ?elem_of_cons; tauto.
Qed.

Lemma remove_sorted m k : sorted m → sorted (remove m k).
Proof.
  unfold sorted. induction m as [|[k' v'] m IH]; intros Hs; simpl; [done|].
  inversion Hs as [|? ? Hs' Hall]; subst.
  assert (Hr : StronglySorted before ((k', v') :: remove m k)).
  { constructor; [by apply IH|]. apply Forall_forall. intros y Hy%remove_elem.
    by apply (proj1 (Forall_forall _ _) Hall). }
  by destruct (cmp k k').
Qed.

(** ** Lookup *)

Lemma get_insert_eq m k v : get (insert m k v) k = Some v.
Proof.
  induction m as [|[k' v'] m IH]; simpl; [by rewrite cmp_refl|].
  destruct (cmp k k') eqn:E; simpl; [by rewrite cmp_refl|by rewrite cmp_refl|by rewrite E].
Qed.

Lemma get_insert_ne m k v k' : k ≠ k' → get (insert m k v) k' = get m k'.
Proof.
  intros Hne.
  assert (Hc : ∀ A (x y : A), match cmp k' k with Eq => x | _ => y end = y).
  { intros A x y. destruct (cmp k' k) eqn:E; [|done|done]. apply cmp_eq in E. congruence. }
  induction m as [|[k1 v1] m IH]; simpl; [by rewrite Hc|].
  destruct (cmp k k1) eqn:E; simpl.
  - apply cmp_eq in E as <-. by rewrite !Hc.
  - by rewrite Hc.
  - by rewrite IH.
Qed.

(** Keys above the first one do not hold smaller ones. *)
Lemma get_above m k : Forall (λ x, cmp k x.1 = Lt) m → get m k = None.
Proof.
  induction 1 as [|[k' v'] m Hx Hm IH]; simpl; [done|]. simpl in Hx. by rewrite Hx.
Qed.

Lemma get_remove_eq m k : sorted m → get (remove m k) k = None.
Proof.
  unfold sorted. induction m as [|[k' v'] m IH]; intros Hs; simpl; [done|].
  inversion Hs as [|? ? Hs' Hall]; subst. destruct (cmp k k') eqn:E; simpl.
  - apply cmp_eq in E as ->. by apply get_above.
  - rewrite E. by apply IH.
  - rewrite E. by apply IH.
Qed.

Lemma get_remove_ne m k k' : k ≠ k' → get (remove m k) k' = get m k'.
Proof.
  intros Hne. induction m as [|[k1 v1] m IH]; simpl; [done|].
  destruct (cmp k k1) eqn:E; simpl; [|by rewrite IH|by rewrite IH].
  apply cmp_eq in E as ->. destruct (cmp k' k1) eqn:E2; [|done|done].
  apply cmp_eq in E2. congruence.
Qed.

Lemma get_elem m k v : sorted m → get m k = Some v ↔ (k, v) ∈ m.
Proof.
  unfold sorted. induction m as [|[k' v'] m IH]; intros Hs; simpl.
  { split; [done|]. by intros ?%elem_of_nil. }
  inversion Hs as [|? ? Hs' Hall]; subst. rewrite elem_of_cons.
  destruct (cmp k k') eqn:E.
  - apply cmp_eq in E as ->. split; [intros [= ->]; by left|].
    intros [[= ->]|Hin]; [done|].
    pose proof (proj1 (Forall_forall _ _) Hall _ Hin) as Hb. unfold before in Hb. simpl in Hb.
    by rewrite cmp_refl in Hb.
  - rewrite IH by done. split; [by right|]. intros [[= -> ->]|?]; [|done].
    by rewrite cmp_refl in E.
  - rewrite IH by done. split; [by right|]. intros [[= -> ->]|?]; [|done].
    by rewrite cmp_refl in E.
Qed.

Lemma contains_key_true m k : contains_key m k = true ↔ is_Some (get m k).
Proof. unfold contains_key. destruct (get m k); split; try done; by intros []. Qed.

Lemma keys_elem m k : sorted m → k ∈ keys m ↔ is_Some (get m k).
Proof.
  intros Hs. unfold keys. rewrite list_elem_of_fmap. split.
  - intros ([k' v] & -> & Hin). exists v. by apply get_elem.
  - intros [v Hv%get_elem]; [|done]. by exists (k, v).
Qed.

(** Two entries with the same key are the same entry. *)
Lemma keys_NoDup m : sorted m → NoDup (keys m).
Proof.
  unfold sorted, keys. induction 1 as [|[k v] m Hs IH Hall]; simpl; [constructor|].
  constructor; [|done]. rewrite list_elem_of_fmap. intros ([k' v'] & -> & Hin).
  pose proof (proj1 (Forall_forall _ _) Hall _ Hin) as Hb. unfold before in Hb. simpl in Hb.
  by rewrite cmp_refl in Hb.
Qed.

End BTree.

Arguments btree : clear implicits.

Create HintDb btree.
#[export] Hint Resolve sorted_nil insert_sorted remove_sorted : btree.

End BTree.
