(* ===== verification/Pmm.v ===== *)
(** * The physical memory manager (src/memory/pmm.rs)

    A bitmap of page frames, one bit per 4 KB page of [base_addr, end_addr).
    The bitmap is itself a slice of physical memory, so every operation takes
    and returns the store: zeroing an allocated page is a write to the same
    store the bitmap lives in. *)

From stdpp Require Import base numbers list gmap.
From S2P Require Import Prelude Memory.
Open Scope Z_scope.

Module Pmm.

Definition MAX_PHYS_MEMORY : Z := 64 * 1024 * 1024 * 1024.
Definition MAX_PAGES : Z := MAX_PHYS_MEMORY / PAGE_SIZE.
Definition BITMAP_SIZE : Z := MAX_PAGES / 8.
Definition BITMAP_BASE : Z := PMM_BITMAP_BASE.

Record Pmm := mkPmm {
  (* bitmap: &'static mut [u8], a slice of physical memory *)
  bitmap_ptr : Z;
  bitmap_len : Z;
  total_pages : Z;
  free_page_count : Z;
  base_addr : Z;
  end_addr : Z
}.

Definition set_free_page_count (p : Pmm) (n : Z) : Pmm :=
  mkPmm (bitmap_ptr p) (bitmap_len p) (total_pages p) n (base_addr p) (end_addr p).

Definition get_bit (m : mem) (p : Pmm) (index : Z) : bool :=
  let byte := index / 8 in
  let bit := index mod 8 in
  if bitmap_len p <=? byte then true
  else Z.land (Z.shiftr (rd m (bitmap_ptr p + byte)) bit) 1 =? 1.

Definition set_bit (m : mem) (p : Pmm) (index : Z) : mem :=
  let byte := index / 8 in
  let bit := index mod 8 in
  if byte <? bitmap_len p then
    wr m (bitmap_ptr p + byte)
       (Z.lor (rd m (bitmap_ptr p + byte)) (Z.shiftl 1 bit))
  else m.

(** [!x] on a [u8] is [Z.lxor 255 x]. *)
Definition clear_bit (m : mem) (p : Pmm) (index : Z) : mem :=
  let byte := index / 8 in
  let bit := index mod 8 in
  if byte <? bitmap_len p then
    wr m (bitmap_ptr p + byte)
       (Z.land (rd m (bitmap_ptr p + byte)) (Z.lxor 255 (Z.shiftl 1 bit)))
  else m.

Definition new (m : mem) (base memory_size : Z) : mem * Pmm :=
  let total := memory_size / PAGE_SIZE in
  let m0 := write_zeros m BITMAP_BASE BITMAP_SIZE in
  let p0 := mkPmm BITMAP_BASE BITMAP_SIZE total total base
                  (base + memory_size)%usize in
  let bitmap_start_page := (BITMAP_BASE - base)%usize / PAGE_SIZE in
  let bitmap_pages := (BITMAP_SIZE + PAGE_SIZE - 1) / PAGE_SIZE in
  for_each bitmap_start_page (bitmap_start_page + bitmap_pages)
    (λ i '(m, p),
       if i <? total then
         (set_bit m p i,
          set_free_page_count p (saturating_sub (free_page_count p) 1))
       else (m, p))
    (m0, p0).

Definition alloc_page (m : mem) (p : Pmm) : mem * Pmm * KernelResult Z :=
  if free_page_count p =? 0 then (m, p, Err OutOfMemory)
  else
    match
      for_loop 0 (total_pages p)
        (λ i (_ : unit),
           if negb (get_bit m p i) then
             let m1 := set_bit m p i in
             let p1 := set_free_page_count p (free_page_count p - 1)%usize in
             let addr := (base_addr p + i * PAGE_SIZE)%usize in
             inr (write_zeros m1 addr PAGE_SIZE, p1, Ok addr)
           else inl tt) tt
    with
    | inr r => r
    | inl _ => (m, p, Err OutOfMemory)
    end.

(** [found_start.unwrap()] is the only panic. *)
Definition alloc_pages (m : mem) (p : Pmm) (count : Z)
    : outcome (mem * Pmm * KernelResult Z) :=
  if free_page_count p <? count then Ret (m, p, Err OutOfMemory)
  else
    match
      for_loop 0 (total_pages p)
        (λ i '(found_start, consecutive),
           if negb (get_bit m p i) then
             let found_start :=
               match found_start with None => Some i | Some s => Some s end in
             let consecutive := (consecutive + 1)%usize in
             if consecutive =? count then
               match found_start with
               | None => inr Panic
               | Some start =>
                   let m1 := for_each start (start + count)%usize
                               (λ j m, set_bit m p j) m in
                   let p1 := set_free_page_count p
                               (free_page_count p - count)%usize in
                   let addr := (base_addr p + start * PAGE_SIZE)%usize in
                   inr (Ret (write_zeros m1 addr (count * PAGE_SIZE)%usize,
                             p1, Ok addr))
               end
             else inl (found_start, consecutive)
           else inl (None, 0)) (None, 0)
    with
    | inr r => r
    | inl _ => Ret (m, p, Err OutOfMemory)
    end.

Definition free_page (m : mem) (p : Pmm) (addr : Z)
    : mem * Pmm * KernelResult unit :=
  if (addr <? base_addr p) || (end_addr p <=? addr) then
    (m, p, Err InvalidAddress)
  else if negb (addr mod PAGE_SIZE =? 0) then (m, p, Err InvalidArgument)
  else
    let index := (addr - base_addr p)%usize / PAGE_SIZE in
    if negb (get_bit m p index) then (m, p, Err PageNotMapped)
    else
      (clear_bit m p index,
       set_free_page_count p (free_page_count p + 1)%usize, Ok tt).

Definition free_pages_range (m : mem) (p : Pmm) (addr count : Z)
    : mem * Pmm * KernelResult unit :=
  match
    for_loop 0 count
      (λ i '(m, p),
         match free_page m p (addr + i * PAGE_SIZE)%usize with
         | (m', p', Ok _) => inl (m', p')
         | (m', p', Err e) => inr (m', p', Err e)
         end) (m, p)
  with
  | inl (m', p') => (m', p', Ok tt)
  | inr r => r
  end.

Definition used_pages (p : Pmm) : Z := (total_pages p - free_page_count p)%usize.
Definition free_memory (p : Pmm) : Z := (free_page_count p * PAGE_SIZE)%usize.
Definition used_memory (p : Pmm) : Z := (used_pages p * PAGE_SIZE)%usize.

Definition reserve_range (m : mem) (p : Pmm) (start size : Z) : mem * Pmm :=
  if start <? base_addr p then (m, p)
  else
    let start_page := (start - base_addr p)%usize / PAGE_SIZE in
    let end_ := (start + size)%usize in
    let end_page :=
      if end_addr p <? end_ then total_pages p
      else (end_ - base_addr p + PAGE_SIZE - 1)%usize / PAGE_SIZE in
    for_each start_page end_page
      (λ i '(m, p),
         if (i <? total_pages p) && negb (get_bit m p i) then
           (set_bit m p i,
            set_free_page_count p (saturating_sub (free_page_count p) 1))
         else (m, p)) (m, p).

(** ** Well-formedness

    The page range fits the address space and the bitmap, the counter is the
    number of clear bits, and the pages that hold the bitmap are marked used. *)

Definition in_bitmap (p : Pmm) (a : Z) : Prop :=
  bitmap_ptr p ≤ a < bitmap_ptr p + bitmap_len p.

Definition free_pages (m : mem) (p : Pmm) : Z :=
  countZ (λ i, negb (get_bit m p i)) (total_pages p).

Record wf (m : mem) (p : Pmm) : Prop := {
  wf_bytes : bytes m;
  wf_base : 0 ≤ base_addr p;
  wf_aligned : base_addr p mod PAGE_SIZE = 0;
  wf_total : 0 ≤ total_pages p;
  wf_end : end_addr p = base_addr p + total_pages p * PAGE_SIZE;
  wf_range : end_addr p + PAGE_SIZE ≤ 2 ^ 64;
  wf_cap : total_pages p ≤ 8 * bitmap_len p;
  wf_count : free_page_count p = free_pages m p;
  wf_self : ∀ a, in_bitmap p a → base_addr p ≤ a < end_addr p →
    get_bit m p ((a - base_addr p) / PAGE_SIZE) = true
}.

(** Pages [start .. start + count) lie in the managed range and are free. *)
Definition free_run (m : mem) (p : Pmm) (start count : Z) : Prop :=
  0 ≤ start ∧ start + count ≤ total_pages p ∧
  ∀ i, start ≤ i < start + count → get_bit m p i = false.

Definition page_addr (p : Pmm) (i : Z) : Z := base_addr p + i * PAGE_SIZE.

(** [m'] and [p'] are [m] and [p] with the run [start .. start + count) taken:
    exactly its bits are set, its bytes are zero and no other byte outside the
    bitmap changed. *)
Record took (m : mem) (p : Pmm) (m' : mem) (p' : Pmm) (start count : Z) : Prop := {
  took_pmm : p' = set_free_page_count p (free_page_count p - count);
  took_bits : ∀ j, 0 ≤ j →
    get_bit m' p' j = inrange start (start + count) j || get_bit m p j;
  took_zero : ∀ a, page_addr p start ≤ a < page_addr p (start + count) → rd m' a = 0;
  took_frame : ∀ a, ¬ in_bitmap p a →
    ¬ (page_addr p start ≤ a < page_addr p (start + count)) → rd m' a = rd m a
}.

(** ** The bitmap *)

Lemma get_bit_testbit m p i :
  get_bit m p i =
    (bitmap_len p <=? i / 8) || Z.testbit (rd m (bitmap_ptr p + i / 8)) (i mod 8).
Proof. unfold get_bit. case_if; [done|]. by rewrite land_shiftr_1. Qed.

Lemma get_set_bit m p i j :
  0 ≤ i → 0 ≤ j →
  get_bit (set_bit m p i) p j = (i =? j) || get_bit m p j.
Proof.
  intros Hi Hj. rewrite !get_bit_testbit. unfold set_bit.
  destruct (i / 8 <? bitmap_len p) eqn:Ei; break_cmp.
  - destruct (decide (i / 8 = j / 8)) as [E|E].
    + rewrite <- E, rd_wr_eq, Z.lor_spec, Z.shiftl_spec by dlia.
      destruct (bitmap_len p <=? i / 8); [by rewrite orb_true_r|]. simpl.
      destruct (i =? j) eqn:Hij; break_cmp.
      * subst j. rewrite Z.sub_diag. by rewrite orb_true_r.
      * destruct (decide (j mod 8 < i mod 8)).
        { rewrite (Z.testbit_neg_r 1) by lia. by rewrite orb_false_r. }
        rewrite (Z.bits_above_log2 1) by (simpl; dlia). by rewrite orb_false_r.
    + rewrite rd_wr_ne by lia.
      replace (i =? j) with false by (symmetry; apply Z.eqb_neq; congruence). done.
  - destruct (i =? j) eqn:Hij; break_cmp; [|done]. subst. simpl.
    by replace (bitmap_len p <=? j / 8) with true by (symmetry; apply Z.leb_le; lia).
Qed.

Lemma get_clear_bit m p i j :
  0 ≤ i → 0 ≤ j → i / 8 < bitmap_len p →
  get_bit (clear_bit m p i) p j = negb ((i =? j)) && get_bit m p j.
Proof.
  intros Hi Hj Hlen. rewrite !get_bit_testbit. unfold clear_bit.
  destruct (i / 8 <? bitmap_len p) eqn:Ei; break_cmp; [|lia].
  destruct (decide (i / 8 = j / 8)) as [E|E].
  - rewrite <- E, rd_wr_eq, Z.land_spec, Z.lxor_spec, Z.shiftl_spec by dlia.
    replace (bitmap_len p <=? i / 8) with false by (symmetry; apply Z.leb_gt; lia).
    simpl. change 255 with (Z.ones 8). rewrite Z.ones_spec_low by dlia.
    destruct (i =? j) eqn:Hij; break_cmp.
    + subst j. rewrite Z.sub_diag. simpl. by rewrite andb_false_r.
    + simpl. destruct (decide (j mod 8 < i mod 8)).
      { rewrite (Z.testbit_neg_r 1) by lia. simpl. by rewrite andb_true_r. }
      rewrite (Z.bits_above_log2 1) by (simpl; dlia). simpl. by rewrite andb_true_r.
  - rewrite rd_wr_ne by lia.
    replace (i =? j) with false by (symmetry; apply Z.eqb_neq; congruence). done.
Qed.

Lemma bytes_set_bit m p i : bytes m → bytes (set_bit m p i).
Proof.
  intros Hm. unfold set_bit. case_if; [|done]. apply bytes_wr; [done|].
  apply (lor_bounds 8); [lia|apply Hm|].
  rewrite Z.shiftl_1_l. split; [lia|]. apply Z.pow_lt_mono_r; dlia.
Qed.

Lemma bytes_clear_bit m p i : bytes m → bytes (clear_bit m p i).
Proof.
  intros Hm. unfold clear_bit. case_if; [|done]. apply bytes_wr; [done|].
  apply (land_bounds 8); [lia|apply Hm].
Qed.

Lemma rd_set_bit m p i a : 0 ≤ i → ¬ in_bitmap p a → rd (set_bit m p i) a = rd m a.
Proof.
  intros Hi Ha. unfold set_bit. case_if; [|done]. apply rd_wr_ne.
  unfold in_bitmap in Ha. dlia.
Qed.

Lemma rd_clear_bit m p i a : 0 ≤ i → ¬ in_bitmap p a → rd (clear_bit m p i) a = rd m a.
Proof.
  intros Hi Ha. unfold clear_bit. case_if; [|done]. apply rd_wr_ne.
  unfold in_bitmap in Ha. dlia.
Qed.

#[local] Hint Resolve bytes_set_bit bytes_clear_bit : delta.

(** ** Taking a run of free pages *)

Lemma get_bit_ext m m' p j :
  0 ≤ j → (∀ a, in_bitmap p a → rd m' a = rd m a) → get_bit m' p j = get_bit m p j.
Proof.
  intros Hj Hm. unfold get_bit. case_if; [done|]. rewrite Hm; [done|].
  unfold in_bitmap. dlia.
Qed.

(** Setting the bits of a run, one by one. *)
Lemma set_run_spec m p start count :
  0 ≤ start → 0 ≤ count → bytes m →
  let m1 := for_each start (start + count) (λ j m, set_bit m p j) m in
  bytes m1 ∧
  (∀ j, 0 ≤ j →
     get_bit m1 p j = inrange start (start + count) j || get_bit m p j) ∧
  (∀ a, ¬ in_bitmap p a → rd m1 a = rd m a).
Proof.
  intros Hs Hc Hm m1.
  apply (for_each_rule (λ i m1, bytes m1 ∧
    (∀ j, 0 ≤ j → get_bit m1 p j = inrange start i j || get_bit m p j) ∧
    (∀ a, ¬ in_bitmap p a → rd m1 a = rd m a))); [lia| |].
  - split_and!; [done| |done]. intros j Hj.
    by rewrite (proj2 (inrange_false start start j)) by lia.
  - intros i m' Hi (Hb & Hbits & Hfr). split_and!.
    + by apply bytes_set_bit.
    + intros j Hj. rewrite get_set_bit, Hbits, orb_assoc by lia. f_equal.
      apply eq_true_iff_eq.
      rewrite orb_true_iff, !inrange_true, Z.eqb_eq. lia.
    + intros a Ha. rewrite rd_set_bit by (done || lia). by apply Hfr.
Qed.

Lemma free_run_off_bitmap m p start count a :
  wf m p → free_run m p start count →
  page_addr p start ≤ a < page_addr p (start + count) → ¬ in_bitmap p a.
Proof.
  intros Hwf (Hs & Ht & Hfree) Ha Hin. destruct Hwf. unfold page_addr, PAGE_SIZE in *.
  specialize (wf_self0 a Hin ltac:(nia)).
  rewrite Hfree in wf_self0; [done|]. dlia.
Qed.

Lemma run_taken m p start count :
  wf m p → 0 ≤ count → free_run m p start count →
  let m1 := for_each start (start + count) (λ j m, set_bit m p j) m in
  let m2 := write_zeros m1 (page_addr p start) (count * PAGE_SIZE) in
  let p2 := set_free_page_count p (free_page_count p - count) in
  wf m2 p2 ∧ took m p m2 p2 start count.
Proof.
  intros Hwf Hc Hrun m1 m2 p2. pose proof Hrun as (Hs & Ht & Hfree).
  pose proof Hwf as [].
  destruct (set_run_spec m p start count) as (Hb1 & Hbits1 & Hfr1); [done..|].
  fold m1 in Hb1, Hbits1, Hfr1.
  assert (Hend : page_addr p (start + count) = page_addr p start + count * PAGE_SIZE)
    by (unfold page_addr; lia).
  assert (Hbits : ∀ j, 0 ≤ j → get_bit m2 p2 j =
    inrange start (start + count) j || get_bit m p j).
  { intros j Hj. rewrite <- Hbits1 by done. apply (get_bit_ext m1 m2 p2 j Hj).
    intros a Ha. apply rd_write_zeros_out. intros Ha'.
    eapply (free_run_off_bitmap m p start count a); [done..| |done]. lia. }
  split; [split; simpl|split].
  - by apply bytes_write_zeros.
  - done.
  - done.
  - done.
  - done.
  - done.
  - done.
  - rewrite wf_count0. unfold free_pages. simpl. symmetry. apply countZ_run with start.
    + done.
    + done.
    + done.
    + intros i Hi. by rewrite Hfree.
    + intros j Hj. rewrite Hbits by lia. by rewrite negb_orb.
  - intros a Ha Hr. rewrite Hbits by (unfold PAGE_SIZE; dlia).
    rewrite (wf_self0 a Ha Hr). by rewrite orb_true_r.
  - done.
  - done.
  - intros a Ha. apply rd_write_zeros_in. lia.
  - intros a Ha Hr. unfold m2. rewrite rd_write_zeros_out by lia. by apply Hfr1.
Qed.

(** A single page is a run of length one. *)
Lemma page_taken m p i :
  wf m p → 0 ≤ i < total_pages p → get_bit m p i = false →
  let m2 := write_zeros (set_bit m p i) (page_addr p i) PAGE_SIZE in
  let p2 := set_free_page_count p (free_page_count p - 1) in
  wf m2 p2 ∧ took m p m2 p2 i 1.
Proof.
  intros Hwf Hi Hbit. destruct (run_taken m p i 1) as [H1 H2]; [done|lia| |].
  { split_and!; [lia|lia|]. intros j Hj. by replace j with i by lia. }
  rewrite for_each_step, for_each_done in H1, H2 by lia.
  by rewrite Z.mul_1_l in H1, H2.
Qed.

Lemma free_count_range m p : wf m p → 0 ≤ free_page_count p ≤ total_pages p.
Proof.
  intros []. rewrite wf_count0. unfold free_pages.
  split; [apply countZ_nonneg|by apply countZ_le].
Qed.

Lemma free_count_pos m p i :
  wf m p → 0 ≤ i < total_pages p → get_bit m p i = false → 0 < free_page_count p.
Proof.
  intros [] Hi Hbit. rewrite wf_count0. apply countZ_pos. exists i. by rewrite Hbit.
Qed.

Lemma total_range m p : wf m p → 0 ≤ total_pages p < 2 ^ 52.
Proof. intros []. unfold PAGE_SIZE in *. lia. Qed.

(** The addresses of managed pages do not wrap. *)
Lemma page_addr_usize m p i :
  wf m p → 0 ≤ i < total_pages p →
  (base_addr p + i * PAGE_SIZE)%usize = page_addr p i.
Proof.
  intros [] Hi. unfold page_addr, PAGE_SIZE in *.
  by rewrite usize_small by lia.
Qed.

(** ** Allocation *)

(** What [alloc_pages] promises: the first run of [count] free pages, taken and
    zeroed, or [OutOfMemory] with the state unchanged when there is none. *)
Definition alloc_post (m : mem) (p : Pmm) (count : Z)
    (r : mem * Pmm * KernelResult Z) : Prop :=
  match r with
  | (m', p', Ok addr) =>
      ∃ start, addr = page_addr p start ∧ free_run m p start count ∧
        (∀ s, 0 ≤ s < start → ¬ free_run m p s count) ∧
        wf m' p' ∧ took m p m' p' start count
  | (m', p', Err e) =>
      e = OutOfMemory ∧ m' = m ∧ p' = p ∧ ∀ s, ¬ free_run m p s count
  end.

Lemma free_run_one m p i :
  free_run m p i 1 ↔ 0 ≤ i < total_pages p ∧ get_bit m p i = false.
Proof.
  unfold free_run. split.
  - intros (Hs & Ht & Hf). split; [lia|]. apply Hf. lia.
  - intros [Hi Hb]. split_and!; [lia|lia|]. intros j Hj. by replace j with i by lia.
Qed.

Lemma alloc_page_post m p : wf m p → alloc_post m p 1 (alloc_page m p).
Proof.
  intros Hwf. unfold alloc_page.
  destruct (free_page_count p =? 0) eqn:Ec; break_cmp.
  { split_and!; [done..|]. intros s [Hs Hb]%free_run_one.
    pose proof (free_count_pos m p s Hwf Hs Hb). lia. }
  loop_inv (λ i (_ : unit), ∀ s, 0 ≤ s < i → get_bit m p s = true)
    (alloc_post m p 1); [intros H|by destruct Hwf|lia|].
  - destruct (for_loop _ _ _ _) as [[]|r]; [|done].
    split_and!; [done..|]. intros s [Hs Hb]%free_run_one. by rewrite H in Hb.
  - intros i [] Hi IH. destruct (get_bit m p i) eqn:Hb; simpl.
    { intros s Hs. destruct (decide (s = i)) as [->|]; [done|]. apply IH. lia. }
    pose proof (free_count_range m p Hwf). pose proof (total_range m p Hwf).
    rewrite (page_addr_usize m p i Hwf Hi), usize_small by lia.
    destruct (page_taken m p i Hwf Hi Hb) as [Hw Ht].
    exists i. split_and!; [done| |  |done|done].
    + by apply free_run_one.
    + intros s Hs [_ Hb']%free_run_one. by rewrite IH in Hb'.
Qed.

Lemma alloc_page_wf m p : wf m p → wf (alloc_page m p).1.1 (alloc_page m p).1.2.
Proof.
  intros Hwf. pose proof (alloc_page_post m p Hwf) as H.
  destruct (alloc_page m p) as [[m' p'] [a|e]]; simpl in *.
  - by destruct H as (i & _ & _ & _ & H & _).
  - by destruct H as (_ & -> & -> & _).
Qed.

(** The loop of [alloc_pages]: [consecutive] is the length of the free run that
    ends before [i], and no run of [count] pages ends at or before [i]. *)
Definition run_inv (m : mem) (p : Pmm) (count i : Z) (s : option Z * Z) : Prop :=
  let '(fs, c) := s in
  0 ≤ c < count ∧ c ≤ i ∧
  fs = (if c =? 0 then None else Some (i - c)) ∧
  (∀ j, i - c ≤ j < i → get_bit m p j = false) ∧
  (i - c = 0 ∨ get_bit m p (i - c - 1) = true) ∧
  (∀ s, s + count ≤ i → ¬ free_run m p s count).

Lemma run_inv_used m p count i fs c :
  0 ≤ i < total_pages p → get_bit m p i = true → 
  run_inv m p count i (fs, c) → run_inv m p count (i + 1) (None, 0).
Proof.
  intros Hi Hb (Hc & Hci & Hfs & Hrun & Hleft & Hno). split_and!; try done; try lia.
  - right. by replace (i + 1 - 0 - 1) with i by lia.
  - intros s Hs (Hs0 & Ht & Hf). destruct (decide (s + count ≤ i)).
    + by apply (Hno s).
    + rewrite Hf in Hb; [done|lia].
Qed.

Lemma run_inv_free m p count i fs c :
  0 ≤ i < total_pages p → get_bit m p i = false → c + 1 ≠ count →
  run_inv m p count i (fs, c) →
  run_inv m p count (i + 1)
    (match fs with None => Some i | Some s => Some s end, c + 1).
Proof.
  intros Hi Hb Hne (Hc & Hci & Hfs & Hrun & Hleft & Hno). split_and!; try lia.
  - replace (c + 1 =? 0) with false by (symmetry; apply Z.eqb_neq; lia).
    subst fs. destruct (c =? 0) eqn:E; break_cmp; f_equal; lia.
  - intros j Hj. destruct (decide (j = i)) as [->|]; [done|]. apply Hrun. lia.
  - by replace (i + 1 - (c + 1)) with (i - c) by lia.
  - intros s Hs (Hs0 & Ht & Hf). destruct (decide (s + count ≤ i)).
    + by apply (Hno s).
    + destruct Hleft as [Hl|Hl]; [lia|]. rewrite Hf in Hl; [done|lia].
Qed.

Lemma run_inv_found m p count i fs c :
  0 ≤ i < total_pages p → get_bit m p i = false → c + 1 = count →
  run_inv m p count i (fs, c) →
  match fs with None => Some i | Some s => Some s end = Some (i + 1 - count) ∧
  free_run m p (i + 1 - count) count ∧
  (∀ s, 0 ≤ s < i + 1 - count → ¬ free_run m p s count).
Proof.
  intros Hi Hb Heq (Hc & Hci & Hfs & Hrun & Hleft & Hno). split_and!.
  - subst fs. destruct (c =? 0) eqn:E; break_cmp; f_equal; lia.
  - split_and!; [lia|lia|]. intros j Hj.
    destruct (decide (j = i)) as [->|]; [done|]. apply Hrun. lia.
  - intros s Hs. apply Hno. lia.
Qed.

Lemma alloc_pages_post m p count :
  wf m p → 0 < count →
  ∃ r, alloc_pages m p count = Ret r ∧ alloc_post m p count r.
Proof.
  intros Hwf Hpos. unfold alloc_pages. pose proof (free_count_range m p Hwf) as Hfc.
  pose proof (total_range m p Hwf) as Htot. pose proof Hwf as [].
  destruct (free_page_count p <? count) eqn:Ec; break_cmp.
  { eexists. split; [done|]. split_and!; [done..|]. intros s (Hs & Ht & Hf).
    rewrite wf_count0 in Ec. unfold free_pages in Ec.
    rewrite <- (Z.add_simpl_r (countZ (λ i, negb (get_bit m p i)) (total_pages p)) count) in Ec.
    pose proof (countZ_nonneg
      (λ j, negb (inrange s (s + count) j) && negb (get_bit m p j)) (total_pages p)) as Hn.
    rewrite (countZ_run (λ i, negb (get_bit m p i)) _ _ s count) in Hn; [lia|lia..| |done].
    intros j Hj. by rewrite Hf. }
  loop_inv (run_inv m p count) (λ o, ∃ r, o = Ret r ∧ alloc_post m p count r);
    [intros H|lia| |].
  - destruct (for_loop _ _ _ _) as [[fs c]|o]; [|done].
    eexists. split; [done|]. split_and!; [done..|]. intros s Hs.
    destruct H as (_ & _ & _ & _ & _ & Hno). apply (Hno s); [|done].
    by destruct Hs as (_ & Ht & _).
  - split_and!; try done; try lia. intros s Hs (Hs0 & _ & _). lia.
  - intros i [fs c] Hi Hinv. destruct (get_bit m p i) eqn:Hb; simpl.
    { by eapply run_inv_used. }
    pose proof Hinv as (Hc & Hci & _).
    rewrite (usize_small (c + 1)) by lia.
    destruct (c + 1 =? count) eqn:Ecc; break_cmp.
    2:{ by eapply run_inv_free. }
    destruct (run_inv_found m p count i fs c) as (-> & Hrun & Hmin); [done..|].
    eexists. split; [done|].
    rewrite (page_addr_usize m p (i + 1 - count) Hwf) by lia.
    rewrite !usize_small by (unfold PAGE_SIZE; lia).
    destruct (run_taken m p (i + 1 - count) count) as [Hw Ht]; [done|lia|done|].
    by exists (i + 1 - count).
Qed.

Lemma alloc_pages_zero m p :
  wf m p → alloc_pages m p 0 = Ret (m, p, Err OutOfMemory).
Proof.
  intros Hwf. unfold alloc_pages. pose proof (free_count_range m p Hwf) as Hfc.
  destruct (free_page_count p <? 0); [done|]. pose proof (total_range m p Hwf) as Htot.
  loop_inv (λ i (s : option Z * Z), 0 ≤ s.2 ≤ i) (λ _ : outcome (mem * Pmm * KernelResult Z), False);
    [intros H|lia|done|].
  - by destruct (for_loop _ _ _ _) as [[fs c]|o].
  - intros i [fs c] Hi Hinv. simpl in Hinv. destruct (negb _); simpl; [|lia].
    rewrite usize_small by lia.
    replace (c + 1 =? 0) with false by (symmetry; apply Z.eqb_neq; lia).
    simpl. lia.
Qed.

(** ** Freeing *)

(** [m'] and [p'] are [m] and [p] with the run [start .. start + count) given
    back: exactly its bits are cleared, and no byte outside the bitmap changed. *)
Record gave (m : mem) (p : Pmm) (m' : mem) (p' : Pmm) (start count : Z) : Prop := {
  gave_pmm : p' = set_free_page_count p (free_page_count p + count);
  gave_bits : ∀ j, 0 ≤ j →
    get_bit m' p' j = negb (inrange start (start + count) j) && get_bit m p j;
  gave_frame : ∀ a, ¬ in_bitmap p a → rd m' a = rd m a
}.

(** The page does not hold a part of the bitmap. *)
Definition off_bitmap (p : Pmm) (i : Z) : Prop :=
  ∀ a, page_addr p i ≤ a < page_addr p (i + 1) → ¬ in_bitmap p a.

(** What [free_page] promises on each of its branches. *)
Definition free_post (m : mem) (p : Pmm) (addr : Z)
    (r : mem * Pmm * KernelResult unit) : Prop :=
  match r with
  | (m', p', Ok _) =>
      ∃ i, addr = page_addr p i ∧ 0 ≤ i < total_pages p ∧ get_bit m p i = true ∧
        gave m p m' p' i 1 ∧ (off_bitmap p i → wf m' p')
  | (m', p', Err e) =>
      m' = m ∧ p' = p ∧
      (e = InvalidAddress ∧ ¬ (base_addr p ≤ addr < end_addr p) ∨
       e = InvalidArgument ∧ base_addr p ≤ addr < end_addr p ∧ addr mod PAGE_SIZE ≠ 0 ∨
       e = PageNotMapped ∧ ∃ i, addr = page_addr p i ∧ 0 ≤ i < total_pages p ∧
         get_bit m p i = false)
  end.

Lemma page_given m p i :
  wf m p → 0 ≤ i < total_pages p → get_bit m p i = true →
  let m' := clear_bit m p i in
  let p' := set_free_page_count p (free_page_count p + 1) in
  gave m p m' p' i 1 ∧ (off_bitmap p i → wf m' p').
Proof.
  intros Hwf Hi Hb m' p'. pose proof Hwf as [].
  assert (Hbits : ∀ j, 0 ≤ j → get_bit m' p' j =
    negb (inrange i (i + 1) j) && get_bit m p j).
  { intros j Hj. change (get_bit m' p' j) with (get_bit m' p j).
    unfold m'. rewrite get_clear_bit by dlia. f_equal. f_equal.
    apply eq_true_iff_eq. rewrite inrange_true, Z.eqb_eq. lia. }
  split; [split|intros Hoff; split; simpl]; try done.
  - intros a Ha. by apply rd_clear_bit; [lia|].
  - by apply bytes_clear_bit.
  - rewrite wf_count0. unfold free_pages. simpl.
    rewrite (countZ_off (λ j, negb (get_bit m' p' j)) (λ j, negb (get_bit m p j))
      (total_pages p) i); [lia|done| |by rewrite Hb|].
    + rewrite Hbits by lia. rewrite (proj2 (inrange_true i (i + 1) i)) by lia. done.
    + intros j Hj Hne. rewrite Hbits by lia.
      by rewrite (proj2 (inrange_false i (i + 1) j)) by lia.
  - intros a Ha Hr. unfold PAGE_SIZE in *. rewrite Hbits by dlia. rewrite wf_self0 by done.
    rewrite (proj2 (inrange_false i (i + 1) _)); [done|].
    intros Hin. apply (Hoff a); [|done]. unfold page_addr, PAGE_SIZE. dlia.
Qed.

Lemma free_page_post m p addr :
  wf m p → free_post m p addr (free_page m p addr).
Proof.
  intros Hwf. unfold free_page. pose proof (free_count_range m p Hwf) as Hfc.
  pose proof (total_range m p Hwf) as Htot. pose proof Hwf as [].
  destruct ((addr <? base_addr p) || (end_addr p <=? addr)) eqn:Er.
  { split_and!; [done..|]. left. split; [done|].
    apply orb_true_iff in Er as [Er|Er]; break_cmp; lia. }
  break_cmp. destruct (addr mod PAGE_SIZE =? 0) eqn:Ea; break_cmp; simpl.
  2:{ split_and!; [done..|]. right; left. done. }
  rewrite (usize_small (addr - base_addr p)) by (unfold PAGE_SIZE in *; lia).
  assert (Hi : ∃ i, addr = page_addr p i ∧ 0 ≤ i < total_pages p ∧
    (addr - base_addr p) / PAGE_SIZE = i).
  { exists ((addr - base_addr p) / PAGE_SIZE). unfold page_addr, PAGE_SIZE in *.
    split_and!; dlia. }
  destruct Hi as (i & Haddr & Hi & ->).
  destruct (get_bit m p i) eqn:Hb; simpl.
  - destruct (page_given m p i Hwf Hi Hb) as [Hg Hw].
    rewrite usize_small by lia. by exists i.
  - split_and!; [done..|]. right; right. split; [done|]. by exists i.
Qed.

Lemma gave_trans m p m1 p1 m2 p2 start n :
  0 ≤ n → gave m p m1 p1 start n → gave m1 p1 m2 p2 (start + n) 1 →
  gave m p m2 p2 start (n + 1).
Proof.
  intros Hn [Hp1 Hb1 Hf1] [Hp2 Hb2 Hf2]. subst p1 p2. simpl in *. split.
  - unfold set_free_page_count. simpl. f_equal. lia.
  - intros j Hj. rewrite Hb2, Hb1 by done. rewrite andb_assoc, <- negb_orb.
    do 2 f_equal. apply eq_true_iff_eq. rewrite orb_true_iff, !inrange_true. lia.
  - intros a Ha. rewrite Hf2 by done. by apply Hf1.
Qed.

Lemma gave_refl m p start : gave m p m p start 0.
Proof.
  split; [|intros j Hj|done].
  - destruct p. unfold set_free_page_count. simpl. f_equal. lia.
  - by rewrite (proj2 (inrange_false start (start + 0) j)) by lia.
Qed.

(** [free_pages_range] frees page after page and stops at the first failure,
    with the pages before it already given back. *)
Definition free_range_post (m : mem) (p : Pmm) (start count : Z)
    (r : mem * Pmm * KernelResult unit) : Prop :=
  match r with
  | (m', p', Ok _) =>
      gave m p m' p' start count ∧ wf m' p' ∧
      ∀ j, start ≤ j < start + count → j < total_pages p ∧ get_bit m p j = true
  | (m', p', Err e) =>
      ∃ k, 0 ≤ k < count ∧ gave m p m' p' start k ∧ wf m' p' ∧
        free_page m' p' (page_addr p (start + k)) = (m', p', Err e)
  end.

Lemma free_pages_range_post m p start count :
  wf m p → 0 ≤ start → 0 ≤ count → page_addr p (start + count) < 2 ^ 64 →
  (∀ i, start ≤ i < start + count → off_bitmap p i) →
  free_range_post m p start count (free_pages_range m p (page_addr p start) count).
Proof.
  intros Hwf Hs Hc Hlt Hoff. unfold free_pages_range.
  loop_inv (λ n (s : mem * Pmm), gave m p s.1 s.2 start n ∧ wf s.1 s.2 ∧
      ∀ j, start ≤ j < start + n → j < total_pages p ∧ get_bit m p j = true)
    (λ r : mem * Pmm * KernelResult unit, match r with
       | (m', p', Err e) => free_range_post m p start count r
       | _ => False end); [intros H|lia| |].
  - destruct (for_loop _ _ _ _) as [[m' p']|[[m' p'] [|e]]]; done.
  - split_and!; [apply gave_refl|done|]. intros j Hj. lia.
  - intros n [m1 p1] Hn (Hg & Hw & Hused). simpl in Hg, Hw.
    assert (Haddr : (page_addr p start + n * PAGE_SIZE)%usize = page_addr p1 (start + n)).
    { pose proof (wf_base m p Hwf). destruct Hg as [-> _ _]. simpl.
      unfold page_addr, PAGE_SIZE in *. simpl in *. rewrite usize_small; lia. }
    rewrite Haddr. pose proof (free_page_post m1 p1 (page_addr p1 (start + n)) Hw) as Hpost.
    destruct (free_page m1 p1 _) as [[m2 p2] [u|e]] eqn:Ef; simpl in Hpost |- *.
    + destruct Hpost as (i & Hi & Hir & Hb & Hg2 & Hw2).
      assert (i = start + n) as -> by (unfold page_addr, PAGE_SIZE in Hi; lia).
      pose proof Hg as [Hp1 Hb1 _].
      split_and!; [by eapply gave_trans; [lia|..]| |].
      * apply Hw2. subst p1. apply (Hoff (start + n)). lia.
      * intros j Hj. destruct (decide (j = start + n)) as [->|]; [|apply Hused; lia].
        rewrite Hb1 in Hb by lia. apply andb_true_iff in Hb as [_ Hb].
        subst p1. split; [simpl in Hir; lia|done].
    + destruct Hpost as (-> & -> & _). exists n.
      destruct Hg as [-> Hb1 Hf1]. split_and!; [lia|lia| |done|done]. by split.
Qed.

(** A run that is in use is freed as a whole. *)
Lemma free_pages_range_used m p start count m' p' r :
  wf m p → 0 ≤ start → 0 ≤ count → start + count ≤ total_pages p →
  (∀ i, start ≤ i < start + count → off_bitmap p i ∧ get_bit m p i = true) →
  free_pages_range m p (page_addr p start) count = (m', p', r) →
  r = Ok tt ∧ gave m p m' p' start count ∧ wf m' p'.
Proof.
  intros Hwf Hs Hc Ht Hused E.
  pose proof (free_pages_range_post m p start count Hwf Hs Hc) as H.
  rewrite E in H. lapply H; [clear H; intros H|].
  2:{ destruct Hwf. unfold page_addr, PAGE_SIZE in *. lia. }
  lapply H; [clear H; intros H|intros i Hi; by apply Hused].
  destruct r as [[]|e]; simpl in H; [by destruct H as (? & ? & _)|]. exfalso.
  destruct H as (k & Hk & [-> Hb _] & Hw & Ef).
  pose proof (free_page_post _ _ (page_addr p (start + k)) Hw) as Hp.
  rewrite Ef in Hp. destruct Hp as (_ & _ & Hp).
  destruct (Hused (start + k)) as [_ Hbk]; [lia|].
  assert (0 ≤ start + k < total_pages p) as Hkt by lia. destruct Hwf.
  unfold page_addr, PAGE_SIZE in *. simpl in Hp. destruct Hp as [[_ Hp]|[(_ & _ & Hp)|(_ & i & Hi & Hir & Hbi)]].
  - simpl in Hp. lia.
  - apply Hp. rewrite Z.mod_add by lia. done.
  - assert (i = start + k) as -> by lia. rewrite Hb, Hbk in Hbi by lia.
    by rewrite (proj2 (inrange_false start (start + k) (start + k))) in Hbi by lia.
Qed.

(** ** Reserving *)

(** What the loops of [new] and [reserve_range] keep: the counter is exact and
    the marked pages of [lo .. i) are added to those of [m]. *)
Record marked (m : mem) (p : Pmm) (lo i : Z) (s : mem * Pmm) : Prop := {
  marked_bytes : bytes s.1;
  marked_pmm : s.2 = set_free_page_count p (free_page_count s.2);
  marked_bits : ∀ j, 0 ≤ j < total_pages p →
    get_bit s.1 p j = inrange lo i j || get_bit m p j;
  marked_count : free_page_count s.2 = free_pages s.1 p;
  marked_frame : ∀ a, ¬ in_bitmap p a → rd s.1 a = rd m a
}.

Lemma marked_skip m p lo i s :
  0 ≤ lo ≤ i → marked m p lo i s → (i < total_pages p → get_bit s.1 p i = true) →
  marked m p lo (i + 1) s.
Proof.
  intros Hlo [] Hskip. split; try done. intros j Hj.
  destruct (decide (j = i)) as [->|].
  - rewrite Hskip by lia. by rewrite (proj2 (inrange_true lo (i + 1) i)) by lia.
  - rewrite marked_bits0 by done. f_equal. apply eq_true_iff_eq.
    rewrite !inrange_true. lia.
Qed.

Lemma marked_mark m p lo i m1 p1 :
  0 ≤ lo ≤ i → i < total_pages p → marked m p lo i (m1, p1) →
  get_bit m1 p i = false →
  marked m p lo (i + 1)
    (set_bit m1 p i, set_free_page_count p1 (saturating_sub (free_page_count p1) 1)).
Proof.
  intros Hlo Hi [] Hb. simpl in *.
  assert (Hbits : ∀ j, 0 ≤ j → get_bit (set_bit m1 p i) p j = (i =? j) || get_bit m1 p j)
    by (intros; apply get_set_bit; lia).
  split; simpl.
  - by apply bytes_set_bit.
  - rewrite marked_pmm0. done.
  - intros j Hj. rewrite Hbits, marked_bits0 by lia. rewrite orb_assoc. f_equal.
    apply eq_true_iff_eq. rewrite orb_true_iff, !inrange_true, Z.eqb_eq. lia.
  - rewrite marked_count0. unfold free_pages, saturating_sub.
    rewrite (countZ_off (λ j, negb (get_bit m1 p j))
      (λ j, negb (get_bit (set_bit m1 p i) p j)) (total_pages p) i).
    + pose proof (proj2 (countZ_pos (λ j, negb (get_bit m1 p j)) (total_pages p))) as Hpos.
      lapply Hpos; [lia|]. exists i. rewrite Hb. split; [lia|done].
    + lia.
    + by rewrite Hb.
    + rewrite Hbits by lia. by rewrite Z.eqb_refl.
    + intros j Hj Hne. rewrite Hbits by lia.
      by replace (i =? j) with false by (symmetry; apply Z.eqb_neq; lia).
  - intros a Ha. rewrite rd_set_bit by (done || lia). by apply marked_frame0.
Qed.

(** The body of both loops. *)
Lemma marked_step m p lo i m1 p1 :
  0 ≤ lo ≤ i → marked m p lo i (m1, p1) →
  marked m p lo (i + 1)
    (if (i <? total_pages p1) && negb (get_bit m1 p1 i) then
       (set_bit m1 p1 i,
        set_free_page_count p1 (saturating_sub (free_page_count p1) 1))
     else (m1, p1)).
Proof.
  intros Hlo Hm. pose proof (marked_pmm _ _ _ _ _ Hm) as Hp. simpl in Hp.
  assert (get_bit m1 p1 i = get_bit m1 p i) as -> by (rewrite Hp; done).
  assert (set_bit m1 p1 i = set_bit m1 p i) as -> by (rewrite Hp; done).
  assert (total_pages p1 = total_pages p) as -> by (rewrite Hp; done).
  destruct ((i <? total_pages p) && negb (get_bit m1 p i)) eqn:E.
  - break_cmp. by apply marked_mark.
  - apply marked_skip; [done..|]. intros Hi. simpl.
    apply andb_false_iff in E as [E|E]; break_cmp; [lia|done].
Qed.

Lemma marked_start m p lo : bytes m → free_page_count p = free_pages m p →
  marked m p lo lo (m, p).
Proof.
  intros Hb Hc. split; simpl; try done.
  - by destruct p.
  - intros j Hj. by rewrite (proj2 (inrange_false lo lo j)) by lia.
Qed.

Lemma marked_range m p lo hi :
  wf m p → 0 ≤ lo → 
  marked m p lo (Z.max lo hi) (for_each lo hi
    (λ i '(m, p), if (i <? total_pages p) && negb (get_bit m p i) then
       (set_bit m p i,
        set_free_page_count p (saturating_sub (free_page_count p) 1))
     else (m, p)) (m, p)).
Proof.
  intros [] Hlo. pose proof (marked_start m p lo wf_bytes0 wf_count0) as Hstart.
  destruct (decide (lo ≤ hi)).
  - rewrite Z.max_r by done.
    apply (for_each_rule (λ i s, marked m p lo i s)); [done|done|].
    intros i [m1 p1] Hi Hm. apply marked_step; [lia|done].
  - rewrite for_each_done, Z.max_l by lia. done.
Qed.

Lemma marked_wf m p lo hi m' p' :
  wf m p → marked m p lo hi (m', p') → wf m' p'.
Proof.
  intros [] []. simpl in *. rewrite marked_pmm0. split; simpl; try done.
  intros a Ha Hr. change (get_bit m' p ((a - base_addr p) / PAGE_SIZE) = true).
  unfold PAGE_SIZE in *. rewrite marked_bits0 by dlia. rewrite wf_self0 by done.
  apply orb_true_r.
Qed.

(** Page [j] meets the byte range [start .. start + size). *)
Definition page_meets (p : Pmm) (start size j : Z) : Prop :=
  page_addr p j < start + size ∧ start < page_addr p (j + 1).

Lemma reserve_range_post m p start size m' p' :
  wf m p → base_addr p ≤ start → 0 ≤ size → start + size < 2 ^ 64 →
  reserve_range m p start size = (m', p') →
  wf m' p' ∧ p' = set_free_page_count p (free_page_count p') ∧
  (∀ j, 0 ≤ j < total_pages p →
     get_bit m' p' j = true ↔ page_meets p start size j ∨ get_bit m p j = true) ∧
  (∀ a, ¬ in_bitmap p a → rd m' a = rd m a).
Proof.
  intros Hwf Hs Hsz Hlt E. unfold reserve_range in E.
  destruct (start <? base_addr p) eqn:Eb; break_cmp; [lia|].
  pose proof (wf_base m p Hwf). pose proof (wf_range m p Hwf).
  rewrite (usize_small (start + size)), (usize_small (start - base_addr p)) in E by lia.
  set (lo := (start - base_addr p) / PAGE_SIZE) in E.
  set (hi := if end_addr p <? start + size then total_pages p else _) in E.
  assert (Hlo : 0 ≤ lo) by (unfold lo, PAGE_SIZE; dlia).
  pose proof (marked_range m p lo hi Hwf Hlo) as Hm. rewrite E in Hm.
  assert (Hhi : ∀ j, 0 ≤ j < total_pages p →
    inrange lo (Z.max lo hi) j = true ↔ page_meets p start size j).
  { intros j Hj. rewrite inrange_true. unfold page_meets, page_addr.
    assert (lo ≤ j ↔ start < base_addr p + (j + 1) * PAGE_SIZE) as Hl
      by (unfold lo, PAGE_SIZE; dlia).
    assert (j < hi ↔ base_addr p + j * PAGE_SIZE < start + size) as Hh.
    { unfold hi. pose proof (wf_end m p Hwf). case_if.
      - unfold PAGE_SIZE in *. lia.
      - rewrite usize_small by (unfold PAGE_SIZE in *; lia). unfold PAGE_SIZE. dlia. }
    lia. }
  pose proof Hm as []. simpl in *. split_and!.
  - by eapply marked_wf.
  - done.
  - intros j Hj. rewrite marked_pmm0. change (get_bit m' p j = true ↔
      page_meets p start size j ∨ get_bit m p j = true).
    rewrite marked_bits0, orb_true_iff, Hhi by done. done.
  - done.
Qed.

(** ** Construction *)

Lemma get_bit_zeroed m p j :
  0 ≤ j < 8 * bitmap_len p →
  get_bit (write_zeros m (bitmap_ptr p) (bitmap_len p)) p j = false.
Proof.
  intros Hj. rewrite get_bit_testbit, rd_write_zeros_in, Z.bits_0 by dlia.
  rewrite orb_false_r. apply Z.leb_gt. dlia.
Qed.

(** The pages the bitmap occupies. *)
Definition bitmap_page (base j : Z) : bool :=
  inrange ((BITMAP_BASE - base) / PAGE_SIZE)
          ((BITMAP_BASE - base) / PAGE_SIZE + BITMAP_SIZE / PAGE_SIZE) j.

Lemma new_post m base size m' p' :
  bytes m → 0 ≤ base ≤ BITMAP_BASE → base mod PAGE_SIZE = 0 →
  0 ≤ size ≤ MAX_PHYS_MEMORY → size mod PAGE_SIZE = 0 →
  new m base size = (m', p') →
  wf m' p' ∧
  p' = mkPmm BITMAP_BASE BITMAP_SIZE (size / PAGE_SIZE) (free_page_count p') base (base + size) ∧
  (∀ j, 0 ≤ j < size / PAGE_SIZE → get_bit m' p' j = bitmap_page base j) ∧
  (∀ a, ¬ (BITMAP_BASE ≤ a < BITMAP_BASE + BITMAP_SIZE) → rd m' a = rd m a).
Proof.
  intros Hm Hb Hba Hsz Hsa E. unfold new in E.
  assert (HB : BITMAP_SIZE = 2097152 ∧ BITMAP_BASE = 5242880 ∧ MAX_PHYS_MEMORY = 68719476736)
    by done. destruct HB as (HBS & HBB & HMP).
  rewrite !usize_small in E by lia.
  set (m0 := write_zeros m BITMAP_BASE BITMAP_SIZE) in E.
  set (p0 := mkPmm _ _ _ _ _ _) in E.
  set (lo := (BITMAP_BASE - base) / PAGE_SIZE) in E.
  change ((BITMAP_SIZE + PAGE_SIZE - 1) / PAGE_SIZE) with (BITMAP_SIZE / PAGE_SIZE) in E.
  assert (Htot : 0 ≤ size / PAGE_SIZE ≤ 8 * BITMAP_SIZE) by (unfold PAGE_SIZE; dlia).
  assert (Hz : ∀ j, 0 ≤ j < size / PAGE_SIZE → get_bit m0 p0 j = false).
  { intros j Hj. apply (get_bit_zeroed m p0 j). simpl. lia. }
  assert (Hm' : marked m0 p0 lo (lo + BITMAP_SIZE / PAGE_SIZE) (m', p')).
  { rewrite <- E. apply (for_each_rule (λ i s, marked m0 p0 lo i s)).
    - change (BITMAP_SIZE / PAGE_SIZE) with 512. lia.
    - apply marked_start; [by apply bytes_write_zeros|]. symmetry.
      apply countZ_all; [simpl; lia|]. intros i Hi. by rewrite Hz.
    - intros i [m1 p1] Hi Hmk. pose proof (marked_step m0 p0 lo i m1 p1) as Hst.
      lapply Hst; [clear Hst; intros Hst|unfold lo, PAGE_SIZE in *; dlia].
      specialize (Hst Hmk). pose proof (marked_pmm _ _ _ _ _ Hmk) as Hp1. simpl in Hp1.
      assert (total_pages p1 = size / PAGE_SIZE) as Ht1 by (rewrite Hp1; done).
      rewrite Ht1 in Hst. destruct (i <? size / PAGE_SIZE) eqn:Ei; break_cmp; [|done].
      simpl in Hst. replace (get_bit m1 p1 i) with false in Hst; [done|].
      rewrite Hp1. change (false = get_bit m1 p0 i).
      rewrite (marked_bits _ _ _ _ _ Hmk), Hz by (simpl; unfold lo, PAGE_SIZE in *; dlia).
      by rewrite (proj2 (inrange_false lo i i)) by lia. }
  pose proof Hm' as []. simpl in *.
  assert (Hbits : ∀ j, 0 ≤ j < size / PAGE_SIZE → get_bit m' p' j = bitmap_page base j).
  { intros j Hj. rewrite marked_pmm0. change (get_bit m' p0 j = bitmap_page base j).
    rewrite marked_bits0, Hz by done. apply orb_false_r. }
  split_and!.
  - rewrite marked_pmm0 in Hbits |- *. split; simpl; try done; try lia.
    + unfold PAGE_SIZE in *. dlia.
    + unfold PAGE_SIZE. lia.
    + intros a Ha Hr. rewrite Hbits by (unfold PAGE_SIZE in *; dlia).
      apply inrange_true. unfold in_bitmap in Ha. simpl in Ha. unfold PAGE_SIZE in *. dlia.
  - done.
  - done.
  - intros a Ha. rewrite marked_frame0 by done. by apply rd_write_zeros_out.
Qed.

(** ** Clients of the allocator

    A state of the system is the store, the manager and the blocks handed out
    and not yet given back, each as its first page and its number of pages.  A
    client allocates, gives a block back, reserves a range or writes a byte of a
    block it holds. *)

Record system := mkSystem {
  sys_mem : mem;
  sys_pmm : Pmm;
  sys_blocks : list (Z * Z)
}.

Definition block_pages (b : Z * Z) : list Z := seqZ b.1 b.2.
Definition held_pages (bs : list (Z * Z)) : list Z := mjoin (block_pages <$> bs).

Inductive step : system → system → Prop :=
  | step_alloc_page m p bs m' p' i :
      alloc_page m p = (m', p', Ok (page_addr p i)) →
      step (mkSystem m p bs) (mkSystem m' p' ((i, 1) :: bs))
  | step_alloc_page_err m p bs m' p' e :
      alloc_page m p = (m', p', Err e) →
      step (mkSystem m p bs) (mkSystem m' p' bs)
  | step_alloc_pages m p bs m' p' start count :
      0 < count →
      alloc_pages m p count = Ret (m', p', Ok (page_addr p start)) →
      step (mkSystem m p bs) (mkSystem m' p' ((start, count) :: bs))
  | step_alloc_pages_err m p bs m' p' count e :
      0 < count → alloc_pages m p count = Ret (m', p', Err e) →
      step (mkSystem m p bs) (mkSystem m' p' bs)
  | step_free m p bs1 bs2 m' p' start count r :
      free_pages_range m p (page_addr p start) count = (m', p', r) →
      step (mkSystem m p (bs1 ++ (start, count) :: bs2)) (mkSystem m' p' (bs1 ++ bs2))
  | step_reserve m p bs m' p' start size :
      base_addr p ≤ start → 0 ≤ size → start + size < 2 ^ 64 →
      reserve_range m p start size = (m', p') →
      step (mkSystem m p bs) (mkSystem m' p' bs)
  | step_write m p bs start count a v :
      (start, count) ∈ bs →
      page_addr p start ≤ a < page_addr p (start + count) → 0 ≤ v < 256 →
      step (mkSystem m p bs) (mkSystem (wr m a v) p bs).

(** The manager is well formed, no page is in two blocks, and the pages of every
    block are in use and hold no part of the bitmap. *)
Record safe (s : system) : Prop := {
  safe_wf : wf (sys_mem s) (sys_pmm s);
  safe_disjoint : NoDup (held_pages (sys_blocks s));
  safe_counts : Forall (λ b, 0 < b.2) (sys_blocks s);
  safe_used : ∀ i, i ∈ held_pages (sys_blocks s) →
    0 ≤ i < total_pages (sys_pmm s) ∧ get_bit (sys_mem s) (sys_pmm s) i = true ∧
    off_bitmap (sys_pmm s) i
}.

Lemma elem_of_block_pages start count i :
  i ∈ block_pages (start, count) ↔ start ≤ i < start + count.
Proof. unfold block_pages. simpl. rewrite elem_of_seqZ. lia. Qed.

Lemma held_pages_app bs1 bs2 : held_pages (bs1 ++ bs2) = held_pages bs1 ++ held_pages bs2.
Proof. unfold held_pages. by rewrite fmap_app, join_app. Qed.

Lemma held_pages_cons b bs : held_pages (b :: bs) = block_pages b ++ held_pages bs.
Proof. done. Qed.

Lemma elem_of_held start count bs i :
  (start, count) ∈ bs → start ≤ i < start + count → i ∈ held_pages bs.
Proof.
  intros Hb Hi. unfold held_pages. apply list_elem_of_join.
  exists (block_pages (start, count)). split; [by apply elem_of_block_pages|].
  apply list_elem_of_fmap. by eexists.
Qed.

Lemma off_bitmap_count p n i : off_bitmap (set_free_page_count p n) i ↔ off_bitmap p i.
Proof. done. Qed.

(** Handing out a run of free pages keeps the system safe. *)
Lemma safe_alloc m p bs m' p' start count :
  0 < count → safe (mkSystem m p bs) →
  free_run m p start count → wf m' p' → took m p m' p' start count →
  safe (mkSystem m' p' ((start, count) :: bs)).
Proof.
  intros Hc [Hwf Hdis Hcnt Hused] Hrun Hwf' [Hp Hbits _ _]. simpl in *.
  pose proof Hrun as (Hs & Ht & Hfree).
  split; simpl; [done| |by constructor|].
  - rewrite held_pages_cons. apply NoDup_app. split_and!; [apply NoDup_seqZ| |done].
    intros i Hi%elem_of_block_pages Hi'. destruct (Hused i Hi') as (_ & Hb & _).
    by rewrite Hfree in Hb.
  - intros i Hi. rewrite held_pages_cons in Hi. apply elem_of_app in Hi as [Hi|Hi].
    + apply elem_of_block_pages in Hi. rewrite Hbits by lia. subst p'.
      split; [simpl; lia|split].
      * by rewrite (proj2 (inrange_true start (start + count) i)).
      * intros a Ha. apply (free_run_off_bitmap m p start count a Hwf Hrun).
        unfold page_addr, PAGE_SIZE in *. simpl in *. lia.
    + destruct (Hused i Hi) as (Hir & Hb & Hoff). rewrite Hbits by lia. subst p'.
      split; [done|split; [by rewrite Hb, orb_true_r|done]].
Qed.

Lemma safe_free m p bs1 bs2 m' p' start count r :
  safe (mkSystem m p (bs1 ++ (start, count) :: bs2)) →
  free_pages_range m p (page_addr p start) count = (m', p', r) →
  safe (mkSystem m' p' (bs1 ++ bs2)).
Proof.
  intros [Hwf Hdis Hcnt Hused] E. simpl in *.
  rewrite held_pages_app, held_pages_cons in Hdis, Hused.
  rewrite Permutation_app_swap_app in Hdis.
  apply Forall_app in Hcnt as [Hc1 Hc2]. inversion Hc2 as [|? ? Hc0 Hc2']; subst.
  simpl in Hc0.
  assert (Hrun : ∀ i, start ≤ i < start + count → 0 ≤ i < total_pages p ∧
    get_bit m p i = true ∧ off_bitmap p i).
  { intros i Hi. apply Hused. rewrite !elem_of_app. right; left.
    by apply elem_of_block_pages. }
  destruct (free_pages_range_used m p start count m' p' r) as (_ & [Hp Hbits _] & Hw').
  - done.
  - apply (Hrun start). lia.
  - lia.
  - destruct (Hrun (start + count - 1)); lia.
  - intros i Hi. by destruct (Hrun i Hi) as (_ & ? & ?).
  - done.
  - apply NoDup_app in Hdis as (_ & Hsep & Hrest).
    split; simpl; [done|by rewrite held_pages_app|by apply Forall_app|].
    intros i Hi. rewrite held_pages_app in Hi.
    assert (Hni : ¬ start ≤ i < start + count).
    { intros Hi'. by apply (Hsep i); [apply elem_of_block_pages|]. }
    destruct (Hused i) as (Hir & Hb & Hoff).
    { rewrite !elem_of_app in *. tauto. }
    rewrite Hbits by lia. subst p'. split; [done|split; [|done]].
    rewrite Hb. by rewrite (proj2 (inrange_false start (start + count) i)).
Qed.

Lemma safe_reserve m p bs m' p' start size :
  safe (mkSystem m p bs) →
  base_addr p ≤ start → 0 ≤ size → start + size < 2 ^ 64 →
  reserve_range m p start size = (m', p') →
  safe (mkSystem m' p' bs).
Proof.
  intros [Hwf Hdis Hcnt Hused] Hs Hsz Hlt E. simpl in *.
  destruct (reserve_range_post m p start size m' p') as (Hw & Hp & Hbits & _); [done..|].
  split; simpl; [done..|]. intros i Hi. destruct (Hused i Hi) as (Hir & Hb & Hoff).
  split; [by rewrite Hp|split; [|by rewrite Hp]]. apply Hbits; [done|]. by right.
Qed.

Lemma safe_write m p bs start count a v :
  safe (mkSystem m p bs) → (start, count) ∈ bs →
  page_addr p start ≤ a < page_addr p (start + count) → 0 ≤ v < 256 →
  safe (mkSystem (wr m a v) p bs).
Proof.
  intros [Hwf Hdis Hcnt Hused] Hin Ha Hv. simpl in *.
  assert (Hoff : ¬ in_bitmap p a).
  { set (i := (a - base_addr p) / PAGE_SIZE).
    assert (start ≤ i < start + count) as Hi
      by (unfold i, page_addr, PAGE_SIZE in *; dlia).
    destruct (Hused i) as (_ & _ & Hoff); [by eapply elem_of_held|].
    apply Hoff. unfold i, page_addr, PAGE_SIZE in *. dlia. }
  assert (Hbits : ∀ j, 0 ≤ j → get_bit (wr m a v) p j = get_bit m p j).
  { intros j Hj. apply get_bit_ext; [done|]. intros b Hb. apply rd_wr_ne.
    by intros ->. }
  pose proof Hwf as []. split; simpl; [split; try done|done|done|].
  - by apply bytes_wr.
  - rewrite wf_count0. apply countZ_ext. intros j Hj. by rewrite Hbits by lia.
  - intros b Hb Hr. rewrite Hbits by (unfold PAGE_SIZE; dlia). by apply wf_self0.
  - intros i Hi. destruct (Hused i Hi) as (Hir & Hb & Ho). by rewrite Hbits by lia.
Qed.

Lemma page_addr_inj p i j : page_addr p i = page_addr p j → i = j.
Proof. unfold page_addr, PAGE_SIZE. lia. Qed.

Lemma safe_step s s' : step s s' → safe s → safe s'.
Proof.
  destruct 1 as [m p bs m' p' i E|m p bs m' p' e E|m p bs m' p' start count Hc E
    |m p bs m' p' count e Hc E|m p bs1 bs2 m' p' start count r E
    |m p bs m' p' start size Hs Hsz Hlt E|m p bs start count a v Hin Ha Hv];
    intros Hsafe; pose proof (safe_wf _ Hsafe) as Hwf; simpl in Hwf.
  - pose proof (alloc_page_post m p Hwf) as Hpost. rewrite E in Hpost.
    destruct Hpost as (j & <-%page_addr_inj & Hrun & _ & Hw & Ht).
    by eapply safe_alloc.
  - pose proof (alloc_page_post m p Hwf) as Hpost. rewrite E in Hpost.
    by destruct Hpost as (_ & -> & -> & _).
  - destruct (alloc_pages_post m p count Hwf Hc) as (r & E' & Hpost).
    rewrite E' in E. injection E as ->.
    destruct Hpost as (j & <-%page_addr_inj & Hrun & _ & Hw & Ht).
    by eapply safe_alloc.
  - destruct (alloc_pages_post m p count Hwf Hc) as (r & E' & Hpost).
    rewrite E' in E. injection E as ->. by destruct Hpost as (_ & -> & -> & _).
  - by eapply safe_free.
  - by eapply safe_reserve.
  - by eapply safe_write.
Qed.

(** ** Properties *)

(** The state the kernel starts from: a fresh manager and no block handed out. *)
Definition initial (m : mem) (base size : Z) : system :=
  let '(m', p') := new m base size in mkSystem m' p' [].

(** A 16 MB machine, for the witnesses. *)
Definition demo : mem * Pmm := new ∅ KERNEL_BASE 0x1000000.

Lemma demo_wf : wf demo.1 demo.2.
Proof.
  destruct (new_post ∅ KERNEL_BASE 0x1000000 demo.1 demo.2) as [H _].
  - apply bytes_empty.
  - vm_compute. split; congruence.
  - reflexivity.
  - vm_compute. split; congruence.
  - reflexivity.
  - unfold demo. by rewrite <- surjective_pairing.
  - exact H.
Qed.

Definition demo1 : mem * Pmm * KernelResult Z := alloc_page demo.1 demo.2.

Lemma demo1_wf : wf demo1.1.1 demo1.1.2.
Proof. unfold demo1. apply alloc_page_wf, demo_wf. Qed.

Lemma off_bitmap_below p n i : i < n → page_addr p n ≤ bitmap_ptr p → off_bitmap p i.
Proof.
  intros Hi Hn a Ha. unfold in_bitmap, page_addr, PAGE_SIZE in *. lia.
Qed.

Lemma demo_initial : initial ∅ KERNEL_BASE 0x1000000 = mkSystem demo.1 demo.2 [].
Proof. unfold initial, demo. by destruct (new ∅ KERNEL_BASE 0x1000000). Qed.

(** C1. Whatever sequence of allocations, releases of held blocks, reservations
    and client writes follows the construction of the manager, no page is in two
    blocks that are held at the same time, every held page is marked used and
    lies in the managed range, the counter [free_page_count] is exactly the
    number of clear bits, and neither the zeroing of fresh pages nor the clients'
    writes have touched the bitmap. *)
Theorem pmm_reachable_safe m base size s :
  bytes m → 0 ≤ base ≤ BITMAP_BASE → base mod PAGE_SIZE = 0 →
  0 ≤ size ≤ MAX_PHYS_MEMORY → size mod PAGE_SIZE = 0 →
  rtc step (initial m base size) s →
  safe s.
Proof.
  intros Hm Hb Hba Hsz Hsa Hsteps. unfold initial in Hsteps.
  destruct (new m base size) as [m0 p0] eqn:E.
  destruct (new_post m base size m0 p0) as (Hwf & _); [done..|].
  assert (Hinit : safe (mkSystem m0 p0 [])).
  { split; simpl; [done|constructor|constructor|]. intros i Hi. by apply elem_of_nil in Hi. }
  clear E. induction Hsteps as [|s1 s2 s3 Hstep _ IH]; [done|].
  apply IH. by eapply safe_step.
Qed.

Lemma pmm_reachable_safe_witness :
  let s := mkSystem (alloc_page demo.1 demo.2).1.1 (alloc_page demo.1 demo.2).1.2 [(0, 1)] in
  rtc step (initial ∅ KERNEL_BASE 0x1000000) s ∧ safe s ∧ free_page_count (sys_pmm s) = 3583.
Proof.
  intros s. assert (Hs : rtc step (initial ∅ KERNEL_BASE 0x1000000) s).
  { rewrite demo_initial. eapply rtc_l; [|apply rtc_refl].
    apply (step_alloc_page demo.1 demo.2), eta3. vm_compute. reflexivity. }
  split; [exact Hs|split; [|vm_compute; reflexivity]].
  apply (pmm_reachable_safe ∅ KERNEL_BASE 0x1000000 s).
  - apply bytes_empty.
  - vm_compute. split; congruence.
  - reflexivity.
  - vm_compute. split; congruence.
  - reflexivity.
  - exact Hs.
Defined.

(** [alloc_page] returns the lowest free page, marked, zeroed and removed
    from the counter, with every other bit and every byte outside the page and
    the bitmap unchanged; it fails, with [OutOfMemory] and no effect, exactly
    when no page is free. *)
Theorem alloc_page_first_free m p :
  wf m p → alloc_post m p 1 (alloc_page m p).
Proof. apply alloc_page_post. Qed.

Lemma alloc_page_first_free_witness : alloc_post demo.1 demo.2 1 (alloc_page demo.1 demo.2).
Proof. apply (alloc_page_first_free demo.1 demo.2). exact demo_wf. Defined.

(** C17. [alloc_pages] never panics.  It is first fit: the block it returns is the
    first run of [count] free pages, taken as a whole, and it fails only when
    the managed range holds no such run.  A request for zero pages always
    fails. *)
Theorem alloc_pages_first_fit m p count :
  wf m p → 0 ≤ count →
  ∃ r, alloc_pages m p count = Ret r ∧
    if count =? 0 then r = (m, p, Err OutOfMemory) else alloc_post m p count r.
Proof.
  intros Hwf Hc. destruct (count =? 0) eqn:E; break_cmp.
  - subst. eexists. split; [by apply alloc_pages_zero|done].
  - apply alloc_pages_post; [done|lia].
Qed.

Lemma alloc_pages_first_fit_witness :
  ∃ r, alloc_pages demo.1 demo.2 2000 = Ret r ∧ alloc_post demo.1 demo.2 2000 r ∧
    r.2 = Ok 0x700000.
Proof.
  destruct (alloc_pages_first_fit demo.1 demo.2 2000) as (r & E & Hr).
  - exact demo_wf.
  - lia.
  - exists r. split; [exact E|split; [exact Hr|]].
    assert (H : match alloc_pages demo.1 demo.2 2000 with
                | Ret r => r.2 = Ok 0x700000 | Panic => False end)
      by (vm_compute; reflexivity).
    rewrite E in H. exact H.
Defined.

(** C18. [free_page] accepts exactly the addresses of managed pages in use: it
    clears that one bit and raises the counter by one, so that the manager stays
    well formed unless the page holds a part of the bitmap itself.  An address
    out of range, one that is not page aligned and a page that is already free
    are refused with [InvalidAddress], [InvalidArgument] and [PageNotMapped],
    without effect. *)
Theorem free_page_exact m p addr :
  wf m p → free_post m p addr (free_page m p addr).
Proof. apply free_page_post. Qed.

Lemma free_page_exact_witness :
  free_post demo.1 demo.2 0x500000 (free_page demo.1 demo.2 0x500000) ∧
  (free_page demo.1 demo.2 0x100000).2 = Err PageNotMapped.
Proof.
  split; [apply (free_page_exact demo.1 demo.2); exact demo_wf|vm_compute; reflexivity].
Defined.

(** [free_pages_range] on pages off the bitmap either frees all of them, or
    stops at the first page [free_page] refuses and returns that error with the
    pages before it already given back: it is not atomic. *)
Theorem free_pages_range_prefix m p start count :
  wf m p → 0 ≤ start → 0 ≤ count → page_addr p (start + count) < 2 ^ 64 →
  (∀ i, start ≤ i < start + count → off_bitmap p i) →
  free_range_post m p start count (free_pages_range m p (page_addr p start) count).
Proof. apply free_pages_range_post. Qed.

Lemma free_pages_range_prefix_witness :
  free_range_post demo1.1.1 demo1.1.2 0 2
    (free_pages_range demo1.1.1 demo1.1.2 (page_addr demo1.1.2 0) 2) ∧
  (free_pages_range demo1.1.1 demo1.1.2 KERNEL_BASE 2).2 = Err PageNotMapped.
Proof.
  split; [|vm_compute; reflexivity].
  apply (free_pages_range_prefix demo1.1.1 demo1.1.2 0 2).
  - exact demo1_wf.
  - lia.
  - lia.
  - vm_compute. reflexivity.
  - intros i Hi. apply (off_bitmap_below _ 2); [lia|]. vm_compute. congruence.
Defined.

(** [reserve_range] marks exactly the managed pages that meet the byte range
    [start .. start + size), whatever their alignment, leaves all other bits
    alone and keeps the counter exact, however often ranges overlap. *)
Theorem reserve_range_exact m p start size m' p' :
  wf m p → base_addr p ≤ start → 0 ≤ size → start + size < 2 ^ 64 →
  reserve_range m p start size = (m', p') →
  wf m' p' ∧
  (∀ j, 0 ≤ j < total_pages p →
     get_bit m' p' j = true ↔ page_meets p start size j ∨ get_bit m p j = true) ∧
  (∀ a, ¬ in_bitmap p a → rd m' a = rd m a).
Proof.
  intros Hwf Hs Hsz Hlt E.
  by destruct (reserve_range_post m p start size m' p') as (? & _ & ? & ?).
Qed.

Lemma reserve_range_exact_witness :
  let r := reserve_range demo.1 demo.2 0x101800 0x1000 in
  wf r.1 r.2 ∧ get_bit r.1 r.2 1 = true ∧ get_bit r.1 r.2 2 = true ∧
  get_bit r.1 r.2 3 = false.
Proof.
  intros r. split; [|vm_compute; tauto].
  apply (reserve_range_exact demo.1 demo.2 0x101800 0x1000 r.1 r.2).
  - exact demo_wf.
  - vm_compute. congruence.
  - lia.
  - lia.
  - unfold r. by rewrite <- surjective_pairing.
Defined.

End Pmm.
