(* ===== verification/Heap.v ===== *)
(** * The kernel heap (src/memory/heap.rs)

    Ten slab classes of blocks of 8 to 4096 bytes, each with a free list of at
    most 1024 blocks, over a bump pointer that hands out 4 KB pages to the
    classes and everything larger than 4 KB directly.  The allocator's own
    state is a static, outside the heap region; the region itself is part of
    the store, which the allocator zeroes page by page. *)

From stdpp Require Import base numbers list gmap.
From S2P Require Import Prelude Memory.
Open Scope Z_scope.

Module Heap.

Definition SLAB_MIN_SIZE : Z := 8.
Definition SLAB_MAX_SIZE : Z := 4096.
Definition SLAB_CLASSES : Z := 10.
Definition MAX_BLOCKS_PER_CLASS : Z := 1024.

Record SlabClass := mkSlab {
  block_size : Z;
  free_list : list Z;
  free_count : Z;
  total_count : Z;
  next_page : Z
}.

Record SlabAllocator := mkHeap {
  heap_start : Z;
  heap_size : Z;
  bump_offset : Z;
  slabs : list SlabClass
}.

(** [core::alloc::Layout]. *)
Record Layout := mkLayout {
  layout_size : Z;
  layout_align : Z
}.

#[export] Instance Layout_eq_dec : EqDecision Layout.
Proof. solve_decision. Defined.

Definition set_slabs (h : SlabAllocator) (l : list SlabClass) : SlabAllocator :=
  mkHeap (heap_start h) (heap_size h) (bump_offset h) l.
Definition set_bump (h : SlabAllocator) (n : Z) : SlabAllocator :=
  mkHeap (heap_start h) (heap_size h) n (slabs h).

Definition SlabClass_new (size : Z) : SlabClass :=
  mkSlab size (replicate (Z.to_nat MAX_BLOCKS_PER_CLASS) 0) 0 0 0.

Definition make_slab (idx : Z) : SlabClass :=
  SlabClass_new (Z.shiftl SLAB_MIN_SIZE idx).

Definition SlabAllocator_new : SlabAllocator :=
  mkHeap 0 0 0 (make_slab <$> [0; 1; 2; 3; 4; 5; 6; 7; 8; 9]).

(** [slab.free_list[at] = v]: an index out of range panics. *)
Definition arr_set (l : list Z) (at_ v : Z) : outcome (list Z) :=
  if (0 <=? at_) && (at_ <? Z.of_nat (length l))
  then Ret (<[Z.to_nat at_ := v]> l) else Panic.

Definition arr_get (l : list Z) (at_ : Z) : outcome Z :=
  if 0 <=? at_ then
    match l !! Z.to_nat at_ with Some v => Ret v | None => Panic end
  else Panic.

(** The loop that puts the blocks of a fresh page on the free list:
    [for j in 0..n { free_list[base + j] = page + j * block_size; ... }]. *)
Definition push_blocks (l : list Z) (base page size n : Z) : outcome (list Z) :=
  match
    for_loop 0 n
      (λ j l, match arr_set l (base + j) (page + j * size)%usize with
              | Ret l' => inl l'
              | Panic => inr tt
              end) l
  with
  | inl l' => Ret l'
  | inr _ => Panic
  end.

(** One round of the loop of [init]: the slab gets the page at [page_addr]. *)
Definition init_slab (s : SlabClass) (page_addr : Z) : outcome SlabClass :=
  if block_size s =? 0 then Panic
  else
    let blocks_per_page := 4096 / block_size s in
    let n := Z.min blocks_per_page MAX_BLOCKS_PER_CLASS in
    obind (push_blocks (free_list s) 0 page_addr (block_size s) n) (λ l,
      Ret (mkSlab (block_size s) l n n page_addr)).

(** [SlabAllocator::init]; [initialized] is the static [HEAP_INITIALIZED]. *)
Definition init (m : mem) (initialized : bool) (h : SlabAllocator) (start size : Z)
    : outcome (mem * bool * SlabAllocator) :=
  if initialized then Ret (m, initialized, h)
  else
    let h0 := mkHeap start size 0 (slabs h) in
    match
      for_loop 0 SLAB_CLASSES
        (λ i '(m, h, offset),
           match slabs h !! Z.to_nat i with
           | None => inr tt
           | Some s =>
               let page_addr := (start + offset)%usize in
               match init_slab s page_addr with
               | Panic => inr tt
               | Ret s' =>
                   inl (write_zeros m page_addr 4096,
                        set_slabs h (<[Z.to_nat i := s']> (slabs h)),
                        (offset + 4096)%usize)
               end
           end) (m, h0, 0)
    with
    | inr _ => Panic
    | inl (m', h', offset) => Ret (m', true, set_bump h' offset)
    end.

Definition find_slab_class (size : Z) : option Z :=
  if (SLAB_MAX_SIZE <? size) || (size =? 0) then None
  else
    match
      for_loop 0 SLAB_CLASSES
        (λ i (_ : unit),
           if size <=? Z.shiftl SLAB_MIN_SIZE i then inr i else inl tt) tt
    with
    | inr i => Some i
    | inl _ => None
    end.

(** A null pointer is 0. *)
Definition alloc_from_slab (m : mem) (h : SlabAllocator) (class_idx : Z)
    : outcome (mem * SlabAllocator * Z) :=
  match slabs h !! Z.to_nat class_idx with
  | None => Panic
  | Some s =>
      if 0 <? free_count s then
        let n := free_count s - 1 in
        obind (arr_get (free_list s) n) (λ ptr,
          Ret (m, set_slabs h (<[Z.to_nat class_idx :=
                 mkSlab (block_size s) (free_list s) n (total_count s) (next_page s)]>
                 (slabs h)), ptr))
      else if heap_size h <? (bump_offset h + 4096)%usize then Ret (m, h, 0)
      else
        let new_page := (heap_start h + bump_offset h)%usize in
        let h1 := set_bump h (bump_offset h + 4096)%usize in
        let m1 := write_zeros m new_page 4096 in
        if block_size s =? 0 then Panic
        else
          let blocks_per_page := 4096 / block_size s in
          let added := Z.min blocks_per_page
                         (MAX_BLOCKS_PER_CLASS - total_count s)%usize in
          obind (push_blocks (free_list s) (free_count s) new_page (block_size s) added)
            (λ l,
               let total := total_count s + added in
               let fc := free_count s + added in
               if 0 <? fc then
                 obind (arr_get l (fc - 1)) (λ ptr,
                   Ret (m1, set_slabs h1 (<[Z.to_nat class_idx :=
                          mkSlab (block_size s) l (fc - 1) total (next_page s)]>
                          (slabs h1)), ptr))
               else
                 Ret (m1, set_slabs h1 (<[Z.to_nat class_idx :=
                        mkSlab (block_size s) l fc total (next_page s)]>
                        (slabs h1)), 0))
  end.

Definition alloc_bump (h : SlabAllocator) (size align : Z) : SlabAllocator * Z :=
  let aligned_offset :=
    Z.land (bump_offset h + align - 1)%usize (usize_not (align - 1)%usize) in
  let new_offset := (aligned_offset + size)%usize in
  if heap_size h <? new_offset then (h, 0)
  else (set_bump h new_offset, (heap_start h + aligned_offset)%usize).

Definition free_to_slab (h : SlabAllocator) (ptr class_idx : Z) : outcome SlabAllocator :=
  match slabs h !! Z.to_nat class_idx with
  | None => Panic
  | Some s =>
      if free_count s <? MAX_BLOCKS_PER_CLASS then
        obind (arr_set (free_list s) (free_count s) ptr) (λ l,
          Ret (set_slabs h (<[Z.to_nat class_idx :=
                 mkSlab (block_size s) l (free_count s + 1) (total_count s) (next_page s)]>
                 (slabs h))))
      else Ret h
  end.

Definition aligned_size (l : Layout) : Z :=
  if layout_size l <? layout_align l then layout_align l else layout_size l.

Definition alloc (m : mem) (h : SlabAllocator) (l : Layout)
    : outcome (mem * SlabAllocator * Z) :=
  let bump := let '(h', ptr) := alloc_bump h (aligned_size l) (layout_align l) in
              Ret (m, h', ptr) in
  match find_slab_class (aligned_size l) with
  | Some class_idx =>
      match slabs h !! Z.to_nat class_idx with
      | None => Panic
      | Some s =>
          if layout_align l <=? block_size s then alloc_from_slab m h class_idx
          else bump
      end
  | None => bump
  end.

Definition dealloc (h : SlabAllocator) (ptr : Z) (l : Layout) : outcome SlabAllocator :=
  match find_slab_class (aligned_size l) with
  | Some class_idx => free_to_slab h ptr class_idx
  | None => Ret h
  end.

(** [heap_stats]: used and free blocks and the block size of each class. *)
Record HeapStats := mkStats {
  stat_heap_start : Z;
  stat_heap_size : Z;
  bump_used : Z;
  slab_used : list Z;
  slab_free : list Z;
  slab_block_size : list Z
}.

Definition heap_stats (h : SlabAllocator) : HeapStats :=
  mkStats (heap_start h) (heap_size h) (bump_offset h)
    ((λ s, (total_count s - free_count s)%usize) <$> slabs h)
    (free_count <$> slabs h) (block_size <$> slabs h).

(** ** Size classes *)

Definition class_size (c : Z) : Z := SLAB_MIN_SIZE * 2 ^ c.

Lemma class_size_shift c : 0 ≤ c → Z.shiftl SLAB_MIN_SIZE c = class_size c.
Proof. intros. by rewrite Z.shiftl_mul_pow2. Qed.

Lemma class_size_pos c : 0 ≤ c → 8 ≤ class_size c.
Proof. intros. unfold class_size, SLAB_MIN_SIZE. pose proof (Z.pow_pos_nonneg 2 c). lia. Qed.

Lemma class_size_le c : 0 ≤ c < SLAB_CLASSES → class_size c ≤ 4096.
Proof.
  intros. unfold class_size, SLAB_MIN_SIZE, SLAB_CLASSES in *.
  pose proof (Z.pow_le_mono_r 2 c 9). lia.
Qed.

(** The blocks of a class tile a page. *)
Lemma class_size_divides c :
  0 ≤ c < SLAB_CLASSES → 4096 / class_size c * class_size c = 4096.
Proof.
  intros Hc. unfold class_size, SLAB_MIN_SIZE, SLAB_CLASSES in *.
  replace 4096 with (2 ^ (9 - c) * (8 * 2 ^ c)) at 1.
  - rewrite Z.div_mul by (pose proof (Z.pow_pos_nonneg 2 c); lia).
    replace (8 * 2 ^ c) with (2 ^ (3 + c)) by (rewrite Z.pow_add_r; lia).
    rewrite <- Z.pow_add_r by lia. by replace (9 - c + (3 + c)) with 12 by lia.
  - replace (8 * 2 ^ c) with (2 ^ (3 + c)) by (rewrite Z.pow_add_r; lia).
    rewrite <- Z.pow_add_r by lia. by replace (9 - c + (3 + c)) with 12 by lia.
Qed.

Lemma find_slab_class_none size :
  0 ≤ size → find_slab_class size = None ↔ size = 0 ∨ SLAB_MAX_SIZE < size.
Proof.
  intros Hs. unfold find_slab_class.
  destruct ((SLAB_MAX_SIZE <? size) || (size =? 0)) eqn:E.
  { apply orb_true_iff in E. rewrite Z.ltb_lt, Z.eqb_eq in E. tauto. }
  break_cmp. split; [|lia].
  loop_inv (λ i (_ : unit), ∀ j, 0 ≤ j < i → class_size j < size) (λ _ : Z, True);
    [intros Hl|done|lia|].
  - destruct (for_loop _ _ _ _) as [[]|i]; [|done]. intros _.
    specialize (Hl 9 ltac:(done)). unfold class_size, SLAB_MIN_SIZE, SLAB_MAX_SIZE in *. lia.
  - intros i [] Hi IH. rewrite class_size_shift by lia.
    destruct (size <=? class_size i) eqn:Ei; break_cmp; [done|].
    intros j Hj. destruct (decide (j = i)) as [->|]; [done|]. apply IH. lia.
Qed.

Lemma find_slab_class_some size c :
  find_slab_class size = Some c →
  0 ≤ c < SLAB_CLASSES ∧ size ≤ class_size c ∧ ∀ j, 0 ≤ j < c → class_size j < size.
Proof.
  unfold find_slab_class.
  destruct ((SLAB_MAX_SIZE <? size) || (size =? 0)); [done|].
  loop_inv (λ i (_ : unit), ∀ j, 0 ≤ j < i → class_size j < size)
    (λ c, 0 ≤ c < SLAB_CLASSES ∧ size ≤ class_size c ∧ ∀ j, 0 ≤ j < c → class_size j < size);
    [intros H|done|lia|].
  - destruct (for_loop _ _ _ _) as [[]|i]; [done|]. by intros [= <-].
  - intros i [] Hi IH. rewrite class_size_shift by lia.
    destruct (size <=? class_size i) eqn:Ei; break_cmp; [by split; [|split]|].
    intros j Hj. destruct (decide (j = i)) as [->|]; [done|]. apply IH. lia.
Qed.

(** ** Arrays of block addresses *)

Lemma arr_set_ok l i v :
  0 ≤ i < Z.of_nat (length l) → arr_set l i v = Ret (<[Z.to_nat i := v]> l).
Proof.
  intros Hi. unfold arr_set.
  by replace ((0 <=? i) && (i <? Z.of_nat (length l))) with true
    by (symmetry; apply andb_true_iff; rewrite Z.leb_le, Z.ltb_lt; lia).
Qed.

Lemma take_snoc {A} (l : list A) n x :
  l !! n = Some x → take (S n) l = take n l ++ [x].
Proof. apply take_S_r. Qed.

Lemma arr_get_ok l i v : 0 ≤ i → l !! Z.to_nat i = Some v → arr_get l i = Ret v.
Proof.
  intros Hi Hv. unfold arr_get. rewrite Hv.
  by replace (0 <=? i) with true by (symmetry; apply Z.leb_le; lia).
Qed.

(** The pushed blocks are the prefix of the free list. *)
Lemma push_blocks_spec l page size n :
  0 ≤ n ≤ Z.of_nat (length l) → 0 ≤ page → 0 ≤ size → page + n * size < 2 ^ 64 →
  ∃ l', push_blocks l 0 page size n = Ret l' ∧ length l' = length l ∧
    take (Z.to_nat n) l' = (λ j, page + j * size) <$> seqZ 0 n.
Proof.
  intros Hn Hp Hs Hlt. unfold push_blocks.
  loop_inv (λ j l1, length l1 = length l ∧
      take (Z.to_nat j) l1 = (λ j, page + j * size) <$> seqZ 0 j) (λ _ : unit, False);
    [intros H|lia|done|].
  - destruct (for_loop _ _ _ _) as [l'|]; [|done]. by exists l'.
  - intros j l1 Hj [Hlen Htake]. rewrite arr_set_ok by lia.
    rewrite usize_small by nia. split; [by rewrite length_insert|].
    replace (Z.to_nat (j + 1)) with (S (Z.to_nat j)) by lia.
    rewrite (take_snoc _ _ (page + j * size)) by (apply list_lookup_insert_eq; lia).
    rewrite take_insert_ge by lia. rewrite Htake.
    rewrite seqZ_app by lia. by rewrite fmap_app.
Qed.

(** ** The invariant

    A live allocation is the pointer a client holds and the layout it asked
    for; it covers the whole block of its class, or its rounded size when it
    came from the bump pointer. *)

Definition extent (x : Z * Layout) : Z * Z :=
  (x.1, match find_slab_class (aligned_size x.2) with
        | Some c => class_size c
        | None => aligned_size x.2
        end).

Definition free_extents (s : SlabClass) : list (Z * Z) :=
  (λ a, (a, block_size s)) <$> take (Z.to_nat (free_count s)) (free_list s).

Definition heap_free (l : list SlabClass) : list (Z * Z) := mjoin (free_extents <$> l).

(** The ranges in circulation: free blocks and live allocations. *)
Definition ranges (h : SlabAllocator) (live : list (Z * Layout)) : list (Z * Z) :=
  heap_free (slabs h) ++ (extent <$> live).

(** The number of live allocations of a class. *)
Definition live_in (c : Z) (live : list (Z * Layout)) : Z :=
  Z.of_nat (length (filter (λ x, find_slab_class (aligned_size x.2) = Some c) live)).

Record slab_ok (c : Z) (s : SlabClass) (live : list (Z * Layout)) : Prop := {
  slab_block : block_size s = class_size c;
  slab_array : Z.of_nat (length (free_list s)) = MAX_BLOCKS_PER_CLASS;
  slab_free_nonneg : 0 ≤ free_count s;
  slab_conserved : free_count s + live_in c live = total_count s;
  slab_total : total_count s ≤ MAX_BLOCKS_PER_CLASS
}.

Definition in_heap (h : SlabAllocator) (e : Z * Z) : Prop :=
  heap_start h ≤ e.1 ∧ 0 < e.2 ∧ e.1 + e.2 ≤ heap_start h + bump_offset h.

(** Blocks of a class are aligned to its size, larger ranges to a page. *)
Definition natural (e : Z * Z) : Prop := e.1 mod Z.min e.2 4096 = 0.

(** [al] says whether the bump pointer has stayed on page boundaries. *)
Record inv (al : bool) (h : SlabAllocator) (live : list (Z * Layout)) : Prop := {
  inv_start : 0 < heap_start h;
  inv_end : heap_start h + heap_size h ≤ 2 ^ 62;
  inv_bump : 0 ≤ bump_offset h ≤ heap_size h;
  inv_classes : Z.of_nat (length (slabs h)) = SLAB_CLASSES;
  inv_slabs : ∀ c s, 0 ≤ c → slabs h !! Z.to_nat c = Some s → slab_ok c s live;
  inv_disjoint : disjoint_list (ranges h live);
  inv_bound : Forall (in_heap h) (ranges h live);
  inv_aligned : al = true →
    heap_start h mod 4096 = 0 ∧ bump_offset h mod 4096 = 0 ∧
    Forall natural (ranges h live)
}.

(** What [Layout] guarantees: the alignment is a power of two, and the size
    rounded up to it does not overflow [isize]. *)
Definition valid_layout (l : Layout) : Prop :=
  0 ≤ layout_size l ∧ layout_size l + layout_align l ≤ 2 ^ 63 ∧
  ∃ k, 0 ≤ k ≤ 62 ∧ layout_align l = 2 ^ k.

Lemma heap_free_insert l i s :
  l !! i = Some s →
  ∃ rest, heap_free l ≡ₚ free_extents s ++ rest ∧
    ∀ s', heap_free (<[i := s']> l) ≡ₚ free_extents s' ++ rest.
Proof.
  intros Hs. exists (heap_free (take i l) ++ heap_free (drop (S i) l)).
  assert (i < length l)%nat as Hlt by by eapply lookup_lt_Some.
  unfold heap_free. split.
  - rewrite <- (take_drop_middle l i s Hs) at 1. rewrite fmap_app, join_app. simpl.
    by rewrite Permutation_app_swap_app.
  - intros s'. rewrite insert_take_drop by done. rewrite fmap_app, join_app. simpl.
    by rewrite Permutation_app_swap_app.
Qed.

Lemma live_in_cons c x live :
  live_in c (x :: live) =
    (if decide (find_slab_class (aligned_size x.2) = Some c) then 1 else 0) + live_in c live.
Proof. unfold live_in. rewrite filter_cons. case_decide; simpl; lia. Qed.

Lemma live_in_nonneg c live : 0 ≤ live_in c live.
Proof. unfold live_in. lia. Qed.

Lemma live_in_app c l1 l2 : live_in c (l1 ++ l2) = live_in c l1 + live_in c l2.
Proof. unfold live_in. rewrite filter_app, length_app. lia. Qed.

(** Replacing one slab: the other classes are untouched. *)
Lemma inv_update al h live c s' bump' live' :
  inv al h live → 0 ≤ c →
  bump_offset h ≤ bump' ≤ heap_size h →
  (bump' - bump_offset h) mod 4096 = 0 →
  slab_ok c s' live' →
  (∀ c', c' ≠ c → live_in c' live' = live_in c' live) →
  let h' := mkHeap (heap_start h) (heap_size h) bump' (<[Z.to_nat c := s']> (slabs h)) in
  disjoint_list (ranges h' live') → Forall (in_heap h') (ranges h' live') →
  (al = true → Forall natural (ranges h' live')) →
  inv al h' live'.
Proof.
  intros [] Hc Hb Hm Hs' Hlive h' Hd HF HA.
  split; simpl; try done; [lia|by rewrite length_insert| |].
  2:{ intros Hal. destruct (inv_aligned0 Hal) as (? & ? & _). split_and!; [done|dlia|auto]. }
  intros c' s Hc' Hl. destruct (decide (c' = c)) as [->|Hne].
  - rewrite list_lookup_insert_eq in Hl; [by injection Hl as <-|].
    apply lookup_lt_Some in Hl. by rewrite length_insert in Hl.
  - rewrite list_lookup_insert_ne in Hl by lia.
    destruct (inv_slabs0 c' s Hc' Hl). split; try done. rewrite Hlive by done. done.
Qed.

Lemma in_heap_mono h bump' l e :
  bump_offset h ≤ bump' →
  in_heap h e → in_heap (mkHeap (heap_start h) (heap_size h) bump' l) e.
Proof. unfold in_heap. simpl. intros. lia. Qed.

(** ** Taking a block from a free list *)

Lemma free_extents_pop s ptr :
  0 < free_count s → free_list s !! Z.to_nat (free_count s - 1) = Some ptr →
  free_extents s =
    free_extents (mkSlab (block_size s) (free_list s) (free_count s - 1)
                    (total_count s) (next_page s)) ++ [(ptr, block_size s)].
Proof.
  intros Hpos Hptr. unfold free_extents. simpl.
  replace (Z.to_nat (free_count s)) with (S (Z.to_nat (free_count s - 1))) by lia.
  rewrite (take_snoc _ _ ptr Hptr), fmap_app. done.
Qed.

Lemma pop_inv al h live c s ptr l :
  inv al h live → 0 ≤ c → slabs h !! Z.to_nat c = Some s → 0 < free_count s →
  free_list s !! Z.to_nat (free_count s - 1) = Some ptr →
  find_slab_class (aligned_size l) = Some c →
  inv al (set_slabs h (<[Z.to_nat c := mkSlab (block_size s) (free_list s)
         (free_count s - 1) (total_count s) (next_page s)]> (slabs h)))
      ((ptr, l) :: live).
Proof.
  intros Hinv Hc Hs Hpos Hptr Hcl. pose proof Hinv as [].
  destruct (inv_slabs0 c s Hc Hs) as [Hbs Harr Hnn Hcons Htot].
  destruct (heap_free_insert (slabs h) (Z.to_nat c) s Hs) as (rest & Hp1 & Hp2).
  set (s' := mkSlab (block_size s) _ (free_count s - 1) _ _).
  assert (HP : ranges h live ≡ₚ
    ranges (set_slabs h (<[Z.to_nat c := s']> (slabs h))) ((ptr, l) :: live)).
  { unfold ranges. simpl. rewrite Hp1, Hp2, (free_extents_pop s ptr Hpos Hptr).
    fold s'. unfold extent at 2. simpl. rewrite Hcl, <- Hbs, <- !app_assoc. simpl.
    f_equiv. by rewrite Permutation_middle. }
  apply (inv_update al h live c s' (bump_offset h) ((ptr, l) :: live)); try done; try lia.
  - by rewrite Z.sub_diag.
  - split; try done; simpl; [lia|]. rewrite live_in_cons. simpl.
    rewrite decide_True by done. lia.
  - intros c' Hne. rewrite live_in_cons. simpl. rewrite decide_False by congruence. lia.
  - change (disjoint_list (ranges (set_slabs h (<[Z.to_nat c := s']> (slabs h))) ((ptr, l) :: live))).
    by rewrite <- HP.
  - change (Forall (in_heap h)
      (ranges (set_slabs h (<[Z.to_nat c := s']> (slabs h))) ((ptr, l) :: live))).
    by rewrite <- HP.
  - change (al = true → Forall natural
      (ranges (set_slabs h (<[Z.to_nat c := s']> (slabs h))) ((ptr, l) :: live))).
    rewrite <- HP. intros Hal. apply (inv_aligned0 Hal).
Qed.

(** ** Refilling a class from the bump pointer *)

(** The number of blocks a page adds to a slab. *)
Definition refill_count (s : SlabClass) : Z :=
  Z.min (4096 / block_size s) (MAX_BLOCKS_PER_CLASS - total_count s).

Lemma slab_ok_count c s live :
  slab_ok c s live → 0 ≤ c < SLAB_CLASSES →
  0 ≤ total_count s ≤ MAX_BLOCKS_PER_CLASS ∧ 8 ≤ block_size s ≤ 4096 ∧
  free_count s ≤ MAX_BLOCKS_PER_CLASS.
Proof.
  intros [] Hc. pose proof (live_in_nonneg c live). rewrite slab_block0.
  pose proof (class_size_pos c). pose proof (class_size_le c). lia.
Qed.

Lemma refill_count_bounds c s live :
  slab_ok c s live → 0 ≤ c < SLAB_CLASSES →
  0 ≤ refill_count s ≤ MAX_BLOCKS_PER_CLASS ∧ refill_count s * block_size s ≤ 4096.
Proof.
  intros Hok Hc. pose proof (slab_ok_count _ _ _ Hok Hc) as (Ht & Hb & _).
  unfold refill_count. pose proof (Z.mul_div_le 4096 (block_size s) ltac:(lia)).
  pose proof (Z.div_pos 4096 (block_size s)). split; [lia|]. nia.
Qed.

Lemma free_extents_blocks bs l page n total np :
  take (Z.to_nat n) l = (λ j, page + j * bs) <$> seqZ 0 n →
  free_extents (mkSlab bs l n total np) = blocks page bs n.
Proof.
  intros Ht. unfold free_extents, blocks. simpl. rewrite Ht, <- list_fmap_compose. done.
Qed.

Lemma block_natural c page j :
  0 ≤ c < SLAB_CLASSES → page mod 4096 = 0 →
  natural (page + j * class_size c, class_size c).
Proof.
  intros Hc Hp. unfold natural. simpl. pose proof (class_size_le c Hc).
  pose proof (class_size_pos c ltac:(lia)). rewrite Z.min_l by done.
  rewrite Z.mod_add by lia. pose proof (class_size_divides c Hc) as Hd.
  apply Z.mod_divide; [lia|]. apply Z.mod_divide in Hp as [q ->]; [|lia].
  rewrite <- Hd. apply Z.divide_mul_r, Z.divide_factor_r.
Qed.

Lemma refill_inv al h live c s l np :
  inv al h live → 0 ≤ c < SLAB_CLASSES → slabs h !! Z.to_nat c = Some s → free_count s = 0 →
  bump_offset h + 4096 ≤ heap_size h →
  length l = length (free_list s) →
  take (Z.to_nat (refill_count s)) l =
    (λ j, heap_start h + bump_offset h + j * block_size s) <$> seqZ 0 (refill_count s) →
  inv al (mkHeap (heap_start h) (heap_size h) (bump_offset h + 4096)
        (<[Z.to_nat c := mkSlab (block_size s) l (refill_count s)
             (total_count s + refill_count s) np]> (slabs h))) live.
Proof.
  intros Hinv Hc Hs Hz Hfit Hlen Htake. pose proof Hinv as [].
  pose proof (inv_slabs0 c s ltac:(lia) Hs) as Hok.
  pose proof (refill_count_bounds c s live Hok Hc) as [Hn Hpage].
  pose proof (slab_ok_count c s live Hok Hc) as (Ht & Hb & _).
  destruct Hok as [Hbs Harr _ Hcons Htot].
  destruct (heap_free_insert (slabs h) (Z.to_nat c) s Hs) as (rest & Hp1 & Hp2).
  apply (inv_update al h live c _ (bump_offset h + 4096) live); try done; try lia.
  { by replace (bump_offset h + 4096 - bump_offset h) with 4096 by lia. }
  { split; simpl; try done; [lia|lia|lia|]. unfold refill_count. lia. }
  all: set (page := heap_start h + bump_offset h) in *.
  all: unfold ranges; simpl; rewrite Hp2, (free_extents_blocks _ _ page) by done.
  all: rewrite <- app_assoc, Permutation_app_comm.
  all: assert (HP : ranges h live ≡ₚ rest ++ (extent <$> live))
    by (unfold ranges; rewrite Hp1; unfold free_extents; rewrite Hz; done).
  all: rewrite HP in inv_disjoint0, inv_bound0, inv_aligned0.
  - apply (disjoint_list_above _ _ page); [| |done|by apply blocks_disjoint; lia].
    + eapply Forall_impl; [exact inv_bound0|]. unfold in_heap. simpl. lia.
    + eapply Forall_impl; [apply blocks_bound; lia|]. simpl. lia.
  - apply Forall_app. split.
    + eapply Forall_impl; [exact inv_bound0|]. intros e. apply in_heap_mono. lia.
    + eapply Forall_impl; [apply blocks_bound; lia|]. unfold in_heap. simpl. lia.
  - intros Hal. destruct (inv_aligned0 Hal) as (? & ? & ?). apply Forall_app. split; [done|].
    unfold blocks. apply Forall_fmap, Forall_forall. intros j _. simpl. rewrite Hbs.
    apply block_natural; [done|]. unfold page. dlia.
Qed.

(** The bytes of the ranges in circulation are not written. *)
Definition keeps (m m' : mem) (h : SlabAllocator) (live : list (Z * Layout)) : Prop :=
  ∀ e a, e ∈ ranges h live → e.1 ≤ a < e.1 + e.2 → rd m' a = rd m a.

Lemma page_kept al m h live :
  inv al h live → keeps m (write_zeros m (heap_start h + bump_offset h) 4096) h live.
Proof.
  intros [] e a He Ha. rewrite Forall_forall in inv_bound0.
  specialize (inv_bound0 e He) as (_ & _ & ?). apply rd_write_zeros_out. lia.
Qed.

(** What an allocation establishes: [0] is a null pointer, and leaves the live
    allocations as they are. *)
Definition alloc_post (al : bool) (m : mem) (h : SlabAllocator) (live : list (Z * Layout)) (l : Layout)
    (x : outcome (mem * SlabAllocator * Z)) : Prop :=
  match x with
  | Ret (m', h', ptr) =>
      inv al h' (if ptr =? 0 then live else (ptr, l) :: live) ∧ keeps m m' h live
  | Panic => False
  end.

Lemma inv_ptr al h live ptr l :
  inv al h ((ptr, l) :: live) → heap_start h ≤ ptr ∧ (ptr =? 0) = false.
Proof.
  intros []. rewrite Forall_forall in inv_bound0.
  destruct (inv_bound0 (extent (ptr, l))) as (H1 & _).
  { unfold ranges. apply elem_of_app. right. by left. }
  simpl in H1. split; [done|]. apply Z.eqb_neq. lia.
Qed.

Lemma pop_post al m m' h0 live0 h live c s ptr l :
  inv al h live → 0 ≤ c → slabs h !! Z.to_nat c = Some s → 0 < free_count s →
  free_list s !! Z.to_nat (free_count s - 1) = Some ptr →
  find_slab_class (aligned_size l) = Some c → keeps m m' h0 live0 → live0 = live →
  alloc_post al m h0 live0 l
    (Ret (m', set_slabs h (<[Z.to_nat c := mkSlab (block_size s) (free_list s)
         (free_count s - 1) (total_count s) (next_page s)]> (slabs h)), ptr)).
Proof.
  intros Hinv Hc Hs Hpos Hptr Hcl Hk ->. simpl.
  pose proof (pop_inv al h live c s ptr l Hinv Hc Hs Hpos Hptr Hcl) as H1.
  destruct (inv_ptr _ _ _ _ _ H1) as [_ ->]. done.
Qed.

Lemma alloc_from_slab_post al m h live c l :
  inv al h live → find_slab_class (aligned_size l) = Some c →
  alloc_post al m h live l (alloc_from_slab m h c).
Proof.
  intros Hinv Hcl. destruct (find_slab_class_some _ _ Hcl) as (Hc & _).
  pose proof Hinv as [].
  destruct (lookup_lt_is_Some_2 (slabs h) (Z.to_nat c)) as [s Hs]; [lia|].
  pose proof (inv_slabs0 c s ltac:(lia) Hs) as Hok.
  pose proof (refill_count_bounds c s live Hok Hc) as [Hn Hpage].
  pose proof (slab_ok_count c s live Hok Hc) as (Ht & Hb & Hf).
  pose proof Hok as [Hbs Harr Hnn Hcons _].
  unfold alloc_from_slab. rewrite Hs. unfold MAX_BLOCKS_PER_CLASS in *.
  destruct (0 <? free_count s) eqn:Ef; break_cmp.
  { destruct (lookup_lt_is_Some_2 (free_list s) (Z.to_nat (free_count s - 1)))
      as [ptr Hptr]; [lia|].
    rewrite (arr_get_ok _ _ ptr) by (done || lia). cbn [obind].
    apply (pop_post al m m h live h live c s ptr l); (done || lia). }
  unwrap. case_if; [by split|].
  replace (block_size s =? 0) with false by (symmetry; apply Z.eqb_neq; lia).
  change (Z.min _ _) with (refill_count s).
  assert (free_count s = 0) as Hz by lia. rewrite Hz.
  destruct (push_blocks_spec (free_list s) (heap_start h + bump_offset h) (block_size s)
    (refill_count s)) as (l' & -> & Hlen & Htake); [lia|lia|lia|lia|]. cbn [obind].
  pose proof (refill_inv al h live c s l' (next_page s) Hinv Hc Hs Hz ltac:(lia) Hlen Htake) as Hinv1.
  pose proof (page_kept al m h live Hinv) as Hk.
  rewrite Z.add_0_l.
  destruct (0 <? refill_count s) eqn:Er; break_cmp; [|by split].
  destruct (lookup_lt_is_Some_2 l' (Z.to_nat (refill_count s - 1))) as [ptr Hptr]; [lia|].
  rewrite (arr_get_ok _ _ ptr) by (done || lia). cbn [obind].
  set (s1 := mkSlab (block_size s) l' (refill_count s) _ _) in Hinv1.
  pose proof (pop_post al m (write_zeros m (heap_start h + bump_offset h) 4096) h live _ live
    c s1 ptr l Hinv1 ltac:(lia)) as H1.
  unfold set_slabs in H1 |- *. simpl in H1. rewrite list_insert_insert_eq in H1.
  apply H1; try done. apply list_lookup_insert_eq. lia.
Qed.

(** ** The bump pointer *)

Lemma aligned_size_cases l :
  valid_layout l →
  layout_align l ≤ aligned_size l ∧ layout_size l ≤ aligned_size l ∧
  1 ≤ aligned_size l ≤ 2 ^ 63.
Proof.
  intros (Hs & Hb & k & Hk & Ha). pose proof (Z.pow_pos_nonneg 2 k).
  unfold aligned_size. case_if; lia.
Qed.

(** The new allocation starts at the bump offset rounded up. *)
Lemma alloc_bump_spec h size align k :
  0 ≤ bump_offset h ≤ heap_size h → 0 < heap_start h → heap_start h + heap_size h ≤ 2 ^ 62 →
  0 ≤ k ≤ 62 → align = 2 ^ k → 1 ≤ size ≤ 2 ^ 63 →
  let off := (bump_offset h + align - 1) / align * align in
  alloc_bump h size align =
    if heap_size h <? off + size then (h, 0)
    else (set_bump h (off + size), heap_start h + off).
Proof.
  intros Hb Hst Hend Hk -> Hs off. unfold alloc_bump.
  pose proof (Z.pow_pos_nonneg 2 k ltac:(lia) ltac:(lia)).
  pose proof (Z.pow_le_mono_r 2 k 62 ltac:(lia) ltac:(lia)).
  rewrite (usize_small (bump_offset h + 2 ^ k - 1)), (usize_small (2 ^ k - 1)) by lia.
  rewrite mask_round by lia. fold off.
  assert (0 ≤ off ≤ bump_offset h + 2 ^ k - 1).
  { unfold off. pose proof (Z.mul_div_le (bump_offset h + 2 ^ k - 1) (2 ^ k)).
    pose proof (Z.div_pos (bump_offset h + 2 ^ k - 1) (2 ^ k)). nia. }
  rewrite (usize_small (off + size)) by lia.
  case_if; [done|]. by rewrite usize_small by lia.
Qed.

Definition round_up (x a : Z) : Z := (x + a - 1) / a * a.

Lemma round_up_ge x a : 0 < a → x ≤ round_up x a.
Proof.
  intros. unfold round_up. pose proof (Z.mod_pos_bound (x + a - 1) a).
  pose proof (Z.div_mod (x + a - 1) a). lia.
Qed.

Lemma round_up_id x k : 0 ≤ k ≤ 12 → x mod 4096 = 0 → round_up x (2 ^ k) = x.
Proof.
  intros Hk Hx. apply Z.mod_divide in Hx as [q ->]; [|lia]. unfold round_up.
  pose proof (Z.pow_pos_nonneg 2 k ltac:(lia) ltac:(lia)).
  replace 4096 with (2 ^ (12 - k) * 2 ^ k)
    by (rewrite <- Z.pow_add_r by lia; by replace (12 - k + k) with 12 by lia).
  replace (q * (2 ^ (12 - k) * 2 ^ k) + 2 ^ k - 1)
    with ((2 ^ k - 1) + q * 2 ^ (12 - k) * 2 ^ k) by lia.
  rewrite Z.div_add by lia. rewrite (Z.div_small (2 ^ k - 1)) by lia. lia.
Qed.

(** Layouts that keep the bump pointer on page boundaries. *)
Definition paged (l : Layout) : Prop :=
  layout_align l ≤ 4096 ∧ (4096 < aligned_size l → aligned_size l mod 4096 = 0).

Lemma alloc_bump_post al m h live l :
  inv al h live → valid_layout l → (al = true → paged l) →
  find_slab_class (aligned_size l) = None →
  alloc_post al m h live l
    (let '(h', ptr) := alloc_bump h (aligned_size l) (layout_align l) in Ret (m, h', ptr)).
Proof.
  intros Hinv Hl Hpg Hcl. pose proof Hinv as [].
  pose proof (aligned_size_cases l Hl) as (Hal & _ & Hsz).
  destruct Hl as (_ & _ & k & Hk & Ha).
  rewrite (alloc_bump_spec h (aligned_size l) (layout_align l) k) by done.
  fold (round_up (bump_offset h) (layout_align l)).
  pose proof (Z.pow_pos_nonneg 2 k ltac:(lia) ltac:(lia)).
  pose proof (round_up_ge (bump_offset h) (layout_align l) ltac:(lia)).
  set (off := round_up _ _) in *. case_if; [by split|].
  pose proof (proj1 (find_slab_class_none (aligned_size l) ltac:(lia)) Hcl) as [?|Hbig]; [lia|].
  unfold SLAB_MAX_SIZE in Hbig.
  split; [|by intros ????].
  replace (heap_start h + off =? 0) with false by (symmetry; apply Z.eqb_neq; lia).
  assert (HP : ranges (set_bump h (off + aligned_size l)) ((heap_start h + off, l) :: live)
    ≡ₚ ranges h live ++ [(heap_start h + off, aligned_size l)]).
  { unfold ranges. simpl. unfold extent at 1. simpl.
    rewrite Hcl.
    rewrite <- app_assoc. f_equiv. apply Permutation_cons_append. }
  split; simpl; try done; [lia| | | |].
  - intros c s Hc Hs. destruct (inv_slabs0 c s Hc Hs). split; try done.
    rewrite live_in_cons. simpl.
    rewrite Hcl. done.
  - rewrite HP. apply (disjoint_list_above _ _ (heap_start h + off)); [| |done|].
    + eapply Forall_impl; [exact inv_bound0|]. unfold in_heap. simpl. lia.
    + repeat constructor. simpl. lia.
    + by repeat constructor.
  - rewrite HP. apply Forall_app. split.
    + eapply Forall_impl; [exact inv_bound0|]. intros e. apply in_heap_mono. lia.
    + repeat constructor; unfold in_heap; simpl; lia.
  - intros Ht. destruct (Hpg Ht) as [Ha' Hm]. destruct (inv_aligned0 Ht) as (Hst & Hb & HF).
    specialize (Hm Hbig). rewrite Ha in Ha'.
    assert (k ≤ 12). { apply (Z.pow_le_mono_r_iff 2); lia. }
    assert (off = bump_offset h) as -> by (unfold off; rewrite Ha; apply round_up_id; (done || lia)).
    rewrite HP. split_and!; [done|dlia|]. apply Forall_app. split; [done|].
    repeat constructor. unfold natural. simpl. rewrite Z.min_r by lia. dlia.
Qed.

Lemma alloc_ok al m h live l :
  inv al h live → valid_layout l → (al = true → paged l) →
  alloc_post al m h live l (alloc m h l).
Proof.
  intros Hinv Hl Hpg. unfold alloc.
  destruct (find_slab_class (aligned_size l)) as [c|] eqn:Hc;
    [|by apply alloc_bump_post].
  destruct (find_slab_class_some _ _ Hc) as (Hr & Hle & _). pose proof Hinv as [].
  destruct (lookup_lt_is_Some_2 (slabs h) (Z.to_nat c)) as [s Hs]; [lia|]. rewrite Hs.
  destruct (inv_slabs0 c s ltac:(lia) Hs) as [Hbs _ _ _ _].
  pose proof (aligned_size_cases l Hl) as (Hal & _).
  rewrite (proj2 (Z.leb_le _ _)) by lia.
  by apply alloc_from_slab_post.
Qed.

(** ** Returning a block *)

Lemma live_in_perm c l1 l2 : l1 ≡ₚ l2 → live_in c l1 = live_in c l2.
Proof. intros HP. unfold live_in. by rewrite HP. Qed.

Lemma inv_perm al h l1 l2 : l1 ≡ₚ l2 → inv al h l1 → inv al h l2.
Proof.
  intros HP []. assert (ranges h l1 ≡ₚ ranges h l2) as HR by (unfold ranges; by rewrite HP).
  rewrite HR in *. split; try done.
  intros c s Hc Hs. destruct (inv_slabs0 c s Hc Hs). split; try done.
  by rewrite <- (live_in_perm c _ _ HP).
Qed.

Lemma free_extents_push s ptr :
  0 ≤ free_count s < Z.of_nat (length (free_list s)) →
  free_extents (mkSlab (block_size s) (<[Z.to_nat (free_count s) := ptr]> (free_list s))
                  (free_count s + 1) (total_count s) (next_page s)) =
    free_extents s ++ [(ptr, block_size s)].
Proof.
  intros Hf. unfold free_extents. simpl.
  replace (Z.to_nat (free_count s + 1)) with (S (Z.to_nat (free_count s))) by lia.
  rewrite (take_snoc _ _ ptr) by (apply list_lookup_insert_eq; lia).
  rewrite take_insert_ge by lia. by rewrite fmap_app.
Qed.

Lemma dealloc_ok al h live ptr l :
  inv al h ((ptr, l) :: live) → ∃ h', dealloc h ptr l = Ret h' ∧ inv al h' live.
Proof.
  intros Hinv. pose proof Hinv as []. unfold dealloc.
  destruct (find_slab_class (aligned_size l)) as [c|] eqn:Hcl; cycle 1.
  { exists h. split; [done|]. split; try done.
    - intros c s Hc Hs. destruct (inv_slabs0 c s Hc Hs) as [? ? ? Hcons ?].
      rewrite live_in_cons in Hcons. simpl in Hcons. rewrite Hcl in Hcons. split; try done.
    - unfold ranges in *. simpl in inv_disjoint0. rewrite <- Permutation_middle in inv_disjoint0.
      apply inv_disjoint0.
    - unfold ranges in *. simpl in inv_bound0. rewrite <- Permutation_middle in inv_bound0.
      by apply Forall_cons_1 in inv_bound0 as [_ ?].
    - intros Ht. destruct (inv_aligned0 Ht) as (? & ? & HF). split_and!; [done|done|].
      unfold ranges in *. simpl in HF. rewrite <- Permutation_middle in HF.
      by apply Forall_cons_1 in HF as [_ ?]. }
  destruct (find_slab_class_some _ _ Hcl) as (Hc & _).
  destruct (lookup_lt_is_Some_2 (slabs h) (Z.to_nat c)) as [s Hs]; [lia|].
  unfold free_to_slab. rewrite Hs.
  destruct (inv_slabs0 c s ltac:(lia) Hs) as [Hbs Harr Hnn Hcons Htot].
  pose proof (live_in_nonneg c live). pose proof Hcons as Hcons'.
  rewrite live_in_cons in Hcons. simpl in Hcons. rewrite decide_True in Hcons by done.
  rewrite (proj2 (Z.ltb_lt _ _)) by lia. rewrite arr_set_ok by lia. cbn [obind].
  eexists. split; [done|].
  destruct (heap_free_insert (slabs h) (Z.to_nat c) s Hs) as (rest & Hp1 & Hp2).
  set (s' := mkSlab _ _ _ _ _).
  set (h' := mkHeap (heap_start h) (heap_size h) (bump_offset h)
               (<[Z.to_nat c := s']> (slabs h))).
  assert (HP : ranges h ((ptr, l) :: live) ≡ₚ ranges h' live).
  { unfold ranges, h'. simpl. rewrite Hp1, Hp2. unfold s'.
    rewrite free_extents_push by lia. unfold extent at 1. simpl.
    rewrite Hcl, <- Hbs, <- !app_assoc. simpl. f_equiv. by rewrite Permutation_middle. }
  rewrite HP in inv_disjoint0, inv_bound0, inv_aligned0.
  apply (inv_update al h ((ptr, l) :: live) c s' (bump_offset h) live);
    try done; try lia.
  - by rewrite Z.sub_diag.
  - split; simpl; try done; [by rewrite length_insert|lia|lia].
  - intros c' Hne. rewrite live_in_cons. simpl. rewrite decide_False by congruence. lia.
  - intros Ht. apply (inv_aligned0 Ht).
Qed.

(** ** Initialisation *)

Definition unused (s : SlabClass) : Prop := free_count s = 0 ∧ total_count s = 0.

Lemma new_slabs c s :
  0 ≤ c → slabs SlabAllocator_new !! Z.to_nat c = Some s →
  unused s ∧ block_size s = class_size c ∧
  Z.of_nat (length (free_list s)) = MAX_BLOCKS_PER_CLASS.
Proof.
  intros Hc Hs.
  unfold SlabAllocator_new in Hs. cbn [slabs] in Hs.
  apply list_lookup_fmap_Some in Hs as (i & -> & Hi).
  change [0; 1; 2; 3; 4; 5; 6; 7; 8; 9] with (seqZ 0 10) in Hi.
  apply lookup_seqZ in Hi as [-> _]. rewrite Z2Nat.id, Z.add_0_l by done.
  split; [done|]. split; [|done]. unfold make_slab, SlabClass_new.
  cbn [block_size]. apply class_size_shift. lia.
Qed.

Lemma new_inv start size :
  0 < start → 0 ≤ size → start + size ≤ 2 ^ 62 → start mod 4096 = 0 →
  inv true (mkHeap start size 0 (slabs SlabAllocator_new)) [].
Proof.
  intros. assert (ranges (mkHeap start size 0 (slabs SlabAllocator_new)) [] = []) as HR by done.
  split; try rewrite HR; simpl; try done.
  intros c s Hc Hs. destruct (new_slabs c s Hc Hs) as ([Hf Ht] & Hb & Hl).
  split; try done; [lia| |rewrite Ht; done]. unfold live_in. simpl. lia.
Qed.

Lemma init_slab_eq al h live c s page :
  inv al h live → 0 ≤ c < SLAB_CLASSES → slabs h !! Z.to_nat c = Some s → unused s →
  0 ≤ page ≤ 2 ^ 62 →
  ∃ l, init_slab s page =
      Ret (mkSlab (block_size s) l (refill_count s) (total_count s + refill_count s) page) ∧
    length l = length (free_list s) ∧
    take (Z.to_nat (refill_count s)) l =
      (λ j, page + j * block_size s) <$> seqZ 0 (refill_count s).
Proof.
  intros [] Hc Hs [Hf Ht] Hp. pose proof (inv_slabs0 c s ltac:(lia) Hs) as Hok.
  pose proof (refill_count_bounds c s live Hok Hc) as [Hn Hpage].
  pose proof (slab_ok_count c s live Hok Hc) as (_ & Hb & _). destruct Hok.
  unfold init_slab. replace (block_size s =? 0) with false by (symmetry; apply Z.eqb_neq; lia).
  assert (Z.min (4096 / block_size s) MAX_BLOCKS_PER_CLASS = refill_count s) as ->.
  { unfold refill_count. by rewrite Ht, Z.sub_0_r. }
  destruct (push_blocks_spec (free_list s) page (block_size s) (refill_count s))
    as (l & -> & Hlen & Htake); [lia|lia|lia|lia|].
  exists l. simpl. by rewrite Ht.
Qed.

Lemma init_ok m start size :
  0 < start → 40960 ≤ size → start + size ≤ 2 ^ 62 → start mod 4096 = 0 →
  ∃ m' h', init m false SlabAllocator_new start size = Ret (m', true, h') ∧ inv true h' [] ∧
    heap_start h' = start ∧ heap_size h' = size ∧ bump_offset h' = 40960.
Proof.
  intros Hst Hsz Hend Hal. unfold init.
  loop_inv (λ i (x : mem * SlabAllocator * Z), let '(m, h, offset) := x in
      offset = 4096 * i ∧ heap_start h = start ∧
      heap_size h = size ∧ inv true (set_bump h offset) [] ∧
      ∀ c s, i ≤ c → slabs h !! Z.to_nat c = Some s → unused s) (λ _ : unit, False);
    [intros H1|done| |].
  - destruct (for_loop _ _ _ _) as [[[m' h'] off]|]; [|done].
    destruct H1 as (-> & Hs & Hz & Hinv & _).
    exists m', (set_bump h' (4096 * SLAB_CLASSES)). by split_and!.
  - split_and!; try done; [|intros c s Hc Hs; by apply (new_slabs c s Hc)].
    apply (new_inv start size); (done || lia).
  - clear m. intros i [[m h] off] Hi (-> & Hs & Hz & Hinv & Hun).
    unfold SLAB_CLASSES in Hi. pose proof Hinv as [].
    destruct (lookup_lt_is_Some_2 (slabs h) (Z.to_nat i)) as [s Hls].
    { simpl in inv_classes0. unfold SLAB_CLASSES in *. lia. }
    rewrite Hls. unwrap.
    destruct (init_slab_eq true _ [] i s (start + 4096 * i) Hinv Hi Hls)
      as (l & -> & Hlen & Htake); [by apply (Hun i)|lia|].
    split_and!; [lia|done|done| |].
    + rewrite <- Hs in Htake. unfold unused in Hun.
      pose proof (refill_inv true _ [] i s l (start + 4096 * i) Hinv Hi Hls) as HR.
      unfold set_bump, set_slabs in *. simpl in *.
      replace (4096 * i + 4096) with (4096 * (i + 1)) in * by lia.
      apply HR; try done; [by apply (Hun i)|lia].
    + intros c s' Hc Hl'. simpl in Hl'. rewrite list_lookup_insert_ne in Hl' by lia.
      apply (Hun c s'); [lia|done].
Qed.

(** [init] writes only to the first page of each class. *)
Lemma init_frame m start size m' b h' :
  0 ≤ start → start + 40960 ≤ 2 ^ 64 →
  init m false SlabAllocator_new start size = Ret (m', b, h') →
  (bytes m → bytes m') ∧ ∀ a, ¬ (start ≤ a < start + 40960) → rd m' a = rd m a.
Proof.
  intros Hst Hend. unfold init.
  loop_inv (λ i (x : mem * SlabAllocator * Z), let '(m1, _, offset) := x in
      offset = 4096 * i ∧ (bytes m → bytes m1) ∧
      ∀ a, ¬ (start ≤ a < start + 40960) → rd m1 a = rd m a) (λ _ : unit, True);
    [intros H1|done|by split_and!|].
  - destruct (for_loop _ _ _ _) as [[[m1 h1] off]|]; [|done].
    destruct H1 as (_ & Hb & Hf). by intros [= -> _ _].
  - intros i [[m1 h1] off] Hi (-> & Hb & Hf). unfold SLAB_CLASSES in Hi.
    destruct (slabs h1 !! Z.to_nat i) as [s|]; [|done]. unwrap.
    destruct (init_slab s (start + 4096 * i)) as [s'|]; [|done].
    split_and!; [lia|intros; by apply bytes_write_zeros, Hb|].
    intros a Ha. rewrite rd_write_zeros_out by lia. by apply Hf.
Qed.

Lemma init_std m :
  ∃ m' h', init m false SlabAllocator_new HEAP_BASE HEAP_SIZE = Ret (m', true, h') ∧
    inv true h' [] ∧
    heap_start h' = HEAP_BASE ∧ heap_size h' = HEAP_SIZE ∧ bump_offset h' = 40960.
Proof. by apply init_ok. Qed.

(** ** The region is never moved *)

Lemma alloc_region m h l :
  (∃ m' h' ptr, alloc m h l = Ret (m', h', ptr) ∧
     heap_start h' = heap_start h ∧ heap_size h' = heap_size h) ∨ alloc m h l = Panic.
Proof.
  assert (Hb : ∀ a b, ∃ m' h' ptr,
    (let '(h', ptr) := alloc_bump h a b in Ret (m, h', ptr)) = Ret (m', h', ptr) ∧
    heap_start h' = heap_start h ∧ heap_size h' = heap_size h).
  { intros a b. unfold alloc_bump. case_if; by eexists _, _, _. }
  unfold alloc. destruct (find_slab_class _) as [c|]; [|by left].
  destruct (slabs h !! Z.to_nat c) as [s|] eqn:Es; [|by right].
  case_if; [|by left]. unfold alloc_from_slab. rewrite Es.
  case_if.
  { destruct (arr_get _ _); [left|by right]. by eexists _, _, _. }
  case_if; [by left; eexists _, _, _|]. case_if; [by right|].
  destruct (push_blocks _ _ _ _ _) as [l'|]; [|by right]. cbn [obind].
  case_if; [|by left; eexists _, _, _].
  destruct (arr_get _ _); [left|by right]. by eexists _, _, _.
Qed.

Lemma dealloc_region h ptr l h' :
  dealloc h ptr l = Ret h' → heap_start h' = heap_start h ∧ heap_size h' = heap_size h.
Proof.
  unfold dealloc, free_to_slab. destruct (find_slab_class _); [|by intros [= <-]].
  destruct (slabs h !! _); [|done]. case_if; [|by intros [= <-]].
  destruct (arr_set _ _ _); [|done]. by intros [= <-].
Qed.

(** ** Executions

    The clients of the heap: they allocate with layouts satisfying [P], return
    what they hold, and write to the bytes of their allocations. *)

Section Executions.
Context (P : Layout → Prop).

Inductive step : mem * SlabAllocator * list (Z * Layout) →
                 mem * SlabAllocator * list (Z * Layout) → Prop :=
  | step_alloc m h live l m' h' ptr :
      valid_layout l → P l → alloc m h l = Ret (m', h', ptr) →
      step (m, h, live) (m', h', if ptr =? 0 then live else (ptr, l) :: live)
  | step_dealloc m h live ptr l live' h' :
      live ≡ₚ (ptr, l) :: live' → dealloc h ptr l = Ret h' →
      step (m, h, live) (m, h', live')
  | step_write m h live x a v :
      x ∈ live → (extent x).1 ≤ a < (extent x).1 + (extent x).2 →
      step (m, h, live) (wr m a v, h, live).

(** The states reached from [init(HEAP_BASE, HEAP_SIZE)]. *)
Inductive reachable : mem * SlabAllocator * list (Z * Layout) → Prop :=
  | reach_init m m' h :
      init m false SlabAllocator_new HEAP_BASE HEAP_SIZE = Ret (m', true, h) →
      reachable (m', h, [])
  | reach_step x y : reachable x → step x y → reachable y.

Lemma reachable_inv al x :
  (al = true → ∀ l, P l → paged l) → reachable x →
  inv al x.1.2 x.2 ∧ heap_start x.1.2 = HEAP_BASE ∧ heap_size x.1.2 = HEAP_SIZE.
Proof.
  intros HP. induction 1 as [m m' h Hi|x y _ (Hinv & Hst & Hsz) Hstep].
  - destruct (init_std m) as (m1 & h1 & Hi1 & Hinv & Hst & Hsz & _).
    rewrite Hi in Hi1. injection Hi1 as -> ->. clear Hi. simpl. split; [|done].
    destruct Hinv. destruct al; by split.
  - destruct Hstep as [m h live l m' h' ptr Hl HPl Ha|m h live ptr l live' h' Hp Hd|]; simpl in *.
    + pose proof (alloc_ok al m h live l Hinv Hl (λ E, HP E l HPl)) as Hpost.
      destruct (alloc_region m h l) as [Hr|Hr]; rewrite Ha in Hpost; [|congruence].
      destruct Hr as (m1 & h1 & p1 & Hr & ? & ?). rewrite Ha in Hr. injection Hr as <- <- <-.
      destruct Hpost as [Hpost _]. split; [done|]. split; congruence.
    + destruct (dealloc_ok al h live' ptr l) as (h1 & Hd1 & Hinv1);
        [by apply (inv_perm al h live)|].
      rewrite Hd in Hd1. injection Hd1 as <-. split; [done|].
      destruct (dealloc_region h ptr l h' Hd). split; congruence.
    + done.
Qed.
End Executions.

(** ** Runs of allocations, for examples *)

(** The pointer an allocation returned. *)
Definition ptr_of (x : outcome (mem * SlabAllocator * Z)) : option Z :=
  match x with Ret (_, _, ptr) => Some ptr | Panic => None end.

Lemma ptr_of_Some x p : ptr_of x = Some p → ∃ m' h', x = Ret (m', h', p).
Proof. destruct x as [[[m' h'] p']|]; [|done]. intros [= ->]. by exists m', h'. Qed.

Definition alloc_step (x : mem * SlabAllocator * list (Z * Layout)) (l : Layout)
    : mem * SlabAllocator * list (Z * Layout) :=
  match alloc x.1.1 x.1.2 l with
  | Ret (m', h', ptr) => (m', h', if ptr =? 0 then x.2 else (ptr, l) :: x.2)
  | Panic => x
  end.

Definition run_allocs (x : mem * SlabAllocator * list (Z * Layout)) (ls : list Layout)
    : mem * SlabAllocator * list (Z * Layout) := foldl alloc_step x ls.

Definition fresh (x : outcome (mem * bool * SlabAllocator))
    : mem * SlabAllocator * list (Z * Layout) :=
  match x with
  | Ret (m, _, h) => (m, h, [])
  | Panic => (∅, SlabAllocator_new, [])
  end.

Definition boot_heap : mem * SlabAllocator * list (Z * Layout) :=
  fresh (init ∅ false SlabAllocator_new HEAP_BASE HEAP_SIZE).

Lemma boot_reachable P : reachable P boot_heap.
Proof.
  destruct (init_std ∅) as (m & h & E & _). unfold boot_heap. rewrite E.
  exact (reach_init P ∅ m h E).
Qed.

Lemma run_reachable P x ls :
  reachable P x → Forall (λ l, valid_layout l ∧ P l) ls → reachable P (run_allocs x ls).
Proof.
  intros Hx Hls. revert x Hx. induction Hls as [|l ls [Hl HP] _ IH]; intros x Hx; [done|].
  simpl. apply IH. unfold alloc_step. destruct x as [[m h] live]; simpl.
  destruct (alloc m h l) as [[[m' h'] ptr]|] eqn:E; [|done].
  eapply reach_step; [done|]. by apply step_alloc.
Qed.

Lemma valid_layout_pow2 n k : 0 ≤ n ≤ 2 ^ 62 → 0 ≤ k ≤ 62 → valid_layout (mkLayout n (2 ^ k)).
Proof.
  intros Hn Hk. split; [simpl; lia|]. split; [|by exists k].
  simpl. pose proof (Z.pow_le_mono_r 2 k 62). lia.
Qed.

Lemma reachable_eta P x : reachable P x → reachable P (x.1.1, x.1.2, x.2).
Proof. by destruct x as [[]]. Qed.

(** A block of 128 bytes and one of two pages. *)
Definition demo : mem * SlabAllocator * list (Z * Layout) :=
  run_allocs boot_heap [mkLayout 100 (2 ^ 3); mkLayout 8192 (2 ^ 4)].

Lemma demo_reachable (P : Layout → Prop) :
  P (mkLayout 100 (2 ^ 3)) → P (mkLayout 8192 (2 ^ 4)) →
  reachable P (demo.1.1, demo.1.2, demo.2).
Proof.
  intros H1 H2. apply reachable_eta, run_reachable; [apply boot_reachable|].
  repeat constructor; try (apply valid_layout_pow2; lia); assumption.
Qed.

Definition demo_odd : mem * SlabAllocator * list (Z * Layout) :=
  run_allocs boot_heap [mkLayout 4097 (2 ^ 0); mkLayout 4096 (2 ^ 12)].

Lemma demo_odd_reachable :
  reachable (λ _, True) (demo_odd.1.1, demo_odd.1.2, demo_odd.2).
Proof.
  apply reachable_eta, run_reachable; [apply boot_reachable|].
  repeat constructor; apply valid_layout_pow2; lia.
Qed.

Lemma demo_odd_ptr :
  ∃ m' h', alloc demo_odd.1.1 demo_odd.1.2 (mkLayout 4096 (2 ^ 12)) = Ret (m', h', 8433665).
Proof. apply ptr_of_Some. vm_compute. reflexivity. Qed.

(** All blocks of the smallest class are live. *)
Definition demo_full : mem * SlabAllocator * list (Z * Layout) :=
  run_allocs boot_heap (replicate 1024 (mkLayout 8 (2 ^ 3))).

Lemma demo_full_reachable :
  reachable (λ _, True) (demo_full.1.1, demo_full.1.2, demo_full.2).
Proof.
  apply reachable_eta, run_reachable; [apply boot_reachable|].
  apply Forall_replicate. split; [|done]. apply valid_layout_pow2; lia.
Qed.

Lemma heap_dealloc_ok m h live ptr l :
  reachable (λ _, True) (m, h, live) → (ptr, l) ∈ live → ∃ h', dealloc h ptr l = Ret h'.
Proof.
  intros Hr [live' HP]%elem_of_Permutation.
  destruct (reachable_inv (λ _, True) false (m, h, live)) as (Hinv & _); [done|done|].
  destruct (dealloc_ok false h live' ptr l) as (h' & ? & _); [|eauto].
  by apply (inv_perm _ _ live).
Qed.

(** ** Claims *)

(** [find_slab_class] returns the smallest class whose blocks hold [size]
    bytes; it returns none for size 0 and for more than 4096 bytes only. *)
Theorem find_slab_class_least size (Hs : 0 ≤ size) :
  match find_slab_class size with
  | Some c =>
      0 ≤ c < SLAB_CLASSES ∧ size ≤ Z.shiftl SLAB_MIN_SIZE c ∧
      ∀ j, 0 ≤ j < c → Z.shiftl SLAB_MIN_SIZE j < size
  | None => size = 0 ∨ SLAB_MAX_SIZE < size
  end.
Proof.
  destruct (find_slab_class size) as [c|] eqn:E.
  - destruct (find_slab_class_some _ _ E) as (Hc & Hle & Hmin).
    rewrite class_size_shift by lia. split; [done|]. split; [done|].
    intros j Hj. rewrite class_size_shift by lia. by apply Hmin.
  - by apply find_slab_class_none in E.
Qed.

Lemma find_slab_class_least_witness :
  find_slab_class 65 = Some 4 ∧ 65 ≤ Z.shiftl SLAB_MIN_SIZE 4 ∧
  Z.shiftl SLAB_MIN_SIZE 3 < 65.
Proof.
  split; [reflexivity|].
  pose proof (find_slab_class_least 65 ltac:(lia)) as H1.
  replace (find_slab_class 65) with (Some 4) in H1 by reflexivity.
  destruct H1 as (_ & H1 & H2). split; [exact H1|apply H2; lia].
Defined.

Lemma extent_covers x : layout_size x.2 ≤ (extent x).2 ∧ layout_align x.2 ≤ (extent x).2.
Proof.
  assert (layout_size x.2 ≤ aligned_size x.2 ∧ layout_align x.2 ≤ aligned_size x.2)
    by (unfold aligned_size; case_if; lia).
  unfold extent. simpl. destruct (find_slab_class _) as [c|] eqn:E; [|lia].
  destruct (find_slab_class_some _ _ E) as (_ & ? & _). lia.
Qed.

(** C2. In every execution of the kernel heap from [init(HEAP_BASE,
    HEAP_SIZE)], whatever the clients allocate, return and write to what they
    hold: the live allocations are disjoint, lie in the heap region and have
    at least the size asked for; no allocation and no return of a live
    allocation panics; an allocation leaves every byte of the live ones as it
    was; and [heap_stats] reports the number of live blocks of each class. *)
Theorem heap_reachable_safe m h live
    (Hr : reachable (λ _, True) (m, h, live)) :
  disjoint_list (extent <$> live) ∧
  Forall (λ x, HEAP_BASE ≤ x.1 ∧ x.1 + (extent x).2 ≤ HEAP_BASE + HEAP_SIZE ∧
               layout_size x.2 ≤ (extent x).2) live ∧
  (∀ l, valid_layout l →
     ∃ m' h' ptr, alloc m h l = Ret (m', h', ptr) ∧
       ∀ x a, x ∈ live → x.1 ≤ a < x.1 + (extent x).2 → rd m' a = rd m a) ∧
  (∀ ptr l, (ptr, l) ∈ live → ∃ h', dealloc h ptr l = Ret h') ∧
  (∀ c, 0 ≤ c < SLAB_CLASSES →
     slab_used (heap_stats h) !! Z.to_nat c = Some (live_in c live)).
Proof.
  destruct (reachable_inv (λ _, True) false (m, h, live)) as (Hinv & Hst & Hsz); [done|done|].
  simpl in Hinv, Hst, Hsz. pose proof Hinv as [].
  split_and!.
  - unfold ranges in inv_disjoint0. apply disjoint_list_app in inv_disjoint0. tauto.
  - unfold ranges in inv_bound0. apply Forall_app in inv_bound0 as [_ HF].
    rewrite Forall_fmap in HF. eapply Forall_impl; [exact HF|].
    intros x (H1 & H2 & H3). change (extent x).1 with x.1 in *. pose proof (extent_covers x). lia.
  - intros l Hl. pose proof (alloc_ok false m h live l Hinv Hl ltac:(done)) as Hpost.
    destruct (alloc m h l) as [[[m' h'] ptr]|]; [|done]. destruct Hpost as [_ Hk].
    exists m', h', ptr. split; [done|]. intros x a Hx Ha. apply (Hk (extent x)); [|done].
    apply elem_of_app. right. by apply list_elem_of_fmap_2.
  - intros ptr l. by apply (heap_dealloc_ok m h live).
  - intros c Hc. destruct (lookup_lt_is_Some_2 (slabs h) (Z.to_nat c)) as [s Hs]; [lia|].
    cbn [heap_stats slab_used]. rewrite list_lookup_fmap, Hs. cbn [fmap option_fmap option_map]. f_equal.
    pose proof (inv_slabs0 c s ltac:(lia) Hs) as Hok.
    pose proof (slab_ok_count _ _ _ Hok Hc). destruct Hok.
    pose proof (live_in_nonneg c live). unfold MAX_BLOCKS_PER_CLASS in *. rewrite usize_small by lia. lia.
Qed.

Lemma heap_reachable_safe_witness :
  length demo.2 = 2%nat ∧ disjoint_list (extent <$> demo.2).
Proof.
  split; [vm_compute; reflexivity|].
  exact (proj1 (heap_reachable_safe demo.1.1 demo.1.2 demo.2 (demo_reachable _ I I))).
Defined.

Lemma natural_aligned e k :
  natural e → 0 ≤ k ≤ 12 → 2 ^ k ≤ e.2 →
  (∃ c, 0 ≤ c < SLAB_CLASSES ∧ e.2 = class_size c) ∨ 4096 ≤ e.2 →
  e.1 mod 2 ^ k = 0.
Proof.
  unfold natural. intros Hn Hk Hle Hsz.
  assert (∃ n, Z.min e.2 4096 = 2 ^ n ∧ k ≤ n) as (n & Hmin & Hkn).
  { destruct Hsz as [(c & Hc & Hec)|Hbig].
    - pose proof (class_size_le c Hc). exists (3 + c).
      assert (e.2 = 2 ^ (3 + c)) as He
        by (rewrite Hec; unfold class_size, SLAB_MIN_SIZE; rewrite Z.pow_add_r; lia).
      split; [rewrite Z.min_l; lia|]. apply (Z.pow_le_mono_r_iff 2); lia.
    - exists 12. split; [rewrite Z.min_r; lia|lia]. }
  rewrite Hmin in Hn. pose proof (Z.pow_pos_nonneg 2 k ltac:(lia) ltac:(lia)).
  pose proof (Z.pow_pos_nonneg 2 n ltac:(lia) ltac:(lia)).
  apply Z.mod_divide; [lia|]. apply Z.mod_divide in Hn; [|lia].
  etrans; [|exact Hn]. replace n with (n - k + k) by lia.
  rewrite Z.pow_add_r by lia. apply Z.divide_factor_r.
Qed.

(** As long as every request above 4096 bytes is for whole pages and no
    alignment exceeds a page, every pointer the heap returns has the
    alignment asked for. *)
Theorem alloc_aligned m h live l m' h' ptr
    (Hr : reachable paged (m, h, live)) (Hl : valid_layout l) (Hp : paged l)
    (Ha : alloc m h l = Ret (m', h', ptr)) :
  ptr mod layout_align l = 0.
Proof.
  destruct (reachable_inv paged true (m, h, live)) as (Hinv & _); [done|done|].
  simpl in Hinv. pose proof (alloc_ok true m h live l Hinv Hl (λ _, Hp)) as Hpost.
  rewrite Ha in Hpost. destruct Hpost as [Hinv' _]. clear Ha Hr.
  destruct (ptr =? 0) eqn:E; break_cmp; [by rewrite E|].
  destruct Hinv'. destruct (inv_aligned0 eq_refl) as (_ & _ & HF).
  rewrite Forall_forall in HF. specialize (HF (extent (ptr, l))).
  destruct Hp as [Hle _]. pose proof (aligned_size_cases l Hl) as (_ & _ & Hsz).
  destruct Hl as (_ & _ & k & Hk & Hal).
  pose proof (extent_covers (ptr, l)) as [_ Hc]. cbn [snd] in Hc. rewrite Hal in *.
  assert (k ≤ 12) by (apply (Z.pow_le_mono_r_iff 2); lia).
  apply (natural_aligned (extent (ptr, l)) k); [|lia|done|].
  - apply HF. unfold ranges. apply elem_of_app. right. by left.
  - unfold extent. cbn [fst snd]. destruct (find_slab_class _) as [c|] eqn:Ec.
    + left. exists c. split; [|done]. by apply find_slab_class_some in Ec as [? _].
    + right. apply find_slab_class_none in Ec; unfold SLAB_MAX_SIZE in *; lia.
Qed.

Lemma alloc_aligned_witness :
  ∃ m' h', alloc demo.1.1 demo.1.2 (mkLayout 512 (2 ^ 9)) = Ret (m', h', 8416768) ∧
    8416768 mod layout_align (mkLayout 512 (2 ^ 9)) = 0.
Proof.
  assert (E : ptr_of (alloc demo.1.1 demo.1.2 (mkLayout 512 (2 ^ 9))) = Some 8416768)
    by (vm_compute; reflexivity).
  apply ptr_of_Some in E as (m' & h' & E). exists m', h'. split; [exact E|].
  apply (alloc_aligned demo.1.1 demo.1.2 demo.2 (mkLayout 512 (2 ^ 9)) m' h' 8416768).
  - apply demo_reachable; split; vm_compute; congruence.
  - apply valid_layout_pow2; lia.
  - split; vm_compute; congruence.
  - exact E.
Defined.

(** Without that restriction the alignment is not guaranteed: after a
    request of 4097 bytes the bump pointer is odd, the page the largest class
    is refilled with starts there, and a request of 4096 bytes aligned to 4096
    is answered with a pointer that is not. *)
Theorem slab_page_misaligned :
  ∃ m h live l m' h' ptr,
    reachable (λ _, True) (m, h, live) ∧ valid_layout l ∧
    alloc m h l = Ret (m', h', ptr) ∧ ptr ≠ 0 ∧ ptr mod layout_align l = 1.
Proof.
  destruct demo_odd_ptr as (m' & h' & E).
  exists demo_odd.1.1, demo_odd.1.2, demo_odd.2, (mkLayout 4096 (2 ^ 12)), m', h', 8433665.
  split; [exact demo_odd_reachable|]. split; [apply valid_layout_pow2; lia|].
  split; [exact E|]. clear E. split; [lia|reflexivity].
Qed.

(** The free lists are stacks: the block of a class a client returns is the
    one the next request of that class gets, and no byte is written. *)
Theorem dealloc_alloc_reuses m h live ptr l l' h1
    (Hr : reachable (λ _, True) (m, h, live)) (Hin : (ptr, l) ∈ live)
    (Hcl : is_Some (find_slab_class (aligned_size l)))
    (Hsame : find_slab_class (aligned_size l') = find_slab_class (aligned_size l))
    (Hd : dealloc h ptr l = Ret h1) :
  ∃ h2, alloc m h1 l' = Ret (m, h2, ptr).
Proof.
  destruct (reachable_inv (λ _, True) false (m, h, live)) as (Hinv & _); [done|done|].
  clear Hr. simpl in Hinv. destruct Hcl as [c Hc].
  apply elem_of_Permutation in Hin as [live' HP].
  apply (inv_perm _ _ _ _ HP) in Hinv. destruct Hinv.
  destruct (find_slab_class_some _ _ Hc) as (Hr & _).
  destruct (lookup_lt_is_Some_2 (slabs h) (Z.to_nat c)) as [s Hs]; [lia|].
  destruct (inv_slabs0 c s ltac:(lia) Hs) as [Hbs Harr Hnn Hcons Htot].
  pose proof (live_in_nonneg c live').
  rewrite live_in_cons in Hcons. simpl in Hcons. rewrite decide_True in Hcons by done.
  unfold dealloc, free_to_slab in Hd. rewrite Hc, Hs in Hd.
  rewrite (proj2 (Z.ltb_lt _ _)), arr_set_ok in Hd by lia. injection Hd as <-.
  unfold alloc. rewrite Hsame, Hc. cbn [set_slabs slabs].
  rewrite list_lookup_insert_eq by lia. cbn [block_size].
  destruct (find_slab_class_some _ _ (eq_trans Hsame Hc)) as (_ & Hle & _).
  assert (layout_align l' ≤ aligned_size l') by (unfold aligned_size; case_if; lia).
  rewrite (proj2 (Z.leb_le _ _)) by lia.
  unfold alloc_from_slab. cbn [set_slabs slabs]. rewrite list_lookup_insert_eq by lia.
  cbn [free_count free_list]. rewrite (proj2 (Z.ltb_lt _ _)) by lia.
  rewrite (arr_get_ok _ _ ptr); [by eexists|lia|].
  replace (free_count s + 1 - 1) with (free_count s) by lia.
  apply list_lookup_insert_eq. lia.
Qed.

Lemma dealloc_alloc_reuses_witness :
  ∃ ptr h1 h2, (ptr, mkLayout 100 (2 ^ 3)) ∈ demo.2 ∧
    dealloc demo.1.2 ptr (mkLayout 100 (2 ^ 3)) = Ret h1 ∧
    alloc demo.1.1 h1 (mkLayout 70 (2 ^ 0)) = Ret (demo.1.1, h2, ptr).
Proof.
  assert (Hin : (8408960, mkLayout 100 (2 ^ 3)) ∈ demo.2)
    by (apply (bool_decide_unpack _); vm_compute; exact I).
  destruct (heap_dealloc_ok demo.1.1 demo.1.2 demo.2 8408960 (mkLayout 100 (2 ^ 3))
    (demo_reachable _ I I) Hin) as [h1 Hd].
  destruct (dealloc_alloc_reuses demo.1.1 demo.1.2 demo.2 8408960 (mkLayout 100 (2 ^ 3))
    (mkLayout 70 (2 ^ 0)) h1 (demo_reachable _ I I) Hin) as [h2 Ha].
  - exists 4. vm_compute. reflexivity.
  - vm_compute. reflexivity.
  - exact Hd.
  - exists 8408960, h1, h2. split; [exact Hin|]. split; [exact Hd|exact Ha].
Defined.

(** A class holds at most 1024 blocks.  When all of them are live, a
    request of the class is refused although the heap has room, and each such
    request takes a page from the bump pointer that no allocation will use. *)
Theorem full_class_loses_page m h live l c
    (Hr : reachable (λ _, True) (m, h, live))
    (Hcl : find_slab_class (aligned_size l) = Some c)
    (Hfull : live_in c live = MAX_BLOCKS_PER_CLASS)
    (Hroom : bump_offset h + 4096 ≤ heap_size h) :
  ∃ m' h', alloc m h l = Ret (m', h', 0) ∧ bump_offset h' = bump_offset h + 4096 ∧
    heap_free (slabs h') = heap_free (slabs h).
Proof.
  destruct (reachable_inv (λ _, True) false (m, h, live)) as (Hinv & _); [done|done|].
  clear Hr. simpl in Hinv. destruct Hinv.
  destruct (find_slab_class_some _ _ Hcl) as (Hr & Hle & _).
  destruct (lookup_lt_is_Some_2 (slabs h) (Z.to_nat c)) as [s Hs]; [lia|].
  pose proof (inv_slabs0 c s ltac:(lia) Hs) as Hok.
  pose proof (slab_ok_count c s live Hok Hr) as (_ & Hb & _).
  destruct Hok as [Hbs Harr Hnn Hcons Htot].
  assert (layout_align l ≤ aligned_size l) by (unfold aligned_size; case_if; lia).
  assert (free_count s = 0 ∧ total_count s = MAX_BLOCKS_PER_CLASS) as [Hz Ht] by lia.
  unfold alloc. rewrite Hcl, Hs, (proj2 (Z.leb_le _ _)) by lia.
  unfold alloc_from_slab. rewrite Hs, Hz, Ht, Z.sub_diag. unwrap.
  rewrite (proj2 (Z.ltb_ge _ _)) by lia. rewrite (proj2 (Z.ltb_ge _ _)) by lia.
  rewrite (proj2 (Z.eqb_neq _ _)) by lia.
  pose proof (Z.div_pos 4096 (block_size s)). rewrite Z.min_r by lia.
  unfold push_blocks. rewrite for_loop_done by done. cbn [obind].
  eexists _, _. split; [by rewrite (proj2 (Z.ltb_ge _ _)) by lia|].
  split; [done|]. cbn [set_slabs slabs set_bump]. rewrite !Z.add_0_r, <- Ht, <- Hz.
  replace (mkSlab _ _ _ _ _) with s by (by destruct s). by rewrite list_insert_id.
Qed.

Lemma full_class_loses_page_witness :
  ∃ m' h', alloc demo_full.1.1 demo_full.1.2 (mkLayout 8 (2 ^ 3)) = Ret (m', h', 0) ∧
    bump_offset h' = bump_offset demo_full.1.2 + 4096.
Proof.
  destruct (full_class_loses_page demo_full.1.1 demo_full.1.2 demo_full.2
    (mkLayout 8 (2 ^ 3)) 0 demo_full_reachable) as (m' & h' & E & Hb & _).
  - vm_compute. reflexivity.
  - vm_compute. reflexivity.
  - vm_compute. congruence.
  - exists m', h'. split; [exact E|exact Hb].
Defined.

End Heap.
