(* ===== verification/Vmm.v ===== *)
(** * The virtual memory manager (src/memory/vmm.rs)

    Four-level page tables in the store, walked and changed in place.  The state
    is the store, the static [NEXT_PAGE_ADDR] from which tables are taken, and
    the address of the root table, which [Vmm::new] reads from CR3. *)

From stdpp Require Import base numbers list gmap.
From S2P Require Import Prelude Memory.
Open Scope Z_scope.

Module Vmm.

(** [PageFlags]. *)
Definition PRESENT : Z := Z.shiftl 1 0.
Definition WRITABLE : Z := Z.shiftl 1 1.
Definition USER_ACCESSIBLE : Z := Z.shiftl 1 2.
Definition WRITE_THROUGH : Z := Z.shiftl 1 3.
Definition NO_CACHE : Z := Z.shiftl 1 4.
Definition ACCESSED : Z := Z.shiftl 1 5.
Definition DIRTY : Z := Z.shiftl 1 6.
Definition HUGE_PAGE : Z := Z.shiftl 1 7.
Definition GLOBAL : Z := Z.shiftl 1 8.
Definition NO_EXECUTE : Z := Z.shiftl 1 63.
Definition PageFlags_default : Z := Z.lor PRESENT WRITABLE.

(** The bits of an entry that hold an address. *)
Definition ADDR_MASK : Z := 0x000FFFFFFFFFF000.

Definition VMM_PAGES_END : Z := 0x800000.

Record State := mkState {
  vmem : mem;
  next_page_addr : Z
}.

Definition set_vmem (m : mem) (st : State) : State := mkState m (next_page_addr st).

(** CR3, whose low twelve bits are not part of the address; [Vmm::new] keeps the
    address of the table in use. *)
Definition read_cr3 (cr3 : Z) : Z := Z.land cr3 ADDR_MASK.
Definition write_cr3 (addr : Z) : Z := wrap 64 addr.
Definition new (cr3 : Z) : Z := read_cr3 cr3.

(** ** Page tables *)

Definition get_entry (m : mem) (table index : Z) : Z := load64 m (table + 8 * index).
Definition set_entry (m : mem) (table index value : Z) : mem :=
  store64 m (table + 8 * index) value.

Definition present (entry : Z) : bool := negb (Z.land entry PRESENT =? 0).
Definition huge (entry : Z) : bool := negb (Z.land entry HUGE_PAGE =? 0).

Definition is_present (m : mem) (table index : Z) : bool := present (get_entry m table index).

Definition get_next_table_addr (m : mem) (table index : Z) : option Z :=
  let entry := get_entry m table index in
  if negb (present entry) then None else Some (Z.land entry ADDR_MASK).

(** The index of [virt] in the table of the level with shift [s]. *)
Definition index (virt s : Z) : Z := Z.land (Z.shiftr virt s) 0x1FF.

Definition alloc_page_table (st : State) : State * KernelResult Z :=
  if VMM_PAGES_END <? (next_page_addr st + PAGE_SIZE)%usize then (st, Err OutOfMemory)
  else
    let addr := next_page_addr st in
    (mkState (write_zeros (vmem st) addr PAGE_SIZE) (next_page_addr st + PAGE_SIZE)%usize,
     Ok addr).

(** One level of [map_page]: the table below entry [i] of [table], linked first
    when the entry is absent.  [unwrap] of the entry's address may panic. *)
Definition descend (st : State) (table i : Z) : outcome (State * KernelResult Z) :=
  let '(st, r) :=
    if negb (is_present (vmem st) table i) then
      match alloc_page_table st with
      | (st, Ok new_table) =>
          let entry := Z.lor (Z.lor new_table PRESENT) WRITABLE in
          (set_vmem (set_entry (vmem st) table i entry) st, Ok tt)
      | (st, Err e) => (st, Err e)
      end
    else (st, Ok tt) in
  match r with
  | Err e => Ret (st, Err e)
  | Ok _ =>
      match get_next_table_addr (vmem st) table i with
      | Some a => Ret (st, Ok a)
      | None => Panic
      end
  end.

(** Sequencing of steps that may fail or panic. *)
Definition rbind {A B} (x : outcome (State * KernelResult A))
    (k : State → A → outcome (State * KernelResult B)) : outcome (State * KernelResult B) :=
  match x with
  | Ret (st, Ok a) => k st a
  | Ret (st, Err e) => Ret (st, Err e)
  | Panic => Panic
  end.

Definition map_page (st : State) (pml4 virt phys flags : Z)
    : outcome (State * KernelResult unit) :=
  if negb (virt mod PAGE_SIZE =? 0) || negb (phys mod PAGE_SIZE =? 0)
  then Ret (st, Err InvalidArgument)
  else
    rbind (descend st pml4 (index virt 39)) (λ st pdpt,
    rbind (descend st pdpt (index virt 30)) (λ st pd,
    rbind (descend st pd (index virt 21)) (λ st pt,
      if is_present (vmem st) pt (index virt 12) then Ret (st, Err PageAlreadyMapped)
      else
        Ret (set_vmem (set_entry (vmem st) pt (index virt 12) (Z.lor phys flags)) st,
             Ok tt)))).

(** The walk of [unmap_page] and [update_flags] to the last table. *)
Definition walk (m : mem) (pml4 virt : Z) : option Z :=
  pdpt ← get_next_table_addr m pml4 (index virt 39);
  pd ← get_next_table_addr m pdpt (index virt 30);
  get_next_table_addr m pd (index virt 21).

Definition unmap_page (st : State) (pml4 virt : Z) : State * KernelResult Z :=
  if negb (virt mod PAGE_SIZE =? 0) then (st, Err InvalidArgument)
  else
    match walk (vmem st) pml4 virt with
    | None => (st, Err PageNotMapped)
    | Some pt =>
        if negb (is_present (vmem st) pt (index virt 12)) then (st, Err PageNotMapped)
        else
          let phys := Z.land (get_entry (vmem st) pt (index virt 12)) ADDR_MASK in
          (set_vmem (set_entry (vmem st) pt (index virt 12) 0) st, Ok phys)
    end.

Definition check_huge_page (m : mem) (table i virt shift : Z) : option Z :=
  let entry := get_entry m table i in
  if huge entry && present entry then
    let mask := Z.shiftl 1 shift - 1 in
    Some (Z.land entry ADDR_MASK + Z.land virt mask)%usize
  else None.

Definition translate (m : mem) (pml4 virt : Z) : option Z :=
  pdpt ← get_next_table_addr m pml4 (index virt 39);
  match check_huge_page m pdpt (index virt 30) virt 30 with
  | Some phys => Some phys
  | None =>
      pd ← get_next_table_addr m pdpt (index virt 30);
      match check_huge_page m pd (index virt 21) virt 21 with
      | Some phys => Some phys
      | None =>
          pt ← get_next_table_addr m pd (index virt 21);
          if negb (is_present m pt (index virt 12)) then None
          else Some (Z.land (get_entry m pt (index virt 12)) ADDR_MASK + Z.land virt 0xFFF)%usize
      end
  end.

(** [while addr < end { self.map_page(addr, addr, flags)?; addr += PAGE_SIZE; }],
    for at most [rounds] rounds. *)
Definition identity_map (rounds : Z) (st : State) (pml4 start end_ flags : Z)
    : outcome (State * KernelResult unit) :=
  match
    for_loop 0 rounds
      (λ _ '(st, addr),
         if negb (addr <? end_) then inr (Ret (st, Ok tt))
         else
           match map_page st pml4 addr addr flags with
           | Ret (st, Ok _) => inl (st, (addr + PAGE_SIZE)%usize)
           | Ret (st, Err e) => inr (Ret (st, Err e))
           | Panic => inr Panic
           end) (st, Z.land start (usize_not (PAGE_SIZE - 1)%usize))
  with
  | inl (st, _) => Panic
  | inr r => r
  end.

Definition update_flags (st : State) (pml4 virt flags : Z) : State * KernelResult unit :=
  if negb (virt mod PAGE_SIZE =? 0) then (st, Err InvalidArgument)
  else
    match walk (vmem st) pml4 virt with
    | None => (st, Err PageNotMapped)
    | Some pt =>
        if negb (is_present (vmem st) pt (index virt 12)) then (st, Err PageNotMapped)
        else
          let phys := Z.land (get_entry (vmem st) pt (index virt 12)) ADDR_MASK in
          (set_vmem (set_entry (vmem st) pt (index virt 12) (Z.lor phys flags)) st, Ok tt)
    end.

(** ** Entries *)

Lemma present_spec e : present e = Z.testbit e 0.
Proof.
  unfold present, PRESENT. change (Z.shiftl 1 0) with (Z.ones 1). rewrite Z.land_ones by lia.
  rewrite Z.testbit_odd, Z.shiftr_0_r. change (2 ^ 1) with 2. rewrite Zmod_odd. by destruct (Z.odd e).
Qed.

Lemma ADDR_MASK_spec i : 0 ≤ i → Z.testbit ADDR_MASK i = inrange 12 52 i.
Proof.
  intros Hi. change ADDR_MASK with (Z.shiftl (Z.ones 40) 12). rewrite Z.shiftl_spec by done.
  unfold inrange. destruct (decide (i < 12)).
  { rewrite Z.testbit_neg_r by lia. symmetry. apply andb_false_iff. left. apply Z.leb_gt. lia. }
  rewrite Z.testbit_ones by lia.
  replace (12 <=? i) with true by (symmetry; apply Z.leb_le; lia).
  replace (0 <=? i - 12) with true by (symmetry; apply Z.leb_le; lia). simpl.
  apply eq_true_iff_eq. rewrite !Z.ltb_lt. lia.
Qed.

(** An address an entry can hold. *)
Definition frame (a : Z) : Prop := 0 ≤ a < 2 ^ 52 ∧ a mod PAGE_SIZE = 0.

Lemma frame_bits a i : frame a → 0 ≤ i < 12 → Z.testbit a i = false.
Proof.
  intros [Ha Hm] Hi. unfold PAGE_SIZE in Hm. apply Z.mod_divide in Hm as [q ->]; [|lia].
  change 4096 with (2 ^ 12). apply Z.mul_pow2_bits_low. lia.
Qed.

Lemma frame_mask a : frame a → Z.land a ADDR_MASK = a.
Proof.
  intros Hf. apply Z.bits_inj'. intros i Hi. rewrite Z.land_spec, ADDR_MASK_spec by done.
  destruct (inrange 12 52 i) eqn:E; [by rewrite andb_true_r|]. rewrite andb_false_r.
  apply inrange_false in E. symmetry. destruct (decide (i < 12)).
  - apply frame_bits; [done|lia].
  - apply (bits_above 52); [apply Hf|lia].
Qed.

(** A table put into CR3 is the one a new manager works on. *)
Lemma new_write_cr3 a : frame a → new (write_cr3 a) = a.
Proof.
  intros Hf. unfold new, read_cr3, write_cr3. rewrite wrap_small; [by apply frame_mask|].
  destruct Hf. unfold PAGE_SIZE in *. lia.
Qed.

Lemma mask_frame e : frame (Z.land e ADDR_MASK).
Proof.
  assert (0 ≤ Z.land e ADDR_MASK) by (apply Z.land_nonneg; right; done).
  split; [split; [done|]|].
  - apply below_pow2; [done|done|]. intros i Hi. rewrite Z.land_spec, ADDR_MASK_spec by lia.
    replace (inrange 12 52 i) with false; [by rewrite andb_false_r|].
    symmetry. apply inrange_false. lia.
  - unfold PAGE_SIZE. change 4096 with (2 ^ 12). rewrite <- Z.land_ones by lia.
    apply Z.bits_inj'. intros i Hi. rewrite !Z.land_spec, ADDR_MASK_spec, Z.bits_0 by done.
    rewrite Z.testbit_ones_nonneg by lia. unfold inrange.
    destruct (Z.testbit e i); [|done]. simpl.
    destruct (i <? 12) eqn:E; [|by rewrite andb_false_r]. break_cmp.
    by replace (12 <=? i) with false by (symmetry; apply Z.leb_gt; lia).
Qed.

(** Flags that do not reach into the address. *)
Definition flags_ok (f : Z) : Prop := 0 ≤ f < 2 ^ 64 ∧ Z.land f ADDR_MASK = 0.

Lemma entry_addr a f : frame a → flags_ok f → Z.land (Z.lor a f) ADDR_MASK = a.
Proof.
  intros Ha [_ Hf]. rewrite Z.land_lor_distr_l, Hf, Z.lor_0_r. by apply frame_mask.
Qed.

Lemma entry_word a f : frame a → flags_ok f → 0 ≤ Z.lor a f < 2 ^ 64.
Proof. intros [Ha _] [Hf _]. apply lor_bounds; lia. Qed.

Lemma entry_present a f : frame a → present (Z.lor a f) = present f.
Proof. intros Ha. rewrite !present_spec, Z.lor_spec, frame_bits by (done || lia). done. Qed.

Lemma index_bounds v s : 0 ≤ index v s < 512.
Proof.
  unfold index. change 0x1FF with (Z.ones 9). rewrite Z.land_ones by lia.
  apply Z.mod_pos_bound. lia.
Qed.

(** ** The tree of tables

    A table is named by the indices that lead to it from the root; [ss] are the
    shifts of the levels.  The root's entries are never taken for large pages. *)

Definition next (s : Z) (m : mem) (t i : Z) : option Z :=
  let e := get_entry m t i in
  if present e && negb ((s <? 39) && huge e) then Some (Z.land e ADDR_MASK) else None.

Fixpoint table_at (m : mem) (t : Z) (ss p : list Z) {struct p} : option Z :=
  match p, ss with
  | [], _ => Some t
  | i :: p', s :: ss' => u ← next s m t i; table_at m u ss' p'
  | _ :: _, [] => None
  end.

Definition levels : list Z := [39; 30; 21].

Definition valid (i : Z) : Prop := 0 ≤ i < 512.

(** Distinct paths lead to distinct tables, and no table lies in the memory new
    tables are taken from. *)
Record wf (st : State) (root : Z) : Prop := {
  wf_next : 0 ≤ next_page_addr st ≤ VMM_PAGES_END ∧ next_page_addr st mod PAGE_SIZE = 0;
  wf_table : ∀ p a, Forall valid p → table_at (vmem st) root levels p = Some a →
    frame a ∧ (a + PAGE_SIZE ≤ next_page_addr st ∨ VMM_PAGES_END ≤ a);
  wf_inj : ∀ p q a, Forall valid p → Forall valid q →
    table_at (vmem st) root levels p = Some a →
    table_at (vmem st) root levels q = Some a → p = q
}.

Lemma table_at_length m t ss p a : table_at m t ss p = Some a → (length p ≤ length ss)%nat.
Proof.
  revert t ss. induction p as [|i p IH]; intros t [|s ss]; simpl; [lia|lia|done|].
  destruct (next s m t i) as [u|]; [|done]. simpl. intros E%IH. lia.
Qed.

(** A walk reads one entry of each table it goes through. *)
Lemma table_at_ext m m' t ss p :
  (∀ q i r u, p = q ++ i :: r → (length q < length ss)%nat → table_at m t ss q = Some u →
     get_entry m' u i = get_entry m u i) →
  table_at m' t ss p = table_at m t ss p.
Proof.
  revert t ss. induction p as [|i p IH]; intros t [|s ss] Hq; try done. simpl.
  assert (next s m' t i = next s m t i) as ->.
  { unfold next. rewrite (Hq [] i p t) by (done || (simpl; lia)). done. }
  destruct (next s m t i) as [u|] eqn:E; [|done]. simpl. apply IH.
  intros q j r w -> Hlen Hw. apply (Hq (i :: q) j r); [done|simpl; lia|].
  simpl. by rewrite E.
Qed.

Lemma table_at_app m t ss p i :
  table_at m t ss (p ++ [i]) =
    u ← table_at m t ss p; s ← ss !! length p; next s m u i.
Proof.
  revert t ss. induction p as [|j p IH]; intros t [|s ss]; simpl; try done.
  - by destruct (next s m t i).
  - destruct (next s m t j); simpl; [apply IH|done].
Qed.

Lemma table_at_prefix m t ss p q a :
  table_at m t ss (p ++ q) = Some a → ∃ u, table_at m t ss p = Some u.
Proof.
  revert t ss. induction p as [|i p IH]; intros t ss E; [by exists t|].
  destruct ss as [|s ss]; [done|]. simpl in *.
  destruct (next s m t i) as [u|]; [|done]. simpl in *. by apply (IH u ss).
Qed.

(** Slots of page tables do not overlap. *)
Lemma slot_disjoint a b i j :
  frame a → frame b → valid i → valid j → (a, i) ≠ (b, j) →
  a + 8 * i + 8 ≤ b + 8 * j ∨ b + 8 * j + 8 ≤ a + 8 * i.
Proof.
  intros [_ Ha] [_ Hb] Hi Hj Hne. unfold PAGE_SIZE, valid in *.
  apply Z.mod_divide in Ha as [qa ->]; [|lia]. apply Z.mod_divide in Hb as [qb ->]; [|lia].
  destruct (decide (qa = qb)) as [->|]; [|lia].
  assert (i ≠ j) by congruence. lia.
Qed.

Lemma get_set_eq m t i e : 0 ≤ e < 2 ^ 64 → get_entry (set_entry m t i e) t i = e.
Proof. intros. by apply load64_store64_eq. Qed.

Lemma get_set_ne m t i e u j :
  frame t → frame u → valid i → valid j → (u, j) ≠ (t, i) →
  get_entry (set_entry m t i e) u j = get_entry m u j.
Proof.
  intros. apply load64_store64_ne. destruct (slot_disjoint u t j i); (done || lia).
Qed.

Lemma get_zeros_out m a u j :
  valid j → u + PAGE_SIZE ≤ a ∨ a + PAGE_SIZE ≤ u →
  get_entry (write_zeros m a PAGE_SIZE) u j = get_entry m u j.
Proof. unfold valid, PAGE_SIZE. intros. apply load64_zeros_out. lia. Qed.

Lemma get_zeros_in m a j : valid j → get_entry (write_zeros m a PAGE_SIZE) a j = 0.
Proof. unfold valid, PAGE_SIZE. intros. apply load64_zeros_in; lia. Qed.

(** ** Linking a new table *)

Definition table_entry (a : Z) : Z := Z.lor (Z.lor a PRESENT) WRITABLE.

Lemma table_entry_ok a :
  frame a →
  0 ≤ table_entry a < 2 ^ 64 ∧ present (table_entry a) = true ∧
  huge (table_entry a) = false ∧ Z.land (table_entry a) ADDR_MASK = a.
Proof.
  intros Ha. assert (table_entry a = Z.lor a 3) as ->.
  { unfold table_entry. by rewrite <- Z.lor_assoc. }
  assert (flags_ok 3) as H3 by (split; [lia|done]).
  split; [by apply entry_word|]. split; [by rewrite entry_present|].
  split; [|by apply entry_addr]. unfold huge, HUGE_PAGE. apply negb_false_iff, Z.eqb_eq.
  rewrite Z.land_lor_distr_l. change (Z.land 3 (Z.shiftl 1 7)) with 0. rewrite Z.lor_0_r.
  apply Z.bits_inj'. intros i Hi. rewrite Z.land_spec, Z.bits_0, Z.shiftl_1_l.
  rewrite Z.pow2_bits_eqb by lia. destruct (7 =? i) eqn:E; [|by rewrite andb_false_r].
  break_cmp. subst i. by rewrite frame_bits by (done || lia).
Qed.

Lemma next_frame st root : wf st root → frame (next_page_addr st).
Proof. intros [[H0 Hm] _ _]. unfold VMM_PAGES_END in H0. split; [|done]. lia. Qed.

Section Link.
Context (st : State) (root : Z) (Hwf : wf st root).
Context (p : list Z) (u i : Z).
Context (Hp : Forall valid p) (Hlen : (length p ≤ 2)%nat) (Hi : valid i).
Context (Hu : table_at (vmem st) root levels p = Some u).
Context (Habs : present (get_entry (vmem st) u i) = false).
Context (Hroom : next_page_addr st + PAGE_SIZE ≤ VMM_PAGES_END).

Definition linked_mem : mem :=
  set_entry (write_zeros (vmem st) (next_page_addr st) PAGE_SIZE) u i
    (table_entry (next_page_addr st)).

Definition linked : State := mkState linked_mem (next_page_addr st + PAGE_SIZE).

Let fr (q : list Z) (w : Z) (Hq : Forall valid q)
  (Hw : table_at (vmem st) root levels q = Some w) := wf_table st root Hwf q w Hq Hw.

(** Apart from the new link, every entry of every table is as it was. *)
Lemma linked_entry q w j :
  Forall valid q → valid j → table_at (vmem st) root levels q = Some w → (q, j) ≠ (p, i) →
  get_entry linked_mem w j = get_entry (vmem st) w j.
Proof using All.
  intros Hq Hj Hw Hne. destruct (fr q w Hq Hw) as [Hfw Hd]. destruct (fr p u Hp Hu) as [Hfu _].
  unfold linked_mem. rewrite get_set_ne; [|done|done|done|done|].
  - apply get_zeros_out; [done|]. destruct Hd; lia.
  - intros [= -> ->]. apply Hne. f_equal. by apply (wf_inj st root Hwf q p u).
Qed.

Lemma linked_self : get_entry linked_mem u i = table_entry (next_page_addr st).
Proof using All. by eapply get_set_eq, table_entry_ok, next_frame. Qed.

Lemma linked_new j : valid j → get_entry linked_mem (next_page_addr st) j = 0.
Proof using All.
  intros Hj. destruct (fr p u Hp Hu) as [Hfu Hd]. unfold linked_mem.
  rewrite get_set_ne; [by apply get_zeros_in|done|by eapply next_frame|done|done|].
  intros [= E _]. unfold PAGE_SIZE in *. lia.
Qed.

Lemma path_blocked r a : table_at (vmem st) root levels (p ++ i :: r) ≠ Some a.
Proof using All.
  intros E. change (i :: r) with ([i] ++ r) in E. rewrite app_assoc in E.
  apply table_at_prefix in E as [w E]. rewrite table_at_app, Hu in E. simpl in E.
  destruct (levels !! length p) as [s|]; [|done]. simpl in E.
  unfold next in E. by rewrite Habs in E.
Qed.

Lemma linked_old q w :
  Forall valid q → table_at (vmem st) root levels q = Some w →
  table_at linked_mem root levels q = Some w.
Proof using All.
  intros Hq Hw. rewrite <- Hw. apply table_at_ext. intros q0 j r x -> _ Hx.
  apply Forall_app in Hq as [Hq0 Hjr]. apply Forall_cons in Hjr as [Hj _].
  apply (linked_entry q0); try done. intros [= -> ->]. by apply (path_blocked r w).
Qed.

Lemma linked_at : table_at linked_mem root levels (p ++ [i]) = Some (next_page_addr st).
Proof using All.
  rewrite table_at_app, (linked_old p u Hp Hu). simpl.
  destruct (lookup_lt_is_Some_2 levels (length p)) as [s ->]; [simpl; lia|]. simpl.
  unfold next. rewrite linked_self.
  destruct (table_entry_ok _ (next_frame st root Hwf)) as (_ & -> & -> & ->).
  by rewrite andb_false_r.
Qed.

Lemma linked_cases q w :
  Forall valid q → table_at linked_mem root levels q = Some w →
  q = p ++ [i] ∧ w = next_page_addr st ∨ table_at (vmem st) root levels q = Some w.
Proof using All.
  intros Hq Hw. destruct (decide ((p ++ [i]) `prefix_of` q)) as [[[|j r] ->]|Hnp].
  - left. rewrite app_nil_r in *. rewrite linked_at in Hw. by injection Hw as <-.
  - exfalso. change (j :: r) with ([j] ++ r) in Hw. rewrite app_assoc in Hw.
    apply table_at_prefix in Hw as [x Hx]. rewrite table_at_app, linked_at in Hx. simpl in Hx.
    destruct (levels !! _) as [s|]; [|done]. simpl in Hx. unfold next in Hx.
    rewrite linked_new in Hx; [done|]. apply Forall_app in Hq as [_ Hq]. by apply Forall_cons in Hq as [? _].
  - right. rewrite <- Hw. symmetry. apply table_at_ext. intros q0 j r x -> _ Hx.
    apply Forall_app in Hq as [Hq0 Hjr]. apply Forall_cons in Hjr as [Hj _].
    apply (linked_entry q0); try done. intros [= -> ->]. apply Hnp. exists r. by rewrite <- app_assoc.
Qed.

Lemma linked_wf : wf linked root.
Proof using All.
  pose proof (next_frame st root Hwf) as Hf. pose proof Hwf as [[H0 Hm] Ht Hinj]. unfold linked. split; simpl.
  - unfold PAGE_SIZE in *. split; [lia|]. dlia.
  - intros q w Hq Hw. apply linked_cases in Hw as [[_ ->]|Hw]; [| |done].
    + split; [done|]. left. lia.
    + destruct (Ht q w Hq Hw) as [? [?|?]]; (split; [done|]); [left|right]; unfold PAGE_SIZE in *; lia.
  - intros q r w Hq Hr Hw1 Hw2.
    assert (Hnot : ∀ q, Forall valid q → table_at (vmem st) root levels q ≠ Some (next_page_addr st)).
    { intros q' Hq' E. destruct (Ht q' _ Hq' E) as [_ Hd]. unfold PAGE_SIZE in *. lia. }
    apply linked_cases in Hw1 as [[-> ->]|Hw1]; [| |done];
      apply linked_cases in Hw2 as [[-> E2]|Hw2]; try done.
    + by apply Hnot in Hw2.
    + rewrite E2 in Hw1. by apply Hnot in Hw1.
    + by apply (Hinj q r w).
Qed.
End Link.

(** ** Translation along the tree *)

Definition path (v : Z) : list Z := [index v 39; index v 30; index v 21; index v 12].

Lemma path_valid v : Forall valid (path v).
Proof. unfold path. repeat constructor; apply index_bounds. Qed.

Lemma translate_cases m root v :
  translate m root v =
    pdpt ← table_at m root levels [index v 39];
    match check_huge_page m pdpt (index v 30) v 30 with
    | Some phys => Some phys
    | None =>
        pd ← table_at m root levels [index v 39; index v 30];
        match check_huge_page m pd (index v 21) v 21 with
        | Some phys => Some phys
        | None =>
            pt ← table_at m root levels [index v 39; index v 30; index v 21];
            if present (get_entry m pt (index v 12))
            then Some (Z.land (get_entry m pt (index v 12)) ADDR_MASK + Z.land v 0xFFF)%usize
            else None
        end
    end.
Proof.
  unfold translate, get_next_table_addr, check_huge_page, is_present.
  cbn [table_at levels mbind option_bind]. unfold next.
  change (39 <? 39) with false. change (30 <? 39) with true. change (21 <? 39) with true.
  cbn [andb negb]. rewrite !andb_true_r.
  set (e4 := get_entry m root _). destruct (present e4); cbn [negb option_bind mbind]; [|done].
  set (e3 := get_entry m _ (index v 30)).
  destruct (present e3), (huge e3); cbn [andb negb option_bind mbind]; try done.
  set (e2 := get_entry m _ (index v 21)).
  destruct (present e2), (huge e2); cbn [andb negb option_bind mbind]; try done.
  by destruct (present _).
Qed.

(** The translation depends on the entries along the path only. *)
Lemma translate_ext m m' root v :
  (∀ q i r u, path v = q ++ i :: r → table_at m root levels q = Some u →
     get_entry m' u i = get_entry m u i) →
  translate m' root v = translate m root v.
Proof.
  intros Hq.
  assert (Ht : ∀ p r, path v = p ++ r → table_at m' root levels p = table_at m root levels p).
  { intros p r Hpr. apply table_at_ext. intros q i r' u -> _ Hu.
    apply (Hq q i (r' ++ r) u); [|done]. by rewrite Hpr, <- app_assoc. }
  rewrite !translate_cases.
  rewrite (Ht [index v 39] [index v 30; index v 21; index v 12] eq_refl).
  rewrite (Ht [index v 39; index v 30] [index v 21; index v 12] eq_refl).
  rewrite (Ht [index v 39; index v 30; index v 21] [index v 12] eq_refl).
  destruct (table_at m root levels [index v 39]) as [pdpt|] eqn:E1; [|done]. cbn [mbind option_bind].
  unfold check_huge_page at 1 3.
  rewrite (Hq [index v 39] (index v 30) [index v 21; index v 12] pdpt eq_refl E1).
  destruct (huge _ && _); [done|].
  destruct (table_at m root levels [index v 39; index v 30]) as [pd|] eqn:E2; [|done]. cbn [mbind option_bind].
  unfold check_huge_page.
  rewrite (Hq [index v 39; index v 30] (index v 21) [index v 12] pd eq_refl E2).
  destruct (huge _ && _); [done|].
  destruct (table_at m root levels [index v 39; index v 30; index v 21]) as [pt|] eqn:E3; [|done]. cbn [mbind option_bind].
  by rewrite (Hq [index v 39; index v 30; index v 21] (index v 12) [] pt eq_refl E3).
Qed.

(** An absent entry on the path. *)
Lemma translate_absent m root v q i r u :
  path v = q ++ i :: r → table_at m root levels q = Some u →
  present (get_entry m u i) = false → translate m root v = None.
Proof.
  intros Hp Hu Ha.
  assert (Hnext : ∀ p0 r0, path v = p0 ++ r0 → (length q < length p0)%nat →
    table_at m root levels p0 = None).
  { intros p0 r0 Hp0 Hlen. destruct (table_at m root levels p0) as [w|] eqn:E; [|done]. exfalso.
    assert (p0 = (q ++ [i]) ++ drop (length q + 1) p0) as Hsplit.
    { rewrite <- (take_drop (length q + 1) p0) at 1. f_equal.
      replace (take (length q + 1) p0) with (take (length q + 1) (path v)).
      - rewrite Hp. rewrite take_app_add'. done. done.
      - rewrite Hp0. apply take_app_le. lia. }
    rewrite Hsplit in E. apply table_at_prefix in E as [x E].
    rewrite table_at_app, Hu in E. simpl in E. destruct (levels !! _); [|done]. simpl in E.
    unfold next in E. by rewrite Ha in E. }
  assert (Htab : ∀ p0 r0 w, q = p0 ++ r0 → table_at m root levels p0 = Some w →
    ∀ k sh, head r0 = Some k → levels !! length p0 = Some sh → sh < 39 →
    check_huge_page m w k v sh = None).
  { intros p0 [|k r0] w Hq Hw k' sh Hk Hs Hsh; simplify_eq/=.
    change (k' :: r0) with ([k'] ++ r0) in Hu. rewrite app_assoc in Hu.
    apply table_at_prefix in Hu as [x Hx]. rewrite table_at_app, Hw in Hx. simpl in Hx.
    rewrite Hs in Hx. simpl in Hx. unfold next in Hx. unfold check_huge_page.
    replace (sh <? 39) with true in Hx by (symmetry; apply Z.ltb_lt; lia).
    by destruct (present _), (huge _). }
  rewrite translate_cases. unfold path in Hp.
  destruct (table_at m root levels [index v 39]) as [pdpt|] eqn:E1; [|done]. cbn [mbind option_bind].
  destruct q as [|a [|b [|c [|d q]]]]; cbn [app] in Hp.
  - by rewrite (Hnext [index v 39] [index v 30; index v 21; index v 12]) in E1
      by (done || (simpl; lia)).
  - injection Hp as <- <- _. unfold check_huge_page at 1.
    rewrite E1 in Hu. injection Hu as ->. rewrite Ha, andb_false_r.
    by rewrite (Hnext [index v 39; index v 30] [index v 21; index v 12])
      by (done || (simpl; lia)).
  - injection Hp as <- <- <- _. rewrite (Htab [index v 39] [index v 30] pdpt) by done.
    rewrite Hu. cbn [mbind option_bind].
    unfold check_huge_page at 1. rewrite Ha, andb_false_r.
    by rewrite (Hnext [index v 39; index v 30; index v 21] [index v 12])
      by (done || (simpl; lia)).
  - injection Hp as <- <- <- <- _.
    rewrite (Htab [index v 39] [index v 30; index v 21] pdpt) by done.
    destruct (table_at m root levels [index v 39; index v 30]) as [pd|] eqn:E2; [|done].
    cbn [mbind option_bind]. rewrite (Htab [index v 39; index v 30] [index v 21] pd) by done.
    rewrite Hu. cbn [mbind option_bind]. by rewrite Ha.
  - apply (f_equal length) in Hp. simpl in Hp. rewrite length_app in Hp. simpl in Hp. lia.
Qed.

(** A table below an entry shows that the entry is not a large page. *)
Lemma table_not_huge m root q i w u v s :
  table_at m root levels (q ++ [i]) = Some w → table_at m root levels q = Some u →
  levels !! length q = Some s → s < 39 → check_huge_page m u i v s = None.
Proof.
  intros Hw Hu Hs Hlt. rewrite table_at_app, Hu in Hw. simpl in Hw. rewrite Hs in Hw.
  simpl in Hw. unfold next in Hw. unfold check_huge_page.
  replace (s <? 39) with true in Hw by (symmetry; apply Z.ltb_lt; lia).
  by destruct (present _), (huge _).
Qed.

Lemma table_step m root q i w u :
  table_at m root levels (q ++ [i]) = Some w → table_at m root levels q = Some u →
  get_next_table_addr m u i = Some w ∧ present (get_entry m u i) = true.
Proof.
  intros Hw Hu. rewrite table_at_app, Hu in Hw. simpl in Hw.
  destruct (levels !! length q) as [s|]; [|done]. simpl in Hw.
  unfold next in Hw. unfold get_next_table_addr.
  destruct (present (get_entry m u i)); [|done]. by destruct (negb _).
Qed.

(** The translation of an address whose last table exists. *)
Lemma translate_leaf m root v t :
  table_at m root levels [index v 39; index v 30; index v 21] = Some t →
  translate m root v =
    if present (get_entry m t (index v 12))
    then Some (Z.land (get_entry m t (index v 12)) ADDR_MASK + Z.land v 0xFFF)%usize
    else None.
Proof.
  intros Ht. rewrite translate_cases.
  destruct (table_at_prefix m root levels [index v 39; index v 30] [index v 21] t Ht) as [pd Hpd].
  destruct (table_at_prefix m root levels [index v 39] [index v 30] pd Hpd) as [pdpt Hpdpt].
  rewrite Hpdpt. cbn [mbind option_bind].
  rewrite (table_not_huge m root [index v 39] (index v 30) pd pdpt v 30) by done.
  rewrite Hpd. cbn [mbind option_bind].
  rewrite (table_not_huge m root [index v 39; index v 30] (index v 21) t pd v 21) by done.
  rewrite Ht. done.
Qed.

(** No large page covers the address. *)
Definition small_walk (m : mem) (root v : Z) : Prop :=
  (∀ u, table_at m root levels [index v 39] = Some u →
     check_huge_page m u (index v 30) v 30 = None) ∧
  (∀ u, table_at m root levels [index v 39; index v 30] = Some u →
     check_huge_page m u (index v 21) v 21 = None).

(** A change of tables that translations do not see. *)
Definition grows (st st' : State) (root : Z) : Prop :=
  wf st' root ∧
  (∀ q w, Forall valid q → table_at (vmem st) root levels q = Some w →
     table_at (vmem st') root levels q = Some w) ∧
  (∀ v, translate (vmem st') root v = translate (vmem st) root v) ∧
  (∀ v, small_walk (vmem st) root v → small_walk (vmem st') root v).

Lemma grows_refl st root : wf st root → grows st st root.
Proof. intros. by split_and!. Qed.

Lemma grows_trans st1 st2 st3 root :
  grows st1 st2 root → grows st2 st3 root → grows st1 st3 root.
Proof.
  intros (_ & Ht1 & Hv1 & Hs1) (Hw & Ht2 & Hv2 & Hs2). split_and!; [done|auto| |auto].
  intros v. by rewrite Hv2.
Qed.

Section Linked.
Context (st : State) (root : Z) (Hwf : wf st root).
Context (p : list Z) (u i : Z).
Context (Hp : Forall valid p) (Hlen : (length p ≤ 2)%nat) (Hi : valid i).
Context (Hu : table_at (vmem st) root levels p = Some u).
Context (Habs : present (get_entry (vmem st) u i) = false).
Context (Hroom : next_page_addr st + PAGE_SIZE ≤ VMM_PAGES_END).

Let st' := linked st u i.

Lemma linked_translate v :
  translate (vmem st') root v = translate (vmem st) root v.
Proof using All.
  pose proof (path_valid v) as Hv.
  destruct (decide ((p ++ [i]) `prefix_of` path v)) as [[r Hr]|Hnp].
  - rewrite <- app_assoc in Hr. simpl in Hr.
    rewrite (translate_absent (vmem st) root v p i r u) by done.
    destruct r as [|j r].
    { apply (f_equal length) in Hr. rewrite length_app in Hr. simpl in Hr. lia. }
    apply (translate_absent _ root v (p ++ [i]) j r (next_page_addr st)).
    + by rewrite <- app_assoc.
    + by apply linked_at.
    + unfold st'. simpl. rewrite (linked_new st root Hwf p u i); try done.
      rewrite Hr in Hv. apply Forall_app in Hv as [_ Hv]. rewrite !Forall_cons in Hv. tauto.
  - apply translate_ext. intros q j r w Hq Hw.
    rewrite Hq in Hv. apply Forall_app in Hv as [Hvq Hv]. apply Forall_cons in Hv as [Hj _].
    apply (linked_entry st root Hwf p u i Hp Hlen Hi Hu Habs Hroom q w j); try done.
    intros [= -> ->]. apply Hnp. exists r. by rewrite Hq, <- app_assoc.
Qed.

Lemma linked_huge q w j v s :
  Forall valid q → valid j →
  (∀ w, table_at (vmem st) root levels q = Some w → check_huge_page (vmem st) w j v s = None) →
  table_at (vmem st') root levels q = Some w → check_huge_page (vmem st') w j v s = None.
Proof using All.
  intros Hq Hj Hold Hw. unfold st' in *. simpl in *.
  apply (linked_cases st root Hwf p u i) in Hw as [[-> ->]|Hw]; try done.
  - unfold check_huge_page. by rewrite (linked_new st root Hwf p u i).
  - destruct (decide ((q, j) = (p, i))) as [[= -> ->]|Hne].
    + assert (w = u) as -> by congruence. unfold check_huge_page.
      rewrite (linked_self st root Hwf p u i) by done.
      destruct (table_entry_ok (next_page_addr st)) as (_ & _ & -> & _); [by apply (next_frame st root)|].
      done.
    + specialize (Hold w Hw). unfold check_huge_page in *.
      by rewrite (linked_entry st root Hwf p u i Hp Hlen Hi Hu Habs Hroom q).
Qed.

Lemma linked_grows : grows st st' root.
Proof using All.
  split_and!.
  - by apply (linked_wf st root Hwf p u i).
  - intros. by apply (linked_old st root Hwf p u i).
  - apply linked_translate.
  - pose proof path_valid as Hpv. intros v [H1 H2].
    pose proof (Hpv v) as Hv. unfold path in Hv. rewrite !Forall_cons in Hv.
    destruct Hv as (V1 & V2 & V3 & _).
    split; intros w Hw; (eapply linked_huge; [| |done|exact Hw]); repeat constructor; apply index_bounds.
Qed.
End Linked.

(** Going down one level: the tables grow at most by one, and only a full table
    region makes it fail. *)
Lemma descend_spec st root p u i s :
  wf st root → Forall valid p → valid i → levels !! length p = Some s →
  table_at (vmem st) root levels p = Some u →
  (s < 39 → present (get_entry (vmem st) u i) = true → huge (get_entry (vmem st) u i) = false) →
  match descend st u i with
  | Ret (st', Ok a) => grows st st' root ∧ table_at (vmem st') root levels (p ++ [i]) = Some a
  | Ret (st', Err e) => st' = st ∧ e = OutOfMemory ∧ VMM_PAGES_END < next_page_addr st + PAGE_SIZE
  | Panic => False
  end.
Proof.
  intros Hwf Hp Hi Hs Hu Hh. unfold descend, is_present.
  assert (Hlen : (length p ≤ 2)%nat) by (apply lookup_lt_Some in Hs; simpl in Hs; lia).
  destruct (present (get_entry (vmem st) u i)) eqn:Ep; cbn [negb].
  - unfold get_next_table_addr. rewrite Ep. cbn [negb].
    split; [by apply grows_refl|]. rewrite table_at_app, Hu. simpl. rewrite Hs. simpl.
    unfold next. rewrite Ep. simpl.
    destruct (s <? 39) eqn:E; [|done]. break_cmp. by rewrite Hh.
  - pose proof (wf_next st root Hwf) as [Hn _].
    unfold alloc_page_table, VMM_PAGES_END, PAGE_SIZE in *. rewrite usize_small by lia.
    case_if; [by split_and!|]. cbn [vmem set_vmem next_page_addr].
    change (set_entry _ u i _) with (linked_mem st u i).
    change (set_vmem (linked_mem st u i) _) with (linked st u i). cbn [vmem linked].
    unfold get_next_table_addr.
    rewrite (linked_self st root Hwf p u i) by done.
    destruct (table_entry_ok (next_page_addr st)) as (_ & -> & _ & ->);
      [by apply (next_frame st root)|].
    cbn [negb]. split; [by apply (linked_grows st root Hwf p u i)|].
    by apply (linked_at st root Hwf p u i).
Qed.

(** ** Changing the last table *)

(** The addresses of one page. *)
Definition same_page (v w : Z) : bool := bool_decide (path v = path w).

Definition leaf_path (v : Z) : list Z := [index v 39; index v 30; index v 21].

Lemma leaf_path_valid v : Forall valid (leaf_path v).
Proof. unfold leaf_path. repeat constructor; apply index_bounds. Qed.

Section Leaf.
Context (st : State) (root v t e : Z) (Hwf : wf st root).
Context (Ht : table_at (vmem st) root levels (leaf_path v) = Some t).
Context (He : 0 ≤ e < 2 ^ 64).

Let m' := set_entry (vmem st) t (index v 12) e.

Lemma leaf_entry q u j :
  Forall valid q → valid j → table_at (vmem st) root levels q = Some u →
  (q, j) ≠ (leaf_path v, index v 12) → get_entry m' u j = get_entry (vmem st) u j.
Proof using Hwf Ht.
  intros Hq Hj Hu Hne. pose proof (leaf_path_valid v) as Hl.
  destruct (wf_table st root Hwf q u Hq Hu) as [Hfu _].
  destruct (wf_table st root Hwf _ t Hl Ht) as [Hft _].
  apply get_set_ne; [done|done|apply index_bounds|done|].
  intros [= -> ->]. apply Hne. f_equal. by apply (wf_inj st root Hwf q _ t).
Qed.

Lemma leaf_table_at q :
  Forall valid q → table_at m' root levels q = table_at (vmem st) root levels q.
Proof using Hwf Ht.
  intros Hq. apply table_at_ext. intros q0 j r u -> Hlen Hu.
  apply Forall_app in Hq as [Hq0 Hjr]. apply Forall_cons in Hjr as [Hj _].
  apply (leaf_entry q0); try done. intros [= -> _]. simpl in Hlen. lia.
Qed.

Lemma leaf_wf : wf (set_vmem m' st) root.
Proof using Hwf Ht.
  pose proof Hwf as [Hn Hta Hinj]. split; [done| |].
  - intros q a Hq. cbn [vmem set_vmem]. rewrite leaf_table_at by done. by apply Hta.
  - intros q r a Hq Hr. cbn [vmem set_vmem]. rewrite !leaf_table_at by done. by apply Hinj.
Qed.

Lemma leaf_small w : small_walk (vmem st) root w → small_walk m' root w.
Proof using Hwf Ht.
  pose proof (index_bounds w) as Hw.
  intros [H1 H2]. split; intros u; rewrite leaf_table_at by (repeat constructor; apply index_bounds);
    intros Hu; [specialize (H1 u Hu)|specialize (H2 u Hu)]; unfold check_huge_page in *.
  - rewrite (leaf_entry [index w 39]); try done; [repeat constructor; apply index_bounds|apply index_bounds].
  - rewrite (leaf_entry [index w 39; index w 30]); try done;
      [repeat constructor; apply index_bounds|apply index_bounds].
Qed.

Lemma leaf_translate w :
  translate m' root w =
    if same_page w v then
      if present e then Some (Z.land e ADDR_MASK + Z.land w 0xFFF)%usize else None
    else translate (vmem st) root w.
Proof using Hwf Ht He.
  unfold same_page. case_bool_decide as Hp; cycle 1.
  { apply translate_ext. intros q j r u Hq Hu.
    pose proof (path_valid w) as Hv. rewrite Hq in Hv.
    apply Forall_app in Hv as [Hvq Hv]. apply Forall_cons in Hv as [Hj _].
    apply (leaf_entry q); try done. intros [= -> ->]. apply Hp. rewrite Hq.
    apply (f_equal length) in Hq. rewrite length_app in Hq. simpl in Hq.
    destruct r; [done|]. simpl in Hq. lia. }
  pose proof (get_set_eq (vmem st) t (index v 12) e He) as Hg.
  unfold path in Hp. injection Hp as H4 H3 H2 H1.
  assert (Htw : table_at m' root levels [index w 39; index w 30; index w 21] = Some t).
  { rewrite H4, H3, H2. rewrite <- Ht. apply leaf_table_at, leaf_path_valid. }
  rewrite (translate_leaf _ _ _ t Htw), H1. unfold m'. by rewrite Hg.
Qed.
End Leaf.

(** ** The operations *)

Lemma small_huge m root q i v s u :
  (∀ u, table_at m root levels q = Some u → check_huge_page m u i v s = None) →
  table_at m root levels q = Some u →
  present (get_entry m u i) = true → huge (get_entry m u i) = false.
Proof.
  intros Hc Hu Hp. specialize (Hc u Hu). unfold check_huge_page in Hc. rewrite Hp in Hc.
  by destruct (huge _).
Qed.

(** The walk of [map_page] to the last table. *)
Definition descend_all (st : State) (root virt : Z) : outcome (State * KernelResult Z) :=
  rbind (descend st root (index virt 39)) (λ st pdpt,
  rbind (descend st pdpt (index virt 30)) (λ st pd, descend st pd (index virt 21))).

Lemma map_page_descend st root virt phys flags :
  virt mod PAGE_SIZE = 0 → phys mod PAGE_SIZE = 0 →
  map_page st root virt phys flags =
    rbind (descend_all st root virt) (λ st pt,
      if is_present (vmem st) pt (index virt 12) then Ret (st, Err PageAlreadyMapped)
      else Ret (set_vmem (set_entry (vmem st) pt (index virt 12) (Z.lor phys flags)) st, Ok tt)).
Proof.
  intros Hv Hp. unfold map_page, descend_all. rewrite Hv, Hp. simpl.
  destruct (descend st root _) as [[st1 [pdpt|e]]|]; [|done|done]. simpl.
  destruct (descend st1 pdpt _) as [[st2 [pd|e]]|]; [|done|done]. simpl.
  by destruct (descend st2 pd _) as [[st3 [pt|e]]|].
Qed.

Lemma absent_translate st root virt p i r u :
  path virt = p ++ i :: r → table_at (vmem st) root levels p = Some u →
  (match descend st u i with Ret (st', Err _) => True | _ => False end) →
  translate (vmem st) root virt = None.
Proof.
  intros Hp Hu Hd. apply (translate_absent _ _ _ p i r u); [done|done|].
  unfold descend, is_present in Hd. destruct (present _) eqn:E; [|done]. simpl in Hd.
  by destruct (get_next_table_addr _ _ _).
Qed.

Lemma descend_all_spec st root virt :
  wf st root → small_walk (vmem st) root virt →
  match descend_all st root virt with
  | Ret (st', Ok t) => grows st st' root ∧
      table_at (vmem st') root levels (leaf_path virt) = Some t
  | Ret (st', Err e) => grows st st' root ∧ e = OutOfMemory ∧
      translate (vmem st) root virt = None
  | Panic => False
  end.
Proof.
  intros Hwf Hsm. unfold descend_all.
  assert (Hd1 : match descend st root (index virt 39) with
    | Ret (st', Ok a) => grows st st' root ∧ table_at (vmem st') root levels [index virt 39] = Some a
    | Ret (st', Err e) => st' = st ∧ e = OutOfMemory ∧ VMM_PAGES_END < next_page_addr st + PAGE_SIZE
    | Panic => False end).
  { apply (descend_spec st root [] root (index virt 39) 39); try done; apply index_bounds. }
  destruct (descend st root (index virt 39)) as [[st1 [pdpt|e]]|] eqn:E1; [| |done]; simpl.
  2:{ destruct Hd1 as (-> & -> & _). split; [by apply grows_refl|]. split; [done|].
      apply (absent_translate st root virt [] (index virt 39) _ root eq_refl eq_refl). by rewrite E1. }
  destruct Hd1 as [G1 T1]. pose proof G1 as (Hwf1 & _ & Hv1 & Hs1). specialize (Hs1 virt Hsm).
  assert (Hd2 : match descend st1 pdpt (index virt 30) with
    | Ret (st', Ok a) => grows st1 st' root ∧
        table_at (vmem st') root levels [index virt 39; index virt 30] = Some a
    | Ret (st', Err e) => st' = st1 ∧ e = OutOfMemory ∧ VMM_PAGES_END < next_page_addr st1 + PAGE_SIZE
    | Panic => False end).
  { apply (descend_spec st1 root [index virt 39] pdpt (index virt 30) 30); try done;
      [repeat constructor; apply index_bounds|apply index_bounds|].
    intros _. by apply (small_huge _ root [index virt 39] _ virt 30); [apply Hs1|]. }
  destruct (descend st1 pdpt (index virt 30)) as [[st2 [pd|e]]|] eqn:E2; [| |done]; simpl.
  2:{ destruct Hd2 as (-> & -> & _). split; [done|]. split; [done|]. rewrite <- Hv1.
      apply (absent_translate st1 root virt [index virt 39] (index virt 30) _ pdpt eq_refl T1). by rewrite E2. }
  destruct Hd2 as [G2 T2]. pose proof G2 as (Hwf2 & _ & Hv2 & Hs2). specialize (Hs2 virt Hs1).
  assert (Hd3 : match descend st2 pd (index virt 21) with
    | Ret (st', Ok a) => grows st2 st' root ∧ table_at (vmem st') root levels (leaf_path virt) = Some a
    | Ret (st', Err e) => st' = st2 ∧ e = OutOfMemory ∧ VMM_PAGES_END < next_page_addr st2 + PAGE_SIZE
    | Panic => False end).
  { apply (descend_spec st2 root [index virt 39; index virt 30] pd (index virt 21) 21); try done;
      [repeat constructor; apply index_bounds|apply index_bounds|].
    intros _. by apply (small_huge _ root [index virt 39; index virt 30] _ virt 21); [apply Hs2|]. }
  pose proof (grows_trans _ _ _ _ G1 G2) as G12.
  destruct (descend st2 pd (index virt 21)) as [[st3 [pt|e]]|] eqn:E3; [| |done]; simpl.
  - destruct Hd3 as [G3 T3]. split; [by apply (grows_trans _ st2)|done].
  - destruct Hd3 as (-> & -> & _). split; [done|]. split; [done|].
    rewrite <- (Hv1 virt), <- (Hv2 virt).
    apply (absent_translate st2 root virt [index virt 39; index virt 30] (index virt 21) _ pd eq_refl T2).
    by rewrite E3.
Qed.

Lemma map_page_spec st root virt phys flags :
  wf st root → virt mod PAGE_SIZE = 0 → frame phys → flags_ok flags → present flags = true →
  small_walk (vmem st) root virt →
  match map_page st root virt phys flags with
  | Ret (st', Ok _) =>
      wf st' root ∧ translate (vmem st) root virt = None ∧
      (∀ v, translate (vmem st') root v =
         if same_page v virt then Some (phys + Z.land v 0xFFF) else translate (vmem st) root v) ∧
      (∀ v, small_walk (vmem st) root v → small_walk (vmem st') root v)
  | Ret (st', Err e) =>
      grows st st' root ∧
      (e = PageAlreadyMapped ∧ is_Some (translate (vmem st) root virt) ∨
       e = OutOfMemory ∧ translate (vmem st) root virt = None)
  | Panic => False
  end.
Proof.
  intros Hwf Hv Hp Hf Hpr Hsm. rewrite map_page_descend by (done || apply Hp).
  pose proof (descend_all_spec st root virt Hwf Hsm) as Hd.
  destruct (descend_all st root virt) as [[st1 [t|e]]|]; [| |done]; cbn [rbind].
  2:{ destruct Hd as (G & -> & Hn). split; [done|]. by right. }
  destruct Hd as [G T]. pose proof G as (Hwf1 & _ & Hv1 & Hs1).
  pose proof (translate_leaf _ _ _ t T) as Hl. rewrite Hv1 in Hl. unfold is_present.
  destruct (present (get_entry (vmem st1) t (index virt 12))).
  { split; [done|]. left. split; [done|]. rewrite Hl. by eexists. }
  pose proof (entry_word phys flags Hp Hf) as Hw.
  split; [by apply (leaf_wf st1 root virt)|]. split; [done|]. split.
  - intros v. cbn [vmem set_vmem]. rewrite (leaf_translate st1 root virt t) by done.
    destruct (same_page v virt); [|apply Hv1].
    rewrite entry_present, Hpr, entry_addr by done. f_equal.
    rewrite usize_small; [done|]. destruct Hp as [Hp _].
    change 0xFFF with (Z.ones 12). rewrite Z.land_ones by lia.
    pose proof (Z.mod_pos_bound v (2 ^ 12)). lia.
  - intros v Hs. apply (leaf_small st1 root virt t); auto.
Qed.

(** ** Claims *)


(** An empty root table at [0x1000]. *)
Definition demo_st : State := mkState ∅ 0x700000.
Definition demo_root : Z := 0x1000.

Lemma demo_table_at p a :
  table_at ∅ demo_root levels p = Some a → p = [] ∧ a = demo_root.
Proof.
  destruct p as [|i p]; simpl; [by intros [= <-]|]. unfold next, get_entry, load64, load, rd.
  rewrite !lookup_empty. done.
Qed.

Lemma vdemo_wf : wf demo_st demo_root.
Proof.
  split.
  - by vm_compute.
  - intros p a _ [_ ->]%demo_table_at. split; [split; [vm_compute; split; congruence|done]|].
    left. by vm_compute.
  - intros p q a _ _ [-> _]%demo_table_at [-> _]%demo_table_at. done.
Qed.

Lemma demo_small v : small_walk ∅ demo_root v.
Proof. split; intros u [? _]%demo_table_at; done. Qed.


(** Where no large page is in the way, the walk of [unmap_page] and
    [update_flags] goes down the tree. *)
Lemma walk_table_at m root v :
  small_walk m root v → walk m root v = table_at m root levels (leaf_path v).
Proof.
  intros [H1 H2]. unfold walk, leaf_path.
  change [index v 39; index v 30; index v 21] with ([index v 39; index v 30] ++ [index v 21]).
  rewrite table_at_app.
  change [index v 39; index v 30] with ([index v 39] ++ [index v 30]) in *.
  rewrite table_at_app in *. cbn [app length levels lookup list_lookup mbind option_bind table_at] in *.
  unfold next, get_next_table_addr, check_huge_page in *.
  change (39 <? 39) with false in *. change (30 <? 39) with true in *.
  change (21 <? 39) with true in *. cbn [andb negb] in *. rewrite andb_true_r in *.
  destruct (present (get_entry m root (index v 39))); cbn [negb mbind option_bind] in *; [|done].
  specialize (H1 _ eq_refl). set (pdpt := Z.land _ _) in *.
  destruct (present (get_entry m pdpt (index v 30))), (huge (get_entry m pdpt (index v 30)));
    cbn [andb negb mbind option_bind] in *; try done.
  specialize (H2 _ eq_refl). set (pd := Z.land (get_entry m pdpt _) _) in *.
  by destruct (present (get_entry m pd (index v 21))), (huge (get_entry m pd (index v 21))).
Qed.

Lemma no_table_translate m root v :
  small_walk m root v → table_at m root levels (leaf_path v) = None →
  translate m root v = None.
Proof.
  intros [H1 H2] Et. rewrite translate_cases.
  destruct (table_at m root levels [_]) as [pdpt|]; [|done].
  cbn [mbind option_bind]. rewrite H1 by done.
  destruct (table_at m root levels [_; _]) as [pd|]; [|done].
  cbn [mbind option_bind]. rewrite H2 by done. unfold leaf_path in Et. by rewrite Et.
Qed.


(** The state after mapping one page. *)
Definition demo_mapped : State :=
  match map_page demo_st demo_root 0x40000000 0x9000 PageFlags_default with
  | Ret (st, _) => st
  | Panic => demo_st
  end.

Lemma demo_mapped_ok :
  wf demo_mapped demo_root ∧ (∀ v, small_walk (vmem demo_mapped) demo_root v).
Proof.
  pose proof (map_page_spec demo_st demo_root 0x40000000 0x9000 PageFlags_default vdemo_wf
    eq_refl ltac:(split; [lia|reflexivity]) ltac:(split; [vm_compute; split; congruence|reflexivity])
    eq_refl (demo_small _)) as H1.
  unfold demo_mapped. destruct (map_page _ _ _ _ _) as [[st' [[]|e]]|]; [| |done].
  - destruct H1 as (H1 & _ & _ & H2). split; [exact H1|]. intros v. apply H2, demo_small.
  - destruct H1 as [(H1 & _ & _ & H2) _]. split; [exact H1|]. intros v. apply H2, demo_small.
Qed.


(** [update_flags] on a mapped page keeps every translation, given flags
    with [PRESENT]; on an unmapped page it fails and changes nothing. *)
Theorem update_flags_correct st root virt flags
    (Hwf : wf st root) (Hv : virt mod PAGE_SIZE = 0) (Hf : flags_ok flags)
    (Hpr : present flags = true) (Hs : small_walk (vmem st) root virt) :
  match update_flags st root virt flags with
  | (st', Ok _) =>
      wf st' root ∧ is_Some (translate (vmem st) root virt) ∧
      ∀ v, translate (vmem st') root v = translate (vmem st) root v
  | (st', Err e) => st' = st ∧ e = PageNotMapped ∧ translate (vmem st) root virt = None
  end.
Proof.
  unfold update_flags. rewrite Hv, (walk_table_at _ _ _ Hs). cbn [Z.eqb negb].
  destruct (table_at (vmem st) root levels (leaf_path virt)) as [t|] eqn:Et; cycle 1.
  { split; [done|]. split; [done|]. by apply no_table_translate. }
  pose proof (translate_leaf _ _ _ t Et) as Hl. unfold is_present.
  destruct (present (get_entry (vmem st) t (index virt 12))) eqn:Ep; cbn [negb]; [|done].
  pose proof (mask_frame (get_entry (vmem st) t (index virt 12))) as Hfr.
  pose proof (entry_word _ _ Hfr Hf) as Hw.
  split; [by apply (leaf_wf st root virt t)|]. split; [by rewrite Hl|].
  intros v. cbn [vmem set_vmem]. rewrite (leaf_translate st root virt t) by done.
  unfold same_page. case_bool_decide as E; [|done].
  rewrite entry_present, Hpr, entry_addr by done.
  unfold path in E. injection E as E4 E3 E2 E1. unfold leaf_path in Et.
  rewrite <- E4, <- E3, <- E2 in Et. rewrite (translate_leaf _ _ v t Et), E1, Ep. done.
Qed.

Lemma update_flags_correct_witness :
  match update_flags demo_mapped demo_root 0x40000000 (Z.lor PRESENT NO_EXECUTE) with
  | (st', Ok _) =>
      translate (vmem st') demo_root 0x40000007 = translate (vmem demo_mapped) demo_root 0x40000007
  | (_, Err _) => False
  end.
Proof.
  pose proof (update_flags_correct demo_mapped demo_root 0x40000000 (Z.lor PRESENT NO_EXECUTE)
    (proj1 demo_mapped_ok) eq_refl ltac:(split; [vm_compute; split; congruence|reflexivity])
    eq_refl (proj2 demo_mapped_ok _)) as H1.
  assert (E : match update_flags demo_mapped demo_root 0x40000000 (Z.lor PRESENT NO_EXECUTE) with
              | (_, Ok _) => true | _ => false end = true) by (vm_compute; reflexivity).
  destruct (update_flags _ _ _ _) as [st' [[]|e]]; [|discriminate E].
  destruct H1 as (_ & _ & H1). exact (H1 0x40000007).
Defined.

(** ** Identity mapping *)

Lemma index_div v s : 0 ≤ s → index v s = v / 2 ^ s mod 512.
Proof.
  intros Hs. unfold index. change 0x1FF with (Z.ones 9).
  rewrite Z.land_ones, Z.shiftr_div_pow2 by lia. done.
Qed.

(** In the low half of the address space a page is a multiple of the page size. *)
Lemma same_page_div v w :
  0 ≤ v < 2 ^ 48 → 0 ≤ w < 2 ^ 48 → same_page v w = (v / PAGE_SIZE =? w / PAGE_SIZE).
Proof.
  intros Hv Hw. unfold same_page, path, PAGE_SIZE. rewrite !index_div by lia.
  apply eq_true_iff_eq. rewrite bool_decide_eq_true, Z.eqb_eq.
  assert (Hd : ∀ x, x / 2 ^ 21 = x / 4096 / 512 ∧ x / 2 ^ 30 = x / 4096 / 512 / 512 ∧
    x / 2 ^ 39 = x / 4096 / 512 / 512 / 512) by (intros x; rewrite !Z.div_div by lia; done).
  destruct (Hd v) as (-> & -> & ->). destruct (Hd w) as (-> & -> & ->).
  change (2 ^ 12) with 4096. split; [|by intros ->]. intros [= H4 H3 H2 H1].
  assert (0 ≤ v / 4096 < 2 ^ 36 ∧ 0 ≤ w / 4096 < 2 ^ 36) as [Ha Hb] by (split; dlia).
  generalize dependent (v / 4096). generalize dependent (w / 4096). intros b Hb a H4 H3 H2 H1 Ha.
  clear Hd. dlia.
Qed.



(** ** Large pages *)

(** [map_page] does not look for large pages.  For an address a 2 MB page
    covers, which translates already, it takes the large page's frame for a
    page table: when the word it finds there has its low bit clear, it writes
    the new entry into the frame and reports success. *)
Theorem map_page_overwrites_large_page st root virt phys flags pd
    (Hv : virt mod PAGE_SIZE = 0) (Hp : phys mod PAGE_SIZE = 0)
    (Hpd : table_at (vmem st) root levels [index virt 39; index virt 30] = Some pd)
    (Hpr : present (get_entry (vmem st) pd (index virt 21)) = true)
    (Hh : huge (get_entry (vmem st) pd (index virt 21)) = true)
    (Hfree : present (load64 (vmem st)
       (Z.land (get_entry (vmem st) pd (index virt 21)) ADDR_MASK + 8 * index virt 12)) = false) :
  let base := Z.land (get_entry (vmem st) pd (index virt 21)) ADDR_MASK in
  translate (vmem st) root virt = Some (base + Z.land virt 0x1FFFFF)%usize ∧
  map_page st root virt phys flags =
    Ret (set_vmem (store64 (vmem st) (base + 8 * index virt 12) (Z.lor phys flags)) st, Ok tt).
Proof.
  intros base.
  destruct (table_at_prefix (vmem st) root levels [index virt 39] [index virt 30] pd Hpd)
    as [pdpt Hpdpt].
  pose proof (table_not_huge (vmem st) root [index virt 39] (index virt 30) pd pdpt virt 30
    Hpd Hpdpt eq_refl ltac:(lia)) as Hnh.
  split.
  - rewrite translate_cases, Hpdpt. cbn [mbind option_bind]. rewrite Hnh, Hpd.
    cbn [mbind option_bind]. unfold check_huge_page at 1. rewrite Hh, Hpr. done.
  - rewrite map_page_descend by done. unfold descend_all, descend, is_present.
    destruct (table_step (vmem st) root [] (index virt 39) pdpt root Hpdpt eq_refl) as [Hn4 ->].
    cbn [negb]. rewrite Hn4. cbn [rbind].
    destruct (table_step (vmem st) root [index virt 39] (index virt 30) pd pdpt Hpd Hpdpt)
      as [Hn3 ->].
    cbn [negb]. rewrite Hn3. cbn [rbind].
    rewrite Hpr. cbn [negb]. unfold get_next_table_addr. rewrite Hpr. cbn [negb rbind].
    unfold get_entry at 1. fold base in Hfree |- *. by rewrite Hfree.
Qed.

(** The boot identity map: 2 MB pages below 1 GB. *)
Definition demo_boot : State :=
  mkState (store64 (store64 (store64 ∅ 0x1000 0x2003) 0x2000 0x3003) 0x3010 0x400083) 0x700000.

Lemma map_page_overwrites_large_page_witness :
  translate (vmem demo_boot) 0x1000 0x405000 = Some 0x405000 ∧
  map_page demo_boot 0x1000 0x405000 0x9000 PageFlags_default =
    Ret (set_vmem (store64 (vmem demo_boot) 0x400028 0x9003) demo_boot, Ok tt).
Proof.
  apply (map_page_overwrites_large_page demo_boot 0x1000 0x405000 0x9000 PageFlags_default 0x3000).
  all: vm_compute; reflexivity.
Defined.

End Vmm.
