(* ===== verification/Task.v ===== *)
(** * Tasks and context switches (src/sched/task.rs, src/sched/context_switch.asm)

    The task record with its saved registers, signals and time slice; the
    allocation of stacks and the frame a new task starts from; the assembly
    that saves and restores a task: [context_switch] for cooperative switches,
    [timer_isr] for preemptive ones. *)

From stdpp Require Import base numbers list gmap strings.
From S2P Require Import Prelude Memory.
Open Scope Z_scope.

Module Task.

Definition TASK_STACK_SIZE : Z := 64 * 1024.
Definition DEFAULT_TIME_SLICE : Z := 10.

Inductive TaskState := Ready | Running | Blocked | Terminated | Zombie.

Inductive TaskPriority := Low | Normal | High | RealTime.

Inductive TaskType := Kernel | User.

Inductive TaskForeground := Foreground | Background | Stopped.

#[export] Instance TaskState_eq_dec : EqDecision TaskState.
Proof. solve_decision. Defined.
#[export] Instance TaskPriority_eq_dec : EqDecision TaskPriority.
Proof. solve_decision. Defined.
#[export] Instance TaskType_eq_dec : EqDecision TaskType.
Proof. solve_decision. Defined.
#[export] Instance TaskForeground_eq_dec : EqDecision TaskForeground.
Proof. solve_decision. Defined.

Definition state_str (s : TaskState) : string :=
  match s with
  | Ready => "READY"
  | Running => "RUNNING"
  | Blocked => "BLOCKED"
  | Terminated => "TERM"
  | Zombie => "ZOMBIE"
  end.

(** The discriminants of [TaskPriority], which also give its order. *)
Definition priority_value (p : TaskPriority) : Z :=
  match p with
  | Low => 0
  | Normal => 1
  | High => 2
  | RealTime => 3
  end.

Definition priority_str (p : TaskPriority) : string :=
  match p with
  | Low => "LOW"
  | Normal => "NORM"
  | High => "HIGH"
  | RealTime => "RT"
  end.

Definition fg_str (f : TaskForeground) : string :=
  match f with
  | Foreground => "FG"
  | Background => "BG"
  | Stopped => "STP"
  end.

(** The callee-saved registers and the stack pointer. *)
Record SavedRegisters := mkRegs {
  sr_rbx : Z;
  sr_rbp : Z;
  sr_r12 : Z;
  sr_r13 : Z;
  sr_r14 : Z;
  sr_r15 : Z;
  sr_rsp : Z
}.

Definition SavedRegisters_default : SavedRegisters := mkRegs 0 0 0 0 0 0 0.

Record Task := mkTask {
  id : Z;
  name : string;
  state : TaskState;
  priority : TaskPriority;
  task_type : TaskType;
  foreground : TaskForeground;
  stack_top : Z;
  kernel_stack : Z;
  entry_point : Z;
  regs : SavedRegisters;
  saved_rsp : Z;
  time_slice : Z;
  default_time_slice : Z;
  total_cpu_ticks : Z;
  start_tick : Z;
  exit_code : Z;
  parent_id : option Z;
  children : list Z;
  pml4_addr : Z;
  pgid : Z;
  joining : bool;
  pending_signals : Z;
  blocked_signals : Z
}.

Definition set_state (v : TaskState) (t : Task) : Task :=
  mkTask (id t) (name t) v (priority t) (task_type t) (foreground t) (stack_top t)
    (kernel_stack t) (entry_point t) (regs t) (saved_rsp t) (time_slice t)
    (default_time_slice t) (total_cpu_ticks t) (start_tick t) (exit_code t)
    (parent_id t) (children t) (pml4_addr t) (pgid t) (joining t) (pending_signals t)
    (blocked_signals t).
Definition set_priority (v : TaskPriority) (t : Task) : Task :=
  mkTask (id t) (name t) (state t) v (task_type t) (foreground t) (stack_top t)
    (kernel_stack t) (entry_point t) (regs t) (saved_rsp t) (time_slice t)
    (default_time_slice t) (total_cpu_ticks t) (start_tick t) (exit_code t)
    (parent_id t) (children t) (pml4_addr t) (pgid t) (joining t) (pending_signals t)
    (blocked_signals t).
Definition set_foreground (v : TaskForeground) (t : Task) : Task :=
  mkTask (id t) (name t) (state t) (priority t) (task_type t) v (stack_top t)
    (kernel_stack t) (entry_point t) (regs t) (saved_rsp t) (time_slice t)
    (default_time_slice t) (total_cpu_ticks t) (start_tick t) (exit_code t)
    (parent_id t) (children t) (pml4_addr t) (pgid t) (joining t) (pending_signals t)
    (blocked_signals t).
Definition set_regs (v : SavedRegisters) (t : Task) : Task :=
  mkTask (id t) (name t) (state t) (priority t) (task_type t) (foreground t)
    (stack_top t) (kernel_stack t) (entry_point t) v (saved_rsp t) (time_slice t)
    (default_time_slice t) (total_cpu_ticks t) (start_tick t) (exit_code t)
    (parent_id t) (children t) (pml4_addr t) (pgid t) (joining t) (pending_signals t)
    (blocked_signals t).
Definition set_saved_rsp (v : Z) (t : Task) : Task :=
  mkTask (id t) (name t) (state t) (priority t) (task_type t) (foreground t)
    (stack_top t) (kernel_stack t) (entry_point t) (regs t) v (time_slice t)
    (default_time_slice t) (total_cpu_ticks t) (start_tick t) (exit_code t)
    (parent_id t) (children t) (pml4_addr t) (pgid t) (joining t) (pending_signals t)
    (blocked_signals t).
Definition set_time_slice (v : Z) (t : Task) : Task :=
  mkTask (id t) (name t) (state t) (priority t) (task_type t) (foreground t)
    (stack_top t) (kernel_stack t) (entry_point t) (regs t) (saved_rsp t) v
    (default_time_slice t) (total_cpu_ticks t) (start_tick t) (exit_code t)
    (parent_id t) (children t) (pml4_addr t) (pgid t) (joining t) (pending_signals t)
    (blocked_signals t).
Definition set_default_time_slice (v : Z) (t : Task) : Task :=
  mkTask (id t) (name t) (state t) (priority t) (task_type t) (foreground t)
    (stack_top t) (kernel_stack t) (entry_point t) (regs t) (saved_rsp t) (time_slice t)
    v (total_cpu_ticks t) (start_tick t) (exit_code t) (parent_id t) (children t)
    (pml4_addr t) (pgid t) (joining t) (pending_signals t) (blocked_signals t).
Definition set_total_cpu_ticks (v : Z) (t : Task) : Task :=
  mkTask (id t) (name t) (state t) (priority t) (task_type t) (foreground t)
    (stack_top t) (kernel_stack t) (entry_point t) (regs t) (saved_rsp t) (time_slice t)
    (default_time_slice t) v (start_tick t) (exit_code t) (parent_id t) (children t)
    (pml4_addr t) (pgid t) (joining t) (pending_signals t) (blocked_signals t).
Definition set_start_tick (v : Z) (t : Task) : Task :=
  mkTask (id t) (name t) (state t) (priority t) (task_type t) (foreground t)
    (stack_top t) (kernel_stack t) (entry_point t) (regs t) (saved_rsp t) (time_slice t)
    (default_time_slice t) (total_cpu_ticks t) v (exit_code t) (parent_id t)
    (children t) (pml4_addr t) (pgid t) (joining t) (pending_signals t)
    (blocked_signals t).
Definition set_exit_code (v : Z) (t : Task) : Task :=
  mkTask (id t) (name t) (state t) (priority t) (task_type t) (foreground t)
    (stack_top t) (kernel_stack t) (entry_point t) (regs t) (saved_rsp t) (time_slice t)
    (default_time_slice t) (total_cpu_ticks t) (start_tick t) v (parent_id t)
    (children t) (pml4_addr t) (pgid t) (joining t) (pending_signals t)
    (blocked_signals t).
Definition set_pending_signals (v : Z) (t : Task) : Task :=
  mkTask (id t) (name t) (state t) (priority t) (task_type t) (foreground t)
    (stack_top t) (kernel_stack t) (entry_point t) (regs t) (saved_rsp t) (time_slice t)
    (default_time_slice t) (total_cpu_ticks t) (start_tick t) (exit_code t)
    (parent_id t) (children t) (pml4_addr t) (pgid t) (joining t) v (blocked_signals t).

Definition SIGHUP : Z := 1.
Definition SIGINT : Z := 2.
Definition SIGKILL : Z := 9.
Definition SIGTERM : Z := 15.
Definition SIGTSTP : Z := 20.
Definition SIGCONT : Z := 18.

(** ** Creating tasks

    The statics [NEXT_TASK_ID] and [NEXT_STACK], and the store the stacks lie
    in. *)

Record Globals := mkGlobals {
  gmem : mem;
  next_id : Z;
  next_stack : Z
}.

Definition Globals_init (m : mem) : Globals := mkGlobals m 1 0xA00000.

Definition STACK_REGION_END : Z := 0x2000000.

Definition alloc_stack (g : Globals) (size : Z) : Globals * Z :=
  if STACK_REGION_END <? (next_stack g + size)%usize then (g, 0)
  else
    let addr := next_stack g in
    (mkGlobals (write_zeros (gmem g) addr size) (next_id g) (next_stack g + size)%usize,
     (addr + size)%usize).

(** [NEXT_TASK_ID.fetch_add(1)]. *)
Definition fetch_id (g : Globals) : Globals * Z :=
  (mkGlobals (gmem g) (next_id g + 1)%usize (next_stack g), next_id g).

Definition new_kernel (g : Globals) (entry : Z) (nm : string) : Globals * Task :=
  let '(g, i) := fetch_id g in
  let '(g, top) := alloc_stack g TASK_STACK_SIZE in
  (g, mkTask i nm Ready Normal Kernel Foreground top top entry
        (mkRegs 0 top 0 0 0 0 top) top DEFAULT_TIME_SLICE DEFAULT_TIME_SLICE 0 0 0
        None [] 0 i false 0 0).

Definition new_user (g : Globals) (entry : Z) (nm : string) : Globals * Task :=
  let '(g, i) := fetch_id g in
  let '(g, user_stack) := alloc_stack g TASK_STACK_SIZE in
  let '(g, kstack) := alloc_stack g TASK_STACK_SIZE in
  (g, mkTask i nm Ready Normal User Foreground user_stack kstack entry
        (mkRegs 0 user_stack 0 0 0 0 user_stack) user_stack DEFAULT_TIME_SLICE
        DEFAULT_TIME_SLICE 0 0 0 None [] 0 i false 0 0).

Definition new_kernel_with_priority (g : Globals) (entry : Z) (nm : string)
    (p : TaskPriority) : Globals * Task :=
  let '(g, t) := new_kernel g entry nm in (g, set_priority p t).

Definition new_kernel_background (g : Globals) (entry : Z) (nm : string) : Globals * Task :=
  let '(g, t) := new_kernel g entry nm in (g, set_foreground Background t).

(** [rsp -= 8; core::ptr::write(rsp as *mut u64, v)]. *)
Definition push (x : mem * Z) (v : Z) : mem * Z :=
  let rsp := (x.2 - 8)%usize in (store64 x.1 rsp v, rsp).

Definition setup_initial_stack (m : mem) (t : Task) : mem * Task :=
  let s := (m, stack_top t) in
  let s := push s 0x10 in
  let s := push s (stack_top t) in
  let s := push s 0x202 in
  let s := push s 0x08 in
  let s := push s (entry_point t) in
  let s := push s 0 in
  let s := push s 0x20 in
  let s := push s 0x10 in
  let s := for_each 0 15 (λ _ s, push s 0) s in
  let r := regs t in
  (s.1, set_regs (mkRegs (sr_rbx r) (sr_rbp r) (sr_r12 r) (sr_r13 r) (sr_r14 r) (sr_r15 r) s.2)
          (set_saved_rsp s.2 t)).

(** ** Time slice and signals *)

Definition set_slices (slices : Z) (t : Task) : Task :=
  set_default_time_slice slices (set_time_slice slices t).

Definition reset_time_slice (t : Task) : Task :=
  set_time_slice (default_time_slice t) t.

(** [!x] on a [u32], and [1 << signal]. *)
Definition u32_not (x : Z) : Z := Z.lxor (Z.ones 32) x.
Definition bit (signal : Z) : Z := Z.shiftl 1 signal.

Definition send_signal (signal : Z) (t : Task) : Task :=
  if signal <? 32 then set_pending_signals (Z.lor (pending_signals t) (bit signal)) t
  else t.

Definition has_signal (signal : Z) (t : Task) : bool :=
  if signal <? 32 then negb (Z.land (pending_signals t) (bit signal) =? 0) else false.

(** [u32::trailing_zeros]. *)
Definition trailing_zeros (x : Z) : Z :=
  match for_loop 0 32 (λ i (_ : unit), if Z.testbit x i then inr i else inl tt) tt with
  | inr i => i
  | inl _ => 32
  end.

Definition pop_signal (t : Task) : Task * option Z :=
  let pending := Z.land (pending_signals t) (u32_not (blocked_signals t)) in
  if pending =? 0 then (t, None)
  else
    let signal := trailing_zeros pending in
    (set_pending_signals (Z.land (pending_signals t) (u32_not (bit signal))) t, Some signal).

Definition is_foreground (t : Task) : bool := bool_decide (foreground t = Foreground).
Definition is_stopped (t : Task) : bool := bool_decide (foreground t = Stopped).

(** A saved state as [InterruptFrame] declares it: the address of each field is
    its position in the structure. *)
Record InterruptFrame := mkFrame {
  if_r15 : Z; if_r14 : Z; if_r13 : Z; if_r12 : Z; if_r11 : Z; if_r10 : Z; if_r9 : Z;
  if_r8 : Z; if_rbp : Z; if_rdi : Z; if_rsi : Z; if_rdx : Z; if_rcx : Z; if_rbx : Z;
  if_rax : Z; if_ds : Z; if_vector : Z; if_error_code : Z; if_rip : Z; if_cs : Z;
  if_rflags : Z; if_rsp : Z; if_ss : Z
}.

Definition read_frame (m : mem) (sp : Z) : InterruptFrame :=
  let at_ n := load64 m (sp + 8 * n)%usize in
  mkFrame (at_ 0) (at_ 1) (at_ 2) (at_ 3) (at_ 4) (at_ 5) (at_ 6) (at_ 7) (at_ 8) (at_ 9)
    (at_ 10) (at_ 11) (at_ 12) (at_ 13) (at_ 14) (at_ 15) (at_ 16) (at_ 17) (at_ 18)
    (at_ 19) (at_ 20) (at_ 21) (at_ 22).

(** ** The processor's view

    The registers a switch touches. *)

Record Cpu := mkCpu {
  rax : Z; rbx : Z; rcx : Z; rdx : Z; rsi : Z; rdi : Z; rbp : Z;
  r8 : Z; r9 : Z; r10 : Z; r11 : Z; r12 : Z; r13 : Z; r14 : Z; r15 : Z;
  ds : Z; rip : Z; cs : Z; rflags : Z; rsp : Z; ss : Z
}.

(** [context_switch]: the callee-saved registers and the stack pointer go to
    the current task's [SavedRegisters], those of the next task are loaded,
    and [ret] takes the return address from the new stack.  The other
    registers are left alone. *)
Definition context_switch (m : mem) (c : Cpu) (next : SavedRegisters)
    : SavedRegisters * Cpu :=
  (mkRegs (rbx c) (rbp c) (r12 c) (r13 c) (r14 c) (r15 c) (rsp c),
   mkCpu (rax c) (sr_rbx next) (rcx c) (rdx c) (rsi c) (rdi c) (sr_rbp next)
     (r8 c) (r9 c) (r10 c) (r11 c) (sr_r12 next) (sr_r13 next) (sr_r14 next) (sr_r15 next)
     (ds c) (load64 m (sr_rsp next)) (cs c) (rflags c) (sr_rsp next + 8)%usize (ss c)).

(** [preempt_switch]: RSP goes to where RDI points and is taken from RSI, and
    [ret] takes the return address from the new stack. *)
Definition preempt_switch (m : mem) (c : Cpu) : mem * Cpu :=
  let m := store64 m (rdi c) (rsp c) in
  (m, mkCpu (rax c) (rbx c) (rcx c) (rdx c) (rsi c) (rdi c) (rbp c) (r8 c) (r9 c) (r10 c) (r11 c) (r12 c)
        (r13 c) (r14 c) (r15 c) (ds c) (load64 m (rsi c)) (cs c) (rflags c) (rsi c + 8)%usize (ss c)).

(** An interrupt taken in ring 0 in 64-bit mode: the processor aligns the stack
    pointer to 16 bytes and pushes SS, RSP, RFLAGS, CS and RIP. *)
Definition interrupt_entry (m : mem) (c : Cpu) : mem * Z :=
  foldl push (m, rsp c / 16 * 16) [ss c; rsp c; rflags c; cs c; rip c].

(** [timer_isr] up to the call of the handler: the general registers in the
    order they are pushed, then DS. *)
Definition timer_isr_save (m : mem) (c : Cpu) : mem * Z :=
  foldl push (interrupt_entry m c)
    [rax c; rbx c; rcx c; rdx c; rsi c; rdi c; rbp c; r8 c; r9 c; r10 c;
     r11 c; r12 c; r13 c; r14 c; r15 c; ds c].

(** [timer_isr] after the handler has returned the stack pointer to use: DS,
    the general registers, then what [iretq] pops. *)
Definition timer_isr_restore (m : mem) (sp : Z) : Cpu :=
  let at_ n := load64 m (sp + 8 * n)%usize in
  mkCpu (at_ 15) (at_ 14) (at_ 13) (at_ 12) (at_ 11) (at_ 10) (at_ 9)
    (at_ 8) (at_ 7) (at_ 6) (at_ 5) (at_ 4) (at_ 3) (at_ 2) (at_ 1)
    (wrap 16 (at_ 0)) (at_ 16) (at_ 17) (at_ 18) (at_ 19) (at_ 20).

(** ** Pushing words *)

Definition word (v : Z) : Prop := 0 ≤ v < 2 ^ 64.

(** After pushing [l], its last element is at the stack pointer. *)
Lemma push_all l m top :
  Forall word l → 8 * Z.of_nat (length l) ≤ top ≤ 2 ^ 64 - 1 →
  ∃ m', foldl push (m, top) l = (m', top - 8 * Z.of_nat (length l)) ∧
    (∀ k v, reverse l !! k = Some v →
       load64 m' (top - 8 * Z.of_nat (length l) + 8 * Z.of_nat k) = v) ∧
    (∀ a, top ≤ a → load64 m' a = load64 m a).
Proof.
  induction l as [|v l IH] using rev_ind; intros Hl Htop.
  { exists m. split; [simpl; f_equal; lia|]. split; [|done]. by intros [|k] v Hk. }
  apply Forall_app in Hl as [Hl Hv]. rewrite Forall_singleton in Hv.
  rewrite length_app in *. simpl in Htop |- *. rewrite Nat2Z.inj_add in *.
  destruct IH as (m1 & E & Hk & Hout); [done|lia|].
  rewrite foldl_app, E. cbn [foldl push fst snd]. unfold push. cbn [fst snd].
  rewrite usize_small by lia.
  set (n := Z.of_nat (length l)) in *. change (Z.of_nat 1) with 1.
  replace (top - 8 * n - 8) with (top - 8 * (n + 1)) by lia.
  eexists. split; [done|]. split.
  - intros k w Hw. rewrite reverse_app in Hw. simpl in Hw.
    destruct k as [|k]; simpl in Hw.
    + injection Hw as <-. change (8 * Z.of_nat 0) with 0. rewrite Z.add_0_r.
      apply load64_store64_eq, Hv.
    + rewrite load64_store64_ne by lia.
      rewrite <- (Hk k w Hw). f_equal. lia.
  - intros a Ha. rewrite load64_store64_ne by lia. by apply Hout.
Qed.

Lemma for_each_push n m s :
  0 ≤ n → for_each 0 n (λ _ s, push s 0) (m, s) = foldl push (m, s) (replicate (Z.to_nat n) 0).
Proof.
  intros Hn. pattern n, (for_each 0 n (λ _ s, push s 0) (m, s)).
  apply (for_each_rule (λ n x, x = foldl push (m, s) (replicate (Z.to_nat n) 0))); [done|done|].
  intros i x Hi ->. replace (Z.to_nat (i + 1)) with (Z.to_nat i + 1)%nat by lia.
  by rewrite replicate_add, foldl_app.
Qed.

(** Below the words nothing changes. *)
Lemma push_all_frame l m top :
  8 * Z.of_nat (length l) ≤ top ≤ 2 ^ 64 - 1 →
  (bytes m → bytes (foldl push (m, top) l).1) ∧
  ∀ a, a < top - 8 * Z.of_nat (length l) → rd (foldl push (m, top) l).1 a = rd m a.
Proof.
  revert m top. induction l as [|v l IH]; intros m top Htop; [done|].
  cbn [length] in *. rewrite Nat2Z.inj_succ in Htop. cbn [foldl]. unfold push at 2 4. cbn [fst snd].
  rewrite usize_small by lia. destruct (IH (store64 m (top - 8) v) (top - 8)) as [Hb Hf]; [lia|].
  split; [intros; by apply Hb, bytes_store|]. intros a Ha. rewrite Hf by lia.
  apply rd_store_out. lia.
Qed.

(** The words of the initial frame, in the order they are pushed. *)
Definition initial_words (t : Task) : list Z :=
  [0x10; stack_top t; 0x202; 0x08; entry_point t; 0; 0x20; 0x10] ++ replicate 15 0.

Lemma setup_initial_stack_push m t :
  setup_initial_stack m t =
    let s := foldl push (m, stack_top t) (initial_words t) in
    let r := regs t in
    (s.1, set_regs (mkRegs (sr_rbx r) (sr_rbp r) (sr_r12 r) (sr_r13 r) (sr_r14 r) (sr_r15 r) s.2)
            (set_saved_rsp s.2 t)).
Proof.
  unfold setup_initial_stack, initial_words. rewrite foldl_app.
  cbn [foldl].
  match goal with |- context [for_each 0 15 _ ?x] => rewrite (surjective_pairing x) end.
  rewrite for_each_push by done. done.
Qed.

Lemma setup_initial_stack_keeps m t :
  id (setup_initial_stack m t).2 = id t ∧ state (setup_initial_stack m t).2 = state t ∧
  priority (setup_initial_stack m t).2 = priority t.
Proof. rewrite setup_initial_stack_push. cbn [snd]. by split_and!. Qed.

Definition stacked (t : Task) : Prop :=
  184 ≤ stack_top t < 2 ^ 64 ∧ word (entry_point t).

(** The word [k] of the frame a fresh task is resumed from. *)
Lemma initial_frame m t :
  stacked t →
  let '(m', t') := setup_initial_stack m t in
  saved_rsp t' = stack_top t - 184 ∧ sr_rsp (regs t') = stack_top t - 184 ∧
  ∀ k v, 0 ≤ k → reverse (initial_words t) !! Z.to_nat k = Some v →
    load64 m' (saved_rsp t' + 8 * k)%usize = v.
Proof.
  intros [Ht He]. rewrite setup_initial_stack_push.
  destruct (push_all (initial_words t) m (stack_top t)) as (m' & -> & Hk & _).
  - unfold initial_words, word in *. repeat constructor; lia.
  - unfold initial_words. simpl. lia.
  - cbn -[initial_words reverse Z.mul Z.add Z.sub].
    change (8 * Z.of_nat (length (initial_words t))) with 184 in *.
    split; [done|]. split; [done|]. intros k v Hk0 Hkv.
    rewrite <- (Z2Nat.id k) by done. rewrite usize_small; [by apply Hk|].
    apply lookup_lt_Some in Hkv. rewrite length_reverse in Hkv.
    change (length (initial_words t)) with 23%nat in Hkv. lia.
Qed.

(** ** Saving and restoring a task *)

Definition cpu_ok (c : Cpu) : Prop :=
  Forall word [rax c; rbx c; rcx c; rdx c; rsi c; rdi c; rbp c; r8 c; r9 c; r10 c;
     r11 c; r12 c; r13 c; r14 c; r15 c; rip c; cs c; rflags c; rsp c; ss c] ∧
  0 ≤ ds c < 2 ^ 16.

(** The words [timer_isr] saves, in the order they are pushed. *)
Definition saved_words (c : Cpu) : list Z :=
  [ss c; rsp c; rflags c; cs c; rip c; rax c; rbx c; rcx c; rdx c; rsi c; rdi c; rbp c;
   r8 c; r9 c; r10 c; r11 c; r12 c; r13 c; r14 c; r15 c; ds c].

Lemma timer_isr_save_push m c :
  timer_isr_save m c = foldl push (m, rsp c / 16 * 16) (saved_words c).
Proof.
  unfold timer_isr_save, interrupt_entry. rewrite <- foldl_app. done.
Qed.

Lemma timer_isr_save_spec m c :
  cpu_ok c → 184 ≤ rsp c →
  ∃ m' sp, timer_isr_save m c = (m', sp) ∧ sp = rsp c / 16 * 16 - 168 ∧
    (∀ k v, reverse (saved_words c) !! k = Some v → load64 m' (sp + 8 * Z.of_nat k) = v) ∧
    (∀ a, rsp c ≤ a → load64 m' a = load64 m a).
Proof.
  intros [Hc Hds] Hsp. rewrite timer_isr_save_push.
  rewrite !Forall_cons in Hc.
  assert (word (rsp c)) as Hr by tauto. unfold word in Hr.
  assert (rsp c - 15 ≤ rsp c / 16 * 16 ≤ rsp c) by dlia.
  destruct (push_all (saved_words c) m (rsp c / 16 * 16)) as (m' & E & Hk & Hout).
  - unfold saved_words. rewrite !Forall_cons. unfold word in *. split_and!; try tauto; lia.
  - change (Z.of_nat (length (saved_words c))) with 21. lia.
  - change (8 * Z.of_nat (length (saved_words c))) with 168 in *.
    exists m', (rsp c / 16 * 16 - 168). split; [done|]. split; [done|]. split; [done|].
    intros a Ha. apply Hout. lia.
Qed.

(** Two stores that hold the same saved state. *)
Lemma timer_isr_restore_ext m1 m2 sp :
  0 ≤ sp → sp + 168 ≤ 2 ^ 64 →
  (∀ k, 0 ≤ k < 21 → load64 m1 (sp + 8 * k) = load64 m2 (sp + 8 * k)) →
  timer_isr_restore m1 sp = timer_isr_restore m2 sp.
Proof.
  intros H0 H1 Hk. unfold timer_isr_restore. unwrap. rewrite !Hk by lia. done.
Qed.

(** Restoring what was saved. *)
Lemma timer_isr_roundtrip m c m' sp m2
    (Hc : cpu_ok c) (Hsp : 184 ≤ rsp c)
    (Hsave : timer_isr_save m c = (m', sp))
    (Hkeep : ∀ a, sp ≤ a < sp + 168 → load64 m2 a = load64 m' a) :
  timer_isr_restore m2 sp = c.
Proof.
  destruct (timer_isr_save_spec m c Hc Hsp) as (m1 & sp1 & E & Hsp1 & Hk & _).
  rewrite Hsave in E. injection E as <- <-.
  assert (word (rsp c)) as Hr.
  { destruct Hc as [Hc _]. rewrite !Forall_cons in Hc. tauto. }
  unfold word in Hr. assert (8 ≤ sp ∧ sp + 168 ≤ rsp c) by dlia.
  rewrite (timer_isr_restore_ext m2 m' sp); [|lia|lia|intros; apply Hkeep; lia].
  assert (Hat : ∀ k v, 0 ≤ k → reverse (saved_words c) !! Z.to_nat k = Some v →
    load64 m' (sp + 8 * k)%usize = v).
  { intros k v Hk0 Hkv. rewrite <- (Z2Nat.id k) by done. rewrite usize_small; [by apply Hk|].
    apply lookup_lt_Some in Hkv. rewrite length_reverse in Hkv.
    change (length (saved_words c)) with 21%nat in Hkv. lia. }
  unfold timer_isr_restore.
  rewrite (Hat 0 (ds c)), (Hat 1 (r15 c)), (Hat 2 (r14 c)), (Hat 3 (r13 c)),
    (Hat 4 (r12 c)), (Hat 5 (r11 c)), (Hat 6 (r10 c)), (Hat 7 (r9 c)),
    (Hat 8 (r8 c)), (Hat 9 (rbp c)), (Hat 10 (rdi c)), (Hat 11 (rsi c)),
    (Hat 12 (rdx c)), (Hat 13 (rcx c)), (Hat 14 (rbx c)), (Hat 15 (rax c)),
    (Hat 16 (rip c)), (Hat 17 (cs c)), (Hat 18 (rflags c)), (Hat 19 (rsp c)),
    (Hat 20 (ss c)) by done.
  rewrite wrap_small by apply Hc. by destruct c.
Qed.

(** [timer_isr] is transparent: when the handler returns the stack pointer
    it was given, or the task is resumed later from that pointer, and the
    saved words have not been overwritten, the interrupted program continues
    with every general register, DS, RIP, CS, RFLAGS, RSP and SS as they were. *)
Theorem timer_isr_transparent m c m' sp m2
    (Hc : cpu_ok c) (Hsp : 184 ≤ rsp c)
    (Hsave : timer_isr_save m c = (m', sp))
    (Hkeep : ∀ a, sp ≤ a < sp + 168 → load64 m2 a = load64 m' a) :
  timer_isr_restore m2 sp = c.
Proof. by apply (timer_isr_roundtrip m c m' sp m2). Qed.

(** The handler of the timer is called with the stack eight bytes off the sixteen
    the calling convention requires. *)
Theorem timer_call_misaligned m c (Hc : cpu_ok c) (Hsp : 184 ≤ rsp c) : (timer_isr_save m c).2 mod 16 = 8.
Proof.
  destruct (timer_isr_save_spec m c Hc Hsp) as (m' & sp & -> & -> & _). cbn [snd]. dlia.
Qed.

(** [preempt_switch] on a state [timer_isr] saved: its [ret] jumps to the saved DS. *)
Theorem preempt_switch_jumps_to_ds m c m' sp cur (Hc : cpu_ok c) (Hsp : 184 ≤ rsp c)
    (Hsave : timer_isr_save m c = (m', sp)) (Hrsi : rsi cur = sp)
    (Hrdi : rdi cur + 8 ≤ sp ∨ sp + 8 ≤ rdi cur) :
  rip (preempt_switch m' cur).2 = ds c.
Proof.
  destruct (timer_isr_save_spec m c Hc Hsp) as (m1 & sp1 & E & _ & Hk & _).
  rewrite Hsave in E. injection E as <- <-. cbn [preempt_switch snd rip]. rewrite Hrsi.
  rewrite load64_store64_ne by lia. rewrite <- (Hk 0%nat (ds c) eq_refl). f_equal. lia.
Qed.

(** A processor state with distinct values in the registers. *)
Definition demo_cpu : Cpu :=
  mkCpu 1 2 3 4 5 6 7 8 9 10 11 12 13 14 15 0x10 0x200000 0x08 0x202 0xA0FFFC 0x10.

Lemma timer_isr_transparent_witness :
  timer_isr_restore (timer_isr_save ∅ demo_cpu).1 (timer_isr_save ∅ demo_cpu).2 = demo_cpu.
Proof.
  apply (timer_isr_transparent ∅ demo_cpu (timer_isr_save ∅ demo_cpu).1
    (timer_isr_save ∅ demo_cpu).2 (timer_isr_save ∅ demo_cpu).1).
  - split; [|vm_compute; split; congruence].
    rewrite !Forall_cons. unfold word. simpl. split_and!; try lia. apply Forall_nil_2.
  - vm_compute. congruence.
  - apply surjective_pairing.
  - reflexivity.
Defined.

(** ** The first resumption of a task *)

(** [setup_initial_stack] writes the frame [InterruptFrame] describes: read
    with that structure at [saved_rsp], a new task has its entry point in RIP,
    the kernel's segments, interrupts enabled, and the top of its stack in RSP. *)
Theorem setup_writes_interrupt_frame m t (Ht : stacked t) :
  let '(m', t') := setup_initial_stack m t in
  read_frame m' (saved_rsp t') =
    mkFrame 0 0 0 0 0 0 0 0 0 0 0 0 0 0 0 0x10 0x20 0 (entry_point t) 0x08 0x202
      (stack_top t) 0x10.
Proof.
  pose proof (initial_frame m t Ht) as Hf.
  destruct (setup_initial_stack m t) as [m' t']. destruct Hf as (_ & _ & Hat).
  unfold read_frame.
  rewrite (Hat 0 0), (Hat 1 0), (Hat 2 0), (Hat 3 0), (Hat 4 0),
    (Hat 5 0), (Hat 6 0), (Hat 7 0), (Hat 8 0), (Hat 9 0), (Hat 10 0),
    (Hat 11 0), (Hat 12 0), (Hat 13 0), (Hat 14 0), (Hat 15 0x10),
    (Hat 16 0x20), (Hat 17 0), (Hat 18 (entry_point t)), (Hat 19 0x08),
    (Hat 20 0x202), (Hat 21 (stack_top t)), (Hat 22 0x10) by done.
  done.
Qed.

(** A task of the idle loop's kind. *)
Definition demo_task : Task := (new_kernel (Globals_init ∅) 0x123450 "idle").2.

Lemma setup_writes_interrupt_frame_witness :
  let '(m', t') := setup_initial_stack ∅ demo_task in
  if_rip (read_frame m' (saved_rsp t')) = 0x123450.
Proof.
  pose proof (setup_writes_interrupt_frame ∅ demo_task) as H1.
  destruct (setup_initial_stack ∅ demo_task) as [m' t'].
  rewrite H1; [vm_compute; reflexivity|].
  split; vm_compute; split; congruence.
Defined.

(** What the stubs make of the frame of a new task. *)
Lemma fresh_task_frame m t (Ht : stacked t) :
  let '(m', t') := setup_initial_stack m t in
  let c := timer_isr_restore m' (saved_rsp t') in
  rip c = 0x20 ∧ cs c = 0 ∧ rflags c = entry_point t ∧ rsp c = 0x08 ∧ ss c = 0x202 ∧
  ∀ c0, rip (context_switch m' c0 (regs t')).2 = 0.
Proof.
  pose proof (initial_frame m t Ht) as Hf.
  destruct (setup_initial_stack m t) as [m' t']. destruct Hf as (Hs & Hr & Hat).
  cbn [timer_isr_restore rip cs rflags rsp ss].
  rewrite (Hat 16 0x20), (Hat 17 0), (Hat 18 (entry_point t)), (Hat 19 0x08),
    (Hat 20 0x202) by done.
  split_and!; try done. intros c0. cbn [context_switch snd rip]. rewrite Hr, <- Hs.
  pose proof (Hat 0 0 ltac:(done) eq_refl) as H0.
  destruct Ht as [Ht _]. by rewrite Z.add_0_r, usize_small in H0 by lia.
Qed.

(** But [timer_isr] pops DS first and knows no vector and no error code.
    Resumed from [saved_rsp], a new task gets the vector 0x20 as its RIP, a
    null CS, its entry point as RFLAGS, 8 as RSP and 0x202 as SS; switched to
    by [context_switch], it returns to address 0. *)
Theorem fresh_task_resumed_wrong m t (Ht : stacked t) :
  let '(m', t') := setup_initial_stack m t in
  let c := timer_isr_restore m' (saved_rsp t') in
  rip c = 0x20 ∧ cs c = 0 ∧ rflags c = entry_point t ∧ rsp c = 0x08 ∧ ss c = 0x202 ∧
  ∀ c0, rip (context_switch m' c0 (regs t')).2 = 0.
Proof. exact (fresh_task_frame m t Ht). Qed.

Lemma fresh_task_resumed_wrong_witness :
  let '(m', t') := setup_initial_stack ∅ demo_task in
  rip (timer_isr_restore m' (saved_rsp t')) = 0x20.
Proof.
  pose proof (fresh_task_resumed_wrong ∅ demo_task) as H1.
  destruct (setup_initial_stack ∅ demo_task) as [m' t'].
  apply H1. split; vm_compute; split; congruence.
Defined.

(** ** Stacks *)

(** A task to create: user or kernel, its entry point and name. *)
Definition create (g : Globals) (x : bool * Z * string) : Globals * Task :=
  let '(user, entry, nm) := x in
  if (user : bool) then new_user g entry nm else new_kernel g entry nm.

Fixpoint create_all (g : Globals) (xs : list (bool * Z * string)) : Globals * list Task :=
  match xs with
  | [] => (g, [])
  | x :: xs =>
      let '(g, t) := create g x in
      let '(g, ts) := create_all g xs in (g, t :: ts)
  end.

(** The stacks a task owns; a null one was refused. *)
Definition stacks_of (t : Task) : list Z :=
  match task_type t with
  | Kernel => [stack_top t]
  | User => [stack_top t; kernel_stack t]
  end.

Definition stack_ranges (ts : list Task) : list (Z * Z) :=
  (λ top, (top - TASK_STACK_SIZE, TASK_STACK_SIZE)) <$>
    filter (λ top, top ≠ 0) (mjoin (stacks_of <$> ts)).

Definition stacks_from (lo hi : Z) (l : list (Z * Z)) : Prop :=
  Forall (λ e, lo ≤ e.1 ∧ e.1 + e.2 ≤ hi) l ∧ disjoint_list l.

Definition region_ok (g : Globals) : Prop :=
  0xA00000 ≤ next_stack g ≤ STACK_REGION_END.

Definition range_of (tops : list Z) : list (Z * Z) :=
  (λ top, (top - TASK_STACK_SIZE, TASK_STACK_SIZE)) <$> filter (λ top, top ≠ 0) tops.

Lemma alloc_stack_spec g g' top :
  region_ok g → alloc_stack g TASK_STACK_SIZE = (g', top) →
  region_ok g' ∧ next_id g' = next_id g ∧ next_stack g ≤ next_stack g' ∧
  stacks_from (next_stack g) (next_stack g') (range_of [top]).
Proof.
  unfold region_ok, alloc_stack, STACK_REGION_END, TASK_STACK_SIZE. intros Hg. unwrap.
  case_if; intros [= <- <-].
  - split_and!; (done || lia).
  - simpl. split_and!; try lia.
    unfold range_of. rewrite filter_cons_True by lia. simpl.
    unfold TASK_STACK_SIZE. split; repeat constructor; simpl; lia.
Qed.

Lemma stacks_from_app a b c l1 l2 :
  a ≤ b ≤ c → stacks_from a b l1 → stacks_from b c l2 → stacks_from a c (l1 ++ l2).
Proof.
  intros Hab [F1 D1] [F2 D2]. split.
  - apply Forall_app. split; (eapply Forall_impl; [eassumption|]); simpl; lia.
  - apply (disjoint_list_above _ _ b); [| |done|done];
      (eapply Forall_impl; [eassumption|]); simpl; lia.
Qed.

Lemma create_spec g x g' t :
  region_ok g → 0 ≤ next_id g < 2 ^ 64 - 1 → create g x = (g', t) →
  region_ok g' ∧ id t = next_id g ∧ next_id g' = next_id g + 1 ∧
  next_stack g ≤ next_stack g' ∧
  stacks_from (next_stack g) (next_stack g') (range_of (stacks_of t)).
Proof.
  intros Hg Hid. destruct x as [[[] entry] nm]; simpl; unfold new_user, new_kernel, fetch_id.
  - destruct (alloc_stack _ _) as [g1 top1] eqn:E1.
    destruct (alloc_stack g1 _) as [g2 top2] eqn:E2. intros [= <- <-].
    apply alloc_stack_spec in E1 as (Hr1 & Hi1 & Hn1 & Hs1); [|done].
    apply alloc_stack_spec in E2 as (Hr2 & Hi2 & Hn2 & Hs2); [|done].
    simpl in *. split_and!; try done; [rewrite Hi2, Hi1; by rewrite usize_small by lia|lia|].
    assert (range_of [top1; top2] = range_of [top1] ++ range_of [top2]) as E
      by (unfold range_of; by rewrite (filter_app _ [top1] [top2]), fmap_app).
    unfold stacks_of. cbn [task_type stack_top kernel_stack]. rewrite E.
    by apply (stacks_from_app _ (next_stack g1)).
  - destruct (alloc_stack _ _) as [g1 top1] eqn:E1. intros [= <- <-].
    apply alloc_stack_spec in E1 as (Hr1 & Hi1 & Hn1 & Hs1); [|done].
    simpl in *. split_and!; try done. rewrite Hi1. by rewrite usize_small by lia.
Qed.

Lemma create_all_spec xs g g' ts :
  region_ok g → 0 ≤ next_id g → next_id g + Z.of_nat (length xs) < 2 ^ 64 →
  create_all g xs = (g', ts) →
  region_ok g' ∧ id <$> ts = seqZ (next_id g) (Z.of_nat (length xs)) ∧
  next_stack g ≤ next_stack g' ∧
  stacks_from (next_stack g) (next_stack g') (stack_ranges ts).
Proof.
  revert g ts. induction xs as [|x xs IH]; intros g ts Hg H0 Hn E; simpl in E.
  { injection E as <- <-. by split_and!. }
  destruct (create g x) as [g1 t] eqn:E1. destruct (create_all g1 xs) as [g2 ts'] eqn:E2.
  injection E as <- <-. simpl in Hn.
  apply create_spec in E1 as (Hr1 & Hi & Hnx & Hle & Hs); [|done|lia].
  apply IH in E2 as (Hr2 & Hi2 & Hle2 & Hs2); [|done|lia|lia].
  split_and!; [done| |lia|].
  - cbn [length]. rewrite Nat2Z.inj_succ, seqZ_cons by lia.
    rewrite fmap_cons, Hi, Hi2, Hnx. f_equal. f_equal; lia.
  - change (stack_ranges (t :: ts')) with (range_of (stacks_of t ++ mjoin (stacks_of <$> ts'))).
    unfold range_of. rewrite filter_app, fmap_app.
    by apply (stacks_from_app _ (next_stack g1)).
Qed.

(** Tasks get the identifiers 1, 2, 3, ... in the order of their creation,
    and the stacks of all tasks, kernel and user, are disjoint and lie in the
    region 0xA00000..0x2000000. *)
Theorem task_stacks_disjoint m xs g ts
    (Hn : Z.of_nat (length xs) < 2 ^ 63)
    (Hc : create_all (Globals_init m) xs = (g, ts)) :
  id <$> ts = seqZ 1 (Z.of_nat (length xs)) ∧
  disjoint_list (stack_ranges ts) ∧
  Forall (λ e, 0xA00000 ≤ e.1 ∧ e.1 + e.2 ≤ STACK_REGION_END) (stack_ranges ts).
Proof.
  apply create_all_spec in Hc as ([_ Hr] & Hi & _ & HF & Hd); [|by split|done|simpl; lia].
  split_and!; [done|done|]. eapply Forall_impl; [exact HF|].
  simpl. intros e. lia.
Qed.

Definition demo_tasks : Globals * list Task :=
  create_all (Globals_init ∅) [(false, 0x1000, "idle"); (true, 0x2000, "init")].

Lemma task_stacks_disjoint_witness :
  disjoint_list (stack_ranges demo_tasks.2) ∧ length (stack_ranges demo_tasks.2) = 3%nat.
Proof.
  split; [|vm_compute; reflexivity].
  apply (task_stacks_disjoint ∅ [(false, 0x1000, "idle"); (true, 0x2000, "init")] demo_tasks.1).
  - simpl. lia.
  - exact (surjective_pairing demo_tasks).
Defined.

(** When the region is used up, a task is created all the same, with a null
    stack, and its initial frame is written below the end of the address space. *)
Theorem task_without_stack g entry nm m' t'
    (Hg : 0 ≤ next_stack g < 2 ^ 63) (He : word entry)
    (Hfull : STACK_REGION_END < next_stack g + TASK_STACK_SIZE)
    (Hs : setup_initial_stack (gmem (new_kernel g entry nm).1) (new_kernel g entry nm).2 = (m', t')) :
  stack_top t' = 0 ∧ saved_rsp t' = 2 ^ 64 - 184.
Proof.
  assert (stack_top (new_kernel g entry nm).2 = 0) as Htop.
  { unfold new_kernel, fetch_id, alloc_stack. cbn [next_stack].
    unfold TASK_STACK_SIZE in *. rewrite usize_small by lia.
    by rewrite (proj2 (Z.ltb_lt _ _)). }
  rewrite setup_initial_stack_push, Htop in Hs.
  cbn [initial_words app replicate foldl push fst snd] in Hs.
  injection Hs as <- <-. split; [exact Htop|]. reflexivity.
Qed.

(** The globals after 352 kernel tasks. *)
Definition demo_full : Globals :=
  (create_all (Globals_init ∅) (replicate 352 (false, 0x1000, "t"))).1.

Definition demo_stackless : mem * Task :=
  setup_initial_stack (gmem (new_kernel demo_full 0x1000 "t").1)
    (new_kernel demo_full 0x1000 "t").2.

Lemma task_without_stack_witness : saved_rsp demo_stackless.2 = 2 ^ 64 - 184.
Proof.
  apply (task_without_stack demo_full 0x1000 "t" demo_stackless.1).
  - vm_compute. split; congruence.
  - vm_compute. split; congruence.
  - vm_compute. reflexivity.
  - exact (surjective_pairing demo_stackless).
Defined.

(** ** Signals *)

Definition u32 (x : Z) : Prop := 0 ≤ x < 2 ^ 32.

(** A signal that is pending and not blocked. *)
Definition deliverable (t : Task) (j : Z) : bool :=
  Z.testbit (pending_signals t) j && negb (Z.testbit (blocked_signals t) j).

Lemma trailing_zeros_spec x :
  u32 x → x ≠ 0 →
  0 ≤ trailing_zeros x < 32 ∧ Z.testbit x (trailing_zeros x) = true ∧
  ∀ j, 0 ≤ j < trailing_zeros x → Z.testbit x j = false.
Proof.
  intros Hx Hnz. unfold trailing_zeros.
  loop_inv (λ i (_ : unit), ∀ j, 0 ≤ j < i → Z.testbit x j = false)
    (λ i, 0 ≤ i < 32 ∧ Z.testbit x i = true ∧ ∀ j, 0 ≤ j < i → Z.testbit x j = false);
    [intros H1|done|lia|].
  - destruct (for_loop _ _ _ _) as [[]|i]; [|done]. exfalso. apply Hnz.
    apply Z.bits_inj'. intros j Hj. rewrite Z.bits_0.
    destruct (decide (j < 32)); [by apply H1|]. apply (bits_above 32); [done|lia].
  - intros i [] Hi IH. destruct (Z.testbit x i) eqn:E; [by split; [|split]|].
    intros j Hj. destruct (decide (j = i)) as [->|]; [done|]. apply IH. lia.
Qed.

Lemma u32_not_spec x j : 0 ≤ j < 32 → Z.testbit (u32_not x) j = negb (Z.testbit x j).
Proof.
  intros Hj. unfold u32_not. rewrite Z.lxor_spec, Z.ones_spec_low by lia.
  by destruct (Z.testbit x j).
Qed.

Lemma bit_spec k j : 0 ≤ k → 0 ≤ j → Z.testbit (bit k) j = (j =? k).
Proof.
  intros Hk Hj. unfold bit. rewrite Z.shiftl_1_l. by rewrite Z.pow2_bits_eqb, Z.eqb_sym.
Qed.

Lemma deliverable_spec t j :
  u32 (pending_signals t) → 0 ≤ j →
  Z.testbit (Z.land (pending_signals t) (u32_not (blocked_signals t))) j = deliverable t j.
Proof.
  intros Hp Hj. rewrite Z.land_spec. unfold deliverable.
  destruct (decide (j < 32)); [by rewrite u32_not_spec by lia|].
  by rewrite (bits_above 32 (pending_signals t)) by (done || lia).
Qed.

(** [pop_signal] returns the lowest-numbered pending signal that is not
    blocked and clears that one only; it returns none, and changes nothing,
    exactly when every pending signal is blocked. *)
Theorem pop_signal_lowest t (Hp : u32 (pending_signals t)) :
  match pop_signal t with
  | (t', Some s) =>
      0 ≤ s < 32 ∧ deliverable t s = true ∧
      (∀ j, 0 ≤ j < s → deliverable t j = false) ∧
      t' = set_pending_signals (pending_signals t') t ∧
      ∀ j, 0 ≤ j → Z.testbit (pending_signals t') j =
                    (Z.testbit (pending_signals t) j && negb (j =? s))
  | (t', None) => t' = t ∧ ∀ j, 0 ≤ j → deliverable t j = false
  end.
Proof.
  unfold pop_signal. set (p := Z.land _ _).
  assert (Hd : ∀ j, 0 ≤ j → Z.testbit p j = deliverable t j)
    by (intros; by apply deliverable_spec).
  assert (u32 p) as Hpb by (apply land_bounds; done).
  destruct (p =? 0) eqn:E; break_cmp.
  { split; [done|]. intros j Hj. by rewrite <- Hd, E, Z.bits_0 by done. }
  destruct (trailing_zeros_spec p Hpb E) as (Hs & Hbit & Hlow).
  rewrite Hd in Hbit by lia. split; [done|]. split; [done|].
  split; [intros j Hj; rewrite <- Hd by lia; by apply Hlow|]. split; [done|].
  intros j Hj. cbn [set_pending_signals pending_signals]. rewrite Z.land_spec.
  destruct (decide (j < 32)).
  - by rewrite u32_not_spec, bit_spec by lia.
  - by rewrite (bits_above 32 (pending_signals t)) by (done || lia).
Qed.

(** SIGTERM and SIGTSTP are pending, SIGTERM is blocked. *)
Definition demo_signals : Task :=
  let t := send_signal SIGTSTP (send_signal SIGTERM demo_task) in
  mkTask (id t) (name t) (state t) (priority t) (task_type t) (foreground t) (stack_top t)
    (kernel_stack t) (entry_point t) (regs t) (saved_rsp t) (time_slice t)
    (default_time_slice t) (total_cpu_ticks t) (start_tick t) (exit_code t) (parent_id t)
    (children t) (pml4_addr t) (pgid t) (joining t) (pending_signals t) (bit SIGTERM).

Lemma pop_signal_lowest_witness :
  (pop_signal demo_signals).2 = Some SIGTSTP ∧ deliverable demo_signals SIGTSTP = true.
Proof.
  split; [vm_compute; reflexivity|].
  pose proof (pop_signal_lowest demo_signals ltac:(vm_compute; split; congruence)) as H1.
  replace (pop_signal demo_signals) with ((pop_signal demo_signals).1, Some SIGTSTP) in H1
    by (vm_compute; reflexivity).
  exact (proj1 (proj2 H1)).
Defined.

End Task.
