(* ===== verification/Scheduler.v ===== *)
(** * The scheduler (src/sched/scheduler.rs)

    Tasks are shared: the queue, the current slot and the list of all tasks hold
    handles ([Arc<Mutex<Task>>]) to one store, so that a change made through one
    is seen through the others.  A handle is the key of its task in [arcs].

    A cooperative switch leaves [schedule] in the middle: [schedule] gives the
    state at the call of [context_switch] with the two tasks to switch between,
    and [schedule_resumed] is what is left to do when the caller runs again. *)

From stdpp Require Import base numbers list gmap strings.
From S2P Require Import Prelude Memory Task.
Open Scope Z_scope.

Module Scheduler.
Import Task.

Record Scheduler := mkSched {
  arcs : gmap Z Task;
  next_arc : Z;
  ready_queue : list Z;
  current : option Z;
  all_tasks : list Z;
  task_count : Z;
  tick_count : Z;
  need_reschedule : bool;
  preempt_enabled : bool;
  scheduler_ticks : Z;
  context_switches : Z
}.

Definition Scheduler_new : Scheduler :=
  mkSched ∅ 0 [] None [] 0 0 false false 0 0.

Definition set_arcs (v : gmap Z Task) (s : Scheduler) : Scheduler :=
  mkSched v (next_arc s) (ready_queue s) (current s) (all_tasks s) (task_count s)
    (tick_count s) (need_reschedule s) (preempt_enabled s) (scheduler_ticks s)
    (context_switches s).
Definition set_queue (v : list Z) (s : Scheduler) : Scheduler :=
  mkSched (arcs s) (next_arc s) v (current s) (all_tasks s) (task_count s)
    (tick_count s) (need_reschedule s) (preempt_enabled s) (scheduler_ticks s)
    (context_switches s).
Definition set_current (v : option Z) (s : Scheduler) : Scheduler :=
  mkSched (arcs s) (next_arc s) (ready_queue s) v (all_tasks s) (task_count s)
    (tick_count s) (need_reschedule s) (preempt_enabled s) (scheduler_ticks s)
    (context_switches s).
Definition set_all (v : list Z) (s : Scheduler) : Scheduler :=
  mkSched (arcs s) (next_arc s) (ready_queue s) (current s) v (task_count s)
    (tick_count s) (need_reschedule s) (preempt_enabled s) (scheduler_ticks s)
    (context_switches s).
Definition set_need (v : bool) (s : Scheduler) : Scheduler :=
  mkSched (arcs s) (next_arc s) (ready_queue s) (current s) (all_tasks s) (task_count s)
    (tick_count s) v (preempt_enabled s) (scheduler_ticks s) (context_switches s).
Definition set_preempt (v : bool) (s : Scheduler) : Scheduler :=
  mkSched (arcs s) (next_arc s) (ready_queue s) (current s) (all_tasks s) (task_count s)
    (tick_count s) (need_reschedule s) v (scheduler_ticks s) (context_switches s).
Definition set_switches (v : Z) (s : Scheduler) : Scheduler :=
  mkSched (arcs s) (next_arc s) (ready_queue s) (current s) (all_tasks s) (task_count s)
    (tick_count s) (need_reschedule s) (preempt_enabled s) (scheduler_ticks s) v.

(** [*arc.lock()] changed by [f]. *)
Definition modify (h : Z) (f : Task → Task) (s : Scheduler) : Scheduler :=
  set_arcs (alter f h (arcs s)) s.

(** [self.ready_queue.push_back(arc)]. *)
Definition enqueue (h : Z) (s : Scheduler) : Scheduler := set_queue (ready_queue s ++ [h]) s.

(** A test on the task behind a handle. *)
Definition task_is (s : Scheduler) (P : Task → bool) (h : Z) : bool :=
  match arcs s !! h with
  | Some t => P t
  | None => false
  end.

Definition state_is (s : Scheduler) (h : Z) (st : TaskState) : bool :=
  task_is s (λ t, bool_decide (state t = st)) h.

(** ** Creating tasks

    [now] is [timer::tick_count()].  The new [Arc] gets a key of its own. *)

Definition add_task (m : mem) (t : Task) (now : Z) (s : Scheduler) : mem * Scheduler * Z :=
  let '(m, t) := setup_initial_stack m t in
  let t := set_start_tick now t in
  let h := next_arc s in
  (m, mkSched (<[h := t]> (arcs s)) (h + 1) (ready_queue s ++ [h]) (current s)
        (all_tasks s ++ [h]) (task_count s + 1)%usize (tick_count s) (need_reschedule s)
        (preempt_enabled s) (scheduler_ticks s) (context_switches s), id t).

Definition with_mem (g : Globals) (m : mem) : Globals :=
  mkGlobals m (next_id g) (next_stack g).

Definition create_kernel_task (g : Globals) (s : Scheduler) (entry : Z) (nm : string)
    (now : Z) : Globals * Scheduler * Z :=
  let '(g, t) := new_kernel g entry nm in
  let '(m, s, i) := add_task (gmem g) t now s in (with_mem g m, s, i).

Definition create_kernel_task_with_priority (g : Globals) (s : Scheduler) (entry : Z)
    (nm : string) (p : TaskPriority) (now : Z) : Globals * Scheduler * Z :=
  let '(g, t) := new_kernel_with_priority g entry nm p in
  let '(m, s, i) := add_task (gmem g) t now s in (with_mem g m, s, i).

Definition create_background_task (g : Globals) (s : Scheduler) (entry : Z) (nm : string)
    (now : Z) : Globals * Scheduler * Z :=
  let '(g, t) := new_kernel_background g entry nm in
  let '(m, s, i) := add_task (gmem g) t now s in (with_mem g m, s, i).

Definition create_user_task (g : Globals) (s : Scheduler) (entry : Z) (nm : string)
    (now : Z) : Globals * Scheduler * Z :=
  let '(g, t) := new_user g entry nm in
  let '(m, s, i) := add_task (gmem g) t now s in (with_mem g m, s, i).

(** [idle] is the address of [idle_task]. *)
Definition create_idle_task (g : Globals) (s : Scheduler) (idle now : Z)
    : Globals * Scheduler * Z :=
  create_kernel_task_with_priority g s idle "idle" Low now.

(** ** Choosing the next task *)

(** The loop of [pick_next_task] from index [idx]. *)
Fixpoint best_from (s : Scheduler) (q : list Z) (idx : nat) (best_idx : nat)
    (best_priority : TaskPriority) : nat :=
  match q with
  | [] => best_idx
  | h :: q' =>
      match arcs s !! h with
      | Some t =>
          if bool_decide (state t = Ready) &&
             (priority_value best_priority <? priority_value (priority t))
          then best_from s q' (S idx) idx (priority t)
          else best_from s q' (S idx) best_idx best_priority
      | None => best_from s q' (S idx) best_idx best_priority
      end
  end.

Definition best_index (s : Scheduler) : nat := best_from s (ready_queue s) 0 0 Low.

Definition pick_next_task (s : Scheduler) : Scheduler * option Z :=
  match ready_queue s with
  | [] => (s, None)
  | _ =>
      let i := best_index s in
      match ready_queue s !! i with
      | None => (s, None)
      | Some h =>
          if state_is s h Ready
          then (set_queue (delete i (ready_queue s)) s, Some h)
          else (s, None)
      end
  end.

(** ** Switching *)

(** What [do_context_switch] is called with: the task left, the task entered. *)
Definition switch := option (option Z * Z).

Definition schedule (s : Scheduler) : Scheduler * switch :=
  let s := set_need false s in
  let current_arc := current s in
  let s := set_current None s in
  let s :=
    match current_arc with
    | Some h =>
        if state_is s h Running
        then enqueue h (modify h (λ t, reset_time_slice (set_state Ready t)) s)
        else s
    | None => s
    end in
  let '(s, next) := pick_next_task s in
  match next with
  | Some n =>
      let s := modify n (set_state Running) s in
      let should_switch :=
        match current_arc with Some h => negb (h =? n) | None => true end in
      let s := set_current (Some n) s in
      (s, if should_switch then Some (current_arc, n) else None)
  | None => (set_current current_arc s, None)
  end.

(** [self.context_switches += 1], once the caller of [schedule] runs again. *)
Definition schedule_resumed (s : Scheduler) : Scheduler :=
  set_switches (context_switches s + 1)%usize s.

(** [do_context_switch]: the registers of the task left are saved in it, or in
    [DUMMY_REGS] when there is none. *)
Definition do_context_switch (m : mem) (c : Cpu) (s : Scheduler) (dummy : SavedRegisters)
    (cur : option Z) (next : Z) : Scheduler * SavedRegisters * Cpu :=
  match arcs s !! next with
  | None => (s, dummy, c)
  | Some n =>
      let '(saved, c') := context_switch m c (regs n) in
      match cur with
      | Some h => (modify h (set_regs saved) s, dummy, c')
      | None => (s, saved, c')
      end
  end.

(** [preempt_schedule]: the scheduler and the stack pointer to resume from. *)
Definition preempt_schedule (s : Scheduler) (current_rsp : Z) : Scheduler * Z :=
  if negb (preempt_enabled s) then (s, current_rsp)
  else
    let s :=
      match current s with
      | Some h =>
          enqueue h (modify h (λ t, reset_time_slice
                                      (set_state Ready (set_saved_rsp current_rsp t))) s)
      | None => s
      end in
    let '(s, next) := pick_next_task s in
    match next with
    | Some n =>
        let s := modify n (set_state Running) s in
        let next_rsp := match arcs s !! n with Some t => saved_rsp t | None => 0 end in
        (set_switches (context_switches s + 1)%usize (set_current (Some n) s), next_rsp)
    | None =>
        (match current s with
         | Some h => modify h (set_state Running) s
         | None => s
         end, current_rsp)
    end.

(** ** The timer tick *)

(** The signal part of [tick]: the task after it, and whether [tick] returns. *)
Definition tick_signals (t : Task) : Task * bool :=
  if pending_signals t =? 0 then (t, false)
  else
    match pop_signal t with
    | (t, Some signal) =>
        if signal =? SIGKILL then (set_exit_code (-9) (set_state Terminated t), true)
        else if signal =? SIGTSTP then
          (set_state Blocked (set_foreground Stopped t), true)
        else if signal =? SIGCONT then
          (if bool_decide (foreground t = Stopped)
           then set_state Running (set_foreground Background t) else t, false)
        else (t, false)
    | (t, None) => (t, false)
    end.

(** The accounting part: the task after it, and whether its quantum is over. *)
Definition tick_account (t : Task) : Task * bool :=
  let t := set_total_cpu_ticks (total_cpu_ticks t + 1)%usize t in
  let t := if 0 <? time_slice t then set_time_slice (time_slice t - 1) t else t in
  (t, time_slice t =? 0).

Definition tick (s : Scheduler) : Scheduler * switch :=
  let s := mkSched (arcs s) (next_arc s) (ready_queue s) (current s) (all_tasks s)
             (task_count s) (tick_count s + 1)%usize (need_reschedule s) (preempt_enabled s)
             (scheduler_ticks s + 1)%usize (context_switches s) in
  if negb (preempt_enabled s) then (s, None)
  else
    let '(s, returned) :=
      match current s with
      | Some h =>
          match arcs s !! h with
          | Some t =>
              let '(t, returned) := tick_signals t in
              if (returned : bool) then (set_need true (modify h (λ _, t) s), true)
              else if negb (bool_decide (state t = Running))
              then (set_need true (modify h (λ _, t) s), true)
              else
                let '(t, over) := tick_account t in
                let s := modify h (λ _, t) s in
                (if (over : bool) then set_need true s else s, false)
          | None => (s, false)
          end
      | None => (s, false)
      end in
    if (returned : bool) then (s, None)
    else if need_reschedule s then schedule s
    else (s, None).

(** ** Process control *)

Definition block_current (s : Scheduler) : Scheduler :=
  match current s with
  | Some h => set_need true (modify h (set_state Blocked) s)
  | None => s
  end.

(** The loops [for arc in &self.all_tasks { if ... { ...; return } }]: the first
    handle whose task satisfies [P]. *)
Definition find_task (s : Scheduler) (P : Task → bool) : option Z :=
  head (filter (λ h, task_is s P h = true) (all_tasks s)).

Definition unblock_task (s : Scheduler) (task_id : Z) : Scheduler * KernelResult unit :=
  match find_task s (λ t, (id t =? task_id) && bool_decide (state t = Blocked)) with
  | Some h => (set_need true (enqueue h (modify h (set_state Ready) s)), Ok tt)
  | None => (s, Err InvalidArgument)
  end.

Definition terminate_current (s : Scheduler) (code : Z) : Scheduler * switch :=
  let s :=
    match current s with
    | Some h => modify h (λ t, set_exit_code code (set_state Terminated t)) s
    | None => s
    end in
  schedule (set_need true s).

(** [self.ready_queue.retain(|a| a.lock().id != task_id)]. *)
Definition retain_not (s : Scheduler) (task_id : Z) (l : list Z) : list Z :=
  filter (λ h, task_is s (λ t, id t =? task_id) h = false) l.

Definition terminate_task (s : Scheduler) (task_id code : Z) : Scheduler * KernelResult unit :=
  if task_id <=? 2 then (s, Err AccessDenied)
  else
    match find_task s (λ t, id t =? task_id) with
    | Some h =>
        let s := set_need true
                   (modify h (λ t, set_exit_code code (set_state Terminated t)) s) in
        (set_queue (retain_not s task_id (ready_queue s)) s, Ok tt)
    | None => (s, Err InvalidArgument)
    end.

Definition send_signal_to (s : Scheduler) (task_id signal : Z)
    : Scheduler * KernelResult unit :=
  match find_task s (λ t, id t =? task_id) with
  | Some h => (modify h (send_signal signal) s, Ok tt)
  | None => (s, Err InvalidArgument)
  end.

Definition background_task (s : Scheduler) (task_id : Z) : Scheduler * KernelResult unit :=
  match find_task s (λ t, id t =? task_id) with
  | Some h =>
      match arcs s !! h with
      | Some t =>
          if bool_decide (foreground t = Stopped) then
            (set_need true (enqueue h (modify h
               (λ t, send_signal SIGCONT (set_state Ready (set_foreground Background t))) s)),
             Ok tt)
          else (s, Err InvalidArgument)
      | None => (s, Err InvalidArgument)
      end
  | None => (s, Err InvalidArgument)
  end.

Definition foreground_task (s : Scheduler) (task_id : Z) : Scheduler * KernelResult unit :=
  match find_task s (λ t, id t =? task_id) with
  | Some h =>
      match arcs s !! h with
      | Some t =>
          if bool_decide (foreground t = Foreground) then (s, Err InvalidArgument)
          else
            let t := set_foreground Foreground t in
            if bool_decide (foreground t = Stopped) then
              (set_need true (enqueue h (modify h
                 (λ _, send_signal SIGCONT (set_state Ready t)) s)), Ok tt)
            else (modify h (λ _, t) s, Ok tt)
      | None => (s, Err InvalidArgument)
      end
  | None => (s, Err InvalidArgument)
  end.

Definition yield_current (s : Scheduler) : Scheduler * switch := schedule (set_need true s).

Definition enable_preemption (s : Scheduler) : Scheduler := set_preempt true s.
Definition disable_preemption (s : Scheduler) : Scheduler := set_preempt false s.

(** The line the two print. *)
Definition preemption_line (enabled : bool) : string :=
  if enabled then "[SCHED] Preemptive scheduling ENABLED" else "[SCHED] Preemptive scheduling DISABLED".

Definition is_preemption_enabled (s : Scheduler) : bool := preempt_enabled s.

(** One round of the loop of [cleanup_terminated]. *)
Definition cleanup_one (s : Scheduler) (i : Z) : Scheduler :=
  let s := set_all (retain_not s i (all_tasks s)) s in
  set_queue (retain_not s i (ready_queue s)) s.

Definition cleanup_terminated (s : Scheduler) : Scheduler :=
  let terminated :=
    omap (λ h, match arcs s !! h with
               | Some t => if bool_decide (state t = Terminated) then Some (id t) else None
               | None => None
               end) (all_tasks s) in
  foldl cleanup_one s terminated.

(** ** Queries *)

Record TaskInfo := mkInfo {
  info_id : Z;
  info_name : string;
  info_state : TaskState;
  info_priority : TaskPriority;
  info_task_type : TaskType;
  info_foreground : TaskForeground;
  info_entry_point : Z;
  info_cpu_ticks : Z;
  info_exit_code : Z
}.

Definition task_info (t : Task) : TaskInfo :=
  mkInfo (id t) (name t) (state t) (priority t) (task_type t) (foreground t)
    (entry_point t) (total_cpu_ticks t) (exit_code t).

Definition current_task_id (s : Scheduler) : option Z :=
  h ← current s; t ← arcs s !! h; Some (id t).
Definition current_task_name (s : Scheduler) : option string :=
  h ← current s; t ← arcs s !! h; Some (name t).

Definition ready_count (s : Scheduler) : Z := Z.of_nat (length (ready_queue s)).

Definition get_task_info (s : Scheduler) (task_id : Z) : option TaskInfo :=
  h ← find_task s (λ t, id t =? task_id); t ← arcs s !! h; Some (task_info t).

Definition list_tasks (s : Scheduler) : list TaskInfo :=
  omap (λ h, task_info <$> arcs s !! h) (all_tasks s).

Record SchedulerStats := mkStats {
  total_tasks : Z;
  ready_tasks : Z;
  stat_tick_count : Z;
  stat_context_switches : Z;
  preemption_enabled : bool;
  current_task : string
}.

Definition stats (s : Scheduler) : SchedulerStats :=
  mkStats (task_count s) (Z.of_nat (length (ready_queue s))) (tick_count s)
    (context_switches s) (preempt_enabled s) (default "none"%string (current_task_name s)).

(** ** The choice of [pick_next_task] *)

(** The rank of a queued task: its priority when it is ready. *)
Definition rank (s : Scheduler) (h : Z) : Z :=
  match arcs s !! h with
  | Some t => if bool_decide (state t = Ready) then priority_value (priority t) else -1
  | None => -1
  end.

Lemma priority_value_nonneg p : 0 ≤ priority_value p ≤ 3.
Proof. destruct p; simpl; lia. Qed.

Lemma state_is_Some s h st :
  state_is s h st = true ↔ ∃ t, arcs s !! h = Some t ∧ state t = st.
Proof.
  unfold state_is, task_is. destruct (arcs s !! h) as [t|].
  - rewrite bool_decide_eq_true. split; [by eauto|]. by intros (? & [= ->] & ?).
  - split; [done|]. by intros (? & ? & ?).
Qed.

Lemma rank_ready s h : state_is s h Ready = true ↔ 0 ≤ rank s h.
Proof.
  rewrite state_is_Some. unfold rank. destruct (arcs s !! h) as [t|].
  - case_bool_decide as Hr.
    + pose proof (priority_value_nonneg (priority t)). split; [lia|by eauto].
    + split; [by intros (? & [= ->] & ?)|lia].
  - split; [by intros (? & ? & ?)|lia].
Qed.

(** The loop keeps the first index of the highest rank above the one it starts
    with. *)
Lemma best_from_spec s q idx b0 p0 :
  (best_from s q idx b0 p0 = b0 ∧ ∀ h, h ∈ q → rank s h ≤ priority_value p0) ∨
  (∃ q1 h q2, q = q1 ++ h :: q2 ∧ best_from s q idx b0 p0 = (idx + length q1)%nat ∧
     priority_value p0 < rank s h ∧ (∀ h', h' ∈ q → rank s h' ≤ rank s h) ∧
     ∀ h', h' ∈ q1 → rank s h' < rank s h).
Proof.
  revert idx b0 p0. induction q as [|h q IH]; intros idx b0 p0; simpl.
  { left. split; [done|]. intros h Hh. by apply elem_of_nil in Hh. }
  assert (Hskip : rank s h ≤ priority_value p0 → ∀ b0,
    (best_from s q (S idx) b0 p0 = b0 ∧ ∀ h', h' ∈ h :: q → rank s h' ≤ priority_value p0) ∨
    ∃ q1 h0 q2, h :: q = q1 ++ h0 :: q2 ∧
      best_from s q (S idx) b0 p0 = (idx + length q1)%nat ∧
      priority_value p0 < rank s h0 ∧ (∀ h', h' ∈ h :: q → rank s h' ≤ rank s h0) ∧
      ∀ h', h' ∈ q1 → rank s h' < rank s h0).
  { intros Hle b. destruct (IH (S idx) b p0) as [[E Hq]|(q1 & h0 & q2 & -> & E & Hlt & Hm & Hf)].
    - left. split; [done|]. intros h' [->|Hh]%elem_of_cons; [done|by apply Hq].
    - right. exists (h :: q1), h0, q2. split; [done|]. split; [simpl; lia|].
      split; [done|]. split; intros h' [->|Hh]%elem_of_cons; [lia|by apply Hm|lia|by apply Hf]. }
  destruct (arcs s !! h) as [t|] eqn:Eh; cycle 1.
  { apply Hskip. unfold rank. rewrite Eh. pose proof (priority_value_nonneg p0). lia. }
  destruct (bool_decide (state t = Ready) && _) eqn:Eb.
  - apply andb_true_iff in Eb as [Hr Hp]. break_cmp.
    assert (rank s h = priority_value (priority t)) as Hrk by (unfold rank; by rewrite Eh, Hr).
    right. destruct (IH (S idx) idx (priority t)) as [[E Hq]|(q1 & h0 & q2 & -> & E & Hlt & Hm & Hf)].
    + exists [], h, q. split; [done|]. split; [simpl; lia|]. split; [lia|]. split.
      * intros h' [->|Hh]%elem_of_cons; [lia|]. rewrite Hrk. by apply Hq.
      * intros h' Hh. by apply elem_of_nil in Hh.
    + exists (h :: q1), h0, q2. split; [done|]. split; [simpl; lia|]. split; [lia|].
      split; intros h' [->|Hh]%elem_of_cons; [lia|by apply Hm|lia|by apply Hf].
  - apply Hskip. unfold rank. rewrite Eh. pose proof (priority_value_nonneg p0).
    destruct (bool_decide (state t = Ready)); simpl in Eb; break_cmp; lia.
Qed.

Lemma pick_next_task_cases s :
  match pick_next_task s with
  | (s', Some h) =>
      ∃ q1 q2, ready_queue s = q1 ++ h :: q2 ∧ s' = set_queue (q1 ++ q2) s ∧
        0 ≤ rank s h ∧ (∀ h', h' ∈ ready_queue s → rank s h' ≤ rank s h) ∧
        ∀ h', h' ∈ q1 → rank s h' < rank s h
  | (s', None) =>
      s' = s ∧ (∀ h, h ∈ ready_queue s → rank s h ≤ 0) ∧
      ∀ h, head (ready_queue s) = Some h → rank s h < 0
  end.
Proof.
  unfold pick_next_task, best_index.
  destruct (ready_queue s) as [|h0 q0] eqn:Eq.
  { split; [done|]. split; [|done]. intros h Hh. by apply elem_of_nil in Hh. }
  destruct (best_from_spec s (h0 :: q0) 0 0 Low)
    as [[-> Hq]|(q1 & h & q2 & E & -> & Hlt & Hm & Hf)]; simpl in *.
  - destruct (state_is s h0 Ready) eqn:Er.
    + apply rank_ready in Er. exists [], q0. split_and!; try done.
      * intros h' Hh. specialize (Hq h' Hh). lia.
      * intros h' Hh. by apply elem_of_nil in Hh.
    + split; [done|]. split; [done|]. intros h [= ->].
      assert (¬ 0 ≤ rank s h) by (by rewrite <- rank_ready, Er). lia.
  - rewrite E, list_lookup_middle by done.
    assert (state_is s h Ready = true) as -> by (apply rank_ready; lia).
    exists q1, q2. rewrite <- E. split; [done|]. split; [|split_and!; [lia|done|done]].
    by rewrite E, delete_middle.
Qed.

(** ** The invariant

    It speaks of the store, the queue and the current task; the counters and
    flags do not matter. *)

Record Inv (nid : Z) (arcs : gmap Z Task) (na : Z) (q : list Z) (cur : option Z)
    (all : list Z) : Prop := {
  inv_fresh : ∀ h, h ∈ dom arcs → h < na;
  inv_ids : ∀ h t, arcs !! h = Some t → id t < nid;
  inv_inj : ∀ h1 h2 t1 t2, arcs !! h1 = Some t1 → arcs !! h2 = Some t2 → id t1 = id t2 → h1 = h2;
  inv_all : ∀ h, h ∈ all → h ∈ dom arcs;
  inv_nodup : NoDup q;
  inv_qdom : ∀ h, h ∈ q → h ∈ dom arcs;
  inv_queue : ∀ h t, arcs !! h = Some t → h ∈ q ↔ state t = Ready;
  inv_current : ∀ h, cur = Some h → ∃ t, arcs !! h = Some t ∧ state t ≠ Ready;
  inv_running : ∀ h t, arcs !! h = Some t → state t = Running → cur = Some h
}.

Definition inv (g : Globals) (s : Scheduler) : Prop :=
  Inv (next_id g) (arcs s) (next_arc s) (ready_queue s) (current s) (all_tasks s).

(** One task changes, together with the queue and the current slot. *)
Lemma Inv_alter nid arcs na q cur all h t t' q' cur' :
  Inv nid arcs na q cur all →
  arcs !! h = Some t → id t' = id t →
  NoDup q' → (h ∈ q' ↔ state t' = Ready) → (∀ h', h' ≠ h → h' ∈ q' ↔ h' ∈ q) →
  (∀ h', h' ≠ h → cur' = Some h' → cur = Some h') →
  (cur' = Some h → state t' ≠ Ready) → (state t' = Running → cur' = Some h) →
  (∀ h' t0, h' ≠ h → arcs !! h' = Some t0 → state t0 = Running → cur = Some h' →
     cur' = Some h') →
  Inv nid (<[h := t']> arcs) na q' cur' all.
Proof.
  intros [] Ht Hid Hnd Hh Hq Hc1 Hc2 Hr1 Hr2.
  assert (Hdom : ∀ h', h' ∈ dom (<[h := t']> arcs) ↔ h' ∈ dom arcs).
  { intros h'. rewrite dom_insert, elem_of_union, elem_of_singleton.
    split; [intros [->|]; [|done]|tauto]. apply elem_of_dom. eauto. }
  split.
  - intros h' Hd. by apply inv_fresh0, Hdom.
  - intros h' t0. rewrite lookup_insert_Some. intros [[<- <-]|[_ ?]]; [rewrite Hid|]; eauto.
  - intros h1 h2 t1 t2. rewrite !lookup_insert_Some.
    intros [[<- <-]|[? H1]] [[<- <-]|[? H2]] Heq; [done| | |by eauto].
    + apply (inv_inj0 h h2 t t2); congruence.
    + apply (inv_inj0 h1 h t1 t); congruence.
  - intros h' Hd. by apply Hdom, inv_all0.
  - done.
  - intros h' Hd. apply Hdom. destruct (decide (h' = h)) as [->|Hne].
    + apply elem_of_dom. eauto.
    + by apply inv_qdom0, Hq.
  - intros h' t0. rewrite lookup_insert_Some. intros [[<- <-]|[Hne H0]]; [done|].
    rewrite Hq by done. by apply inv_queue0.
  - intros h' E. destruct (decide (h' = h)) as [->|Hne].
    + exists t'. rewrite lookup_insert_eq. split; [done|by apply Hc2].
    + rewrite lookup_insert_ne by done. by apply inv_current0, Hc1.
  - intros h' t0. rewrite lookup_insert_Some. intros [[<- <-]|[Hne H0]] Hs; [by apply Hr1|].
    apply (Hr2 h' t0); [done|done|done|by apply (inv_running0 h' t0)].
Qed.

Lemma alter_insert_Some {A} (f : A → A) (m : gmap Z A) h x :
  m !! h = Some x → alter f h m = <[h := f x]> m.
Proof.
  intros Hx. apply map_eq. intros j. destruct (decide (h = j)) as [<-|Hne].
  - by rewrite lookup_alter_eq, lookup_insert_eq, Hx.
  - by rewrite lookup_alter_ne, lookup_insert_ne.
Qed.

Lemma alter_absent {A} (f : A → A) (m : gmap Z A) h : m !! h = None → alter f h m = m.
Proof.
  intros Hx. apply map_eq. intros j. destruct (decide (h = j)) as [<-|Hne].
  - by rewrite lookup_alter_eq, Hx.
  - by rewrite lookup_alter_ne.
Qed.

Lemma dom_insert_iff {A} (m : gmap Z A) h x j : j ∈ dom (<[h := x]> m) ↔ j = h ∨ j ∈ dom m.
Proof. by rewrite dom_insert, elem_of_union, elem_of_singleton. Qed.

(** A change that keeps the identifier and the state. *)
Lemma inv_keep g s h f :
  (∀ t, id (f t) = id t ∧ state (f t) = state t) → inv g s → inv g (modify h f s).
Proof.
  intros Hf Hinv. unfold inv, modify. cbn [arcs next_arc ready_queue current all_tasks set_arcs].
  destruct (arcs s !! h) as [t|] eqn:E; cycle 1.
  { by rewrite alter_absent. }
  rewrite (alter_insert_Some f _ _ t E). destruct (Hf t) as [Hid Hst].
  pose proof Hinv as []. apply (Inv_alter _ _ _ (ready_queue s) (current s) _ h t);
    try done; rewrite ?Hst.
  - by apply inv_queue0.
  - intros Hc. destruct (inv_current0 h Hc) as (t0 & E0 & ?). congruence.
  - by apply (inv_running0 h t).
Qed.

(** A change of the state of a task outside the queue, to one that is neither
    ready nor running. *)
Lemma inv_retire g s h f :
  (∀ t, id (f t) = id t ∧ state (f t) ≠ Ready ∧ state (f t) ≠ Running) →
  h ∉ ready_queue s → inv g s → inv g (modify h f s).
Proof.
  intros Hf Hq Hinv. unfold inv, modify. cbn [arcs next_arc ready_queue current all_tasks set_arcs].
  destruct (arcs s !! h) as [t|] eqn:E; cycle 1.
  { by rewrite alter_absent. }
  rewrite (alter_insert_Some f _ _ t E). destruct (Hf t) as (Hid & Hn & Hr).
  pose proof Hinv as []. apply (Inv_alter _ _ _ (ready_queue s) (current s) _ h t); try done.
Qed.

Lemma current_not_queued g s h : inv g s → current s = Some h → h ∉ ready_queue s.
Proof.
  intros [] Hc Hq. destruct (inv_current0 h Hc) as (t & Ht & Hn).
  by apply (inv_queue0 h t Ht) in Hq.
Qed.

(** The choice does not look at the current task. *)
Lemma pick_set_current s c :
  pick_next_task (set_current c s) =
    (set_current c (pick_next_task s).1, (pick_next_task s).2).
Proof.
  unfold pick_next_task.
  assert (Hb : ∀ q i b p, best_from (set_current c s) q i b p = best_from s q i b p).
  { induction q as [|h q IH]; intros i b p; [done|]. simpl.
    destruct (arcs s !! h); [|done]. by case_match. }
  unfold best_index. rewrite Hb. cbn [ready_queue set_current].
  destruct (ready_queue s) as [|h q]; [done|].
  destruct ((h :: q) !! _) as [n|]; [|done].
  change (state_is (set_current c s) n Ready) with (state_is s n Ready).
  by destruct (state_is s n Ready).
Qed.

(** With an invariant, every queued task is ready, so the choice fails only on an
    empty queue. *)
Lemma pick_next_task_inv g s :
  inv g s → current s = None →
  match pick_next_task s with
  | (s', Some n) =>
      inv g (set_current (Some n) (modify n (set_state Running) s')) ∧
      ∃ t, arcs s' !! n = Some t
  | (s', None) => s' = s ∧ ready_queue s = []
  end.
Proof.
  intros Hinv Hcur. pose proof (pick_next_task_cases s) as Hp. pose proof Hinv as [].
  destruct (pick_next_task s) as [s' [n|]].
  - destruct Hp as (q1 & q2 & Eq & -> & Hr & _). apply rank_ready, state_is_Some in Hr as (t & Ht & Hs).
    split; [|by exists t].
    unfold inv, modify. cbn [arcs next_arc ready_queue current all_tasks set_arcs set_queue set_current].
    rewrite (alter_insert_Some _ _ _ t Ht). rewrite Eq in inv_nodup0.
    assert (NoDup (n :: q1 ++ q2)) as Hnd by by rewrite Permutation_middle.
    apply NoDup_cons in Hnd as [Hn Hnd].
    apply (Inv_alter _ _ _ (ready_queue s) None _ n t); try done.
    + by rewrite <- Hcur.
    + intros h' Hne. rewrite Eq. by apply elem_of_middle_ne.
    + intros h' Hne. congruence.
  - destruct Hp as (-> & _ & Hh). split; [done|].
    destruct (ready_queue s) as [|h q]; [done|]. exfalso.
    destruct (proj1 (elem_of_dom (arcs s) h)) as [t Ht]; [apply inv_qdom0; by left|].
    assert (0 ≤ rank s h); [|specialize (Hh h eq_refl); lia].
    apply rank_ready, state_is_Some. exists t. split; [done|]. apply (inv_queue0 h t Ht). by left.
Qed.

(** A task outside the queue that does not stay current is made ready by [f] and
    queued. *)
Lemma wake_inv g s h t f c :
  (∀ t, id (f t) = id t ∧ state (f t) = Ready) → inv g s →
  arcs s !! h = Some t → h ∉ ready_queue s → c ≠ Some h →
  (c = None ∧ current s = Some h ∨ c = current s) →
  inv g (enqueue h (modify h f (set_current c s))).
Proof.
  intros Hf Hinv Ht Hq Hc Hcases. unfold inv, modify, enqueue.
  cbn [arcs next_arc ready_queue current all_tasks set_arcs set_queue set_current].
  rewrite (alter_insert_Some _ _ _ t Ht). destruct (Hf t) as [Hid Hst]. pose proof Hinv as [].
  apply (Inv_alter _ _ _ (ready_queue s) (current s) _ h t); try done.
  - by apply NoDup_snoc.
  - split; [done|]. intros _. apply elem_of_snoc.
  - intros h' Hne. by apply elem_of_snoc_ne.
  - intros h' Hne. destruct Hcases as [[-> _]| ->]; done.
  - congruence.
  - intros h' t0 Hne H0 Hr Hc'. destruct Hcases as [[-> ?]| ->]; congruence.
Qed.

Lemma requeue_inv g s h f :
  (∀ t, id (f t) = id t ∧ state (f t) = Ready) → inv g s → current s = Some h →
  inv g (enqueue h (modify h f (set_current None s))).
Proof.
  intros Hf Hinv Hc. pose proof (current_not_queued g s h Hinv Hc) as Hq.
  destruct (inv_current _ _ _ _ _ _ Hinv h Hc) as (t & Ht & _).
  apply (wake_inv g s h t); auto.
Qed.

(** Giving up the current slot. *)
Lemma release_inv g s h :
  inv g s → current s = Some h → state_is s h Running = false → inv g (set_current None s).
Proof.
  intros [] Hc Hr. split; try done.
  intros h' t Ht Hs. exfalso. pose proof (inv_running0 h' t Ht Hs) as Hc'.
  simplify_eq. assert (state_is s h Running = true); [|congruence].
  apply state_is_Some. by exists t.
Qed.

Lemma schedule_inv g s : inv g s → inv g (schedule s).1.
Proof.
  intros Hinv. unfold schedule.
  change (current (set_need false s)) with (current s).
  assert (Hinv0 : inv g (set_need false s)) by exact Hinv.
  set (s0 := set_need false s) in *.
  destruct (current s) as [h|] eqn:Ec.
  - change (state_is (set_current None s0) h Running) with (state_is s0 h Running).
    destruct (state_is s0 h Running) eqn:Er.
    + assert (Hinv1 : inv g (enqueue h (modify h (λ t, reset_time_slice (set_state Ready t))
        (set_current None s0)))) by (by apply requeue_inv).
      pose proof (pick_next_task_inv g _ Hinv1 eq_refl) as Hp.
      destruct (pick_next_task _) as [s1 [n|]]; [by destruct Hp|].
      destruct Hp as [-> Hq]. simpl in Hq. by destruct (ready_queue s).
    + assert (Hinv1 : inv g (set_current None s0)) by (by apply (release_inv g s0 h)).
      pose proof (pick_next_task_inv g _ Hinv1 eq_refl) as Hp.
      destruct (pick_next_task _) as [s1 [n|]]; [by destruct Hp|].
      destruct Hp as [-> Hq]. rewrite <- Ec. exact Hinv.
  - pose proof (pick_next_task_inv g (set_current None s0)) as Hp.
    assert (Hinv1 : inv g (set_current None s0)) by (unfold inv in *; by rewrite <- Ec).
    specialize (Hp Hinv1 eq_refl).
    destruct (pick_next_task _) as [s1 [n|]]; [by destruct Hp|].
    destruct Hp as [-> Hq]. exact Hinv1.
Qed.

Lemma preempt_schedule_inv g s rsp : inv g s → inv g (preempt_schedule s rsp).1.
Proof.
  intros Hinv. unfold preempt_schedule. destruct (negb _); [done|].
  destruct (current s) as [h|] eqn:Ec.
  - set (f := λ t, _). 
    assert (Hinv1 : inv g (enqueue h (modify h f (set_current None s)))) by (by apply requeue_inv).
    pose proof (pick_next_task_inv g _ Hinv1 eq_refl) as Hp.
    pose proof (pick_set_current (enqueue h (modify h f s)) None) as Hpc.
    change (set_current None (enqueue h (modify h f s)))
      with (enqueue h (modify h f (set_current None s))) in Hpc.
    rewrite Hpc in Hp. destruct (pick_next_task (enqueue h (modify h f s))) as [s1 [n|]].
    + destruct Hp as [Hp _]. exact Hp.
    + destruct Hp as [_ Hq]. simpl in Hq. by destruct (ready_queue s).
  - pose proof (pick_next_task_inv g s Hinv Ec) as Hp.
    destruct (pick_next_task s) as [s1 [n|]]; [by destruct Hp|].
    destruct Hp as [-> _]. by rewrite Ec.
Qed.

(** The current task changes, to a state other than ready. *)
Lemma inv_current_set g s h t f :
  inv g s → current s = Some h → arcs s !! h = Some t →
  id (f t) = id t → state (f t) ≠ Ready → inv g (modify h f s).
Proof.
  intros Hinv Hc Ht Hid Hs. pose proof (current_not_queued g s h Hinv Hc) as Hq.
  unfold inv, modify. cbn [arcs next_arc ready_queue current all_tasks set_arcs].
  rewrite (alter_insert_Some _ _ _ t Ht). pose proof Hinv as [].
  by apply (Inv_alter _ _ _ (ready_queue s) (current s) _ h t).
Qed.

Lemma pop_signal_keeps t : id (pop_signal t).1 = id t ∧ state (pop_signal t).1 = state t.
Proof. unfold pop_signal. by destruct (_ =? 0). Qed.

Lemma tick_signals_keeps t :
  id (tick_signals t).1 = id t ∧ (state t ≠ Ready → state (tick_signals t).1 ≠ Ready).
Proof.
  unfold tick_signals. destruct (_ =? 0); [done|].
  pose proof (pop_signal_keeps t) as [Hid Hs].
  destruct (pop_signal t) as [t1 [sig|]]; simpl in *; [|by rewrite Hs].
  destruct (sig =? SIGKILL); [done|]. destruct (sig =? SIGTSTP); [done|].
  destruct (sig =? SIGCONT); [|by rewrite <- Hs].
  case_bool_decide; [done|]. simpl. by rewrite <- Hs.
Qed.

Lemma tick_account_keeps t :
  id (tick_account t).1 = id t ∧ state (tick_account t).1 = state t.
Proof. unfold tick_account. by case_if. Qed.

Lemma tick_inv g s : inv g s → inv g (tick s).1.
Proof.
  intros Hinv. unfold tick. set (s0 := mkSched _ _ _ _ _ _ _ _ _ _ _).
  assert (Hinv0 : inv g s0) by exact Hinv. clearbody s0. clear Hinv s.
  destruct (negb _); [done|].
  assert (Hgo : ∀ s1, inv g s1 →
    inv g (if need_reschedule s1 then schedule s1 else (s1, None)).1).
  { intros s1 H1. destruct (need_reschedule s1); [by apply schedule_inv|done]. }
  destruct (current s0) as [h|] eqn:Ec; [|by apply Hgo].
  destruct (arcs s0 !! h) as [t|] eqn:Et; [|by apply Hgo].
  destruct (inv_current _ _ _ _ _ _ Hinv0 h Ec) as (t0 & Et0 & Hn).
  assert (t0 = t) as -> by congruence.
  pose proof (tick_signals_keeps t) as [Hid Hs].
  destruct (tick_signals t) as [t1 []] eqn:E1; simpl in Hid, Hs.
  { apply (inv_current_set g s0 h t); auto. }
  destruct (bool_decide (state t1 = Running)) eqn:Eb; cbn [negb].
  - pose proof (tick_account_keeps t1) as [Hid2 Hs2].
    destruct (tick_account t1) as [t2 over]. simpl in Hid2, Hs2.
    assert (inv g (modify h (λ _, t2) s0)) as H2.
    { apply (inv_current_set g s0 h t); [done|done|done|congruence|].
      rewrite Hs2. by apply Hs. }
    destruct over; by apply Hgo.
  - apply (inv_current_set g s0 h t); auto.
Qed.

Lemma find_task_Some s P h :
  find_task s P = Some h → h ∈ all_tasks s ∧ ∃ t, arcs s !! h = Some t ∧ P t = true.
Proof.
  unfold find_task. intros E. apply head_Some_elem_of in E.
  apply list_elem_of_filter in E as [Ht Hin]. split; [done|].
  unfold task_is in Ht. destruct (arcs s !! h) as [t|]; [|done]. eauto.
Qed.

Lemma retain_not_elem s i l h :
  h ∈ retain_not s i l ↔ h ∈ l ∧ ∀ t, arcs s !! h = Some t → id t ≠ i.
Proof.
  unfold retain_not. rewrite list_elem_of_filter. unfold task_is.
  destruct (arcs s !! h) as [t|].
  - rewrite Z.eqb_neq. split; [|intros [? Hi]; by split; [apply Hi|]].
    intros [Hi ?]. split; [done|]. by intros ? [= <-].
  - split; [|by intros []]. intros [_ ?]. by split.
Qed.

Lemma terminate_task_inv g s i code : inv g s → inv g (terminate_task s i code).1.
Proof.
  intros Hinv. unfold terminate_task. case_if; [done|].
  destruct (find_task _ _) as [h|] eqn:Ef; [|done].
  apply find_task_Some in Ef as (_ & t & Ht & Hi). break_cmp. pose proof Hinv as [].
  set (f := λ t, _). set (s1 := set_need true (modify h f s)).
  assert (Ea : arcs s1 = <[h := f t]> (arcs s)) by (by apply alter_insert_Some).
  change (Inv (next_id g) (arcs s1) (next_arc s) (retain_not s1 i (ready_queue s))
    (current s) (all_tasks s)).
  rewrite Ea. apply (Inv_alter _ _ _ (ready_queue s) (current s) _ h t); try done.
  - by apply NoDup_filter.
  - split; [|done]. rewrite retain_not_elem, Ea.
    intros [_ Hno]. exfalso. apply (Hno (f t)); [by rewrite lookup_insert_eq|done].
  - intros h' Hne. rewrite retain_not_elem, Ea, lookup_insert_ne by done.
    split; [by intros []|]. intros Hq. split; [done|].
    intros t' Ht' Hi'. apply Hne. apply (inv_inj0 h' h t' t); congruence.
Qed.

(** Dropping a terminated task leaves the queue alone. *)
Lemma cleanup_one_inv g s i :
  inv g s → (∃ h t, arcs s !! h = Some t ∧ state t = Terminated ∧ id t = i) →
  inv g (cleanup_one s i) ∧ arcs (cleanup_one s i) = arcs s.
Proof.
  intros Hinv (h & t & Ht & Hs & Hi). split; [|done].
  destruct Hinv. unfold inv, cleanup_one.
  cbn [arcs next_arc ready_queue current all_tasks set_queue set_all].
  change (retain_not (set_all _ s) i (ready_queue s)) with (retain_not s i (ready_queue s)).
  assert (Hq : ∀ h', h' ∈ retain_not s i (ready_queue s) ↔ h' ∈ ready_queue s).
  { intros h'. rewrite retain_not_elem. split; [by intros []|]. intros Hq. split; [done|].
    intros t' Ht' Hi'. assert (h' = h) as -> by (apply (inv_inj0 h' h t' t); congruence).
    apply (inv_queue0 h t' Ht') in Hq. congruence. }
  split; try done.
  - intros h' Hh. apply retain_not_elem in Hh as [Hh _]. by apply inv_all0.
  - by apply NoDup_filter.
  - intros h' Hh. by apply inv_qdom0, Hq.
  - intros h' t' Ht'. rewrite Hq. by apply inv_queue0.
Qed.

Lemma cleanup_terminated_inv g s : inv g s → inv g (cleanup_terminated s).
Proof.
  intros Hinv. unfold cleanup_terminated. set (ids := omap _ _).
  assert (Forall (λ i, ∃ h t, arcs s !! h = Some t ∧ state t = Terminated ∧ id t = i) ids) as HF.
  { apply Forall_forall. intros i (h & _ & Hi)%list_elem_of_omap.
    destruct (arcs s !! h) as [t|] eqn:E; [|done]. case_bool_decide; [|done].
    injection Hi as <-. eauto. }
  clearbody ids. revert s Hinv HF. induction ids as [|i ids IH]; intros s Hinv HF; [done|].
  apply Forall_cons in HF as [Hi HF]. destruct (cleanup_one_inv g s i Hinv Hi) as [H1 E].
  simpl. apply IH; [done|]. by rewrite E.
Qed.

Lemma add_task_inv g m t now s :
  inv g s → id t = next_id g → state t = Ready →
  ∀ g', next_id g' = next_id g + 1 → inv g' (add_task m t now s).1.2.
Proof.
  intros [] Hid Hst g' Hg'. unfold add_task.
  destruct (setup_initial_stack_keeps m t) as (Hid1 & Hst1 & _).
  destruct (setup_initial_stack m t) as [m' t1]. simpl in Hid1, Hst1. unfold inv. simpl. rewrite Hg'.
  set (h := next_arc s) in *. assert (arcs s !! h = None) as Hnone.
  { apply not_elem_of_dom. intros Hd%inv_fresh0. lia. }
  split.
  - intros h' [->|Hd]%dom_insert_iff; [lia|]. apply inv_fresh0 in Hd. lia.
  - intros h' t'. rewrite lookup_insert_Some. intros [[<- <-]|[_ ?]]; simpl; [lia|].
    etrans; [by eapply inv_ids0|lia].
  - intros h1 h2 t2 t3. rewrite !lookup_insert_Some.
    intros [[<- <-]|[? H1]] [[<- <-]|[? H2]] Heq; [done| | |by eauto]; simpl in Heq.
    + specialize (inv_ids0 h2 t3 H2). lia.
    + specialize (inv_ids0 h1 t2 H1). lia.
  - intros h' [Hd| ->%list_elem_of_singleton]%elem_of_app; apply dom_insert_iff; auto.
  - apply NoDup_snoc; [done|]. intros Hq%inv_qdom0%inv_fresh0. lia.
  - intros h' [Hd| ->%list_elem_of_singleton]%elem_of_app; apply dom_insert_iff; auto.
  - intros h' t'. rewrite lookup_insert_Some. intros [[<- <-]|[Hne ?]].
    + simpl. rewrite Hst1. split; [done|]. intros _. apply elem_of_snoc.
    + rewrite elem_of_snoc_ne by done. by apply inv_queue0.
  - intros h' Hc. destruct (inv_current0 h' Hc) as (t' & Ht' & Hn).
    exists t'. rewrite lookup_insert_ne; [done|]. congruence.
  - intros h' t'. rewrite lookup_insert_Some. intros [[<- <-]|[Hne ?]] Hr; [|by eauto].
    simpl in Hr. congruence.
Qed.

Lemma modify_current s h f : modify h f (set_current (current s) s) = modify h f s.
Proof. by destruct s. Qed.

Lemma unblock_task_inv g s i :
  inv g s → current_task_id s ≠ Some i → inv g (unblock_task s i).1.
Proof.
  intros Hinv Hc. unfold unblock_task.
  destruct (find_task _ _) as [h|] eqn:Ef; [|done].
  apply find_task_Some in Ef as (_ & t & Ht & Hp). break_cmp.
  match goal with H : bool_decide _ = true |- _ => apply bool_decide_eq_true in H as Hb end.
  simpl. rewrite <- (modify_current s). apply (wake_inv g s h t); auto.
  - intros Hq. apply (inv_queue _ _ _ _ _ _ Hinv h t Ht) in Hq. congruence.
  - intros E. apply Hc. unfold current_task_id. rewrite E. simpl. rewrite Ht. simpl. congruence.
Qed.

Lemma background_task_inv g s i :
  inv g s → current_task_id s ≠ Some i →
  (∀ h t, arcs s !! h = Some t → id t = i → state t ≠ Ready) →
  inv g (background_task s i).1.
Proof.
  intros Hinv Hc Hnr. unfold background_task.
  destruct (find_task _ _) as [h|] eqn:Ef; [|done].
  apply find_task_Some in Ef as (_ & t & Ht & Hp). break_cmp. rewrite Ht.
  case_bool_decide; [|done]. simpl.
  rewrite <- (modify_current s). apply (wake_inv g s h t); auto.
  - intros Hq. apply (inv_queue _ _ _ _ _ _ Hinv h t Ht) in Hq. by apply (Hnr h t).
  - intros E. apply Hc. unfold current_task_id. rewrite E. simpl. rewrite Ht. simpl. congruence.
Qed.

Lemma foreground_task_inv g s i : inv g s → inv g (foreground_task s i).1.
Proof.
  intros Hinv. unfold foreground_task.
  destruct (find_task _ _) as [h|]; [|done]. destruct (arcs s !! h) as [t|] eqn:E; [|done].
  case_bool_decide; [done|]. simpl.
  replace (modify h (λ _, set_foreground Foreground t) s)
    with (modify h (set_foreground Foreground) s); [by apply inv_keep|].
  unfold modify. f_equal. by rewrite !(alter_insert_Some _ _ _ t E).
Qed.

(** ** Executions

    Everything that acts on the scheduler, in any order: creation of tasks, the
    tick of the generic interrupt handler, preemption by the timer's handler,
    the process-control calls, the saving of registers by a switch, and any
    change of the memory by what runs in between.  The two calls that wake a
    task are given one that is neither current nor already waiting in the
    queue. *)

Inductive step : Globals * Scheduler → Globals * Scheduler → Prop :=
  | st_create_kernel g s entry nm now :
      next_id g < 2 ^ 64 - 1 →
      step (g, s) (create_kernel_task g s entry nm now).1
  | st_create_priority g s entry nm p now :
      next_id g < 2 ^ 64 - 1 →
      step (g, s) (create_kernel_task_with_priority g s entry nm p now).1
  | st_create_background g s entry nm now :
      next_id g < 2 ^ 64 - 1 →
      step (g, s) (create_background_task g s entry nm now).1
  | st_create_user g s entry nm now :
      next_id g < 2 ^ 64 - 1 →
      step (g, s) (create_user_task g s entry nm now).1
  | st_tick g s : step (g, s) (g, (tick s).1)
  | st_resumed g s : step (g, s) (g, schedule_resumed s)
  | st_switch g s m c d cur n : step (g, s) (g, (do_context_switch m c s d cur n).1.1)
  | st_preempt g s rsp : step (g, s) (g, (preempt_schedule s rsp).1)
  | st_block g s : step (g, s) (g, block_current s)
  | st_unblock g s i :
      current_task_id s ≠ Some i → step (g, s) (g, (unblock_task s i).1)
  | st_exit g s code : step (g, s) (g, (terminate_current s code).1)
  | st_kill g s i code : step (g, s) (g, (terminate_task s i code).1)
  | st_signal g s i sig : step (g, s) (g, (send_signal_to s i sig).1)
  | st_background g s i :
      current_task_id s ≠ Some i →
      (∀ h t, arcs s !! h = Some t → id t = i → state t ≠ Ready) →
      step (g, s) (g, (background_task s i).1)
  | st_foreground g s i : step (g, s) (g, (foreground_task s i).1)
  | st_yield g s : step (g, s) (g, (yield_current s).1)
  | st_enable g s : step (g, s) (g, enable_preemption s)
  | st_disable g s : step (g, s) (g, disable_preemption s)
  | st_cleanup g s : step (g, s) (g, cleanup_terminated s)
  | st_memory g s m : step (g, s) (with_mem g m, s).

Inductive reachable : Globals * Scheduler → Prop :=
  | reach_new m : reachable (Globals_init m, Scheduler_new)
  | reach_step x y : reachable x → step x y → reachable y.

(** A constructor of tasks takes the next identifier and makes a ready task. *)
Definition makes (g : Globals) (x : Globals * Task) : Prop :=
  id x.2 = next_id g ∧ state x.2 = Ready ∧ next_id x.1 = next_id g + 1.

Lemma alloc_stack_id g n : next_id (alloc_stack g n).1 = next_id g.
Proof. unfold alloc_stack. by case_if. Qed.

Lemma new_kernel_makes g entry nm :
  0 ≤ next_id g < 2 ^ 64 - 1 → makes g (new_kernel g entry nm).
Proof.
  intros Hg. unfold new_kernel, fetch_id, makes.
  pose proof (alloc_stack_id (mkGlobals (gmem g) (next_id g + 1)%usize (next_stack g))
    TASK_STACK_SIZE) as Ha.
  destruct (alloc_stack _ _) as [g1 top]. simpl in *. split_and!; try done.
  rewrite Ha. by rewrite usize_small by lia.
Qed.

Lemma new_user_makes g entry nm :
  0 ≤ next_id g < 2 ^ 64 - 1 → makes g (new_user g entry nm).
Proof.
  intros Hg. unfold new_user, fetch_id, makes.
  pose proof (alloc_stack_id (mkGlobals (gmem g) (next_id g + 1)%usize (next_stack g))
    TASK_STACK_SIZE) as Ha.
  destruct (alloc_stack _ _) as [g1 top]. simpl in Ha.
  pose proof (alloc_stack_id g1 TASK_STACK_SIZE) as Hb.
  destruct (alloc_stack g1 _) as [g2 top2]. simpl in *. split_and!; try done.
  rewrite Hb, Ha. by rewrite usize_small by lia.
Qed.

Lemma add_makes_inv g x now s :
  inv g s → makes g x →
  let y := (let '(g, t) := x in
            let '(m, s, i) := add_task (gmem g) t now s in (with_mem g m, s, i)) in
  inv y.1.1 y.1.2 ∧ next_id y.1.1 = next_id g + 1.
Proof.
  intros Hinv (Hid & Hs & Hn). destruct x as [g1 t]. cbn [fst snd] in *.
  pose proof (add_task_inv g (gmem g1) t now s Hinv Hid Hs (with_mem g1 (gmem g1)) Hn) as Ha.
  destruct (add_task (gmem g1) t now s) as [[m s1] i]. split; [exact Ha|exact Hn].
Qed.

Lemma step_inv x y :
  step x y → 0 < next_id x.1 → inv x.1 x.2 → inv y.1 y.2 ∧ 0 < next_id y.1.
Proof.
  intros Hstep H0 Hinv.
  destruct Hstep; cbn [fst snd] in *;
    try (split; [|done]; by eauto using tick_inv, preempt_schedule_inv, schedule_inv,
           unblock_task_inv, terminate_task_inv, background_task_inv, foreground_task_inv,
           cleanup_terminated_inv).
  - destruct (add_makes_inv g (new_kernel g entry nm) now s Hinv) as [Hi Hn];
      [by apply new_kernel_makes; lia|]. split; [exact Hi|].
    change (0 < next_id (create_kernel_task g s entry nm now).1.1).
    fold (create_kernel_task g s entry nm now) in Hn. lia.
  - destruct (add_makes_inv g (new_kernel_with_priority g entry nm p) now s Hinv) as [Hi Hn].
    { pose proof (new_kernel_makes g entry nm ltac:(lia)) as Hm.
      unfold new_kernel_with_priority. by destruct (new_kernel g entry nm). }
    split; [exact Hi|]. fold (create_kernel_task_with_priority g s entry nm p now) in Hn. lia.
  - destruct (add_makes_inv g (new_kernel_background g entry nm) now s Hinv) as [Hi Hn].
    { pose proof (new_kernel_makes g entry nm ltac:(lia)) as Hm.
      unfold new_kernel_background. by destruct (new_kernel g entry nm). }
    split; [exact Hi|]. fold (create_background_task g s entry nm now) in Hn. lia.
  - destruct (add_makes_inv g (new_user g entry nm) now s Hinv) as [Hi Hn];
      [by apply new_user_makes; lia|].
    split; [exact Hi|]. fold (create_user_task g s entry nm now) in Hn. lia.
  - split; [|done]. unfold do_context_switch. destruct (arcs s !! n) as [t|]; [|done].
    destruct (context_switch m c (regs t)) as [saved c']. destruct cur; [|done].
    by apply inv_keep.
  - split; [|done]. unfold block_current. destruct (current s) as [h|] eqn:Ec; [|done].
    destruct (inv_current _ _ _ _ _ _ Hinv h Ec) as (t & Ht & _).
    apply (inv_current_set g s h t); done.
  - split; [|done]. unfold terminate_current. apply schedule_inv.
    destruct (current s) as [h|] eqn:Ec; [|done].
    destruct (inv_current _ _ _ _ _ _ Hinv h Ec) as (t & Ht & _).
    apply (inv_current_set g s h t); done.
  - split; [|done]. unfold send_signal_to. destruct (find_task _ _); [|done].
    apply inv_keep; [|done]. intros t. unfold send_signal. by case_if.
Qed.

Lemma sched_reachable_inv x : reachable x → inv x.1 x.2 ∧ 0 < next_id x.1.
Proof.
  induction 1 as [m|x y _ [IH H0] Hs]; [|by apply (step_inv x)].
  split; [|done]. unfold inv. simpl.
  assert (He : ∀ h (t : Task), (∅ : gmap Z Task) !! h = Some t → False)
    by (intros h t Ht; by rewrite lookup_empty in Ht).
  split; try done; try (by constructor);
    try (by intros ? ? ?%He); try (by intros ? ?%elem_of_nil).
Qed.

Lemma rank_Some s h t :
  arcs s !! h = Some t → state t = Ready → rank s h = priority_value (priority t).
Proof. intros Ht Hs. unfold rank. by rewrite Ht, bool_decide_true. Qed.

Lemma rank_inv s h :
  0 ≤ rank s h → ∃ t, arcs s !! h = Some t ∧ state t = Ready ∧
    rank s h = priority_value (priority t).
Proof.
  intros Hr. destruct (proj1 (state_is_Some s h Ready)) as (t & Ht & Hs);
    [by apply rank_ready|]. exists t. by rewrite (rank_Some s h t).
Qed.

(** ** Claims *)

(** [pick_next_task] takes the first ready task of the highest priority out
    of the queue and leaves the others in their order.  It fails, changing
    nothing, only when every ready task in the queue has low priority and the
    head of the queue is not ready. *)
Theorem pick_next_task_highest s :
  match pick_next_task s with
  | (s', Some h) =>
      ∃ t q1 q2, arcs s !! h = Some t ∧ state t = Ready ∧
        ready_queue s = q1 ++ h :: q2 ∧ s' = set_queue (q1 ++ q2) s ∧
        (∀ h' t', h' ∈ ready_queue s → arcs s !! h' = Some t' → state t' = Ready →
           priority_value (priority t') ≤ priority_value (priority t)) ∧
        (∀ h' t', h' ∈ q1 → arcs s !! h' = Some t' → state t' = Ready →
           priority_value (priority t') < priority_value (priority t))
  | (s', None) =>
      s' = s ∧
      (∀ h t, h ∈ ready_queue s → arcs s !! h = Some t → state t = Ready → priority t = Low) ∧
      (∀ h t, head (ready_queue s) = Some h → arcs s !! h = Some t → state t ≠ Ready)
  end.
Proof.
  pose proof (pick_next_task_cases s) as Hp. destruct (pick_next_task s) as [s' [h|]].
  - destruct Hp as (q1 & q2 & Eq & Es & Hr & Hm & Hf).
    destruct (rank_inv s h Hr) as (t & Ht & Hs & Hrk). rewrite Hrk in Hm, Hf.
    exists t, q1, q2. split_and!; try done.
    + intros h' t' Hin Ht' Hs'. rewrite <- (rank_Some s h' t') by done. by apply Hm.
    + intros h' t' Hin Ht' Hs'. rewrite <- (rank_Some s h' t') by done. by apply Hf.
  - destruct Hp as (-> & Hle & Hh). split; [done|]. split.
    + intros h t Hin Ht Hs. specialize (Hle h Hin). rewrite (rank_Some s h t) in Hle by done.
      destruct (priority t); simpl in Hle; (done || lia).
    + intros h t Hhd Ht Hs. specialize (Hh h Hhd). rewrite (rank_Some s h t) in Hh by done.
      pose proof (priority_value_nonneg (priority t)). lia.
Qed.

(** C4. In every execution in which only tasks that are neither current nor
    ready are woken: no task is queued twice; a task is in the queue exactly
    when it is ready; at most one task is running, and it is the current one;
    and the current task is not in the queue. *)
Theorem scheduler_invariant g s (Hr : reachable (g, s)) :
  NoDup (ready_queue s) ∧
  (∀ h t, arcs s !! h = Some t → (h ∈ ready_queue s ↔ state t = Ready)) ∧
  (∀ h t, arcs s !! h = Some t → state t = Running → current s = Some h) ∧
  (∀ h, current s = Some h → (h ∉ ready_queue s) ∧ h ∈ dom (arcs s)).
Proof.
  apply sched_reachable_inv in Hr as [Hinv _]. simpl in Hinv. pose proof Hinv as [].
  split_and!; try done. intros h Hc. split; [by apply (current_not_queued g)|].
  destruct (inv_current0 h Hc) as (t & Ht & _). apply elem_of_dom. eauto.
Qed.

(** A kernel with the idle task and two tasks, preemption on, the first of the
    two running. *)
Definition demo0 : Globals * Scheduler :=
  (create_idle_task (Globals_init ∅) Scheduler_new 0x1000 0).1.
Definition demo1 : Globals * Scheduler :=
  (create_kernel_task demo0.1 demo0.2 0x2000 "demo" 5).1.
Definition demo2 : Globals * Scheduler :=
  (create_kernel_task demo1.1 demo1.2 0x3000 "counter" 6).1.
Definition demo3 : Globals * Scheduler := (demo2.1, enable_preemption demo2.2).
Definition demo4 : Globals * Scheduler := (demo3.1, (preempt_schedule demo3.2 0x7000).1).

Lemma demo4_reachable : reachable (demo4.1, demo4.2).
Proof.
  eapply reach_step; [|exact (st_preempt demo3.1 demo3.2 0x7000)].
  eapply reach_step; [|exact (st_enable demo2.1 demo2.2)].
  eapply reach_step; [|rewrite <- surjective_pairing;
    apply (st_create_kernel demo1.1 demo1.2 0x3000 "counter" 6); vm_compute; reflexivity].
  eapply reach_step; [|rewrite <- surjective_pairing;
    apply (st_create_kernel demo0.1 demo0.2 0x2000 "demo" 5); vm_compute; reflexivity].
  eapply reach_step; [|rewrite <- surjective_pairing;
    apply (st_create_priority (Globals_init ∅) Scheduler_new 0x1000 "idle" Low 0);
    vm_compute; reflexivity].
  apply reach_new.
Qed.

Lemma scheduler_invariant_witness :
  ready_queue demo4.2 = [0; 2] ∧ current demo4.2 = Some 1 ∧ NoDup (ready_queue demo4.2).
Proof.
  split; [vm_compute; reflexivity|]. split; [vm_compute; reflexivity|].
  exact (proj1 (scheduler_invariant demo4.1 demo4.2 demo4_reachable)).
Defined.

(** The scheduler in which the current task has been made ready and queued. *)
Definition requeued (s : Scheduler) (rsp : Z) : Scheduler :=
  match current s with
  | Some h =>
      enqueue h (modify h (λ t, reset_time_slice (set_state Ready (set_saved_rsp rsp t))) s)
  | None => s
  end.

Lemma requeued_lookup s rsp h :
  arcs (requeued s rsp) !! h =
    if bool_decide (current s = Some h)
    then (λ t, reset_time_slice (set_state Ready (set_saved_rsp rsp t))) <$> arcs s !! h
    else arcs s !! h.
Proof.
  unfold requeued. destruct (current s) as [c|]; [|done].
  cbn [enqueue set_queue arcs modify set_arcs]. case_bool_decide as E.
  - injection E as ->. apply lookup_alter_eq.
  - apply lookup_alter_ne. congruence.
Qed.

Lemma requeued_queue s rsp :
  ready_queue (requeued s rsp) = ready_queue s ++ option_list (current s).
Proof. unfold requeued. destruct (current s); simpl; [done|]. by rewrite app_nil_r. Qed.

(** A preemption with something to run. *)
Lemma preempt_schedule_eq g s rsp :
  inv g s → preempt_enabled s = true → ready_queue (requeued s rsp) ≠ [] →
  ∃ n t q1 q2, ready_queue (requeued s rsp) = q1 ++ n :: q2 ∧
    arcs (requeued s rsp) !! n = Some t ∧
    (∀ h u, h ∈ ready_queue (requeued s rsp) → arcs (requeued s rsp) !! h = Some u →
       priority_value (priority u) ≤ priority_value (priority t)) ∧
    (∀ h u, h ∈ q1 → arcs (requeued s rsp) !! h = Some u →
       priority_value (priority u) < priority_value (priority t)) ∧
    preempt_schedule s rsp =
      (set_switches (context_switches s + 1)%usize (set_current (Some n)
         (modify n (set_state Running) (set_queue (q1 ++ q2) (requeued s rsp)))),
       saved_rsp t).
Proof.
  intros Hinv Hen Hne.
  assert (Hready : ∀ h, h ∈ ready_queue (requeued s rsp) →
    ∃ u, arcs (requeued s rsp) !! h = Some u ∧ state u = Ready).
  { intros h. rewrite requeued_queue, requeued_lookup, elem_of_app.
    intros [Hq|Hc].
    - rewrite bool_decide_eq_false_2
        by (intros Hc; by apply (current_not_queued g s h Hinv Hc)).
      destruct Hinv. destruct (proj1 (elem_of_dom (arcs s) h)) as [u Hu]; [auto|].
      exists u. split; [done|]. by apply (inv_queue0 h u Hu).
    - assert (current s = Some h) as Hc' by (destruct (current s); simpl in Hc; [|by apply elem_of_nil in Hc];
        by apply list_elem_of_singleton in Hc as ->).
      rewrite bool_decide_eq_true_2 by done.
      destruct (inv_current _ _ _ _ _ _ Hinv h Hc') as (u & Hu & _). rewrite Hu. by eexists. }
  pose proof (pick_next_task_cases (requeued s rsp)) as Hp.
  unfold preempt_schedule. rewrite Hen. cbn [negb].
  change (match current s with Some h => _ | None => s end) with (requeued s rsp).
  destruct (pick_next_task (requeued s rsp)) as [s1 [n|]].
  - destruct Hp as (q1 & q2 & Eq & -> & Hr & Hm & Hf).
    destruct (rank_inv _ _ Hr) as (t & Ht & Hs & Hrk). rewrite Hrk in Hm, Hf.
    exists n, t, q1, q2. split; [done|]. split; [done|]. split_and!.
    + intros h u Hin Hu. destruct (Hready h Hin) as (u' & Hu' & Hs').
      rewrite Hu in Hu'. injection Hu' as <-.
      rewrite <- (rank_Some (requeued s rsp) h u) by done. by apply Hm.
    + intros h u Hin Hu. destruct (Hready h) as (u' & Hu' & Hs').
      { rewrite Eq. apply elem_of_app. by left. }
      rewrite Hu in Hu'. injection Hu' as <-.
      rewrite <- (rank_Some (requeued s rsp) h u) by done. by apply Hf.
    + cbn [arcs modify set_arcs set_queue]. rewrite lookup_alter_eq, Ht. simpl.
      unfold requeued. by destruct (current s).
  - exfalso. destruct Hp as (_ & _ & Hh).
    destruct (ready_queue (requeued s rsp)) as [|h q] eqn:Eq; [done|].
    destruct (Hready h) as (u & Hu & Hs); [by left|].
    specialize (Hh h eq_refl). rewrite (rank_Some _ h u) in Hh by done.
    pose proof (priority_value_nonneg (priority u)). lia.
Qed.

(** C21. With preemption on and a task to run, the timer's handler makes current
    a task whose priority is at least that of the interrupted task and of every
    ready one, and returns the stack pointer saved in it; the interrupted
    task has its own stack pointer saved. *)
Theorem preempt_runs_highest g s rsp
    (Hr : reachable (g, s)) (Hen : preempt_enabled s = true)
    (Hwork : is_Some (current s) ∨ ready_queue s ≠ []) :
  ∃ n t, current (preempt_schedule s rsp).1 = Some n ∧
    arcs (preempt_schedule s rsp).1 !! n = Some t ∧ state t = Running ∧
    (preempt_schedule s rsp).2 = saved_rsp t ∧
    (∀ h u, arcs s !! h = Some u → h ∈ ready_queue s ∨ current s = Some h →
       priority_value (priority u) ≤ priority_value (priority t)) ∧
    (∀ h u, current s = Some h → arcs (preempt_schedule s rsp).1 !! h = Some u →
       saved_rsp u = rsp).
Proof.
  apply sched_reachable_inv in Hr as [Hinv _]. simpl in Hinv.
  destruct (preempt_schedule_eq g s rsp Hinv Hen) as (n & t & q1 & q2 & Eq & Ht & Hm & _ & ->).
  { rewrite requeued_queue. intros E. apply app_nil in E as [E1 E2].
    destruct Hwork as [[c Hc]|?]; [by rewrite Hc in E2|done]. }
  exists n, (set_state Running t).
  cbn [fst snd current set_switches set_current modify set_arcs arcs set_queue].
  split; [done|]. split; [by rewrite lookup_alter_eq, Ht|]. split; [done|]. split; [done|].
  split.
  - intros h u Hu Hin.
    pose proof (requeued_lookup s rsp h) as Hl. rewrite Hu in Hl.
    assert (h ∈ ready_queue (requeued s rsp)) as Hq.
    { rewrite requeued_queue. apply elem_of_app. destruct Hin as [|Hc]; [by left|].
      right. rewrite Hc. by left. }
    case_bool_decide; exact (Hm h _ Hq Hl).
  - intros h u Hc Hu.
    pose proof (requeued_lookup s rsp h) as Hl. rewrite bool_decide_eq_true_2 in Hl by done.
    destruct (inv_current _ _ _ _ _ _ Hinv h Hc) as (t0 & Ht0 & _). rewrite Ht0 in Hl.
    destruct (decide (h = n)) as [->|Hne].
    + rewrite lookup_alter_eq, Hl in Hu. by injection Hu as <-.
    + rewrite lookup_alter_ne, Hl in Hu by done. by injection Hu as <-.
Qed.

Lemma preempt_runs_highest_witness :
  ∃ n t, current (preempt_schedule demo4.2 0x8000).1 = Some n ∧
    arcs (preempt_schedule demo4.2 0x8000).1 !! n = Some t ∧ state t = Running.
Proof.
  destruct (preempt_runs_highest demo4.1 demo4.2 0x8000 demo4_reachable)
    as (n & t & H1 & H2 & H3 & _).
  - vm_compute. reflexivity.
  - left. vm_compute. eexists. reflexivity.
  - exists n, t. split; [exact H1|]. split; [exact H2|exact H3].
Defined.

(** The running task and the queue behind it have one priority. *)
Definition uniform (s : Scheduler) (p : TaskPriority) : Prop :=
  ∀ h u, h ∈ ready_queue s ∨ current s = Some h → arcs s !! h = Some u → priority u = p.

(** The current task and the queue, as a ring. *)
Definition ring (s : Scheduler) : list Z := option_list (current s) ++ ready_queue s.

Lemma round_robin_step g s c rsp p :
  inv g s → preempt_enabled s = true → current s = Some c → uniform s p →
  let s' := (preempt_schedule s rsp).1 in
  ring s' = ready_queue s ++ [c] ∧ uniform s' p ∧ preempt_enabled s' = true ∧
  is_Some (current s').
Proof.
  intros Hinv Hen Hc Hu.
  assert (Hu' : ∀ h u, h ∈ ready_queue (requeued s rsp) →
    arcs (requeued s rsp) !! h = Some u → priority u = p).
  { intros h u. rewrite requeued_queue, requeued_lookup, elem_of_app, Hc.
    intros Hin Hl. case_bool_decide as E.
    - apply fmap_Some in Hl as (u0 & Hu0 & ->). apply (Hu h u0); [|done]. right. congruence.
    - apply (Hu h u); [|done]. destruct Hin as [|Hin]; [by left|].
      apply list_elem_of_singleton in Hin as ->. by right. }
  assert (Hq : ready_queue (requeued s rsp) = ready_queue s ++ [c])
    by (by rewrite requeued_queue, Hc).
  destruct (preempt_schedule_eq g s rsp Hinv Hen) as (n & t & q1 & q2 & Eq & Ht & _ & Hf & ->).
  { rewrite Hq. by destruct (ready_queue s). }
  assert (q1 = []) as ->.
  { destruct q1 as [|h q1]; [done|]. exfalso.
    assert (h ∈ ready_queue (requeued s rsp)) as Hh by (rewrite Eq; by left).
    assert (∃ u, arcs (requeued s rsp) !! h = Some u) as [u Hul].
    { rewrite requeued_lookup. rewrite Hq in Hh.
      destruct Hinv. apply elem_of_app in Hh as [Hh| ->%list_elem_of_singleton].
      - destruct (proj1 (elem_of_dom (arcs s) h)) as [u Hul]; [auto|]. rewrite Hul.
        case_bool_decide; by eexists.
      - destruct (inv_current0 c Hc) as (u & Hul & _). rewrite Hul. case_bool_decide; by eexists. }
    specialize (Hf h u ltac:(by left) Hul).
    rewrite (Hu' h u Hh Hul), (Hu' n t) in Hf; [lia| |done].
    rewrite Eq. apply elem_of_app. right. by left. }
  cbn [fst]. unfold ring.
  cbn [current set_switches set_current modify set_arcs arcs set_queue ready_queue option_list
       preempt_enabled].
  split_and!.
  - by rewrite <- Hq, Eq.
  - intros h u Hin Hl.
    cbn [current set_switches set_current modify set_arcs arcs set_queue ready_queue] in Hin, Hl.
    assert (h ∈ ready_queue (requeued s rsp)) as Hh.
    { rewrite Eq. destruct Hin as [|[= ->]]; [by right|by left]. }
    destruct (decide (h = n)) as [->|Hne].
    + rewrite lookup_alter_eq, Ht in Hl. injection Hl as <-. by apply (Hu' n t).
    + rewrite lookup_alter_ne in Hl by done. by apply (Hu' h u).
  - unfold requeued. by rewrite Hc.
  - by eexists.
Qed.

Definition preempts (s : Scheduler) (rsps : list Z) : Scheduler :=
  foldl (λ s r, (preempt_schedule s r).1) s rsps.

Lemma round_robin_ring g rsps s p :
  inv g s → preempt_enabled s = true → is_Some (current s) → uniform s p →
  (length rsps ≤ length (ring s))%nat →
  ring (preempts s rsps) = drop (length rsps) (ring s) ++ take (length rsps) (ring s).
Proof.
  intros Hinv Hen Hc Hu.
  induction rsps as [|r rsps IH] using rev_ind; intros Hlen.
  { unfold preempts. simpl. by rewrite drop_0, app_nil_r. }
  rewrite length_app in *. simpl in *. rewrite Nat.add_1_r in *.
  assert (Hall : ∀ l, inv g (preempts s l) ∧ preempt_enabled (preempts s l) = true ∧
    is_Some (current (preempts s l)) ∧ uniform (preempts s l) p).
  { clear -Hinv Hen Hc Hu. intros l.
    induction l as [|x l (Hi & He & [c Hc'] & Hu')] using rev_ind; [done|].
    unfold preempts in *. rewrite foldl_app. simpl.
    split; [by apply preempt_schedule_inv|].
    destruct (round_robin_step g _ c x p Hi He Hc' Hu') as (_ & ? & ? & ?). done. }
  destruct (Hall rsps) as (Hi & He & [c Hc'] & Hu').
  unfold preempts. rewrite foldl_app. simpl. fold (preempts s rsps).
  destruct (round_robin_step g _ c r p Hi He Hc' Hu') as (-> & _).
  specialize (IH ltac:(lia)). unfold ring in IH at 1. rewrite Hc' in IH. simpl in IH.
  destruct (lookup_lt_is_Some_2 (ring s) (length rsps)) as [x Hx]; [lia|].
  rewrite (drop_S _ x) in IH by done. simpl in IH. injection IH as -> IHq.
  rewrite IHq, (take_S_r _ _ x) by done. by rewrite app_assoc.
Qed.

(** C22. Round robin: when the running task and the tasks in the queue have the
    same priority, preemptions run them in turn.  After [k] of them the ring
    formed by the running task and the queue has turned by [k] places, so that
    each task runs once before any runs again. *)
Theorem round_robin g s p rsps
    (Hr : reachable (g, s)) (Hen : preempt_enabled s = true) (Hc : is_Some (current s))
    (Hu : uniform s p) (Hlen : (length rsps ≤ length (ring s))%nat) :
  ring (preempts s rsps) = drop (length rsps) (ring s) ++ take (length rsps) (ring s).
Proof.
  apply sched_reachable_inv in Hr as [Hinv _]. by apply (round_robin_ring g rsps s p).
Qed.

Lemma reachable_preempts g s l : reachable (g, s) → reachable (g, preempts s l).
Proof.
  revert s. induction l as [|r l IH]; intros s Hr; [done|]. apply IH.
  exact (reach_step _ _ Hr (st_preempt g s r)).
Qed.

(** Three tasks of normal priority, the first one running. *)
Definition trio1 : Globals * Scheduler :=
  (create_kernel_task (Globals_init ∅) Scheduler_new 0x1000 "a" 0).1.
Definition trio2 : Globals * Scheduler :=
  (create_kernel_task trio1.1 trio1.2 0x2000 "b" 0).1.
Definition trio3 : Globals * Scheduler :=
  (create_kernel_task trio2.1 trio2.2 0x3000 "c" 0).1.
Definition trio : Globals * Scheduler :=
  (trio3.1, (preempt_schedule (enable_preemption trio3.2) 0x7000).1).

Lemma trio_reachable : reachable (trio.1, trio.2).
Proof.
  eapply reach_step; [|exact (st_preempt trio3.1 (enable_preemption trio3.2) 0x7000)].
  eapply reach_step; [|exact (st_enable trio3.1 trio3.2)].
  eapply reach_step; [|rewrite <- surjective_pairing;
    apply (st_create_kernel trio2.1 trio2.2 0x3000 "c" 0); vm_compute; reflexivity].
  eapply reach_step; [|rewrite <- surjective_pairing;
    apply (st_create_kernel trio1.1 trio1.2 0x2000 "b" 0); vm_compute; reflexivity].
  eapply reach_step; [|rewrite <- surjective_pairing;
    apply (st_create_kernel (Globals_init ∅) Scheduler_new 0x1000 "a" 0);
    vm_compute; reflexivity].
  apply reach_new.
Qed.

(** A check of [uniform] by evaluation. *)
Lemma uniform_check s p :
  forallb (λ h, match arcs s !! h with
                | Some t => bool_decide (priority t = p)
                | None => true
                end) (ring s) = true → uniform s p.
Proof.
  intros Hb h u Hin Hu. rewrite forallb_forall in Hb. specialize (Hb h).
  rewrite Hu, bool_decide_eq_true in Hb. apply Hb.
  apply list_elem_of_In. unfold ring. apply elem_of_app.
  destruct Hin as [|Hc]; [by right|left]. rewrite Hc. by left.
Qed.

Lemma round_robin_witness :
  ring trio.2 = [0; 1; 2] ∧ ring (preempts trio.2 [0x100; 0x200]) = [2; 0; 1].
Proof.
  split; [vm_compute; reflexivity|].
  rewrite (round_robin trio.1 trio.2 Normal [0x100; 0x200]).
  - vm_compute. reflexivity.
  - exact trio_reachable.
  - vm_compute. reflexivity.
  - vm_compute. eexists. reflexivity.
  - apply uniform_check. vm_compute. reflexivity.
  - vm_compute. repeat constructor.
Defined.

(** [terminate_task] on the current task does not last: the timer's handler
    makes the interrupted task ready whatever its state was, so a task killed
    or stopped while it is current is ready or running again after the next
    preemption. *)
Theorem preempt_revives_current g s rsp h
    (Hr : reachable (g, s)) (Hen : preempt_enabled s = true) (Hc : current s = Some h) :
  ∃ t, arcs (preempt_schedule s rsp).1 !! h = Some t ∧ (state t = Ready ∨ state t = Running).
Proof.
  apply sched_reachable_inv in Hr as [Hinv _]. simpl in Hinv.
  destruct (inv_current _ _ _ _ _ _ Hinv h Hc) as (t0 & Ht0 & _).
  destruct (preempt_schedule_eq g s rsp Hinv Hen) as (n & t & q1 & q2 & Eq & Ht & _ & _ & ->).
  { rewrite requeued_queue, Hc. by destruct (ready_queue s). }
  cbn [fst arcs set_switches set_current modify set_arcs set_queue].
  pose proof (requeued_lookup s rsp h) as Hl. rewrite bool_decide_eq_true_2, Ht0 in Hl by done.
  destruct (decide (n = h)) as [->|Hne].
  - rewrite lookup_alter_eq, Hl. eexists. split; [done|]. by right.
  - rewrite lookup_alter_ne, Hl by done. eexists. split; [done|]. by left.
Qed.

Lemma preempt_revives_current_witness :
  let s := (terminate_task (preempts trio.2 [0x100; 0x200]) 3 (-9)).1 in
  state_is s 2 Terminated = true ∧
  ∃ t, arcs (preempt_schedule s 0x300).1 !! 2 = Some t ∧ (state t = Ready ∨ state t = Running).
Proof.
  split; [vm_compute; reflexivity|].
  apply (preempt_revives_current trio.1).
  - eapply reach_step; [|exact (st_kill trio.1 (preempts trio.2 [0x100; 0x200]) 3 (-9))].
    apply reachable_preempts. exact trio_reachable.
  - vm_compute. reflexivity.
  - vm_compute. reflexivity.
Defined.

(** [foreground_task] never resumes a task: it tests for [Stopped] after
    having set [Foreground], so it leaves the queue and the state of every task
    as they are. *)
Theorem foreground_task_never_resumes s i :
  let s' := (foreground_task s i).1 in
  ready_queue s' = ready_queue s ∧ need_reschedule s' = need_reschedule s ∧
  ∀ h, state <$> arcs s' !! h = state <$> arcs s !! h.
Proof.
  unfold foreground_task. destruct (find_task _ _) as [h|]; [|done].
  destruct (arcs s !! h) as [t|] eqn:E; [|done].
  case_bool_decide; [done|]. simpl. split; [done|]. split; [done|].
  intros j. destruct (decide (h = j)) as [<-|Hne].
  - by rewrite lookup_alter_eq, E.
  - by rewrite lookup_alter_ne.
Qed.

(** The tick of the generic interrupt handler does not leave a task that
    cannot run: with no signal pending and the current task not running, it
    asks for a reschedule and returns, and the current task and the queue stay
    as they are. *)
Theorem tick_keeps_stopped s h t
    (Hen : preempt_enabled s = true) (Hc : current s = Some h) (Ht : arcs s !! h = Some t)
    (Hsig : pending_signals t = 0) (Hs : state t ≠ Running) :
  (tick s).2 = None ∧ current (tick s).1 = Some h ∧ ready_queue (tick s).1 = ready_queue s ∧
  arcs (tick s).1 = arcs s ∧ need_reschedule (tick s).1 = true.
Proof.
  unfold tick. cbn [preempt_enabled current arcs]. rewrite Hen, Hc, Ht. cbn [negb].
  unfold tick_signals. rewrite Hsig. simpl.
  rewrite bool_decide_eq_false_2 by done. simpl. split_and!; try done.
  rewrite (alter_insert_Some _ _ _ t Ht). by apply insert_id.
Qed.

Lemma tick_keeps_stopped_witness :
  current (tick (block_current trio.2)).1 = Some 0 ∧
  ready_queue (tick (block_current trio.2)).1 = [1; 2].
Proof.
  destruct (tick_keeps_stopped (block_current trio.2) 0
    (match arcs (block_current trio.2) !! 0 with Some t => t | None => demo_task end))
    as (_ & H1 & H2 & _).
  - vm_compute. reflexivity.
  - vm_compute. reflexivity.
  - vm_compute. reflexivity.
  - vm_compute. reflexivity.
  - vm_compute. congruence.
  - split; [exact H1|]. rewrite H2. vm_compute. reflexivity.
Defined.

(** The first task of [trio] is stopped by SIGTSTP and preempted. *)
Definition stopped1 : Scheduler := (send_signal_to trio.2 1 SIGTSTP).1.
Definition stopped2 : Scheduler := (tick stopped1).1.
Definition stopped : Scheduler := preempts stopped2 [0x100].

Lemma stopped_reachable : reachable (trio.1, stopped).
Proof.
  apply reachable_preempts. eapply reach_step; [|exact (st_tick trio.1 stopped1)].
  eapply reach_step; [|exact (st_signal trio.1 trio.2 1 SIGTSTP)]. exact trio_reachable.
Qed.

(** The condition on the wake-up calls is needed: [bg] on a task that was
    stopped while current, and made ready again by the preemption that
    followed, puts it in the queue a second time. *)
Theorem background_task_duplicates :
  ∃ g s i, reachable (g, s) ∧ current_task_id s ≠ Some i ∧
    (background_task s i).2 = Ok tt ∧ ¬ NoDup (ready_queue (background_task s i).1).
Proof.
  exists trio.1, stopped, 1. split; [exact stopped_reachable|].
  split; [vm_compute; congruence|]. split; [vm_compute; reflexivity|].
  assert (ready_queue (background_task stopped 1).1 = [2; 0; 0]) as ->
    by (vm_compute; reflexivity).
  intros Hnd. apply NoDup_cons in Hnd as [_ Hnd]. apply NoDup_cons in Hnd as [Hn _].
  apply Hn. by left.
Qed.

(** C23. [terminate_task] refuses the identifiers up to 2, fails for an
    identifier no listed task has, and otherwise terminates that task with the
    exit code, takes it out of the queue, and changes no other task. *)
Theorem terminate_task_effect g s i code (Hr : reachable (g, s)) :
  match terminate_task s i code with
  | (s', Err e) =>
      s' = s ∧
      (i ≤ 2 ∧ e = AccessDenied ∨
       2 < i ∧ e = InvalidArgument ∧
       ∀ h t, h ∈ all_tasks s → arcs s !! h = Some t → id t ≠ i)
  | (s', Ok _) =>
      2 < i ∧ ∃ h t, h ∈ all_tasks s ∧ arcs s !! h = Some t ∧ id t = i ∧
        arcs s' = <[h := set_exit_code code (set_state Terminated t)]> (arcs s) ∧
        (∀ h', h' ∈ ready_queue s' ↔ h' ∈ ready_queue s ∧ h' ≠ h) ∧
        current s' = current s ∧ all_tasks s' = all_tasks s
  end.
Proof.
  apply sched_reachable_inv in Hr as [Hinv _]. simpl in Hinv. destruct Hinv.
  unfold terminate_task. case_if; [split; [done|]; by left|].
  destruct (find_task s _) as [h|] eqn:Ef.
  - apply find_task_Some in Ef as (Hall & t & Ht & Hi). break_cmp. split; [lia|].
    exists h, t. set (f := λ t, _). set (s1 := set_need true (modify h f s)).
    assert (Ea : arcs s1 = <[h := f t]> (arcs s)) by (by apply alter_insert_Some).
    split_and!; try done. intros h'.
    change (h' ∈ retain_not s1 i (ready_queue s) ↔ h' ∈ ready_queue s ∧ h' ≠ h).
    rewrite retain_not_elem, Ea. split; intros [Hq Hno]; (split; [done|]).
    + intros ->. apply (Hno (f t)); [by rewrite lookup_insert_eq|done].
    + rewrite lookup_insert_ne by done. intros t' Ht' Hi'. apply Hno.
      apply (inv_inj0 h' h t' t); congruence.
  - split; [done|]. right. split; [lia|]. split; [done|]. intros h t Hin Ht Hi.
    unfold find_task in Ef. apply head_None in Ef.
    apply (not_elem_of_nil h). rewrite <- Ef. apply list_elem_of_filter. split; [|done].
    unfold task_is. rewrite Ht. by apply Z.eqb_eq.
Qed.

Lemma terminate_task_effect_witness :
  (terminate_task trio.2 3 7).2 = Ok tt ∧
  ready_queue (terminate_task trio.2 3 7).1 = [1] ∧
  match terminate_task trio.2 3 7 with
  | (s', Ok _) => current s' = current trio.2
  | _ => False
  end.
Proof.
  split; [vm_compute; reflexivity|]. split; [vm_compute; reflexivity|].
  pose proof (terminate_task_effect trio.1 trio.2 3 7 trio_reachable) as H1.
  assert (E : (terminate_task trio.2 3 7).2 = Ok tt) by (vm_compute; reflexivity).
  destruct (terminate_task trio.2 3 7) as [s' r]. simpl in E. subst r.
  destruct H1 as (_ & h & t & _ & _ & _ & _ & _ & Hc & _). exact Hc.
Defined.

End Scheduler.
