(* ===== verification/Locks.v ===== *)
(** * The locks of the scheduler (src/sched/scheduler.rs)

    Every task is behind a spin lock.  Here the operations of the scheduler are
    written with the acquisition and the release of these locks where the source has
    them; an acquisition of a lock that is held never returns.  The operations do what
    their counterparts in [Scheduler] do in one step, hold no two locks at a time and
    release what they take.  The handler of the timer takes the same locks, and the
    code it interrupts does not disable interrupts while it holds one. *)

From stdpp Require Import base numbers list gmap strings.
From S2P Require Import Prelude Memory Task Scheduler.
Open Scope Z_scope.

Module Locks.
Import Task Scheduler.

(** ** Programs with locks

    The state has the scheduler and the set of locks that are held; [None] is a
    program that spins for ever. *)

Definition prog (A : Type) : Type := Scheduler * gset Z → option (A * (Scheduler * gset Z)).

#[export] Instance prog_ret : MRet prog := λ A a x, Some (a, x).
#[export] Instance prog_bind : MBind prog := λ A B k p x, '(a, y) ← p x; k a y.

Definition get : prog Scheduler := λ x, Some (x.1, x).
Definition change (f : Scheduler → Scheduler) : prog unit := λ x, Some (tt, (f x.1, x.2)).

(** [arc.lock()] and the end of the guard's life. *)
Definition lock (h : Z) : prog unit := λ x,
  if decide (h ∈ x.2) then None else Some (tt, (x.1, {[h]} ∪ x.2)).
Definition unlock (h : Z) : prog unit := λ x, Some (tt, (x.1, x.2 ∖ {[h]})).

(** Reading and writing through the guard of [h]. *)
Definition read (h : Z) : prog (option Task) := λ x, Some (arcs x.1 !! h, x).
Definition write (h : Z) (f : Task → Task) : prog unit := change (modify h f).

(** ** The operations *)

(** The loop of [pick_next_task]. *)
Fixpoint best_from (q : list Z) (idx best_idx : nat) (best_priority : TaskPriority) : prog nat :=
  match q with
  | [] => mret best_idx
  | h :: q =>
      lock h;;
      t ← read h;
      unlock h;;
      match t with
      | Some t =>
          if bool_decide (state t = Ready) && (priority_value best_priority <? priority_value (priority t))
          then best_from q (S idx) idx (priority t)
          else best_from q (S idx) best_idx best_priority
      | None => best_from q (S idx) best_idx best_priority
      end
  end.

Definition pick_next_task : prog (option Z) :=
  s ← get;
  match ready_queue s with
  | [] => mret None
  | q =>
      i ← best_from q 0 0 Low;
      match q !! i with
      | None => mret None
      | Some h =>
          lock h;;
          t ← read h;
          unlock h;;
          if match t with Some t => bool_decide (state t = Ready) | None => false end
          then change (λ s, set_queue (delete i (ready_queue s)) s);; mret (Some h)
          else mret None
      end
  end.

(** The locks of [do_context_switch]; the switch itself is in [Scheduler]. *)
Definition switch_locks (cur : option Z) (next : Z) : prog unit :=
  match cur with
  | Some h => lock h;; unlock h
  | None => mret tt
  end;;
  lock next;; unlock next.

Definition schedule : prog switch :=
  change (set_need false);;
  s ← get;
  let current_arc := current s in
  change (set_current None);;
  match current_arc with
  | Some h =>
      lock h;;
      t ← read h;
      if match t with Some t => bool_decide (state t = Running) | None => false end
      then write h (λ t, reset_time_slice (set_state Ready t));; unlock h;; change (enqueue h)
      else unlock h
  | None => mret tt
  end;;
  next ← pick_next_task;
  match next with
  | Some n =>
      lock n;; write n (set_state Running);; unlock n;;
      let should_switch := match current_arc with Some h => negb (h =? n) | None => true end in
      change (set_current (Some n));;
      if should_switch then switch_locks current_arc n;; mret (Some (current_arc, n)) else mret None
  | None => change (set_current current_arc);; mret None
  end.

Definition preempt_schedule (current_rsp : Z) : prog Z :=
  s ← get;
  if negb (preempt_enabled s) then mret current_rsp
  else
    match current s with
    | Some h =>
        lock h;;
        write h (λ t, reset_time_slice (set_state Ready (set_saved_rsp current_rsp t)));;
        unlock h;;
        change (enqueue h)
    | None => mret tt
    end;;
    next ← pick_next_task;
    match next with
    | Some n =>
        lock n;; write n (set_state Running);; unlock n;;
        lock n;;
        t ← read n;
        unlock n;;
        change (λ s, set_switches (context_switches s + 1)%usize (set_current (Some n) s));;
        mret (match t with Some t => saved_rsp t | None => 0 end)
    | None =>
        s ← get;
        match current s with
        | Some h => lock h;; write h (set_state Running);; unlock h
        | None => mret tt
        end;;
        mret current_rsp
    end.

(** [tick]: the guard of the current task lives to the end of its block, also where
    [tick] returns from it. *)
Definition tick : prog switch :=
  change (λ s, mkSched (arcs s) (next_arc s) (ready_queue s) (current s) (all_tasks s) (task_count s)
                 (tick_count s + 1)%usize (need_reschedule s) (preempt_enabled s)
                 (scheduler_ticks s + 1)%usize (context_switches s));;
  s ← get;
  if negb (preempt_enabled s) then mret None
  else
    returned ←
      match current s with
      | Some h =>
          lock h;;
          t ← read h;
          match t with
          | Some t =>
              let '(t, returned) := tick_signals t in
              if (returned : bool) then write h (λ _, t);; unlock h;; change (set_need true);; mret true
              else if negb (bool_decide (state t = Running))
              then write h (λ _, t);; change (set_need true);; unlock h;; mret true
              else
                let '(t, over) := tick_account t in
                write h (λ _, t);;
                (if (over : bool) then change (set_need true) else mret tt);;
                unlock h;; mret false
          | None => unlock h;; mret false
          end
      | None => mret false
      end;
    if (returned : bool) then mret None
    else
      s ← get;
      if need_reschedule s then schedule else mret None.

Definition block_current : prog unit :=
  s ← get;
  match current s with
  | Some h => lock h;; write h (set_state Blocked);; change (set_need true);; unlock h
  | None => mret tt
  end.

(** The loops over all tasks: the first task that satisfies [P], with its lock held. *)
Fixpoint find_locked (P : Task → bool) (l : list Z) : prog (option Z) :=
  match l with
  | [] => mret None
  | h :: l =>
      lock h;;
      t ← read h;
      if match t with Some t => P t | None => false end then mret (Some h)
      else unlock h;; find_locked P l
  end.

Definition find_task (P : Task → bool) : prog (option Z) :=
  s ← get; find_locked P (all_tasks s).

(** [retain(|a| a.lock().id != task_id)]. *)
Fixpoint retain_not (task_id : Z) (l : list Z) : prog (list Z) :=
  match l with
  | [] => mret []
  | h :: l =>
      lock h;;
      t ← read h;
      unlock h;;
      l ← retain_not task_id l;
      mret (if match t with Some t => id t =? task_id | None => false end then l else h :: l)
  end.

Definition unblock_task (task_id : Z) : prog (KernelResult unit) :=
  r ← find_task (λ t, (id t =? task_id) && bool_decide (state t = Blocked));
  match r with
  | Some h =>
      write h (set_state Ready);; unlock h;; change (enqueue h);; change (set_need true);; mret (Ok tt)
  | None => mret (Err InvalidArgument)
  end.

Definition terminate_current (code : Z) : prog switch :=
  s ← get;
  match current s with
  | Some h => lock h;; write h (λ t, set_exit_code code (set_state Terminated t));; unlock h
  | None => mret tt
  end;;
  change (set_need true);;
  schedule.

Definition terminate_task (task_id code : Z) : prog (KernelResult unit) :=
  if task_id <=? 2 then mret (Err AccessDenied)
  else
    r ← find_task (λ t, id t =? task_id);
    match r with
    | Some h =>
        write h (λ t, set_exit_code code (set_state Terminated t));;
        unlock h;;
        change (set_need true);;
        s ← get;
        q ← retain_not task_id (ready_queue s);
        change (set_queue q);;
        mret (Ok tt)
    | None => mret (Err InvalidArgument)
    end.

Definition send_signal_to (task_id signal : Z) : prog (KernelResult unit) :=
  r ← find_task (λ t, id t =? task_id);
  match r with
  | Some h => write h (send_signal signal);; unlock h;; mret (Ok tt)
  | None => mret (Err InvalidArgument)
  end.

Definition background_task (task_id : Z) : prog (KernelResult unit) :=
  r ← find_task (λ t, id t =? task_id);
  match r with
  | Some h =>
      t ← read h;
      if match t with Some t => bool_decide (foreground t = Stopped) | None => false end then
        write h (λ t, send_signal SIGCONT (set_state Ready (set_foreground Background t)));;
        unlock h;; change (enqueue h);; change (set_need true);; mret (Ok tt)
      else unlock h;; mret (Err InvalidArgument)
  | None => mret (Err InvalidArgument)
  end.

Definition foreground_task (task_id : Z) : prog (KernelResult unit) :=
  r ← find_task (λ t, id t =? task_id);
  match r with
  | Some h =>
      t ← read h;
      if match t with Some t => bool_decide (foreground t = Foreground) | None => true end
      then unlock h;; mret (Err InvalidArgument)
      else
        write h (set_foreground Foreground);;
        t ← read h;
        if match t with Some t => bool_decide (foreground t = Stopped) | None => false end then
          write h (λ t, send_signal SIGCONT (set_state Ready t));;
          unlock h;; change (enqueue h);; change (set_need true);; mret (Ok tt)
        else unlock h;; mret (Ok tt)
  | None => mret (Err InvalidArgument)
  end.

Definition get_task_info (task_id : Z) : prog (option TaskInfo) :=
  r ← find_task (λ t, id t =? task_id);
  match r with
  | Some h => t ← read h; unlock h;; mret (task_info <$> t)
  | None => mret None
  end.

(** The closure of [list_tasks] and its map over all tasks. *)
Definition info_of (h : Z) : prog (option TaskInfo) :=
  lock h;; t ← read h; unlock h;; mret (task_info <$> t).

Fixpoint infos (l : list Z) : prog (list TaskInfo) :=
  match l with
  | [] => mret []
  | h :: l => i ← info_of h; l ← infos l; mret (option_list i ++ l)
  end.

Definition list_tasks : prog (list TaskInfo) := s ← get; infos (all_tasks s).

(** [filter] and [map] of [cleanup_terminated] each take the lock. *)
Fixpoint terminated (l : list Z) : prog (list Z) :=
  match l with
  | [] => mret []
  | h :: l =>
      lock h;;
      t ← read h;
      unlock h;;
      i ← (if match t with Some t => bool_decide (state t = Terminated) | None => false end then
             lock h;; t ← read h; unlock h;; mret (id <$> t)
           else mret None);
      l ← terminated l;
      mret (option_list i ++ l)
  end.

Fixpoint cleanup (ids : list Z) : prog unit :=
  match ids with
  | [] => mret tt
  | i :: ids =>
      s ← get;
      l ← retain_not i (all_tasks s);
      change (set_all l);;
      q ← retain_not i (ready_queue s);
      change (set_queue q);;
      cleanup ids
  end.

Definition cleanup_terminated : prog unit := s ← get; ids ← terminated (all_tasks s); cleanup ids.

(** ** Running a program *)

Section Run.
Context {A B : Type}.

Lemma run_assoc {C} (p : prog A) (k1 : A → prog B) (k2 : B → prog C) x :
  ((p ≫= k1) ≫= k2) x = (p ≫= λ a, k1 a ≫= k2) x.
Proof. unfold mbind, prog_bind. by destruct (p x) as [[a y]|]. Qed.

Lemma run_then (p : prog A) (k : A → prog B) x a y : p x = Some (a, y) → (p ≫= k) x = k a y.
Proof. unfold mbind, prog_bind. by intros ->. Qed.

Lemma run_spins (p : prog A) (k : A → prog B) x : p x = None → (p ≫= k) x = None.
Proof. unfold mbind, prog_bind. by intros ->. Qed.

Lemma run_ret (a : A) (k : A → prog B) x : (mret a ≫= k) x = k a x.
Proof. done. Qed.
End Run.

Lemma run_get {A} (k : Scheduler → prog A) s L : (get ≫= k) (s, L) = k s (s, L).
Proof. done. Qed.

Lemma run_change {A} f (k : unit → prog A) s L : (change f ≫= k) (s, L) = k tt (f s, L).
Proof. done. Qed.

Lemma run_write {A} h f (k : unit → prog A) s L : (write h f ≫= k) (s, L) = k tt (modify h f s, L).
Proof. done. Qed.

Lemma run_read {A} h (k : option Task → prog A) s L : (read h ≫= k) (s, L) = k (arcs s !! h) (s, L).
Proof. done. Qed.

Lemma run_lock {A} h (k : unit → prog A) s L : h ∉ L → (lock h ≫= k) (s, L) = k tt (s, {[h]} ∪ L).
Proof. intros Hh. unfold mbind, prog_bind, lock. cbn [snd]. by rewrite decide_False. Qed.

Lemma unlock_held h s L : h ∉ L → unlock h (s, {[h]} ∪ L) = Some (tt, (s, L)).
Proof. intros Hh. unfold unlock. cbn [fst snd]. do 3 f_equal. set_solver. Qed.

Lemma run_unlock {A} h (k : unit → prog A) s L : h ∉ L → (unlock h ≫= k) (s, {[h]} ∪ L) = k tt (s, L).
Proof. intros Hh. eapply run_then. by apply unlock_held. Qed.

Lemma lock_spins {A} h (k : unit → prog A) s L : h ∈ L → (lock h ≫= k) (s, L) = None.
Proof. intros Hh. unfold mbind, prog_bind, lock. cbn [snd]. by rewrite decide_True. Qed.

(** Runs the commands at the front of a program; the locks it takes must be free. *)
Ltac run :=
  repeat first [rewrite run_assoc | rewrite run_ret | rewrite run_get | rewrite run_change | rewrite run_write
    | rewrite run_read | rewrite run_lock by done | rewrite run_unlock by done | rewrite unlock_held by done].

(** ** The operations do what the scheduler specifies *)

(** No lock of the tasks in [l] is held. *)
Definition unlocked (l : list Z) (L : gset Z) : Prop := ∀ h, h ∈ l → h ∉ L.

Lemma unlocked_cons h l L : unlocked (h :: l) L ↔ (h ∉ L) ∧ unlocked l L.
Proof.
  unfold unlocked. split.
  - intros H. split; [apply H; by left|]. intros h' Hh. apply H. by right.
  - intros [H1 H2] h' [->|Hh]%elem_of_cons; [done|by apply H2].
Qed.

Lemma best_from_runs q idx b p s L :
  unlocked q L → best_from q idx b p (s, L) = Some (Scheduler.best_from s q idx b p, (s, L)).
Proof.
  revert idx b p. induction q as [|h q IH]; intros idx b p Hq; [done|].
  apply unlocked_cons in Hq as [Hh Hq]. cbn [best_from Scheduler.best_from]. run.
  destruct (arcs s !! h) as [t|]; [|by apply IH]. case_if; by apply IH.
Qed.

Lemma pick_runs s L :
  unlocked (ready_queue s) L →
  pick_next_task (s, L) = Some ((Scheduler.pick_next_task s).2, ((Scheduler.pick_next_task s).1, L)).
Proof.
  intros Hq. unfold pick_next_task, Scheduler.pick_next_task, best_index. rewrite run_get.
  destruct (ready_queue s) as [|h0 q] eqn:E; [done|]. rewrite <- E in *.
  rewrite (run_then _ _ _ _ _ (best_from_runs _ 0 0 Low s L Hq)).
  destruct (ready_queue s !! _) as [h|] eqn:Eh; [|done].
  assert (h ∉ L) by (apply Hq; by eapply list_elem_of_lookup_2). run.
  unfold state_is, task_is. by destruct (match arcs s !! h with Some _ => _ | None => _ end).
Qed.

Lemma find_locked_runs P l s L :
  unlocked l L →
  find_locked P l (s, L) =
    match head (filter (λ h, task_is s P h = true) l) with
    | Some h => Some (Some h, (s, {[h]} ∪ L))
    | None => Some (None, (s, L))
    end.
Proof.
  induction l as [|h l IH]; intros Hl; [done|]. apply unlocked_cons in Hl as [Hh Hl].
  cbn [find_locked]. run. rewrite filter_cons.
  change (match arcs s !! h with Some t => P t | None => false end) with (task_is s P h).
  destruct (task_is s P h); [by rewrite decide_True|]. rewrite decide_False by done. run. by apply IH.
Qed.

Lemma find_task_runs P s L :
  unlocked (all_tasks s) L →
  find_task P (s, L) =
    match Scheduler.find_task s P with
    | Some h => Some (Some h, (s, {[h]} ∪ L))
    | None => Some (None, (s, L))
    end.
Proof. intros Hl. unfold find_task. rewrite run_get. by apply find_locked_runs. Qed.

Lemma retain_runs i l s L :
  unlocked l L → retain_not i l (s, L) = Some (Scheduler.retain_not s i l, (s, L)).
Proof.
  induction l as [|h l IH]; intros Hl; [done|]. apply unlocked_cons in Hl as [Hh Hl].
  cbn [retain_not]. run. rewrite (run_then _ _ _ _ _ (IH Hl)). unfold Scheduler.retain_not.
  rewrite filter_cons.
  change (match arcs s !! h with Some t => id t =? i | None => false end) with (task_is s (λ t, id t =? i) h).
  destruct (task_is s _ h); [by rewrite decide_False|by rewrite decide_True].
Qed.

(** No lock of a task the scheduler knows is held. *)
Record free (s : Scheduler) (L : gset Z) : Prop := {
  free_queue : unlocked (ready_queue s) L;
  free_all : unlocked (all_tasks s) L;
  free_current : ∀ h, current s = Some h → h ∉ L
}.

Lemma pick_in s n : (Scheduler.pick_next_task s).2 = Some n → n ∈ ready_queue s.
Proof.
  pose proof (pick_next_task_cases s) as H. destruct (Scheduler.pick_next_task s) as [s1 [h|]]; [|done].
  destruct H as (q1 & q2 & -> & _). intros [= ->]. apply elem_of_app. right. by left.
Qed.

Lemma unlocked_enqueue l h L : unlocked l L → h ∉ L → unlocked (l ++ [h]) L.
Proof. intros Hl Hh h' [?|E]%elem_of_app; [by apply Hl|]. by apply list_elem_of_singleton in E as ->. Qed.

Lemma schedule_runs s L :
  free s L → schedule (s, L) = Some ((Scheduler.schedule s).2, ((Scheduler.schedule s).1, L)).
Proof.
  intros [Hq _ Hc]. unfold schedule, Scheduler.schedule. run. cbn zeta.
  set (s0 := set_current None (set_need false s)). change (current (set_need false s)) with (current s) in *.
  set (s1 := match current s with Some h => if state_is s0 h Running then _ else s0 | None => s0 end).
  assert (E1 : match current s with
    | Some h => lock h ≫= λ _, read h ≫= λ t,
        if match t with Some t => bool_decide (state t = Running) | None => false end
        then write h (λ t, reset_time_slice (set_state Ready t)) ≫= λ _, unlock h ≫= λ _, change (enqueue h)
        else unlock h
    | None => mret tt
    end (s0, L) = Some (tt, (s1, L)) ∧ unlocked (ready_queue s1) L).
  { unfold s1. destruct (current s) as [h|]; [|done]. specialize (Hc h eq_refl). run.
    change (match arcs s0 !! h with Some t => bool_decide (state t = Running) | None => false end)
      with (state_is s0 h Running).
    destruct (state_is s0 h Running); run; [|done]. split; [done|]. exact (unlocked_enqueue (ready_queue s) h L Hq Hc). }
  destruct E1 as [E1 Hq1]. rewrite (run_then _ _ _ _ _ E1). clearbody s1. clear E1.
  rewrite (run_then _ _ _ _ _ (pick_runs s1 L Hq1)). pose proof (pick_in s1) as Hn.
  destruct (Scheduler.pick_next_task s1) as [s2 [n|]]; cbn [fst snd] in *; [|run; done].
  assert (n ∉ L) by by apply Hq1, Hn. run. unfold switch_locks.
  destruct (current s) as [h|]; [|run; done]. specialize (Hc h eq_refl). by destruct (h =? n); cbn [negb]; run.
Qed.

Lemma preempt_runs s L rsp :
  unlocked (ready_queue s) L → (∀ h, current s = Some h → h ∉ L) →
  preempt_schedule rsp (s, L) =
    Some ((Scheduler.preempt_schedule s rsp).2, ((Scheduler.preempt_schedule s rsp).1, L)).
Proof.
  intros Hq Hc. unfold preempt_schedule, Scheduler.preempt_schedule. run.
  destruct (preempt_enabled s); [|done]. cbn [negb].
  change (match current s with Some h => enqueue h _ | None => s end) with (requeued s rsp).
  assert (E1 : match current s with
    | Some h => lock h ≫= λ _, write h (λ t, reset_time_slice (set_state Ready (set_saved_rsp rsp t))) ≫= λ _,
        unlock h ≫= λ _, change (enqueue h)
    | None => mret tt
    end (s, L) = Some (tt, (requeued s rsp, L)) ∧ unlocked (ready_queue (requeued s rsp)) L).
  { unfold requeued. destruct (current s) as [h|]; [|done]. specialize (Hc h eq_refl). run.
    split; [done|]. exact (unlocked_enqueue (ready_queue s) h L Hq Hc). }
  destruct E1 as [E1 Hq1]. rewrite (run_then _ _ _ _ _ E1). clear E1.
  assert (Hc1 : ∀ h, current (requeued s rsp) = Some h → h ∉ L)
    by (intros h Hh; apply Hc; revert Hh; unfold requeued; destruct (current s) eqn:Ec; cbn; by rewrite Ec).
  revert Hq1 Hc1. generalize (requeued s rsp). intros s1 Hq1 Hc1.
  rewrite (run_then _ _ _ _ _ (pick_runs s1 L Hq1)). pose proof (pick_in s1) as Hn.
  pose proof (pick_next_task_cases s1) as Hcur.
  destruct (Scheduler.pick_next_task s1) as [s2 [n|]]; cbn [fst snd] in *.
  - assert (n ∉ L) by by apply Hq1, Hn. by run.
  - destruct Hcur as (-> & _). run. destruct (current s1) as [h|]; [|by run]. specialize (Hc1 h eq_refl). by run.
Qed.

Lemma tick_runs s L : free s L → tick (s, L) = Some ((Scheduler.tick s).2, ((Scheduler.tick s).1, L)).
Proof.
  intros [Hq Ha Hc]. unfold tick, Scheduler.tick. run.
  set (s0 := mkSched _ _ _ _ _ _ _ _ _ _ _).
  assert (F0 : free s0 L) by done. clearbody s0. clear Hq Ha Hc. pose proof F0 as [Hq Ha Hc].
  destruct (preempt_enabled s0); [|done]. cbn [negb].
  set (x := match current s0 with Some _ => _ | None => (s0, false) end).
  match goal with |- (?p ≫= _) _ = _ => assert (E : p (s0, L) = Some (x.2, (x.1, L)) ∧ free x.1 L) end.
  { unfold x. destruct (current s0) as [h|] eqn:Ec; [|by split]. specialize (Hc h eq_refl).
    assert (F : ∀ f b, free (set_need b (modify h f s0)) L ∧ free (modify h f s0) L)
      by (intros f b; split; split; try done; intros h'; cbn; rewrite Ec; by intros [= <-]).
    run. destruct (arcs s0 !! h) as [t|]; [|run; by split].
    destruct (tick_signals t) as [t1 []]; [run; split; [done|apply F]|].
    destruct (negb _); [run; split; [done|apply F]|].
    destruct (tick_account t1) as [t2 []]; run; (split; [done|]).
    - apply (F _ true).
    - apply (F _ true). }
  destruct E as [E F]. rewrite (run_then _ _ _ _ _ E). clearbody x. destruct x as [s1 []]; cbn [fst snd] in *; [done|].
  run. destruct (need_reschedule s1); [by apply schedule_runs|done].
Qed.

(** The task found by a loop is one of all tasks. *)
Lemma found s P L h : unlocked (all_tasks s) L → Scheduler.find_task s P = Some h → (h ∉ L) ∧ ∃ t, arcs s !! h = Some t.
Proof.
  intros Ha Hf. apply find_task_Some in Hf as (Hin & t & Ht & _). split; [by apply Ha|by exists t].
Qed.

Lemma find_then {A} P (k : option Z → prog A) s L :
  unlocked (all_tasks s) L →
  (find_task P ≫= k) (s, L) =
    match Scheduler.find_task s P with
    | Some h => k (Some h) (s, {[h]} ∪ L)
    | None => k None (s, L)
    end.
Proof.
  intros Ha. unfold mbind, prog_bind. rewrite find_task_runs by done. by destruct (Scheduler.find_task s P).
Qed.

Lemma infos_runs l s L :
  unlocked l L → infos l (s, L) = Some (omap (λ h, task_info <$> arcs s !! h) l, (s, L)).
Proof.
  induction l as [|h l IH]; intros Hl; [done|]. apply unlocked_cons in Hl as [Hh Hl].
  cbn [infos]. unfold info_of. run. rewrite (run_then _ _ _ _ _ (IH Hl)).
  cbn [omap list_omap]. by destruct (arcs s !! h).
Qed.

Definition terminated_id (s : Scheduler) (h : Z) : option Z :=
  match arcs s !! h with
  | Some t => if bool_decide (state t = Terminated) then Some (id t) else None
  | None => None
  end.

Lemma terminated_runs l s L :
  unlocked l L → terminated l (s, L) = Some (omap (terminated_id s) l, (s, L)).
Proof.
  induction l as [|h l IH]; intros Hl; [done|]. apply unlocked_cons in Hl as [Hh Hl].
  cbn [terminated omap list_omap]. run. unfold terminated_id at 1.
  destruct (arcs s !! h) as [t|] eqn:Et; [destruct (bool_decide (state t = Terminated))|];
    run; rewrite ?Et, (run_then _ _ _ _ _ (IH Hl)); done.
Qed.

Lemma retain_unlocked s i l L : unlocked l L → unlocked (Scheduler.retain_not s i l) L.
Proof. intros Hl h [_ Hh]%list_elem_of_filter. by apply Hl. Qed.

Lemma cleanup_runs ids s L :
  unlocked (ready_queue s) L → unlocked (all_tasks s) L →
  cleanup ids (s, L) = Some (tt, (foldl cleanup_one s ids, L)).
Proof.
  revert s. induction ids as [|i ids IH]; intros s Hq Ha; [done|]. cbn [cleanup foldl]. run.
  rewrite (run_then _ _ _ _ _ (retain_runs i _ s L Ha)). run.
  rewrite (run_then _ _ _ _ _ (retain_runs i (ready_queue s) _ L Hq)). run.
  apply IH; by apply retain_unlocked.
Qed.

(** ** All operations *)

Inductive op :=
  | Tick | Schedule | Preempt (rsp : Z) | Block | Unblock (i : Z) | Exit (code : Z) | Kill (i code : Z)
  | Signal (i signal : Z) | Background_ (i : Z) | Foreground_ (i : Z) | Info (i : Z) | ListTasks | Cleanup.

Inductive answer :=
  | Nothing | Switched (x : switch) | Resume (rsp : Z) | Done (r : KernelResult unit)
  | OneTask (i : option TaskInfo) | Tasks (l : list TaskInfo).

(** The operation with its locks. *)
Definition with_locks (o : op) : prog answer :=
  match o with
  | Tick => x ← tick; mret (Switched x)
  | Schedule => x ← schedule; mret (Switched x)
  | Preempt rsp => x ← preempt_schedule rsp; mret (Resume x)
  | Block => block_current;; mret Nothing
  | Unblock i => x ← unblock_task i; mret (Done x)
  | Exit code => x ← terminate_current code; mret (Switched x)
  | Kill i code => x ← terminate_task i code; mret (Done x)
  | Signal i signal => x ← send_signal_to i signal; mret (Done x)
  | Background_ i => x ← background_task i; mret (Done x)
  | Foreground_ i => x ← foreground_task i; mret (Done x)
  | Info i => x ← get_task_info i; mret (OneTask x)
  | ListTasks => x ← list_tasks; mret (Tasks x)
  | Cleanup => cleanup_terminated;; mret Nothing
  end.

(** The operation in one step. *)
Definition atomic (o : op) (s : Scheduler) : Scheduler * answer :=
  match o with
  | Tick => let '(s, x) := Scheduler.tick s in (s, Switched x)
  | Schedule => let '(s, x) := Scheduler.schedule s in (s, Switched x)
  | Preempt rsp => let '(s, x) := Scheduler.preempt_schedule s rsp in (s, Resume x)
  | Block => (Scheduler.block_current s, Nothing)
  | Unblock i => let '(s, x) := Scheduler.unblock_task s i in (s, Done x)
  | Exit code => let '(s, x) := Scheduler.terminate_current s code in (s, Switched x)
  | Kill i code => let '(s, x) := Scheduler.terminate_task s i code in (s, Done x)
  | Signal i signal => let '(s, x) := Scheduler.send_signal_to s i signal in (s, Done x)
  | Background_ i => let '(s, x) := Scheduler.background_task s i in (s, Done x)
  | Foreground_ i => let '(s, x) := Scheduler.foreground_task s i in (s, Done x)
  | Info i => (s, OneTask (Scheduler.get_task_info s i))
  | ListTasks => (s, Tasks (Scheduler.list_tasks s))
  | Cleanup => (Scheduler.cleanup_terminated s, Nothing)
  end.

(** [p] computes [f] and leaves the locks as they were. *)
Definition implements {A} (p : prog A) (s : Scheduler) (L : gset Z) (y : Scheduler * A) : Prop :=
  p (s, L) = Some (y.2, (y.1, L)).

Lemma implements_map {A B} (p : prog A) s L y (f : A → B) :
  implements p s L y → implements (x ← p; mret (f x)) s L (y.1, f y.2).
Proof. unfold implements. intros E. by rewrite (run_then _ _ _ _ _ E). Qed.

Lemma block_runs s L : free s L → implements block_current s L (Scheduler.block_current s, tt).
Proof.
  intros [_ _ Hc]. unfold implements, block_current, Scheduler.block_current. run.
  destruct (current s) as [h|]; [|done]. specialize (Hc h eq_refl). by run.
Qed.

Lemma unblock_runs s L i : free s L → implements (unblock_task i) s L (Scheduler.unblock_task s i).
Proof.
  intros [_ Ha _]. unfold implements, unblock_task, Scheduler.unblock_task. rewrite find_then by done.
  destruct (Scheduler.find_task _ _) as [h|] eqn:E; [|done]. apply (found _ _ L) in E as [Hh _]; [|done]. by run.
Qed.

Lemma exit_runs s L code : free s L → implements (terminate_current code) s L (Scheduler.terminate_current s code).
Proof.
  intros F. unfold implements, terminate_current, Scheduler.terminate_current. run.
  destruct (current s) as [h|] eqn:Ec.
  - pose proof (free_current _ _ F h Ec) as Hh. run. apply schedule_runs. destruct F. split; try done.
  - run. apply schedule_runs. destruct F. split; try done.
Qed.

Lemma kill_runs s L i code : free s L → implements (terminate_task i code) s L (Scheduler.terminate_task s i code).
Proof.
  intros [Hq Ha _]. unfold implements, terminate_task, Scheduler.terminate_task.
  destruct (i <=? 2); [done|]. rewrite find_then by done.
  destruct (Scheduler.find_task _ _) as [h|] eqn:E; [|done]. apply (found _ _ L) in E as [Hh _]; [|done]. run.
  by rewrite (run_then _ _ _ _ _ (retain_runs i (ready_queue s) _ L Hq)).
Qed.

Lemma signal_runs s L i sg : free s L → implements (send_signal_to i sg) s L (Scheduler.send_signal_to s i sg).
Proof.
  intros [_ Ha _]. unfold implements, send_signal_to, Scheduler.send_signal_to. rewrite find_then by done.
  destruct (Scheduler.find_task _ _) as [h|] eqn:E; [|done]. apply (found _ _ L) in E as [Hh _]; [|done]. by run.
Qed.

Lemma background_runs s L i : free s L → implements (background_task i) s L (Scheduler.background_task s i).
Proof.
  intros [_ Ha _]. unfold implements, background_task, Scheduler.background_task. rewrite find_then by done.
  destruct (Scheduler.find_task _ _) as [h|] eqn:E; [|done].
  apply (found _ _ L) in E as (Hh & t & Ht); [|done]. run. rewrite Ht.
  by case_bool_decide; run.
Qed.

Lemma foreground_runs s L i : free s L → implements (foreground_task i) s L (Scheduler.foreground_task s i).
Proof.
  intros [_ Ha _]. unfold implements, foreground_task, Scheduler.foreground_task. rewrite find_then by done.
  destruct (Scheduler.find_task _ _) as [h|] eqn:E; [|done].
  apply (found _ _ L) in E as (Hh & t & Ht); [|done]. run. rewrite Ht.
  case_bool_decide; run; [done|]. cbn [modify set_arcs arcs]. rewrite lookup_alter_eq, Ht. cbn [fmap option_fmap option_map].
  cbn [foreground set_foreground]. rewrite bool_decide_eq_false_2 by done. run.
  unfold modify. cbn [fst snd]. by rewrite !(alter_insert_Some _ _ _ t Ht).
Qed.

Lemma info_runs s L i : free s L → implements (get_task_info i) s L (s, Scheduler.get_task_info s i).
Proof.
  intros [_ Ha _]. unfold implements, get_task_info, Scheduler.get_task_info. rewrite find_then by done.
  destruct (Scheduler.find_task _ _) as [h|] eqn:E; [|done].
  apply (found _ _ L) in E as (Hh & t & Ht); [|done]. run. by rewrite Ht; cbn; rewrite Ht.
Qed.

Lemma cleanup_all_runs s L : free s L → implements cleanup_terminated s L (Scheduler.cleanup_terminated s, tt).
Proof.
  intros [Hq Ha _]. unfold implements, cleanup_terminated. run.
  rewrite (run_then _ _ _ _ _ (terminated_runs _ s L Ha)). by apply cleanup_runs.
Qed.

Lemma free_none s : free s ∅.
Proof. split; unfold unlocked; set_solver. Qed.

(** C11. The operations of the scheduler, with the spin locks of the tasks taken and
    released where the source does, never wait for a lock of their own: when no task's
    lock is held at the start they finish, with the effect and the result of the
    atomic operation, and with the same locks held as before. *)
Theorem locked_operations_atomic o s L (Hfree : free s L) :
  with_locks o (s, L) = Some ((atomic o s).2, ((atomic o s).1, L)).
Proof.
  pose proof Hfree as [Hq Ha Hc].
  destruct o as [| |rsp| |i|code|i code|i signal|i|i|i| |]; cbn [with_locks atomic].
  - rewrite (run_then _ _ _ _ _ (tick_runs s L Hfree)). by destruct (Scheduler.tick s).
  - rewrite (run_then _ _ _ _ _ (schedule_runs s L Hfree)). by destruct (Scheduler.schedule s).
  - rewrite (run_then _ _ _ _ _ (preempt_runs s L rsp Hq Hc)). by destruct (Scheduler.preempt_schedule s rsp).
  - by rewrite (run_then _ _ _ _ _ (block_runs s L Hfree)).
  - rewrite (run_then _ _ _ _ _ (unblock_runs s L i Hfree)). by destruct (Scheduler.unblock_task s i).
  - rewrite (run_then _ _ _ _ _ (exit_runs s L code Hfree)). by destruct (Scheduler.terminate_current s code).
  - rewrite (run_then _ _ _ _ _ (kill_runs s L i code Hfree)). by destruct (Scheduler.terminate_task s i code).
  - rewrite (run_then _ _ _ _ _ (signal_runs s L i signal Hfree)). by destruct (Scheduler.send_signal_to s i signal).
  - rewrite (run_then _ _ _ _ _ (background_runs s L i Hfree)). by destruct (Scheduler.background_task s i).
  - rewrite (run_then _ _ _ _ _ (foreground_runs s L i Hfree)). by destruct (Scheduler.foreground_task s i).
  - by rewrite (run_then _ _ _ _ _ (info_runs s L i Hfree)).
  - unfold list_tasks. run. by rewrite (run_then _ _ _ _ _ (infos_runs _ s L Ha)).
  - by rewrite (run_then _ _ _ _ _ (cleanup_all_runs s L Hfree)).
Qed.

Lemma locked_operations_atomic_witness :
  with_locks (Kill 3 9) (trio.2, ∅) = Some (Done (Ok tt), ((Scheduler.terminate_task trio.2 3 9).1, ∅)).
Proof.
  rewrite (locked_operations_atomic (Kill 3 9) trio.2 ∅ (free_none _)). cbn [atomic].
  assert (E : (Scheduler.terminate_task trio.2 3 9).2 = Ok tt) by (vm_compute; reflexivity).
  destruct (Scheduler.terminate_task trio.2 3 9) as [s r]. cbn [fst snd] in *. rewrite E. reflexivity.
Defined.

(** ** The timer's handler and the code it interrupts *)

Lemma best_from_spins q idx b p s L h : h ∈ q → h ∈ L → best_from q idx b p (s, L) = None.
Proof.
  revert idx b p. induction q as [|h0 q IH]; intros idx b p Hq HL; [by apply elem_of_nil in Hq|].
  cbn [best_from]. destruct (decide (h0 ∈ L)) as [H0|H0]; [by rewrite lock_spins|]. run.
  apply elem_of_cons in Hq as [->|Hq]; [done|]. destruct (arcs s !! h0); [|by apply IH]. case_if; by apply IH.
Qed.

Lemma pick_spins s L h : h ∈ ready_queue s → h ∈ L → pick_next_task (s, L) = None.
Proof.
  intros Hq HL. unfold pick_next_task. run. destruct (ready_queue s) as [|h0 q] eqn:E; [by apply elem_of_nil in Hq|].
  apply run_spins. by apply (best_from_spins _ _ _ _ _ _ h).
Qed.

Lemma preempt_spins s L rsp h :
  preempt_enabled s = true → h ∈ L → current s = Some h ∨ h ∈ ready_queue s →
  preempt_schedule rsp (s, L) = None.
Proof.
  intros Hen HL Hh. unfold preempt_schedule. run. rewrite Hen. cbn [negb].
  destruct (current s) as [c|] eqn:Ec.
  - destruct (decide (c ∈ L)) as [Hc|Hc]; [rewrite run_assoc; by apply lock_spins|]. run. apply run_spins.
    destruct Hh as [[= ->]|Hh]; [done|]. apply (pick_spins _ _ h); [|done]. cbn. apply elem_of_app. by left.
  - run. apply run_spins. destruct Hh as [?|Hh]; [done|]. by apply (pick_spins _ _ h).
Qed.

(** C12. With preemption on, the handler of the timer waits for ever exactly when the
    code it interrupts holds the lock of the current task or of a task in the queue:
    it spins with interrupts disabled, and the holder does not run again. *)
Theorem timer_spins_iff s L rsp :
  preempt_schedule rsp (s, L) = None ↔
  preempt_enabled s = true ∧ ∃ h, h ∈ L ∧ (current s = Some h ∨ h ∈ ready_queue s).
Proof.
  split.
  - intros E. destruct (preempt_enabled s) eqn:Hen.
    2:{ unfold preempt_schedule in E. revert E. run. by rewrite Hen. }
    split; [done|]. destruct (decide (Exists (λ h, h ∈ L) (option_list (current s) ++ ready_queue s))) as [Hx|Hx].
    + apply Exists_exists in Hx as (h & Hin & HL). exists h. split; [done|].
      apply elem_of_app in Hin as [Hin|Hin]; [left|by right].
      destruct (current s) as [c|]; [|by apply elem_of_nil in Hin]. by apply list_elem_of_singleton in Hin as ->.
    + exfalso. rewrite Exists_exists in Hx. rewrite preempt_runs in E; [done|..].
      * intros h Hh HL. apply Hx. exists h. split; [|done]. apply elem_of_app. by right.
      * intros h Hh HL. apply Hx. exists h. split; [|done]. apply elem_of_app. left. rewrite Hh. by left.
  - intros (Hen & h & HL & Hh). by apply (preempt_spins s L rsp h).
Qed.

(** [list_tasks], which the shell's [ps] calls, holds the lock of each task in turn: the
    timer's interrupt at that moment, for a task that is ready or running, hangs the
    machine. *)
Theorem ps_interrupted_hangs g s h t l1 l2 rsp
    (Hr : reachable (g, s)) (Hen : preempt_enabled s = true) (Hall : all_tasks s = l1 ++ h :: l2)
    (Ht : arcs s !! h = Some t) (Hst : state t = Ready ∨ state t = Running) :
  (infos l1 ≫= λ _, lock h) (s, ∅) = Some (tt, (s, {[h]})) ∧
  preempt_schedule rsp (s, {[h]}) = None.
Proof.
  apply sched_reachable_inv in Hr as [Hinv _]. cbn [fst snd] in Hinv. split.
  - rewrite (run_then _ _ _ _ _ (infos_runs l1 s ∅ ltac:(unfold unlocked; set_solver))).
    unfold lock. cbn [fst snd]. rewrite decide_False by set_solver. by rewrite (right_id_L ∅ (∪)).
  - apply (preempt_spins s _ rsp h Hen); [set_solver|].
    destruct Hst as [Hst|Hst]; [right; by apply (inv_queue _ _ _ _ _ _ Hinv h t)|left].
    by apply (inv_running _ _ _ _ _ _ Hinv h t).
Qed.

Lemma ps_interrupted_hangs_witness :
  (infos [] ≫= λ _, lock 0) (trio.2, ∅) = Some (tt, (trio.2, {[0]})) ∧
  preempt_schedule 0x8000 (trio.2, {[0]}) = None.
Proof.
  destruct (arcs trio.2 !! 0) as [t|] eqn:Et; [|exfalso; revert Et; vm_compute; discriminate].
  apply (ps_interrupted_hangs trio.1 trio.2 0 t [] [1; 2] 0x8000 trio_reachable).
  - vm_compute. reflexivity.
  - vm_compute. reflexivity.
  - exact Et.
  - right. revert Et. vm_compute. intros [= <-]. reflexivity.
Defined.

End Locks.
