(* ===== verification/Console.v ===== *)
(** * The text console and the serial port (src/lib.rs)

    The 80x25 text screen at 0xB8000 as a map from cell numbers to 16-bit
    cells, with the cursor and the colour of [KERNEL_STATE], and the bytes sent
    to the first serial port.  Everything printed goes to both. *)

From stdpp Require Import base numbers list gmap strings.
From S2P Require Import Prelude.
Open Scope Z_scope.

Module Console.

Definition VGA_W : Z := 80.
Definition VGA_H : Z := 25.

Record Console := mkConsole {
  cells : gmap Z Z;
  vga_row : Z;
  vga_col : Z;
  vga_color : Z;
  serial : list Z
}.

Definition Console_new : Console := mkConsole ∅ 0 0 0x0F [].

(** The byte [b] in the current colour. *)
Definition cell_of (b color : Z) : Z := Z.lor b (Z.shiftl color 8).

(** [core::ptr::read_volatile(VGA_BUF.offset(i))]. *)
Definition cell (c : gmap Z Z) (i : Z) : Z := default 0 (c !! i).

(** The two loops that scroll the screen by one row. *)
Definition scroll_up (c : gmap Z Z) : gmap Z Z :=
  for_each 1 VGA_H (λ row c,
    for_each 0 VGA_W (λ col c,
      <[(row - 1) * VGA_W + col := cell c (row * VGA_W + col)]> c) c) c.

Definition blank_last (c : gmap Z Z) : gmap Z Z :=
  for_each 0 VGA_W (λ col c, <[(VGA_H - 1) * VGA_W + col := 0x0F20]> c) c.

(** The body of the loop of [vga_print]. *)
Definition vga_put (s : Console) (b : Z) : Console :=
  let s :=
    if b =? 10 then mkConsole (cells s) (vga_row s + 1) 0 (vga_color s) (serial s)
    else
      let offset := vga_row s * VGA_W + vga_col s in
      let c := <[offset := cell_of b (vga_color s)]> (cells s) in
      let col := vga_col s + 1 in
      if VGA_W <=? col then mkConsole c (vga_row s + 1) 0 (vga_color s) (serial s)
      else mkConsole c (vga_row s) col (vga_color s) (serial s) in
  if VGA_H <=? vga_row s then
    mkConsole (blank_last (scroll_up (cells s))) (VGA_H - 1) 0 (vga_color s) (serial s)
  else s.

(** [serial_print]: each byte is sent once the transmitter is empty. *)
Definition serial_print (msg : list Z) (s : Console) : Console :=
  mkConsole (cells s) (vga_row s) (vga_col s) (vga_color s) (serial s ++ msg).

Definition vga_print (s : Console) (msg : list Z) : Console :=
  serial_print msg (foldl vga_put s msg).

Definition vga_print_char (s : Console) (b : Z) : Console := vga_print s [b].

Definition vga_set_color (fg bg : Z) (s : Console) : Console :=
  mkConsole (cells s) (vga_row s) (vga_col s) (Z.lor (wrap 8 (Z.shiftl bg 4)) fg) (serial s).

Definition vga_clear (s : Console) : Console :=
  mkConsole (for_each 0 (VGA_W * VGA_H) (λ i c, <[i := 0x0F20]> c) (cells s)) 0 0
    (vga_color s) (serial s).

(** ** Scrolling *)

Lemma cell_insert c i v j : cell (<[i := v]> c) j = if decide (i = j) then v else cell c j.
Proof. unfold cell. rewrite lookup_insert. by case_decide. Qed.

(** The rows before [r] hold what was one row further down. *)
Lemma scroll_up_row c r :
  1 ≤ r → 
  let c' := for_each 0 VGA_W (λ col c, <[(r - 1) * VGA_W + col := cell c (r * VGA_W + col)]> c) c in
  ∀ i, cell c' i = if decide ((r - 1) * VGA_W ≤ i < (r - 1) * VGA_W + VGA_W) then cell c (i + VGA_W) else cell c i.
Proof.
  intros Hr. unfold VGA_W.
  apply (for_each_rule (λ n c', ∀ i, cell c' i =
    if decide ((r - 1) * 80 ≤ i < (r - 1) * 80 + n) then cell c (i + 80) else cell c i)
    0 80) with (s := c); [lia| |].
  - intros i. by rewrite decide_False by lia.
  - intros n c' Hn Hc' i. rewrite cell_insert, !Hc'.
    rewrite (decide_False (P := (r - 1) * 80 ≤ r * 80 + n < _)) by lia.
    destruct (decide ((r - 1) * 80 + n = i)) as [<-|].
    + rewrite decide_True by lia. f_equal. lia.
    + destruct (decide ((r - 1) * 80 ≤ i < (r - 1) * 80 + n)).
      * by rewrite decide_True by lia.
      * by rewrite decide_False by lia.
Qed.

Lemma scroll_up_spec c i :
  cell (scroll_up c) i =
    if decide (0 ≤ i < (VGA_H - 1) * VGA_W) then cell c (i + VGA_W) else cell c i.
Proof.
  revert i. unfold scroll_up, VGA_H.
  apply (for_each_rule (λ r c', ∀ i, cell c' i =
    if decide (0 ≤ i < (r - 1) * VGA_W) then cell c (i + VGA_W) else cell c i) 1 25)
    with (s := c); [lia| |].
  - intros i. by rewrite decide_False by lia.
  - intros r c' Hr Hc' i. rewrite scroll_up_row, !Hc' by lia. unfold VGA_W in *.
    destruct (decide ((r - 1) * 80 ≤ i < (r - 1) * 80 + 80)).
    + rewrite decide_False by lia. by rewrite decide_True by lia.
    + destruct (decide (0 ≤ i < (r - 1) * 80)).
      * by rewrite decide_True by lia.
      * by rewrite decide_False by lia.
Qed.

Lemma blank_last_spec c i :
  cell (blank_last c) i =
    if decide ((VGA_H - 1) * VGA_W ≤ i < (VGA_H - 1) * VGA_W + VGA_W) then 0x0F20 else cell c i.
Proof.
  revert i. unfold blank_last, VGA_H, VGA_W.
  apply (for_each_rule (λ n c', ∀ i, cell c' i =
    if decide ((25 - 1) * 80 ≤ i < (25 - 1) * 80 + n) then 0x0F20 else cell c i) 0 80)
    with (s := c); [lia| |].
  - intros i. by rewrite decide_False by lia.
  - intros n c' Hn Hc' i. rewrite cell_insert, Hc'.
    destruct (decide ((25 - 1) * 80 + n = i)) as [<-|].
    + by rewrite decide_True by lia.
    + destruct (decide ((25 - 1) * 80 ≤ i < (25 - 1) * 80 + n)).
      * by rewrite decide_True by lia.
      * by rewrite decide_False by lia.
Qed.

(** ** The cursor stays on the screen *)

Definition on_screen (s : Console) : Prop := 0 ≤ vga_row s < VGA_H ∧ 0 ≤ vga_col s < VGA_W.

(** Whether printing [b] moves past the last row. *)
Definition scrolls (s : Console) (b : Z) : bool :=
  (vga_row s =? VGA_H - 1) && ((b =? 10) || (vga_col s =? VGA_W - 1)).

(** The screen with [b] written at the cursor; a newline writes nothing. *)
Definition written (s : Console) (b i : Z) : Z :=
  if negb (b =? 10) && (i =? vga_row s * VGA_W + vga_col s)
  then cell_of b (vga_color s) else cell (cells s) i.

Lemma vga_put_spec s b :
  on_screen s →
  on_screen (vga_put s b) ∧ vga_color (vga_put s b) = vga_color s ∧
  serial (vga_put s b) = serial s ∧
  ∀ i, cell (cells (vga_put s b)) i =
    if scrolls s b && inrange 0 (VGA_H * VGA_W) i
    then if i <? (VGA_H - 1) * VGA_W then written s b (i + VGA_W) else 0x0F20
    else written s b i.
Proof.
  intros [Hr Hc]. unfold vga_put, on_screen, scrolls, written, VGA_H, VGA_W in *.
  set (c1 := if b =? 10 then cells s else <[vga_row s * 80 + vga_col s := cell_of b (vga_color s)]> (cells s)).
  assert (Hc1 : ∀ i, cell c1 i = if negb (b =? 10) && (i =? vga_row s * 80 + vga_col s)
    then cell_of b (vga_color s) else cell (cells s) i).
  { intros i. unfold c1. destruct (b =? 10); [done|]. simpl. rewrite cell_insert.
    destruct (i =? vga_row s * 80 + vga_col s) eqn:E; break_cmp.
    - by rewrite decide_True.
    - by rewrite decide_False by lia. }
  set (nl := (b =? 10) || (vga_col s =? 79)).
  set (s1 := if b =? 10 then _ else _).
  assert (Hs1 : s1 = mkConsole c1 (if nl then vga_row s + 1 else vga_row s)
    (if nl then 0 else vga_col s + 1) (vga_color s) (serial s)).
  { unfold s1, c1, nl. destruct (b =? 10); [done|]. simpl.
    destruct (80 <=? vga_col s + 1) eqn:E, (vga_col s =? 79) eqn:E'; break_cmp; try lia; done. }
  rewrite Hs1. cbn [vga_row cells vga_color serial vga_col]. change (25 - 1) with 24.
  change (80 - 1) with 79. fold nl. clear Hs1 s1.
  assert (Hnl : nl = false → vga_col s + 1 < 80) by (unfold nl; intros; break_cmp; lia).
  clearbody nl. destruct (vga_row s =? 24) eqn:E24, nl; break_cmp; cbn [andb].
  1: replace (25 <=? vga_row s + 1) with true by (symmetry; apply Z.leb_le; lia).
  2: replace (25 <=? vga_row s) with false by (symmetry; apply Z.leb_gt; lia).
  3: replace (25 <=? vga_row s + 1) with false by (symmetry; apply Z.leb_gt; lia).
  4: replace (25 <=? vga_row s) with false by (symmetry; apply Z.leb_gt; lia).
  all: cbn [vga_row vga_col vga_color serial cells]; split; [lia|]; split; [done|]; split; [done|].
  2-4: intros i; apply Hc1.
  intros i. rewrite blank_last_spec, scroll_up_spec, !Hc1. unfold VGA_H, VGA_W, inrange.
  destruct (0 <=? i) eqn:E0, (i <? 25 * 80) eqn:E1, (i <? 24 * 80) eqn:E2; break_cmp; cbn [andb];
    try (rewrite decide_True by lia; done); try lia.
  all: rewrite decide_False by lia; try (rewrite decide_True by lia; done).
  all: by rewrite decide_False by lia.
Qed.

Lemma vga_print_spec s msg :
  on_screen s →
  on_screen (foldl vga_put s msg) ∧ serial (foldl vga_put s msg) = serial s ∧
  ∀ i, ¬ 0 ≤ i < VGA_H * VGA_W → cell (cells (foldl vga_put s msg)) i = cell (cells s) i.
Proof.
  revert s. induction msg as [|b msg IH]; intros s Hs; [done|].
  destruct (vga_put_spec s b Hs) as (Hs1 & _ & Hser & Hc). simpl.
  destruct (IH _ Hs1) as (Hs2 & Hser2 & Hc2). split; [done|]. split; [by rewrite Hser2|].
  intros i Hi. rewrite Hc2, Hc by done.
  replace (inrange 0 (VGA_H * VGA_W) i) with false by (symmetry; by apply inrange_false).
  rewrite andb_false_r. unfold written.
  destruct (i =? vga_row s * VGA_W + vga_col s) eqn:E; [|by rewrite andb_false_r].
  break_cmp. destruct Hs. unfold VGA_H, VGA_W in *. lia.
Qed.

(** What is printed goes to the serial line. *)
Lemma vga_put_serial s b : serial (vga_put s b) = serial s.
Proof. unfold vga_put. cbv zeta. repeat (case_match; simpl in *; try done). Qed.

Lemma vga_print_sends s msg : serial (vga_print s msg) = serial s ++ msg.
Proof.
  unfold vga_print, serial_print. cbn [serial]. f_equal.
  revert s. induction msg as [|b msg IH]; intros s; [done|]. simpl. by rewrite IH, vga_put_serial.
Qed.

Lemma vga_print_serial s msg :
  on_screen s → on_screen (vga_print s msg) ∧ serial (vga_print s msg) = serial s ++ msg.
Proof.
  intros Hs. destruct (vga_print_spec s msg Hs) as (H1 & H2 & _).
  split; [exact H1|]. unfold vga_print, serial_print. cbn [serial]. by rewrite H2.
Qed.

(** C37. Whatever is printed, the cursor stays on the screen, no store goes
    outside its 80x25 cells, and the serial port receives exactly the bytes
    printed. *)
Theorem vga_print_contained s msg (Hs : on_screen s) :
  on_screen (vga_print s msg) ∧ serial (vga_print s msg) = serial s ++ msg ∧
  ∀ i, ¬ 0 ≤ i < VGA_H * VGA_W → cell (cells (vga_print s msg)) i = cell (cells s) i.
Proof.
  destruct (vga_print_spec s msg Hs) as (H1 & H2 & H3). unfold vga_print, serial_print.
  split; [exact H1|]. split; [cbn [serial]; by rewrite H2|exact H3].
Qed.

Lemma vga_print_contained_witness :
  on_screen (vga_print Console_new (replicate 2000 65)) ∧
  vga_row (vga_print Console_new (replicate 2000 65)) = 24.
Proof.
  split; [|vm_compute; reflexivity].
  apply (vga_print_contained Console_new (replicate 2000 65)).
  vm_compute. split; split; congruence.
Defined.

(** A byte other than newline appears at the cursor in the current colour,
    and nothing else changes, except that a step past the last row moves every
    row up by one and leaves the last one blank. *)
Theorem vga_put_exact s b (Hs : on_screen s) :
  ∀ i, 0 ≤ i < VGA_H * VGA_W →
  cell (cells (vga_put s b)) i =
    if scrolls s b
    then if i <? (VGA_H - 1) * VGA_W then written s b (i + VGA_W) else 0x0F20
    else written s b i.
Proof.
  intros i Hi. destruct (vga_put_spec s b Hs) as (_ & _ & _ & ->).
  replace (inrange 0 (VGA_H * VGA_W) i) with true by (symmetry; by apply inrange_true).
  by rewrite andb_true_r.
Qed.

Lemma vga_put_exact_witness :
  cell (cells (vga_put (mkConsole ∅ 24 79 0x0F []) 65)) 1919 = 0x0F41.
Proof.
  rewrite (vga_put_exact (mkConsole ∅ 24 79 0x0F []) 65).
  - vm_compute. reflexivity.
  - vm_compute. split; split; congruence.
  - vm_compute. split; congruence.
Defined.

End Console.
