(* ===== verification/Arch.v ===== *)
(** * Descriptor tables (src/arch/gdt.rs, src/arch/idt.rs, boot/long_mode.asm)

    The gates and segment descriptors the kernel builds, field by field, and
    the tables it loads.  The addresses of assembly labels and statics come
    from the linker and are parameters. *)

From stdpp Require Import base numbers list gmap.
From S2P Require Import Prelude.
Open Scope Z_scope.

Module Idt.

Definition IDT_ENTRIES : Z := 256.

Record IdtEntry := mkGate {
  offset_low : Z;
  selector : Z;
  ist : Z;
  attributes : Z;
  offset_middle : Z;
  offset_high : Z;
  reserved : Z
}.

Definition IdtEntry_default : IdtEntry := mkGate 0 0 0 0 0 0 0.

Definition IDT_PRESENT : Z := 0x80.
Definition IDT_INTERRUPT_GATE : Z := 0x0E.
Definition IDT_TRAP_GATE : Z := 0x0F.
Definition IDT_DPL_KERNEL : Z := 0x00.
Definition IDT_DPL_USER : Z := 0x60.

Definition set_handler (idt : list IdtEntry) (vector handler_addr attrs : Z) : list IdtEntry :=
  if IDT_ENTRIES <=? vector then idt
  else
    <[Z.to_nat vector :=
        mkGate (wrap 16 (Z.land handler_addr 0xFFFF)) 0x08 0 attrs
          (wrap 16 (Z.land (Z.shiftr handler_addr 16) 0xFFFF))
          (wrap 32 (Z.land (Z.shiftr handler_addr 32) 0xFFFFFFFF)) 0]> idt.

Definition kernel_gate : Z := Z.lor (Z.lor IDT_PRESENT IDT_INTERRUPT_GATE) IDT_DPL_KERNEL.
Definition user_gate : Z := Z.lor (Z.lor IDT_PRESENT IDT_TRAP_GATE) IDT_DPL_USER.

Definition set_isr_handler (idt : list IdtEntry) (vector handler_addr : Z) : list IdtEntry :=
  set_handler idt vector handler_addr kernel_gate.
Definition set_user_handler (idt : list IdtEntry) (vector handler_addr : Z) : list IdtEntry :=
  set_handler idt vector handler_addr user_gate.

Section Init.
(** [isr n] is the address of the label [isr<n>], which pushes [n]. *)
Context (isr : Z → Z) (timer_isr spurious_isr : Z).

(** [isr_stub_table]: [isr0] to [isr47], then [isr128]. *)
Definition isr_stub_table : list Z := (isr <$> seqZ 0 48) ++ [isr 128].

Definition stub (i : Z) : Z := default 0 (isr_stub_table !! Z.to_nat i).

(** The table before [lidt]. *)
Definition init_gates : list IdtEntry :=
  let idt := replicate 256 IdtEntry_default in
  let idt := for_each 0 32 (λ i idt, set_handler idt i (stub i) kernel_gate) idt in
  let idt := set_handler idt 32 timer_isr kernel_gate in
  let idt := for_each 33 48 (λ i idt, set_handler idt i (stub (i - 1)) kernel_gate) idt in
  let idt := set_handler idt 0x80 (stub 48) user_gate in
  set_handler idt 0xFF spurious_isr kernel_gate.

(** The table, which is the static at [base], and the limit and base [lidt]
    loads. *)
Definition init (base : Z) : list IdtEntry * (Z * Z) :=
  (init_gates, (wrap 16 (Z.of_nat (length init_gates) * 16 - 1), base)).
End Init.

(** The address the processor jumps to. *)
Definition gate_offset (e : IdtEntry) : Z :=
  offset_low e + Z.shiftl (offset_middle e) 16 + Z.shiftl (offset_high e) 32.

Lemma gate_offset_set addr attrs :
  0 ≤ addr < 2 ^ 64 →
  gate_offset (mkGate (wrap 16 (Z.land addr 0xFFFF)) 0x08 0 attrs
    (wrap 16 (Z.land (Z.shiftr addr 16) 0xFFFF))
    (wrap 32 (Z.land (Z.shiftr addr 32) 0xFFFFFFFF)) 0) = addr.
Proof.
  intros Ha. unfold gate_offset. cbn [offset_low offset_middle offset_high].
  change 0xFFFF with (Z.ones 16). change 0xFFFFFFFF with (Z.ones 32).
  rewrite !Z.land_ones, !Z.shiftr_div_pow2, !Z.shiftl_mul_pow2 by lia. unfold wrap.
  rewrite !Zmod_mod. change (2 ^ 16) with 65536. change (2 ^ 32) with 4294967296.
  change (2 ^ 64) with 18446744073709551616 in Ha. dlia.
Qed.

Lemma set_handler_length idt v a f : length (set_handler idt v a f) = length idt.
Proof. unfold set_handler. case_if; [done|]. apply length_insert. Qed.

(** What a gate leads to, and with which attributes. *)
Definition gate (idt : list IdtEntry) (v : Z) : option (Z * Z) :=
  e ← idt !! Z.to_nat v;
  if attributes e =? 0 then None else Some (gate_offset e, attributes e).

Lemma gate_set idt v a f w :
  length idt = 256%nat → 0 ≤ v < 256 → 0 ≤ w < 256 → 0 ≤ a < 2 ^ 64 → f ≠ 0 →
  gate (set_handler idt v a f) w = if v =? w then Some (a, f) else gate idt w.
Proof.
  intros Hl Hv Hw Ha Hf. unfold gate, set_handler, IDT_ENTRIES.
  replace (256 <=? v) with false by (symmetry; apply Z.leb_gt; lia).
  destruct (v =? w) eqn:E; break_cmp.
  - subst w. rewrite list_lookup_insert_eq by lia. cbn [mbind option_bind attributes].
    rewrite (proj2 (Z.eqb_neq _ _)) by done. by rewrite gate_offset_set.
  - rewrite list_lookup_insert_ne by lia. done.
Qed.

(** A loop that fills the gates [lo..hi]. *)
Lemma gate_fill idt lo hi h f w :
  length idt = 256%nat → 0 ≤ lo ≤ hi → hi ≤ 256 → 0 ≤ w < 256 → f ≠ 0 →
  (∀ i, 0 ≤ h i < 2 ^ 64) →
  let idt' := for_each lo hi (λ i idt, set_handler idt i (h i) f) idt in
  length idt' = 256%nat ∧
  gate idt' w = if inrange lo hi w then Some (h w, f) else gate idt w.
Proof.
  intros Hl Hlo Hhi Hw Hf Hh.
  apply (for_each_rule (λ n x, length x = 256%nat ∧
    gate x w = if inrange lo n w then Some (h w, f) else gate idt w)); [lia| |].
  - split; [done|]. replace (inrange lo lo w) with false; [done|].
    symmetry. apply inrange_false. lia.
  - intros i x Hi [Hx Hg]. rewrite set_handler_length. split; [done|].
    rewrite gate_set by (done || lia). destruct (i =? w) eqn:E; break_cmp.
    + subst i. by replace (inrange lo (w + 1) w) with true
        by (symmetry; apply inrange_true; lia).
    + rewrite Hg. replace (inrange lo (i + 1) w) with (inrange lo i w); [done|].
      apply eq_true_iff_eq. rewrite !inrange_true. lia.
Qed.

Lemma stub_low isr i : 0 ≤ i < 48 → stub isr i = isr i.
Proof.
  intros Hi. unfold stub, isr_stub_table.
  rewrite lookup_app_l by (rewrite length_fmap, length_seqZ; lia).
  rewrite list_lookup_fmap, lookup_seqZ_lt by lia. simpl. f_equal. lia.
Qed.

Lemma stub_48 isr : stub isr 48 = isr 128.
Proof. done. Qed.

(** The order in which the table is filled, against the order of the ranges. *)
Lemma dispatch_cases {A} (f g : Z → A) (kg ug : Z) t y s v :
  0 ≤ v < 256 → (∀ i, 0 ≤ i < 48 → f i = g i) →
  (if 255 =? v then Some (s, kg) else if 128 =? v then Some (y, ug)
   else if inrange 33 48 v then Some (f (v - 1), kg) else if 32 =? v then Some (t, kg)
   else if inrange 0 32 v then Some (f v, kg) else None) =
  (if v <? 32 then Some (g v, kg) else if v =? 32 then Some (t, kg)
   else if v <? 48 then Some (g (v - 1), kg) else if v =? 128 then Some (y, ug)
   else if v =? 255 then Some (s, kg) else None).
Proof.
  intros Hv Hf. unfold inrange.
  destruct (Z.ltb_spec v 32); [|destruct (Z.eqb_spec v 32); [|destruct (Z.ltb_spec v 48);
    [|destruct (Z.eqb_spec v 128); [|destruct (Z.eqb_spec v 255)]]]].
  all: repeat match goal with
    | |- context [?a =? ?b] => destruct (Z.eqb_spec a b); try lia
    | |- context [?a <=? ?b] => destruct (Z.leb_spec a b); try lia
    | |- context [?a <? ?b] => destruct (Z.ltb_spec a b); try lia
    end; simpl; rewrite ?Hf by lia; done.
Qed.

(** The gates of the table. *)
Lemma idt_gates isr timer spurious base v
    (Hisr : ∀ i, 0 ≤ isr i < 2 ^ 64) (Ht : 0 ≤ timer < 2 ^ 64) (Hs : 0 ≤ spurious < 2 ^ 64)
    (Hv : 0 ≤ v < 256) :
  gate (init isr timer spurious base).1 v =
    if v <? 32 then Some (isr v, kernel_gate)
    else if v =? 32 then Some (timer, kernel_gate)
    else if v <? 48 then Some (isr (v - 1), kernel_gate)
    else if v =? 0x80 then Some (isr 128, user_gate)
    else if v =? 0xFF then Some (spurious, kernel_gate)
    else None.
Proof.
  assert (Hstub : ∀ i, 0 ≤ stub isr i < 2 ^ 64).
  { intros i. unfold stub. destruct (isr_stub_table isr !! Z.to_nat i) as [a|] eqn:E; [|simpl; lia].
    apply list_elem_of_lookup_2 in E. unfold isr_stub_table in E.
    apply elem_of_app in E as [(? & -> & _)%list_elem_of_fmap| ->%list_elem_of_singleton];
      apply Hisr. }
  assert (Hk : kernel_gate ≠ 0 ∧ user_gate ≠ 0) by done. destruct Hk as [Hk Hu].
  assert (H0 : ∀ w, gate (replicate 256 IdtEntry_default) w = None).
  { intros w. unfold gate. destruct (replicate _ _ !! _) as [e|] eqn:E; [|done].
    apply lookup_replicate in E as [-> _]. done. }
  unfold init, init_gates. cbv zeta. cbn [fst].
  assert (L0 : length (replicate 256 IdtEntry_default) = 256%nat) by apply length_replicate.
  specialize (H0 v). generalize dependent (replicate 256 IdtEntry_default). intros i0 H0 L0.
  destruct (gate_fill i0 0 32 (stub isr) kernel_gate v L0 ltac:(lia) ltac:(lia) Hv Hk Hstub)
    as [L1 G1].
  generalize dependent (for_each 0 32 (λ i idt, set_handler idt i (stub isr i) kernel_gate) i0).
  intros i1 L1 G1.
  pose proof (set_handler_length i1 32 timer kernel_gate) as L2.
  pose proof (gate_set i1 32 timer kernel_gate v L1 ltac:(lia) Hv Ht Hk) as G2.
  rewrite L1 in L2. generalize dependent (set_handler i1 32 timer kernel_gate). intros i2 L2 G2.
  destruct (gate_fill i2 33 48 (λ i, stub isr (i - 1)) kernel_gate v L2 ltac:(lia) ltac:(lia) Hv Hk
    (λ i, Hstub (i - 1))) as [L3 G3].
  generalize dependent
    (for_each 33 48 (λ i idt, set_handler idt i (stub isr (i - 1)) kernel_gate) i2).
  intros i3 L3 G3.
  assert (L4 : length (set_handler i3 0x80 (stub isr 48) user_gate) = 256%nat)
    by (by rewrite set_handler_length).
  rewrite (gate_set _ _ _ _ _ L4), (gate_set _ _ _ _ _ L3) by (auto || lia).
  rewrite G3, G2, G1, H0, stub_48. apply dispatch_cases; [done|]. intros; apply stub_low; lia.
Qed.

(** The interrupt table: exceptions 0 to 31 lead to the stub of their own
    number, 32 to the timer's handler, 0x80 to the system call stub, callable
    from user mode, and 0xFF to the spurious handler.  But each of the hardware
    interrupts 33 to 47 leads to the stub of the number below its own, so that
    the keyboard's interrupt is handled with the vector of the timer. *)
Theorem idt_dispatch isr timer spurious base v
    (Hisr : ∀ i, 0 ≤ isr i < 2 ^ 64) (Ht : 0 ≤ timer < 2 ^ 64) (Hs : 0 ≤ spurious < 2 ^ 64)
    (Hv : 0 ≤ v < 256) :
  gate (init isr timer spurious base).1 v =
    if v <? 32 then Some (isr v, kernel_gate)
    else if v =? 32 then Some (timer, kernel_gate)
    else if v <? 48 then Some (isr (v - 1), kernel_gate)
    else if v =? 0x80 then Some (isr 128, user_gate)
    else if v =? 0xFF then Some (spurious, kernel_gate)
    else None.
Proof. by apply idt_gates. Qed.

Lemma idt_dispatch_witness :
  gate (init (λ i, 0x100000 + 16 * i) 0x200000 0x200100 0x300000).1 33 = Some (0x100000 + 16 * 32, kernel_gate).
Proof.
  assert (Hb : ∀ i : Z, 0 ≤ (0x100000 + 16 * (i mod 256)) < 2 ^ 64)
    by (intros i; pose proof (Z.mod_pos_bound i 256); lia).
  pose proof (idt_dispatch (λ i, 0x100000 + 16 * (i mod 256)) 0x200000 0x200100 0x300000 33 Hb
    ltac:(lia) ltac:(lia) ltac:(lia)) as H1.
  vm_compute in H1 |- *. exact H1.
Defined.

End Idt.

Module Gdt.

Record GdtEntry := mkSegment {
  limit_low : Z;
  base_low : Z;
  base_middle : Z;
  access : Z;
  flags_limit_high : Z;
  base_high : Z
}.

Record Tss := mkTss {
  reserved0 : Z;
  rsp : list Z;
  reserved1 : Z;
  ist : list Z;
  reserved2 : Z;
  reserved3 : Z;
  iomap_base : Z
}.

(** The alignment and the size in bytes of the fields of [Tss], in order, and
    the offsets [repr(C)] gives them. *)
Definition Tss_fields : list (Z * Z) :=
  [(4, 4); (8, 24); (8, 8); (8, 56); (8, 8); (2, 2); (2, 2)].

Definition align_up (n a : Z) : Z := (n + a - 1) / a * a.

Fixpoint repr_c (at_ : Z) (fields : list (Z * Z)) : list Z * Z :=
  match fields with
  | [] => ([], at_)
  | (a, size) :: rest =>
      let here := align_up at_ a in
      let '(offs, stop) := repr_c (here + size) rest in
      (here :: offs, stop)
  end.

Definition Tss_offsets : list Z := (repr_c 0 Tss_fields).1.
Definition size_of_Tss : Z := align_up (repr_c 0 Tss_fields).2 16.

Definition create_null_entry : GdtEntry := mkSegment 0 0 0 0 0 0.
Definition create_code_entry (dpl : Z) : GdtEntry :=
  mkSegment 0 0 0 (Z.lor 0x9A (wrap 8 (Z.shiftl dpl 5))) 0x20 0.
Definition create_data_entry (dpl : Z) : GdtEntry :=
  mkSegment 0 0 0 (Z.lor 0x92 (wrap 8 (Z.shiftl dpl 5))) 0 0.
Definition create_tss_entry_low (base limit : Z) : GdtEntry :=
  mkSegment limit (wrap 16 (Z.land base 0xFFFF))
    (wrap 8 (Z.land (Z.shiftr base 16) 0xFF)) 0x89 0
    (wrap 8 (Z.land (Z.shiftr base 24) 0xFF)).
Definition create_tss_entry_high (base : Z) : GdtEntry :=
  mkSegment (wrap 16 (Z.land (Z.shiftr base 32) 0xFFFF))
    (wrap 16 (Z.land (Z.shiftr base 48) 0xFFFF)) 0 0 0 0.

Definition TSS : Tss :=
  mkTss 0 (replicate 3 0) 0 (replicate 7 0) 0 0 (Z.land size_of_Tss 0xFFFF).

Definition set_kernel_stack (tss : Tss) (stack : Z) : Tss :=
  mkTss (reserved0 tss) (<[0%nat := stack]> (rsp tss)) (reserved1 tss) (ist tss)
    (reserved2 tss) (reserved3 tss) (iomap_base tss).

(** [tss_base] is the address of the static, [stack_top] the linker's
    [_kernel_stack_top]; the result is the table [lgdt] loads, its limit, and
    the task state segment. *)
Definition init (tss_base stack_top : Z) : list GdtEntry * Z * Tss :=
  let tss_limit := wrap 16 (size_of_Tss - 1) in
  let gdt :=
    [create_null_entry; create_code_entry 0; create_data_entry 0;
     create_code_entry 3; create_data_entry 3;
     create_tss_entry_low tss_base tss_limit; create_tss_entry_high tss_base] in
  let tss := set_kernel_stack TSS stack_top in
  let tss := mkTss (reserved0 tss) (rsp tss) (reserved1 tss) (ist tss)
    (reserved2 tss) (reserved3 tss) (Z.land size_of_Tss 0xFFFF) in
  (gdt, wrap 16 (Z.of_nat (length gdt) * 8 - 1), tss).

(** What the processor reads of a descriptor: the base of a segment, the
    privilege level, and the base of a system segment, which takes two slots. *)
Definition segment_base (e : GdtEntry) : Z :=
  base_low e + Z.shiftl (base_middle e) 16 + Z.shiftl (base_high e) 24.
Definition segment_dpl (e : GdtEntry) : Z := Z.land (Z.shiftr (access e) 5) 3.
Definition segment_present (e : GdtEntry) : bool := Z.testbit (access e) 7.
Definition system_base (lo hi : GdtEntry) : Z :=
  segment_base lo + Z.shiftl (limit_low hi + Z.shiftl (base_low hi) 16) 32.

(** The selectors of the rest of the kernel, as table indices and levels. *)
Definition selects (gdt : list GdtEntry) (sel dpl : Z) (code : bool) : Prop :=
  ∃ e, gdt !! Z.to_nat (Z.shiftr sel 3) = Some e ∧ segment_present e = true ∧
    segment_dpl e = dpl ∧ Z.testbit (access e) 3 = code.

Lemma tss_base_roundtrip base limit :
  0 ≤ base < 2 ^ 64 →
  system_base (create_tss_entry_low base limit) (create_tss_entry_high base) = base.
Proof.
  intros Hb. unfold system_base, segment_base, create_tss_entry_low, create_tss_entry_high.
  cbn [limit_low base_low base_middle base_high].
  change 0xFFFF with (Z.ones 16). change 0xFF with (Z.ones 8).
  rewrite !Z.land_ones, !Z.shiftr_div_pow2, !Z.shiftl_mul_pow2 by lia. unfold wrap.
  rewrite !Zmod_mod. change (2 ^ 16) with 65536. change (2 ^ 24) with 16777216.
  change (2 ^ 8) with 256. change (2 ^ 32) with 4294967296.
  change (2 ^ 48) with 281474976710656. change (2 ^ 64) with 18446744073709551616 in Hb. dlia.
Qed.

(** The segment table: the kernel's selectors 0x08 and 0x10 name a present
    code and data segment of level 0, 0x18 and 0x20 the user's of level 3, the
    limit covers exactly the seven slots, and the two slots at 0x28 decode to the
    address of the task state segment.  But the compiler lays the segment out
    with its stack pointer at offset 8, and not at offset 4 where the processor
    reads it. *)
Theorem gdt_layout tss_base stack_top (Hb : 0 ≤ tss_base < 2 ^ 64) :
  let '(gdt, limit, tss) := init tss_base stack_top in
  selects gdt 0x08 0 true ∧ selects gdt 0x10 0 false ∧
  selects gdt 0x18 3 true ∧ selects gdt 0x20 3 false ∧
  limit = 55 ∧ rsp tss = [stack_top; 0; 0] ∧ iomap_base tss = size_of_Tss ∧
  (∃ lo hi, gdt !! 5%nat = Some lo ∧ gdt !! 6%nat = Some hi ∧
    segment_present lo = true ∧ limit_low lo = size_of_Tss - 1 ∧ system_base lo hi = tss_base) ∧
  Tss_offsets !! 1%nat = Some 8 ∧ size_of_Tss = 112.
Proof.
  cbn [init].
  do 4 (split; [eexists; repeat split; reflexivity|]).
  do 3 (split; [reflexivity|]). split; [|done].
  eexists _, _. do 4 (split; [reflexivity|]). by apply tss_base_roundtrip.
Qed.

Lemma gdt_layout_witness :
  let '(gdt, limit, tss) := init 0x123456789ABC 0x200000 in
  ∃ lo hi, gdt !! 5%nat = Some lo ∧ gdt !! 6%nat = Some hi ∧ system_base lo hi = 0x123456789ABC.
Proof.
  pose proof (gdt_layout 0x123456789ABC 0x200000 ltac:(lia)) as H.
  destruct (init _ _) as [[gdt limit] tss].
  destruct H as (_ & _ & _ & _ & _ & _ & _ & (lo & hi & H5 & H6 & _ & _ & H7) & _).
  by exists lo, hi.
Defined.

End Gdt.
