(* ===== verification/Modules.v ===== *)
(** * Kernel modules (src/module/manager.rs)

    The table of loaded modules and the symbol table.  The entry points of a
    module are foreign code: what calling an address returns is a parameter. *)

From stdpp Require Import base numbers list gmap sorting strings.
From S2P Require Import Prelude Text BTree.
Import Text BTree.
Open Scope Z_scope.

Module Modules.

Inductive ModuleState := Loaded | Running | Stopped | Error.
Inductive ModuleType := Driver | FileSystem | Network | Extension | UnknownModule.
Inductive SymbolType := Function | Data | Bss | UnknownSymbol.

#[export] Instance ModuleState_eq_dec : EqDecision ModuleState.
Proof. solve_decision. Defined.

Record ModuleInfo := mkInfo {
  id : Z;
  name : text;
  version : Z * Z * Z;
  module_type : ModuleType;
  state : ModuleState;
  dependencies : list text;
  size : Z;
  init_addr : Z;
  cleanup_addr : Z
}.

Definition set_state (x : ModuleState) (i : ModuleInfo) : ModuleInfo :=
  mkInfo (id i) (name i) (version i) (module_type i) x (dependencies i) (size i)
    (init_addr i) (cleanup_addr i).

Record ModuleSymbol := mkSymbol {
  symbol_name : text;
  symbol_addr : Z;
  symbol_type : SymbolType
}.

(** ** The symbol table *)

Definition SymbolTable : Type := btree (list Z) Z.
Definition SymbolTable_new : SymbolTable := [].
Definition register (t : SymbolTable) (nm : text) (addr : Z) : SymbolTable := insert t nm addr.
Definition lookup (t : SymbolTable) (nm : text) : option Z := get t nm.
Definition all_symbols (t : SymbolTable) : list ModuleSymbol :=
  (λ x, mkSymbol x.1 x.2 UnknownSymbol) <$> t.

(** ** The manager *)

(** [next_id] is the static [NEXT_MODULE_ID]. *)
Record ModuleManager := mkManager {
  modules : btree Z ModuleInfo;
  symbol_table : SymbolTable;
  ramdisk_addr : Z;
  ramdisk_size : Z;
  next_id : Z
}.

Definition set_modules (f : btree Z ModuleInfo → btree Z ModuleInfo) (m : ModuleManager) :=
  mkManager (f (modules m)) (symbol_table m) (ramdisk_addr m) (ramdisk_size m) (next_id m).

Definition register_symbol (m : ModuleManager) (nm : text) (addr : Z) : ModuleManager :=
  mkManager (modules m) (register (symbol_table m) nm addr) (ramdisk_addr m) (ramdisk_size m)
    (next_id m).

(** [addr_of] gives the addresses of the kernel's own functions. *)
Definition kernel_symbols (addr_of : string → Z) : list (text * Z) :=
  [(str "kprint", 0); (str "inb", addr_of "inb"%string); (str "outb", addr_of "outb"%string);
   (str "inl", addr_of "inl"%string); (str "outl", addr_of "outl"%string);
   (str "kmalloc", 0); (str "kfree", 0); (str "schedule", 0); (str "yield", 0);
   (str "vfs_open", 0); (str "vfs_read", 0); (str "vfs_write", 0); (str "vfs_close", 0)].

Definition register_kernel_symbols (addr_of : string → Z) (m : ModuleManager) : ModuleManager :=
  foldl (λ m x, register_symbol m x.1 x.2) m (kernel_symbols addr_of).

(** [ModuleManager::new], with the current value of the static. *)
Definition ModuleManager_new (addr_of : string → Z) (next : Z) : ModuleManager :=
  register_kernel_symbols addr_of (mkManager [] SymbolTable_new 0 0 next).

Definition set_ramdisk (m : ModuleManager) (addr size : Z) : ModuleManager :=
  mkManager (modules m) (symbol_table m) addr size (next_id m).

Definition load_module (m : ModuleManager) (nm : text) : ModuleManager * KernelResult Z :=
  if existsb (λ i, bool_decide (name i = nm)) (values (modules m))
  then (m, Err PageAlreadyMapped)
  else
    let i := next_id m in
    let info := mkInfo i nm (0, 1, 0) Driver Loaded [] 0 0 0 in
    (mkManager (insert (modules m) i info) (symbol_table m) (ramdisk_addr m) (ramdisk_size m)
       (i + 1)%usize, Ok i).

(** [get_mut(&id)?.state = x]. *)
Definition put_state (m : ModuleManager) (i : Z) (x : ModuleState) : option ModuleManager :=
  info ← get (modules m) i;
  Some (set_modules (λ t, insert t i (set_state x info)) m).

(** [call a] is the result of calling the function at [a]. *)
Definition init_module (call : Z → Z) (m : ModuleManager) (i : Z)
    : ModuleManager * KernelResult unit :=
  match get (modules m) i with
  | None => (m, Err ModuleNotFound)
  | Some info =>
      if negb (bool_decide (state info = Loaded)) then (m, Err InvalidArgument)
      else if negb (forallb (λ dep, existsb (λ x, bool_decide (name x = dep) &&
                                                bool_decide (state x = Running))
                                      (values (modules m)))
                      (dependencies info))
      then (m, Err ModuleNotFound)
      else if negb (init_addr info =? 0) && negb (call (init_addr info) =? 0) then
        match put_state m i Error with
        | Some m => (m, Err GeneralFault)
        | None => (m, Err ModuleNotFound)
        end
      else
        match put_state m i Running with
        | Some m => (m, Ok tt)
        | None => (m, Err ModuleNotFound)
        end
  end.

(** The cleanup function returns nothing; whether it is called is the third
    component. *)
Definition unload_module (m : ModuleManager) (i : Z)
    : ModuleManager * KernelResult unit * bool :=
  match get (modules m) i with
  | None => (m, Err ModuleNotFound, false)
  | Some info =>
      if negb (bool_decide (state info = Running)) && negb (bool_decide (state info = Stopped))
      then (m, Err InvalidArgument, false)
      else (set_modules (λ t, remove t i) m, Ok tt, negb (cleanup_addr info =? 0))
  end.

Definition get_module_info (m : ModuleManager) (i : Z) : option ModuleInfo := get (modules m) i.
Definition list_modules (m : ModuleManager) : list ModuleInfo := values (modules m).
Definition resolve_symbol (m : ModuleManager) (nm : text) : option Z := lookup (symbol_table m) nm.

(** ** Executions *)

Inductive step : ModuleManager → ModuleManager → Prop :=
  | step_load m nm : step m (load_module m nm).1
  | step_init m call i : step m (init_module call m i).1
  | step_unload m i : step m (unload_module m i).1.1
  | step_register m nm a : step m (register_symbol m nm a)
  | step_ramdisk m a n : step m (set_ramdisk m a n).

(** [reachable n m]: [m] after [n] operations. *)
Inductive reachable : Z → ModuleManager → Prop :=
  | reachable_new addr_of : reachable 0 (ModuleManager_new addr_of 1)
  | reachable_step n m m' : reachable n m → step m m' → reachable (n + 1) m'.

(** What a module of the table looks like. *)
Definition entry_ok (next k : Z) (i : ModuleInfo) : Prop :=
  id i = k ∧ 1 ≤ k < next ∧ (state i = Loaded ∨ state i = Running) ∧
  dependencies i = [] ∧ init_addr i = 0 ∧ cleanup_addr i = 0.

(** [nm] is the name of a loaded module. *)
Definition named (m : ModuleManager) (nm : text) : Prop :=
  ∃ k i, get (modules m) k = Some i ∧ name i = nm.

Definition inv (m : ModuleManager) : Prop :=
  1 ≤ next_id m ∧ sorted (modules m) ∧
  (∀ k i, get (modules m) k = Some i → entry_ok (next_id m) k i) ∧
  (∀ k1 k2 i1 i2, get (modules m) k1 = Some i1 → get (modules m) k2 = Some i2 →
     name i1 = name i2 → k1 = k2).

Lemma register_kernel_symbols_keeps addr_of m :
  modules (register_kernel_symbols addr_of m) = modules m ∧
  next_id (register_kernel_symbols addr_of m) = next_id m.
Proof.
  unfold register_kernel_symbols. revert m.
  induction (kernel_symbols addr_of) as [|x l IH]; intros m; simpl; [done|].
  by destruct (IH (register_symbol m x.1 x.2)) as [-> ->].
Qed.

Lemma manager_new_inv addr_of : inv (ModuleManager_new addr_of 1) ∧ next_id (ModuleManager_new addr_of 1) = 1.
Proof.
  unfold inv, ModuleManager_new.
  destruct (register_kernel_symbols_keeps addr_of (mkManager [] SymbolTable_new 0 0 1)) as [-> ->].
  simpl. split; [|done]. split_and!; auto with btree; done || lia.
Qed.

Lemma named_spec m nm :
  sorted (modules m) →
  existsb (λ i, bool_decide (name i = nm)) (values (modules m)) = true ↔ named m nm.
Proof.
  intros Hs. rewrite existsb_exists. unfold named, values. split.
  - intros (i & Hi%list_elem_of_In & ?%bool_decide_eq_true).
    apply list_elem_of_fmap in Hi as ([k i'] & -> & Hin).
    exists k, i'. split; [by apply get_elem|done].
  - intros (k & i & Hg & Hn). exists i. split; [|by apply bool_decide_eq_true].
    apply list_elem_of_In, list_elem_of_fmap. exists (k, i). split; [done|].
    by apply get_elem.
Qed.

(** [load_module] on a well-formed manager. *)
Lemma load_module_spec m nm :
  inv m → next_id m + 1 < 2 ^ 64 →
  (named m nm ∧ load_module m nm = (m, Err PageAlreadyMapped)) ∨
  (¬ named m nm ∧ ∃ m', load_module m nm = (m', Ok (next_id m)) ∧
   next_id m' = next_id m + 1 ∧ get (modules m) (next_id m) = None ∧
   modules m' = insert (modules m) (next_id m)
                  (mkInfo (next_id m) nm (0, 1, 0) Driver Loaded [] 0 0 0)).
Proof.
  intros (Hn & Hs & He & Hu) Hb. unfold load_module.
  destruct (existsb _ _) eqn:E.
  - left. split; [|done]. by apply named_spec.
  - right. split. { intros Hnm%named_spec; [congruence|done]. }
    eexists. split; [done|]. simpl. rewrite usize_small by lia. split; [done|].
    split; [|done]. destruct (get (modules m) (next_id m)) as [i|] eqn:G; [|done].
    apply He in G as (_ & ? & _). lia.
Qed.

Lemma load_module_inv m nm :
  inv m → next_id m + 1 < 2 ^ 64 →
  inv (load_module m nm).1 ∧ next_id (load_module m nm).1 ≤ next_id m + 1.
Proof.
  intros Hi Hb. destruct (load_module_spec m nm Hi Hb) as [[_ ->]|(Hnm & m' & -> & Hnx & Hno & Hm)].
  { simpl. split; [done|lia]. }
  simpl. split; [|lia]. destruct Hi as (Hn & Hs & He & Hu). unfold inv. rewrite Hm, Hnx.
  assert (Hget : ∀ k i, get (insert (modules m) (next_id m)
      (mkInfo (next_id m) nm (0, 1, 0) Driver Loaded [] 0 0 0)) k = Some i →
    (k = next_id m ∧ name i = nm ∧ entry_ok (next_id m + 1) k i) ∨
    (get (modules m) k = Some i ∧ entry_ok (next_id m + 1) k i)).
  { intros k i. destruct (decide (next_id m = k)) as [<-|Hne].
    - rewrite get_insert_eq. intros [= <-]. left. split; [done|]. split; [done|].
      unfold entry_ok. simpl. split_and!; auto; lia.
    - rewrite get_insert_ne by done. intros G. right. split; [done|].
      destruct (He _ _ G) as (? & ? & ? & ? & ? & ?). unfold entry_ok. split_and!; try done; lia. }
  split; [lia|]. split; [by apply insert_sorted|]. split.
  - intros k i Hk. by destruct (Hget k i Hk) as [(_ & _ & ?)|[_ ?]].
  - intros k1 k2 i1 i2 H1 H2 Hname.
    destruct (Hget _ _ H1) as [(-> & N1 & _)|[G1 _]], (Hget _ _ H2) as [(-> & N2 & _)|[G2 _]].
    + done.
    + exfalso. apply Hnm. exists k2, i2. split; [done|congruence].
    + exfalso. apply Hnm. exists k1, i1. split; [done|congruence].
    + by apply (Hu k1 k2 i1 i2).
Qed.

(** [init_module]: no module of the table has dependencies or an entry point. *)
Lemma init_module_spec call m i :
  inv m →
  init_module call m i =
    match get (modules m) i with
    | None => (m, Err ModuleNotFound)
    | Some info =>
        if bool_decide (state info = Loaded)
        then (set_modules (λ t, insert t i (set_state Running info)) m, Ok tt)
        else (m, Err InvalidArgument)
    end.
Proof.
  intros (_ & _ & He & _). unfold init_module. destruct (get (modules m) i) as [info|] eqn:G; [|done].
  destruct (He _ _ G) as (_ & _ & _ & Hd & Ha & _).
  case_bool_decide; simpl; [|done]. rewrite Hd, Ha. simpl. unfold put_state. by rewrite G.
Qed.

Lemma init_module_inv call m i :
  inv m → inv (init_module call m i).1 ∧ next_id (init_module call m i).1 = next_id m.
Proof.
  intros Hi. rewrite init_module_spec by done.
  destruct (get (modules m) i) as [info|] eqn:G; [|done]. case_bool_decide; [|done].
  split; [|done]. destruct Hi as (Hn & Hs & He & Hu). unfold inv, set_modules. simpl.
  assert (Hget : ∀ k x, get (insert (modules m) i (set_state Running info)) k = Some x →
    entry_ok (next_id m) k x ∧ ∃ y, get (modules m) k = Some y ∧ name y = name x).
  { intros k x. destruct (decide (i = k)) as [<-|Hne].
    - rewrite get_insert_eq. intros [= <-]. split; [|by exists info].
      destruct (He _ _ G) as (? & ? & _ & ?). unfold entry_ok. simpl. auto.
    - rewrite get_insert_ne by done. intros Gk. split; [by apply He|by exists x]. }
  split; [done|]. split; [by apply insert_sorted|]. split.
  - intros k x Hx. apply (Hget _ _ Hx).
  - intros k1 k2 x1 x2 H1 H2 Hname.
    destruct (Hget _ _ H1) as (_ & y1 & G1 & N1), (Hget _ _ H2) as (_ & y2 & G2 & N2).
    apply (Hu k1 k2 y1 y2); congruence.
Qed.

Lemma unload_module_inv m i :
  inv m → inv (unload_module m i).1.1 ∧ next_id (unload_module m i).1.1 = next_id m.
Proof.
  intros Hi. unfold unload_module. destruct (get (modules m) i) as [info|] eqn:G; [|done].
  destruct (negb _ && negb _); [done|]. split; [|done]. simpl.
  destruct Hi as (Hn & Hs & He & Hu). unfold inv, set_modules. simpl.
  assert (Hget : ∀ k x, get (remove (modules m) i) k = Some x → get (modules m) k = Some x).
  { intros k x. destruct (decide (i = k)) as [<-|Hne]; [by rewrite get_remove_eq|].
    by rewrite get_remove_ne. }
  split; [done|]. split; [by apply remove_sorted|]. split.
  - intros k x Hx. apply He. auto.
  - intros k1 k2 x1 x2 H1 H2 Hname. apply (Hu k1 k2 x1 x2); auto.
Qed.

Lemma modules_reachable_inv n m : reachable n m → n < 2 ^ 63 → inv m ∧ 0 ≤ n ∧ next_id m ≤ n + 1.
Proof.
  induction 1 as [addr_of|n m m' Hr IH Hst]; intros Hn.
  { destruct (manager_new_inv addr_of) as [Hi ->]. split; [done|lia]. }
  destruct IH as (Hi & Hn0 & Hnx); [lia|]. destruct Hst as [m nm|m call i|m i|m nm a|m a k].
  - destruct (load_module_inv m nm Hi) as [? ?]; [lia|]. split; [done|lia].
  - destruct (init_module_inv call m i Hi) as [? ->]. split; [done|lia].
  - destruct (unload_module_inv m i Hi) as [? ->]. split; [done|lia].
  - split; [done|simpl; lia].
  - split; [done|simpl; lia].
Qed.

(** ** The life of a module *)

(** Nothing but module [i] differs. *)
Definition others_kept (i : Z) (m m' : ModuleManager) : Prop :=
  ∀ k, k ≠ i → get_module_info m' k = get_module_info m k.

(** C31. In every execution names are unique, and a module goes through the
    states loaded, running, gone, in this order: loading fails exactly for a
    name that is loaded and otherwise adds a module under a fresh identifier;
    initialising succeeds exactly on loaded modules, unloading exactly on
    running ones; a failure changes nothing, a success no other module. *)
Theorem module_lifecycle n m (Hr : reachable n m) (Hn : n < 2 ^ 63) :
  (∀ k1 k2 i1 i2, get_module_info m k1 = Some i1 → get_module_info m k2 = Some i2 →
     name i1 = name i2 → k1 = k2) ∧
  (∀ nm,
     match load_module m nm with
     | (m', Ok i) =>
         ¬ named m nm ∧ get_module_info m i = None ∧ others_kept i m m' ∧
         ∃ info, get_module_info m' i = Some info ∧ name info = nm ∧ id info = i ∧ state info = Loaded
     | (m', Err e) => m' = m ∧ e = PageAlreadyMapped ∧ named m nm
     end) ∧
  (∀ call i,
     match init_module call m i with
     | (m', Ok _) =>
         others_kept i m m' ∧ ∃ info, get_module_info m i = Some info ∧ state info = Loaded ∧
         get_module_info m' i = Some (set_state Running info)
     | (m', Err e) =>
         m' = m ∧
         (e = ModuleNotFound ∧ get_module_info m i = None ∨
          e = InvalidArgument ∧ ∃ info, get_module_info m i = Some info ∧ state info = Running)
     end) ∧
  (∀ i,
     match unload_module m i with
     | (m', Ok _, called) =>
         others_kept i m m' ∧ called = false ∧ get_module_info m' i = None ∧
         ∃ info, get_module_info m i = Some info ∧ state info = Running
     | (m', Err e, called) =>
         m' = m ∧ called = false ∧
         (e = ModuleNotFound ∧ get_module_info m i = None ∨
          e = InvalidArgument ∧ ∃ info, get_module_info m i = Some info ∧ state info = Loaded)
     end).
Proof.
  destruct (modules_reachable_inv n m Hr Hn) as (Hi & Hn0 & Hnx).
  pose proof Hi as (Hpos & Hs & He & Hu). unfold others_kept, get_module_info.
  split; [done|]. split_and!.
  - intros nm. destruct (load_module_spec m nm Hi) as [[Hnm ->]|(Hnm & m' & -> & _ & Hno & Hm)];
      [lia|done|]. rewrite Hm. split; [done|]. split; [done|]. split.
    + intros k Hk. by rewrite get_insert_ne.
    + rewrite get_insert_eq. by eexists.
  - intros call i. rewrite init_module_spec by done.
    destruct (get (modules m) i) as [info|] eqn:G; [|by split; [|left]].
    case_bool_decide as Hst; simpl.
    + split; [intros k Hk; by rewrite get_insert_ne|]. exists info. by rewrite get_insert_eq.
    + split; [done|]. right. split; [done|]. exists info. split; [done|].
      destruct (He _ _ G) as (_ & _ & [?|?] & _); [done|done].
  - intros i. unfold unload_module.
    destruct (get (modules m) i) as [info|] eqn:G; [|split; [done|split; [done|by left]]].
    destruct (He _ _ G) as (_ & _ & [Hst|Hst] & _ & _ & Hcl); rewrite Hst; simpl.
    + split; [done|]. split; [done|]. right. split; [done|]. by exists info.
    + rewrite Hcl. simpl. split_and!; [|done|by apply get_remove_eq|by exists info].
      intros k Hk. by rewrite get_remove_ne.
Qed.

Definition demo : ModuleManager := (load_module (ModuleManager_new (λ _, 0x1000) 1) (str "ahci")).1.

Lemma module_lifecycle_witness :
  ∃ info, get_module_info (init_module (λ _, 0) demo 1).1 1 = Some info ∧ state info = Running.
Proof.
  assert (Hr : reachable 1 demo) by apply (reachable_step 0 _ _ (reachable_new _) (step_load _ _)).
  destruct (module_lifecycle 1 demo Hr ltac:(lia)) as (_ & _ & Hinit & _).
  specialize (Hinit (λ _, 0) 1).
  destruct (init_module (λ _, 0) demo 1) as [m' [u|e]] eqn:E.
  - destruct Hinit as (_ & info & _ & _ & Hi). exists (set_state Running info). by split.
  - vm_compute in E. discriminate.
Defined.

(** Symbols resolve to the address registered last. *)
Lemma resolve_registered m nm a : resolve_symbol (register_symbol m nm a) nm = Some a.
Proof. apply get_insert_eq. Qed.

Lemma resolve_other m nm a nm' :
  nm ≠ nm' → resolve_symbol (register_symbol m nm a) nm' = resolve_symbol m nm'.
Proof. apply get_insert_ne. Qed.

End Modules.
