(* ===== verification/Vfs.v ===== *)
(** * The virtual file system (src/fs/vfs.rs)

    Mount points, descriptors and path resolution.  The traits [Inode] and
    [FileSystem] are classes: the layer is written and proved against them, and
    a file system is an instance. *)

From stdpp Require Import base numbers list gmap sorting strings.
From S2P Require Import Prelude Text BTree.
Import Text BTree.
Open Scope Z_scope.

Module Vfs.

Inductive FileSystemType := NTFS | FAT32 | RamFs | ProcFs | DevFs | UnknownFs.
Inductive FileType := Regular | Directory | Symlink | Device | Pipe | UnknownFile.

Definition fs_type_str (t : FileSystemType) : text :=
  str match t with
  | NTFS => "ntfs" | FAT32 => "fat32" | RamFs => "ramfs" | ProcFs => "procfs"
  | DevFs => "devfs" | UnknownFs => "unknown"
  end.

Record FilePermissions := mkPermissions {
  owner_read : bool; owner_write : bool; owner_execute : bool;
  group_read : bool; group_write : bool; group_execute : bool;
  others_read : bool; others_write : bool; others_execute : bool
}.

Definition FilePermissions_default : FilePermissions :=
  mkPermissions true true false true false false true false false.

Record FileMetadata := mkMetadata {
  inode_number : Z;
  file_type : FileType;
  size : Z;
  permissions : FilePermissions;
  created : Z;
  modified : Z;
  accessed : Z;
  nlinks : Z;
  uid : Z;
  gid : Z
}.

Record DirEntry := mkDirEntry {
  entry_name : text;
  entry_inode : Z;
  entry_type : FileType
}.

Definition READ_ONLY : Z := 0x01.
Definition WRITE_ONLY : Z := 0x02.
Definition READ_WRITE : Z := 0x03.
Definition CREATE : Z := 0x10.
Definition TRUNCATE : Z := 0x20.
Definition APPEND : Z := 0x40.
Definition EXCLUSIVE : Z := 0x80.

(** [flags.contains(x)] of the bitflags crate: all bits of [x] are set. *)
Definition contains (flags x : Z) : bool := Z.land flags x =? x.

Record FileSystemStats := mkFsStats {
  total_size : Z;
  free_space : Z;
  total_inodes : Z;
  free_inodes : Z;
  block_size : Z;
  max_name_length : Z
}.

Record MountFlags := mkMountFlags { read_only : bool; no_exec : bool; no_suid : bool }.
Definition MountFlags_default : MountFlags := mkMountFlags false false false.

(** The trait [Inode].  [inode_read] takes the offset and the buffer, and gives
    the buffer after the call and the result; it may panic. *)
Class Inode (I : Type) := {
  inode_metadata : I → KernelResult FileMetadata;
  inode_read : I → Z → list Z → outcome (list Z * KernelResult Z);
  inode_write : I → Z → list Z → I * KernelResult Z;
  inode_readdir : I → KernelResult (list DirEntry);
  inode_lookup : I → text → KernelResult I;
  inode_create : I → text → FileType → I * KernelResult I;
  inode_unlink : I → text → I * KernelResult unit;
  inode_truncate : I → Z → I * KernelResult unit;
  clone_inode : I → I
}.

(** The trait [FileSystem]. *)
Class FileSystem (F I : Type) := {
  fs_type : F → FileSystemType;
  label : F → text;
  root_inode : F → I;
  get_inode : F → Z → KernelResult I;
  sync : F → KernelResult unit;
  fs_statfs : F → KernelResult FileSystemStats
}.

Section Vfs.
Context {I F : Type} `{Inode I} `{FileSystem F I}.

Record MountPoint := mkMountPoint { path : text; fs : F; mount_flags : MountFlags }.

Record FileDescriptor := mkFd { inode : I; flags : Z; offset : Z }.

Definition FileDescriptor_new (i : I) (fl : Z) : FileDescriptor := mkFd i fl 0.

Definition fd_read (f : FileDescriptor) (buffer : list Z)
    : outcome (FileDescriptor * list Z * KernelResult Z) :=
  if negb (contains (flags f) READ_ONLY) && negb (contains (flags f) READ_WRITE)
  then Ret (f, buffer, Err AccessDenied)
  else
    obind (inode_read (inode f) (offset f) buffer) (λ '(buffer, r),
      match r with
      | Ok n => Ret (mkFd (inode f) (flags f) (swrap 64 (offset f + swrap 64 n)), buffer, Ok n)
      | Err e => Ret (f, buffer, Err e)
      end).

Definition fd_write (f : FileDescriptor) (data : list Z) : FileDescriptor * KernelResult Z :=
  if negb (contains (flags f) WRITE_ONLY) && negb (contains (flags f) READ_WRITE)
  then (f, Err AccessDenied)
  else
    match inode_write (inode f) (offset f) data with
    | (i, Ok n) => (mkFd i (flags f) (swrap 64 (offset f + swrap 64 n)), Ok n)
    | (i, Err e) => (mkFd i (flags f) (offset f), Err e)
    end.

Definition fd_seek (f : FileDescriptor) (off : Z) : FileDescriptor * KernelResult Z :=
  (mkFd (inode f) (flags f) off, Ok off).
Definition fd_position (f : FileDescriptor) : Z := offset f.
Definition fd_metadata (f : FileDescriptor) : KernelResult FileMetadata := inode_metadata (inode f).

Record Vfs := mkVfs {
  mount_points : btree (list Z) MountPoint;
  next_fd : Z;
  open_files : btree Z FileDescriptor
}.

Definition Vfs_new : Vfs := mkVfs [] 3 [].

Definition mount (v : Vfs) (p : text) (f : F) (fl : MountFlags) : Vfs * KernelResult unit :=
  if contains_key (mount_points v) p then (v, Err PageAlreadyMapped)
  else (mkVfs (insert (mount_points v) p (mkMountPoint p f fl)) (next_fd v) (open_files v), Ok tt).

Definition unmount (v : Vfs) (p : text) : Vfs * KernelResult unit :=
  match get (mount_points v) p with
  | None => (v, Err FileSystemNotFound)
  | Some _ => (mkVfs (remove (mount_points v) p) (next_fd v) (open_files v), Ok tt)
  end.

(** The loop of [resolve_mount_point] over the keys. *)
Definition best_mount (p : text) (ks : list text) : text * Z :=
  foldl (λ '(best, best_len) k,
           if starts_with p k && (best_len <? Z.of_nat (length k))
           then (k, Z.of_nat (length k)) else (best, best_len)) ([], 0) ks.

Definition resolve_mount_point (v : Vfs) (p : text) : KernelResult (text * text) :=
  let '(best, best_len) := best_mount p (keys (mount_points v)) in
  if bool_decide (best = []) then
    if contains_key (mount_points v) (str "/") then Ok (str "/", p) else Err FileSystemNotFound
  else Ok (best, drop (Z.to_nat best_len) p).

(** The loop of [traverse_path]. *)
Fixpoint walk (i : I) (components : list text) : KernelResult I :=
  match components with
  | [] => Ok i
  | c :: rest => match inode_lookup i c with Ok i => walk i rest | Err e => Err e end
  end.

Definition traverse_path (root : I) (p : text) : KernelResult I :=
  if bool_decide (p = []) || bool_decide (p = str "/") then Ok root
  else walk root (split_nonempty 47 p).

(** The inode a path names: the common part of [open] and [readdir]. *)
Definition find_inode (v : Vfs) (p : text) : KernelResult I :=
  match resolve_mount_point v p with
  | Err e => Err e
  | Ok (mount_path, relative_path) =>
      match get (mount_points v) mount_path with
      | None => Err FileSystemNotFound
      | Some m => traverse_path (root_inode (fs m)) relative_path
      end
  end.

Definition open (v : Vfs) (p : text) (fl : Z) : Vfs * KernelResult Z :=
  match find_inode v p with
  | Err e => (v, Err e)
  | Ok i =>
      let fd := next_fd v in
      (mkVfs (mount_points v) (fd + 1)%usize (insert (open_files v) fd (FileDescriptor_new i fl)),
       Ok fd)
  end.

Definition close (v : Vfs) (fd : Z) : Vfs * KernelResult unit :=
  match get (open_files v) fd with
  | None => (v, Err InvalidArgument)
  | Some _ => (mkVfs (mount_points v) (next_fd v) (remove (open_files v) fd), Ok tt)
  end.

Definition put_file (v : Vfs) (fd : Z) (f : FileDescriptor) : Vfs :=
  mkVfs (mount_points v) (next_fd v) (insert (open_files v) fd f).

Definition read (v : Vfs) (fd : Z) (buffer : list Z) : outcome (Vfs * list Z * KernelResult Z) :=
  match get (open_files v) fd with
  | None => Ret (v, buffer, Err InvalidArgument)
  | Some f => obind (fd_read f buffer) (λ '(f, buffer, r), Ret (put_file v fd f, buffer, r))
  end.

Definition write (v : Vfs) (fd : Z) (data : list Z) : Vfs * KernelResult Z :=
  match get (open_files v) fd with
  | None => (v, Err InvalidArgument)
  | Some f => let '(f, r) := fd_write f data in (put_file v fd f, r)
  end.

Definition readdir (v : Vfs) (p : text) : KernelResult (list DirEntry) :=
  match find_inode v p with Err e => Err e | Ok i => inode_readdir i end.

Definition statfs (v : Vfs) (p : text) : KernelResult FileSystemStats :=
  match resolve_mount_point v p with
  | Err e => Err e
  | Ok (mount_path, _) =>
      match get (mount_points v) mount_path with
      | None => Err FileSystemNotFound
      | Some m => fs_statfs (fs m)
      end
  end.

Definition list_mounts (v : Vfs) : list (text * FileSystemType) :=
  (λ m, (path m, fs_type (fs m))) <$> values (mount_points v).

(** ** Resolution of mount points *)

(** A mount point other than the empty path that is a prefix of [p]. *)
Definition mount_prefix (v : Vfs) (p k : text) : Prop :=
  is_Some (get (mount_points v) k) ∧ k ≠ [] ∧ starts_with p k = true.

Lemma best_mount_spec p ks :
  let '(best, len) := best_mount p ks in
  len = Z.of_nat (length best) ∧
  (best = [] ∨ best ∈ ks ∧ starts_with p best = true) ∧
  ∀ k, k ∈ ks → starts_with p k = true → (length k ≤ length best)%nat.
Proof.
  unfold best_mount. induction ks as [|k ks IH] using rev_ind; simpl.
  { split_and!; [done|by left|]. intros k Hk%elem_of_nil. done. }
  rewrite foldl_app. simpl. destruct (foldl _ _ ks) as [best len].
  destruct IH as (-> & Hb & Hmax).
  assert (Hold : ∀ k', k' ∈ ks ++ [k] → starts_with p k' = true →
                 (length k' ≤ length best)%nat ∨ k' = k).
  { intros k' [Hk| ->%list_elem_of_singleton]%elem_of_app Hp; [left; by apply Hmax|by right]. }
  destruct (starts_with p k && _) eqn:E; break_cmp.
  - split_and!; [done|right; split; [apply elem_of_snoc|done]|].
    intros k' Hk Hp. destruct (Hold k' Hk Hp) as [?| ->]; lia.
  - split_and!; [done| |].
    + destruct Hb as [->|[Hin Hp]]; [by left|]. right. split; [|done]. apply elem_of_app. by left.
    + intros k' Hk Hp. destruct (Hold k' Hk Hp) as [?| ->]; [done|].
      rewrite Hp in E. simpl in E. break_cmp. lia.
Qed.

Lemma resolve_spec v p :
  sorted (mount_points v) →
  match resolve_mount_point v p with
  | Ok (m, rel) =>
      (mount_prefix v p m ∧ p = m ++ rel ∧
       ∀ k, mount_prefix v p k → (length k ≤ length m)%nat) ∨
      (m = str "/" ∧ rel = p ∧ is_Some (get (mount_points v) m) ∧ ∀ k, ¬ mount_prefix v p k)
  | Err e =>
      e = FileSystemNotFound ∧ get (mount_points v) (str "/") = None ∧ ∀ k, ¬ mount_prefix v p k
  end.
Proof.
  intros Hs. unfold resolve_mount_point. pose proof (best_mount_spec p (keys (mount_points v))) as Hb.
  destruct (best_mount p (keys (mount_points v))) as [best len]. destruct Hb as (-> & Hb & Hmax).
  assert (Hmax' : ∀ k, mount_prefix v p k → (length k ≤ length best)%nat).
  { intros k (Hk & _ & Hp). apply Hmax; [by apply keys_elem|done]. }
  case_bool_decide as Hnil.
  - assert (Hno : ∀ k, ¬ mount_prefix v p k).
    { intros k Hk. pose proof (Hmax' k Hk) as Hlen. destruct Hk as (_ & Hne & _).
      rewrite Hnil in Hlen. destruct k; [done|simpl in Hlen; lia]. }
    destruct (contains_key _ _) eqn:E.
    + right. split_and!; try done. by apply contains_key_true.
    + split_and!; try done. unfold contains_key in E. by destruct (get _ _).
  - left. destruct Hb as [?|[Hin Hp]]; [done|]. split_and!; try done.
    + split; [by apply keys_elem|done].
    + rewrite Nat2Z.id. apply starts_with_spec in Hp as [rest ->]. by rewrite drop_app_length.
Qed.

(** ** Executions *)

Inductive step : Vfs → Vfs → Prop :=
  | step_mount v p f fl : step v (mount v p f fl).1
  | step_unmount v p : step v (unmount v p).1
  | step_open v p fl : step v (open v p fl).1
  | step_close v fd : step v (close v fd).1
  | step_read v fd buffer v' buffer' r : read v fd buffer = Ret (v', buffer', r) → step v v'
  | step_write v fd data : step v (write v fd data).1.

(** [reachable n v]: [v] after [n] operations. *)
Inductive reachable : Z → Vfs → Prop :=
  | reachable_new : reachable 0 Vfs_new
  | reachable_step n v v' : reachable n v → step v v' → reachable (n + 1) v'.

Definition inv (v : Vfs) : Prop :=
  sorted (mount_points v) ∧ sorted (open_files v) ∧ 3 ≤ next_fd v ∧
  (∀ fd f, get (open_files v) fd = Some f → 3 ≤ fd < next_fd v) ∧
  (∀ p m, get (mount_points v) p = Some m → path m = p).

Lemma inv_put_file v fd f f' :
  inv v → get (open_files v) fd = Some f → inv (put_file v fd f').
Proof.
  intros (H1 & H2 & H3 & H4 & H5) Hf. unfold inv, put_file. simpl.
  split_and!; try done; [by apply insert_sorted|].
  intros k x. destruct (decide (fd = k)) as [<-|Hne]; [intros _; by apply (H4 fd f)|].
  rewrite get_insert_ne by done. apply H4.
Qed.

Lemma mount_inv v p f fl : inv v → inv (mount v p f fl).1.
Proof.
  intros (H1 & H2 & H3 & H4 & H5). unfold mount. destruct (contains_key _ _); [done|].
  unfold inv. simpl. split_and!; try done; [by apply insert_sorted|].
  intros k x. destruct (decide (p = k)) as [<-|Hne].
  - rewrite get_insert_eq. by intros [= <-].
  - rewrite get_insert_ne by done. apply H5.
Qed.

Lemma unmount_inv v p : inv v → inv (unmount v p).1.
Proof.
  intros (H1 & H2 & H3 & H4 & H5). unfold unmount. destruct (get (mount_points v) p); [|done].
  unfold inv. simpl. split_and!; try done; [by apply remove_sorted|].
  intros k x. destruct (decide (p = k)) as [<-|Hne]; [by rewrite get_remove_eq|].
  rewrite get_remove_ne by done. apply H5.
Qed.

Lemma open_inv v p fl :
  inv v → next_fd v + 1 < 2 ^ 64 →
  inv (open v p fl).1 ∧ next_fd (open v p fl).1 ≤ next_fd v + 1.
Proof.
  intros Hi Hb. unfold open. destruct (find_inode v p); [|split; [done|simpl; lia]].
  destruct Hi as (H1 & H2 & H3 & H4 & H5). unfold inv. simpl. rewrite usize_small by lia.
  split_and!; try done; try lia; [by apply insert_sorted|].
  intros k x. destruct (decide (next_fd v = k)) as [<-|Hne]; [lia|].
  rewrite get_insert_ne by done. intros Hk%H4. lia.
Qed.

Lemma close_inv v fd : inv v → inv (close v fd).1.
Proof.
  intros (H1 & H2 & H3 & H4 & H5). unfold close. destruct (get (open_files v) fd); [|done].
  unfold inv. simpl. split_and!; try done; [by apply remove_sorted|].
  intros k x. destruct (decide (fd = k)) as [<-|Hne]; [by rewrite get_remove_eq|].
  rewrite get_remove_ne by done. apply H4.
Qed.

Lemma read_inv v fd buffer v' buffer' r :
  inv v → read v fd buffer = Ret (v', buffer', r) → inv v' ∧ next_fd v' = next_fd v.
Proof.
  intros Hi. unfold read. destruct (get (open_files v) fd) as [f|] eqn:G.
  - destruct (fd_read f buffer) as [[[f' b'] r']|]; [|done]. simpl. intros [= <- _ _].
    split; [by apply (inv_put_file v fd f)|done].
  - by intros [= <- _ _].
Qed.

Lemma write_inv v fd data : inv v → inv (write v fd data).1 ∧ next_fd (write v fd data).1 = next_fd v.
Proof.
  intros Hi. unfold write. destruct (get (open_files v) fd) as [f|] eqn:G; [|done].
  destruct (fd_write f data) as [f' r]. split; [by apply (inv_put_file v fd f)|done].
Qed.

Lemma vfs_reachable_inv n v : reachable n v → n < 2 ^ 63 → inv v ∧ 0 ≤ n ∧ next_fd v ≤ n + 3.
Proof.
  induction 1 as [|n v v' Hr IH Hst]; intros Hn.
  { split; [|simpl; lia]. unfold inv. simpl. split_and!; try done; constructor. }
  destruct IH as (Hi & Hn0 & Hb); [lia|].
  destruct Hst as [v p f fl|v p|v p fl|v fd|v fd buffer v' buffer' r Hrd|v fd data].
  - split; [by apply mount_inv|]. unfold mount. destruct (contains_key _ _); simpl; lia.
  - split; [by apply unmount_inv|]. unfold unmount. destruct (get _ _); simpl; lia.
  - destruct (open_inv v p fl Hi) as [? ?]; [lia|]. split; [done|lia].
  - split; [by apply close_inv|]. unfold close. destruct (get _ _); simpl; lia.
  - destruct (read_inv _ _ _ _ _ _ Hi Hrd) as [? ->]. split; [done|lia].
  - destruct (write_inv v fd data Hi) as [? ->]. split; [done|lia].
Qed.

(** ** Descriptors *)

(** The calls of a client on a descriptor. *)
Definition files_kept (fd : Z) (v v' : Vfs) : Prop :=
  ∀ k, k ≠ fd → get (open_files v') k = get (open_files v) k.

Lemma read_keeps v fd buffer v' buffer' r :
  read v fd buffer = Ret (v', buffer', r) → files_kept fd v v'.
Proof.
  unfold read, files_kept. destruct (get (open_files v) fd) as [f|].
  - destruct (fd_read f buffer) as [[[f' b'] r']|]; [|done]. simpl. intros [= <- _ _] k Hk.
    simpl. by rewrite get_insert_ne.
  - by intros [= <- _ _].
Qed.

Lemma write_keeps v fd data : files_kept fd v (write v fd data).1.
Proof.
  unfold write, files_kept. destruct (get (open_files v) fd) as [f|]; [|done].
  destruct (fd_write f data) as [f' r]. intros k Hk. simpl. by rewrite get_insert_ne.
Qed.

(** ** Files with contents *)

(** What an inode promises that reads as the bytes [data]: a read at [off] gives
    as many of the bytes from there on as fit into the buffer, and leaves the
    rest of the buffer alone. *)
Definition got (data : list Z) (off : Z) (buffer : list Z) : list Z :=
  take (length buffer) (drop (Z.to_nat off) data).

Definition reads_as (i : I) (data : list Z) : Prop :=
  ∀ off buffer, 0 ≤ off < 2 ^ 63 → Z.of_nat (length buffer) < 2 ^ 63 →
    inode_read i off buffer =
      Ret (got data off buffer ++ drop (length (got data off buffer)) buffer,
           Ok (Z.of_nat (length (got data off buffer)))).

(** A client that reads into one buffer after the other; the bytes it gets. *)
Fixpoint read_all (v : Vfs) (fd : Z) (buffers : list (list Z))
    : outcome (Vfs * KernelResult (list Z)) :=
  match buffers with
  | [] => Ret (v, Ok [])
  | b :: rest =>
      obind (read v fd b) (λ '(v, b', r),
        match r with
        | Err e => Ret (v, Err e)
        | Ok n =>
            obind (read_all v fd rest) (λ '(v, r),
              match r with
              | Ok bytes => Ret (v, Ok (take (Z.to_nat n) b' ++ bytes))
              | Err e => Ret (v, Err e)
              end)
        end)
  end.

Definition total (buffers : list (list Z)) : nat := sum_list (length <$> buffers).

Lemma read_at v fd f data b :
  get (open_files v) fd = Some f → contains (flags f) READ_ONLY = true →
  reads_as (inode f) data → 0 ≤ offset f ≤ Z.of_nat (length data) →
  Z.of_nat (length data) < 2 ^ 63 → Z.of_nat (length b) < 2 ^ 63 →
  let n := length (got data (offset f) b) in
  ∃ v' b', read v fd b = Ret (v', b', Ok (Z.of_nat n)) ∧ take n b' = got data (offset f) b ∧
    get (open_files v') fd = Some (mkFd (inode f) (flags f) (offset f + Z.of_nat n)) ∧
    offset f + Z.of_nat n ≤ Z.of_nat (length data).
Proof.
  intros Hf Hfl Hr Ho Hd Hb n. unfold read. rewrite Hf. unfold fd_read. rewrite Hfl. cbn [negb andb].
  rewrite Hr by lia. fold n. cbn [obind].
  assert (Hn : offset f + Z.of_nat n ≤ Z.of_nat (length data)).
  { unfold n, got. rewrite length_take, length_drop. lia. }
  rewrite (swrap_small 64 (Z.of_nat n)), swrap_small by lia.
  eexists _, _. split; [done|]. split; [|split; [apply get_insert_eq|done]].
  unfold n. by rewrite take_app_length.
Qed.

Lemma read_all_spec data bufs : ∀ v fd f,
  Forall (λ b, Z.of_nat (length b) < 2 ^ 63) bufs →
  get (open_files v) fd = Some f → contains (flags f) READ_ONLY = true →
  reads_as (inode f) data → 0 ≤ offset f ≤ Z.of_nat (length data) →
  Z.of_nat (length data) < 2 ^ 63 →
  let bytes := take (total bufs) (drop (Z.to_nat (offset f)) data) in
  ∃ v', read_all v fd bufs = Ret (v', Ok bytes) ∧ files_kept fd v v' ∧
    get (open_files v') fd =
      Some (mkFd (inode f) (flags f) (offset f + Z.of_nat (length bytes))).
Proof.
  induction bufs as [|b bufs IH]; intros v fd f Hbs Hf Hfl Hr Ho Hd; cbn zeta.
  { exists v. simpl. rewrite Z.add_0_r. split_and!; try done. by destruct f. }
  inversion Hbs as [|? ? Hb Hbs']; subst.
  destruct (read_at v fd f data b Hf Hfl Hr Ho Hd Hb) as (v1 & b' & Hrd & Htk & Hf1 & Hle).
  set (n := length (got data (offset f) b)) in *. cbn [read_all]. rewrite Hrd. cbn [obind].
  destruct (IH v1 fd (mkFd (inode f) (flags f) (offset f + Z.of_nat n))) as (v2 & Hall & Hk2 & Hf2);
    try done; [simpl; lia|].
  cbn [inode flags offset] in *. rewrite Hall. cbn [obind].
  assert (Hbytes : got data (offset f) b ++
      take (total bufs) (drop (Z.to_nat (offset f + Z.of_nat n)) data) =
    take (total (b :: bufs)) (drop (Z.to_nat (offset f)) data)).
  { change (total (b :: bufs)) with (length b + total bufs)%nat.
    unfold n, got. rewrite Z2Nat.inj_add, Nat2Z.id, <- drop_drop by lia.
    generalize (drop (Z.to_nat (offset f)) data). intros l.
    rewrite length_take. destruct (Nat.le_gt_cases (length b) (length l)).
    - rewrite Nat.min_l by done. by rewrite take_take_drop.
    - rewrite Nat.min_r by lia. rewrite drop_all, take_nil, app_nil_r.
      rewrite !take_ge by lia. done. }
  exists v2. rewrite Nat2Z.id, Htk, Hbytes. split; [done|]. split.
  - intros k Hk. rewrite Hk2 by done. by apply (read_keeps _ _ _ _ _ _ Hrd).
  - rewrite Hf2, <- Hbytes, length_app. fold n. do 2 f_equal. lia.
Qed.

(** C25. A path resolves to the longest mount point that is a prefix of it, with
    the rest of the path as the relative path.  When none is, it resolves as a
    whole at the root file system, and fails exactly when there is no root file
    system either. *)
Theorem resolve_longest_mount n v p (Hr : reachable n v) (Hn : n < 2 ^ 63) :
  match resolve_mount_point v p with
  | Ok (m, rel) =>
      (mount_prefix v p m ∧ p = m ++ rel ∧
       ∀ k, mount_prefix v p k → (length k ≤ length m)%nat) ∨
      (m = str "/" ∧ rel = p ∧ is_Some (get (mount_points v) m) ∧ ∀ k, ¬ mount_prefix v p k)
  | Err e =>
      e = FileSystemNotFound ∧ get (mount_points v) (str "/") = None ∧ ∀ k, ¬ mount_prefix v p k
  end.
Proof.
  destruct (vfs_reachable_inv n v Hr Hn) as ((Hs & _) & _). by apply resolve_spec.
Qed.

(** But a prefix need not end at a component: with a file system on [/mnt],
    the path [/mnt2/x] of the root file system is looked up as [2/x] on it. *)
Theorem resolve_splits_component (f : F) :
  let v := (mount (mount Vfs_new (str "/") f MountFlags_default).1
              (str "/mnt") f MountFlags_default).1 in
  resolve_mount_point v (str "/mnt2/x") = Ok (str "/mnt", str "2/x").
Proof. reflexivity. Qed.

(** C26. [open] gives a descriptor that is not in use, at the beginning of the
    file; reading through it into a sequence of buffers delivers the contents of
    the file in order, up to its end, each byte once; and no other descriptor
    changes. *)
Theorem open_read_sequential n v p fl v1 fd i data buffers
    (Hr : reachable n v) (Hn : n < 2 ^ 63) (Hfl : contains fl READ_ONLY = true)
    (Hi : find_inode v p = Ok i) (Hdata : reads_as i data)
    (Hlen : Z.of_nat (length data) < 2 ^ 63)
    (Hbuf : Forall (λ b, Z.of_nat (length b) < 2 ^ 63) buffers)
    (Ho : open v p fl = (v1, Ok fd)) :
  get (open_files v) fd = None ∧
  ∃ v2, read_all v1 fd buffers = Ret (v2, Ok (take (total buffers) data)) ∧
    files_kept fd v v2.
Proof.
  destruct (vfs_reachable_inv n v Hr Hn) as ((_ & _ & _ & Hfd & _) & _).
  unfold open in Ho. rewrite Hi in Ho. injection Ho as <- <-. split.
  { destruct (get (open_files v) (next_fd v)) as [f|] eqn:G; [|done]. apply Hfd in G. lia. }
  set (v1 := mkVfs _ _ _).
  destruct (read_all_spec data buffers v1 (next_fd v) (FileDescriptor_new i fl))
    as (v2 & Hall & Hk & _); try done; [apply get_insert_eq|simpl; lia|].
  exists v2. split; [done|]. intros k Hk'. rewrite Hk by done. simpl. by rewrite get_insert_ne.
Qed.

End Vfs.

Arguments MountPoint : clear implicits.
Arguments FileDescriptor : clear implicits.
Arguments Vfs : clear implicits.

(** ** A file system with one file

    An inode is its contents; the only file system of the type holds one file as
    its root. *)
Module OneFile.

#[export] Instance one_inode : Inode (list Z) := {|
  inode_metadata _ := Err IoError;
  inode_read data off b := Ret (got data off b ++ drop (length (got data off b)) b,
                                Ok (Z.of_nat (length (got data off b))));
  inode_write d _ _ := (d, Err IoError);
  inode_readdir _ := Ok [];
  inode_lookup _ _ := Err FileNotFound;
  inode_create d _ _ := (d, Err IoError);
  inode_unlink d _ := (d, Err IoError);
  inode_truncate d _ := (d, Err IoError);
  clone_inode d := d
|}.

#[export] Instance one_fs : FileSystem (list Z) (list Z) := {|
  fs_type _ := RamFs;
  label _ := str "one";
  root_inode d := d;
  get_inode _ _ := Err FileNotFound;
  sync _ := Ok tt;
  fs_statfs _ := Err IoError
|}.

Definition demo : Vfs (list Z) (list Z) :=
  (mount Vfs_new (str "/") (str "hello") MountFlags_default).1.

Lemma demo_step : reachable 1 demo.
Proof. apply (reachable_step 0 Vfs_new); [constructor|apply step_mount]. Qed.

End OneFile.
Import OneFile.

Lemma resolve_longest_mount_witness :
  resolve_mount_point OneFile.demo (str "/a") = Ok (str "/", str "a") ∧
  ∀ k, mount_prefix OneFile.demo (str "/a") k → (length k ≤ 1)%nat.
Proof.
  pose proof (resolve_longest_mount 1 OneFile.demo (str "/a") OneFile.demo_step ltac:(lia)) as Hr.
  change (resolve_mount_point OneFile.demo (str "/a")) with
    (Ok (E := KernelError) (str "/", str "a")) in Hr |- *.
  split; [reflexivity|]. destruct Hr as [(_ & _ & H)|(_ & _ & _ & H)]; [exact H|].
  intros k Hk. destruct (H k Hk).
Defined.

Lemma open_read_sequential_witness :
  ∃ v2, read_all (open OneFile.demo (str "/") READ_ONLY).1 3 [[0; 0]; [0; 0]] =
    Ret (v2, Ok (str "hell")).
Proof.
  destruct (open_read_sequential 1 OneFile.demo (str "/") READ_ONLY
    (open OneFile.demo (str "/") READ_ONLY).1 3 (str "hello") (str "hello") [[0; 0]; [0; 0]])
    as (_ & v2 & H & _).
  - exact OneFile.demo_step.
  - lia.
  - reflexivity.
  - reflexivity.
  - intros off b Hoff Hb. reflexivity.
  - simpl. lia.
  - repeat constructor.
  - reflexivity.
  - exists v2. exact H.
Defined.

End Vfs.
