(* ===== verification/Ntfs.v ===== *)
(** * The NTFS driver (src/fs/ntfs.rs)

    Parsing of the boot sector, of file records and of run lists, the journal,
    and the driver's inodes and volume as instances of the traits of the file
    system layer.  A slice of bytes is a list; an index or a slice out of range
    panics.  A shift by 64 bits or more shifts by its amount modulo 64, as in
    the release build. *)

From stdpp Require Import base numbers list gmap sorting strings.
From S2P Require Import Prelude Memory Text BTree Vfs.
Import Text BTree Vfs.
Open Scope Z_scope.

Module Ntfs.

Definition NTFS_SIGNATURE : list Z := str "NTFS    ".
Definition MFT_NUMBER_ROOT : Z := 5.
Definition MFT_RECORD_SIZE : Z := 1024.
Definition MFT_RECORD_SIGNATURE : Z := 0x454C4946.

Inductive NtfsAttributeType :=
  | StandardInformation | AttributeList | FileName | ObjectId | SecurityDescriptor
  | VolumeName | VolumeInformation | DataAttribute | IndexRoot | IndexAllocation | BitmapAttribute
  | ReparsePoint | EaInformation | Ea | LoggedUtilityStream | EndAttribute.

#[export] Instance NtfsAttributeType_eq_dec : EqDecision NtfsAttributeType.
Proof. solve_decision. Defined.

(** [impl From<u32> for NtfsAttributeType]. *)
Definition attribute_type (v : Z) : NtfsAttributeType :=
  match v with
  | 0x10 => StandardInformation
  | 0x20 => AttributeList
  | 0x30 => FileName
  | 0x40 => ObjectId
  | 0x50 => SecurityDescriptor
  | 0x60 => VolumeName
  | 0x70 => VolumeInformation
  | 0x80 => DataAttribute
  | 0x90 => IndexRoot
  | 0xA0 => IndexAllocation
  | 0xB0 => BitmapAttribute
  | 0xC0 => ReparsePoint
  | 0xD0 => EaInformation
  | 0xE0 => Ea
  | 0x100 => LoggedUtilityStream
  | _ => EndAttribute
  end.

Definition IN_USE : Z := 0x0001.
Definition IS_DIRECTORY : Z := 0x0002.

(** ** Bytes *)

(** The byte at an index that is in range. *)
Definition byte (data : list Z) (i : Z) : Z := default 0 (data !! Z.to_nat i).

(** [from_le_bytes] of the [n] bytes at [i]. *)
Definition le (data : list Z) (i : Z) (n : nat) : Z :=
  foldr (λ b acc, b + 256 * acc) 0 (take n (drop (Z.to_nat i) data)).

Definition len (data : list Z) : Z := Z.of_nat (length data).

(** [&data[a..b]]. *)
Definition slice (data : list Z) (a b : Z) : outcome (list Z) :=
  if (a <=? b) && (b <=? len data)
  then Ret (take (Z.to_nat (b - a)) (drop (Z.to_nat a) data))
  else Panic.

(** [x << n] of a 64-bit integer. *)
Definition shl64 (x n : Z) : Z := wrap 64 (Z.shiftl x (n mod 64)).

(** ** The boot sector *)

Record NtfsBpb := mkBpb {
  bytes_per_sector : Z;
  sectors_per_cluster : Z;
  total_sectors : Z;
  mft_start_cluster : Z;
  mftmirr_start_cluster : Z;
  mft_record_size : Z;
  index_record_size : Z;
  volume_serial : Z;
  cluster_size : Z
}.

Definition NtfsBpb_parse (boot : list Z) : KernelResult NtfsBpb :=
  if len boot <? 512 then Err IoError
  else if negb (bool_decide (take 8 (drop 3 boot) = NTFS_SIGNATURE)) then Err FileSystemNotFound
  else
    let bytes_per_sector := le boot 11 2 in
    let sectors_per_cluster := byte boot 13 in
    Ok (mkBpb bytes_per_sector sectors_per_cluster (le boot 40 8) (le boot 48 8) (le boot 56 8)
          (swrap 8 (byte boot 64)) (swrap 8 (byte boot 68)) (le boot 72 8)
          (bytes_per_sector * sectors_per_cluster)).

(** The negation is of an [i8], and the shift of a [usize]. *)
Definition mft_record_size_bytes (b : NtfsBpb) : Z :=
  if 0 <? mft_record_size b then (mft_record_size b * bytes_per_sector b)%usize
  else shl64 1 (wrap 32 (swrap 8 (- mft_record_size b))).

(** ** Run lists *)

Record DataRun := mkRun { run_length : Z; run_offset : Z }.

#[export] Instance DataRun_eq_dec : EqDecision DataRun.
Proof. solve_decision. Defined.

(** The loops that assemble a number from [n] bytes. *)
Definition assemble (data : list Z) (n : Z) : Z :=
  for_each 0 n (λ i acc, Z.lor acc (shl64 (byte data i) (i * 8))) 0.

(** One turn of the loop of [parse_run_list] on what is left of the data: the
    run and the rest, or nothing when the loop ends. *)
Definition parse_run (data : list Z) : option (DataRun * list Z) :=
  match data with
  | [] => None
  | header :: data =>
      if header =? 0 then None
      else
        let size_len := Z.land header 0x0F in
        let offset_len := Z.land (Z.shiftr header 4) 0x0F in
        if (size_len =? 0) || (len data <? size_len) then None
        else
          let length_ := assemble data size_len in
          let data := drop (Z.to_nat size_len) data in
          if offset_len =? 0 then Some (mkRun length_ 0, data)
          else if len data <? offset_len then None
          else
            let off := assemble data offset_len in
            let off :=
              if Z.land (byte data (offset_len - 1)) 0x80 =? 0 then off
              else Z.lor off (shl64 (Z.ones 64) (offset_len * 8)) in
            Some (mkRun length_ (swrap 64 off), drop (Z.to_nat offset_len) data)
  end.

(** The loop; every turn takes at least two bytes. *)
Fixpoint parse_runs (fuel : nat) (data : list Z) : list DataRun :=
  match fuel with
  | O => []
  | S fuel =>
      match parse_run data with
      | None => []
      | Some (r, data) => r :: parse_runs fuel data
      end
  end.

Definition parse_run_list (data : list Z) : list DataRun := parse_runs (length data) data.

(** ** File records *)

Record NtfsAttribute := mkAttribute {
  attr_type : NtfsAttributeType;
  attr_total_size : Z;
  non_resident : bool;
  attr_name : option (list Z);
  resident_data : option (list Z);
  run_list : list DataRun;
  data_size : Z;
  initialized_size : Z
}.

Record MftRecord := mkRecord {
  record_number : Z;
  record_flags : Z;
  sequence_number : Z;
  attributes : list NtfsAttribute;
  bytes_in_use : Z
}.

(** [char::from_u32] of a 16-bit value: the surrogates are no characters. *)
Definition char_from (ch : Z) : list Z :=
  if (0xD800 <=? ch) && (ch <? 0xE000) then [] else [ch].

(** The name of an attribute, as a list of characters. *)
Definition parse_attr_name (data : list Z) (offset name_offset name_length : Z) : list Z :=
  for_each 0 name_length (λ i acc,
    let ch_off := offset + name_offset + i * 2 in
    if ch_off + 1 <? len data then acc ++ char_from (le data ch_off 2) else acc) [].

(** The attribute at [offset], of [total_size] bytes. *)
Definition parse_attribute (data : list Z) (offset total_size : Z) : outcome NtfsAttribute :=
  let ty := attribute_type (le data offset 4) in
  let non_resident := negb (byte data (offset + 8) =? 0) in
  let name_length := byte data (offset + 9) in
  let name_offset := le data (offset + 10) 2 in
  let name :=
    if (0 <? name_length) && (name_offset + name_length * 2 <=? total_size)
    then Some (parse_attr_name data offset name_offset name_length) else None in
  if non_resident then
    if offset + 0x40 <=? len data then
      let run_offset := le data (offset + 0x20) 2 in
      obind (slice data (offset + run_offset) (offset + total_size)) (λ runs,
        Ret (mkAttribute ty total_size true name None (parse_run_list runs)
               (le data (offset + 0x30) 8) (le data (offset + 0x38) 8)))
    else Ret (mkAttribute ty total_size true name None [] 0 0)
  else if offset + 0x16 <=? len data then
    let content_size := le data (offset + 0x10) 4 in
    let content_offset := le data (offset + 0x14) 2 in
    if offset + content_offset + content_size <=? len data then
      obind (slice data (offset + content_offset) (offset + content_offset + content_size))
        (λ content, Ret (mkAttribute ty total_size false name (Some content) []
                           content_size content_size))
    else Ret (mkAttribute ty total_size false name None [] content_size content_size)
  else Ret (mkAttribute ty total_size false name None [] 0 0).

(** The size of the attribute at [offset], if the loop goes on with it. *)
Definition attribute_size (data : list Z) (offset : Z) : option Z :=
  if negb (offset + 4 <? len data) then None
  else if le data offset 4 =? 0xFFFFFFFF then None
  else if len data <? offset + 24 then None
  else
    let total_size := le data (offset + 4) 4 in
    if (total_size =? 0) || (len data <? offset + total_size) then None else Some total_size.

(** The loop; every turn moves the offset on by at least one byte. *)
Fixpoint parse_attributes (fuel : nat) (data : list Z) (offset : Z)
    : outcome (list NtfsAttribute) :=
  match fuel with
  | O => Ret []
  | S fuel =>
      match attribute_size data offset with
      | None => Ret []
      | Some total_size =>
          obind (parse_attribute data offset total_size) (λ a,
            obind (parse_attributes fuel data (offset + total_size)) (λ l, Ret (a :: l)))
      end
  end.

Definition parse_mft_record (data : list Z) : outcome (KernelResult MftRecord) :=
  if len data <? MFT_RECORD_SIZE then Ret (Err IoError)
  else if negb (le data 0 4 =? MFT_RECORD_SIGNATURE) then Ret (Err IoError)
  else
    let attrs_offset := le data 0x14 2 in
    obind (parse_attributes (length data) data attrs_offset) (λ attrs,
      Ret (Ok (mkRecord 0 (le data 0x16 2) (le data 0x10 2) attrs (le data 0x18 4)))).

(** ** The journal *)

Inductive JournalOperation :=
  | FileCreate | FileDelete | FileWrite | FileRename | AttributeChange | DirectoryCreate
  | Checkpoint.

Record JournalEntry := mkEntry {
  lsn : Z;
  operation : JournalOperation;
  file_name : text;
  entry_data : list Z;
  timestamp : Z
}.

Record NtfsJournal := mkJournal {
  entries : list JournalEntry;
  max_entries : Z;
  current_lsn : Z
}.

Definition NtfsJournal_new : NtfsJournal := mkJournal [] 1024 0.

Definition log (j : NtfsJournal) (op : JournalOperation) (nm : text) (data : list Z)
    : NtfsJournal :=
  let entry := mkEntry (current_lsn j) op nm data 0 in
  let es := if max_entries j <=? Z.of_nat (length (entries j)) then drop 1 (entries j)
            else entries j in
  mkJournal (es ++ [entry]) (max_entries j) (current_lsn j + 1)%usize.

Definition checkpoint (j : NtfsJournal) : NtfsJournal := log j Checkpoint [] [].

(** ** Inodes *)

(** The pointer to the volume is the parameter block of the volume, the only
    part of it an inode looks at. *)
Record NtfsInode := mkInode {
  inode_record : Z;
  metadata : FileMetadata;
  inode_attributes : list NtfsAttribute;
  volume : NtfsBpb
}.

Definition unknown_name : list Z := str "unknown".

Definition parse_file_name (data : list Z) : list Z :=
  if len data <? 66 then unknown_name
  else
    let name_len := byte data 64 in
    if len data <? 66 + name_len * 2 then unknown_name
    else for_each 0 name_len (λ i acc, acc ++ char_from (le data (66 + i * 2) 2)) [].

Definition parse_timestamp (data : list Z) (offset : Z) : Z :=
  if len data <? offset + 8 then 0
  else
    let seconds := le data offset 8 / 10000000 in
    if 11644473600 <? seconds then seconds - 11644473600 else 0.

(** The loop of [from_mft_record] over the attributes: the name, the size, and
    the times of creation and modification. *)
Definition scan_attributes (attrs : list NtfsAttribute) : list Z * Z * Z * Z :=
  foldl (λ '(nm, size, created, modified) a,
    match attr_type a, resident_data a with
    | FileName, Some data => (parse_file_name data, size, created, modified)
    | StandardInformation, Some data =>
        (nm, size, parse_timestamp data 0, parse_timestamp data 8)
    | DataAttribute, _ => (nm, data_size a, created, modified)
    | _, _ => (nm, size, created, modified)
    end) (unknown_name, 0, 0, 0) attrs.

Definition from_mft_record (r : MftRecord) (vol : NtfsBpb) : NtfsInode :=
  let is_dir := negb (Z.land (record_flags r) IS_DIRECTORY =? 0) in
  let '(_, size, created, modified) := scan_attributes (attributes r) in
  mkInode (record_number r)
    (mkMetadata (record_number r) (if is_dir then Directory else Regular) size
       FilePermissions_default created modified modified 1 0 0)
    (attributes r) vol.

Definition get_data_attribute (i : NtfsInode) : option NtfsAttribute :=
  List.find (λ a, bool_decide (attr_type a = DataAttribute) && bool_decide (attr_name a = None))
    (inode_attributes i).

Definition get_index_root_attribute (i : NtfsInode) : option NtfsAttribute :=
  List.find (λ a, bool_decide (attr_type a = IndexRoot)) (inode_attributes i).

(** One turn of the loop of [read_from_runs], with the cluster reached, the
    bytes read so far, the position in the file and the buffer; on the right
    when the loop is left. *)
Definition read_run (cluster_size : Z) (run : DataRun) (x : Z * Z * Z * list Z)
    : (Z * Z * Z * list Z) + (Z * Z * Z * list Z) :=
  let '(current_cluster, bytes_read, file_offset, buffer) := x in
  let current_cluster := swrap 64 (current_cluster + run_offset run) in
  let run_start_byte := (wrap 64 current_cluster * cluster_size)%usize in
  let run_end_byte := (run_start_byte + (run_length run * cluster_size)%usize)%usize in
  if run_end_byte <=? file_offset then inl (current_cluster, bytes_read, file_offset, buffer)
  else
    let read_start := if run_start_byte <? file_offset
                      then (file_offset - run_start_byte)%usize else 0 in
    let read_len := Z.min ((run_length run * cluster_size)%usize - read_start)%usize
                      (len buffer - bytes_read)%usize in
    let dst_start := bytes_read in
    let dst_end := (dst_start + read_len)%usize in
    let '(bytes_read, file_offset, buffer) :=
      if dst_end <=? len buffer then
        ((bytes_read + read_len)%usize, (file_offset + read_len)%usize,
         for_each dst_start dst_end (λ i b, <[Z.to_nat i := 0]> b) buffer)
      else (bytes_read, file_offset, buffer) in
    if len buffer <=? bytes_read then inr (current_cluster, bytes_read, file_offset, buffer)
    else inl (current_cluster, bytes_read, file_offset, buffer).

Fixpoint read_runs (cluster_size : Z) (runs : list DataRun) (x : Z * Z * Z * list Z)
    : Z * Z * Z * list Z :=
  match runs with
  | [] => x
  | r :: rest =>
      match read_run cluster_size r x with
      | inl x => read_runs cluster_size rest x
      | inr x => x
      end
  end.

Definition read_from_runs (i : NtfsInode) (runs : list DataRun) (offset : Z) (buffer : list Z)
    : list Z * KernelResult Z :=
  let '(_, bytes_read, _, buffer) :=
    read_runs (cluster_size (volume i)) runs (0, 0, wrap 64 offset, buffer) in
  (buffer, Ok bytes_read).

Definition ntfs_read (i : NtfsInode) (offset : Z) (buffer : list Z)
    : outcome (list Z * KernelResult Z) :=
  match get_data_attribute i with
  | None => Ret (buffer, Err FileNotFound)
  | Some a =>
      match resident_data a with
      | Some data =>
          let start := wrap 64 offset in
          if len data <=? start then Ret (buffer, Ok 0)
          else
            let end_ := Z.min (start + len buffer)%usize (len data) in
            let n := (end_ - start)%usize in
            if len buffer <? n then Panic
            else
              obind (slice data start end_) (λ bytes,
                Ret (bytes ++ drop (Z.to_nat n) buffer, Ok n))
      | None => Ret (read_from_runs i (run_list a) offset buffer)
      end
  end.

#[export] Instance NtfsInode_Inode : Inode NtfsInode := {|
  inode_metadata i := Ok (metadata i);
  inode_read := ntfs_read;
  inode_write i _ _ := (i, Err IoError);
  inode_readdir _ := Ok [];
  inode_lookup _ _ := Err FileNotFound;
  inode_create i _ _ := (i, Err IoError);
  inode_unlink i _ := (i, Err IoError);
  inode_truncate i _ := (i, Err IoError);
  clone_inode i := mkInode (inode_record i) (metadata i) (inode_attributes i) (volume i)
|}.

(** ** The volume *)

Record NtfsVolume := mkVolume {
  bpb : NtfsBpb;
  mft_cache : btree Z MftRecord;
  journal : NtfsJournal;
  disk_id : Z
}.

Definition NtfsVolume_new (boot : list Z) (disk : Z) : KernelResult NtfsVolume :=
  match NtfsBpb_parse boot with
  | Err e => Err e
  | Ok b => Ok (mkVolume b [] NtfsJournal_new disk)
  end.

Definition create_root_directory_record : MftRecord :=
  mkRecord MFT_NUMBER_ROOT (Z.lor IN_USE IS_DIRECTORY) 1 [] MFT_RECORD_SIZE.

(** [heap_has n]: an allocation of [n] bytes succeeds; otherwise the kernel
    panics. *)
Definition get_mft_record (heap_has : Z → bool) (v : NtfsVolume) (number : Z)
    : outcome (NtfsVolume * KernelResult MftRecord) :=
  match get (mft_cache v) number with
  | Some r => Ret (v, Ok r)
  | None =>
      let record_size := mft_record_size_bytes (bpb v) in
      if (2 ^ 63 <=? record_size) || negb (heap_has record_size) then Panic
      else
        let buffer := replicate (Z.to_nat record_size) 0 in
        if forallb (λ b, b =? 0) buffer then
          if number =? MFT_NUMBER_ROOT then Ret (v, Ok create_root_directory_record)
          else Ret (v, Err FileNotFound)
        else
          obind (parse_mft_record buffer) (λ r,
            match r with
            | Err e => Ret (v, Err e)
            | Ok r =>
                let r := mkRecord (wrap 32 number) (record_flags r) (sequence_number r)
                           (attributes r) (bytes_in_use r) in
                Ret (mkVolume (bpb v) (insert (mft_cache v) number r) (journal v) (disk_id v),
                     Ok r)
            end)
  end.

Definition ntfs_root_inode (v : NtfsVolume) : NtfsInode :=
  from_mft_record (mkRecord MFT_NUMBER_ROOT (Z.lor IN_USE IS_DIRECTORY) 1 [] MFT_RECORD_SIZE)
    (bpb v).

Definition ntfs_statfs (v : NtfsVolume) : KernelResult FileSystemStats :=
  Ok (mkFsStats (total_sectors (bpb v) * bytes_per_sector (bpb v))%usize 0 0 0
        (cluster_size (bpb v)) 255).

#[export] Instance NtfsVolume_FileSystem : FileSystem NtfsVolume NtfsInode := {|
  fs_type _ := NTFS;
  label _ := str "NTFS";
  root_inode := ntfs_root_inode;
  get_inode _ _ := Err FileNotFound;
  sync _ := Ok tt;
  fs_statfs := ntfs_statfs
|}.

(** The boot sector [mount_ntfs] makes up: the signature, 512 bytes per sector
    and eight sectors per cluster. *)
Definition default_boot_sector : list Z :=
  replicate 3 0 ++ NTFS_SIGNATURE ++ [0x00; 0x02; 8] ++ replicate 498 0.

Definition mount_ntfs (v : Vfs NtfsInode NtfsVolume) (disk : Z)
    : Vfs NtfsInode NtfsVolume * KernelResult unit :=
  match NtfsVolume_new default_boot_sector disk with
  | Err e => (v, Err e)
  | Ok vol => mount v (str "/") vol MountFlags_default
  end.

(** ** Numbers from bytes *)

Definition is_bytes (data : list Z) : Prop := Forall (λ b, 0 ≤ b < 256) data.

Lemma byte_bound data i : is_bytes data → 0 ≤ byte data i < 256.
Proof.
  intros Hb. unfold byte. destruct (data !! Z.to_nat i) as [b|] eqn:E; simpl; [|lia].
  by apply (Forall_lookup_1 _ _ _ _ Hb E).
Qed.

Lemma le_bound data i n : is_bytes data → 0 ≤ le data i n < 256 ^ Z.of_nat n.
Proof.
  intros Hb. unfold le.
  assert (Hd : is_bytes (drop (Z.to_nat i) data)) by by apply Forall_drop.
  clear Hb. revert Hd. generalize (drop (Z.to_nat i) data). clear.
  induction n as [|n IH]; intros l Hl; [simpl; lia|].
  rewrite Nat2Z.inj_succ, Z.pow_succ_r by lia.
  destruct l as [|b l]; simpl; [lia|]. inversion Hl as [|? ? Hb Hl']; subst.
  pose proof (IH l Hl'). lia.
Qed.

(** One more byte. *)
Lemma le_snoc data n :
  (n < length data)%nat →
  le data 0 (S n) = le data 0 n + byte data (Z.of_nat n) * 256 ^ Z.of_nat n.
Proof.
  unfold le, byte. rewrite Nat2Z.id. change (Z.to_nat 0) with 0%nat. rewrite !drop_0.
  revert n. induction data as [|b data IH]; intros n Hn; simpl in Hn; [lia|].
  destruct n as [|n]; [simpl; lia|].
  rewrite Nat2Z.inj_succ, Z.pow_succ_r by lia.
  change (take (S (S n)) (b :: data)) with (b :: take (S n) data).
  change (take (S n) (b :: data)) with (b :: take n data).
  change ((b :: data) !! S n) with (data !! n).
  cbn [foldr]. rewrite IH by lia. lia.
Qed.

Lemma le_le_bytes n v rest : le (le_bytes n v ++ rest) 0 n = v mod 256 ^ Z.of_nat n.
Proof.
  unfold le. change (Z.to_nat 0) with 0%nat. rewrite drop_0.
  rewrite take_app_le, take_ge by (rewrite le_bytes_length; lia).
  revert v. induction n as [|n IH]; intros v; [simpl; by rewrite Z.mod_1_r|].
  cbn [le_bytes foldr]. rewrite IH.
  rewrite Nat2Z.inj_succ, Z.pow_succ_r by lia. by rewrite Z.rem_mul_r by lia.
Qed.

Lemma assemble_le data n :
  is_bytes data → 0 ≤ n ≤ 8 → n ≤ len data → assemble data n = le data 0 (Z.to_nat n).
Proof.
  intros Hb Hn Hl. unfold assemble, len in *.
  apply (for_each_rule (λ i acc, acc = le data 0 (Z.to_nat i))); [lia|done|].
  intros i acc Hi ->. pose proof (le_bound data 0 (Z.to_nat i) Hb) as Ha.
  pose proof (byte_bound data i Hb) as Hbi. rewrite Z2Nat.id in Ha by lia.
  assert (Hp : 256 ^ i = 2 ^ (i * 8)).
  { change 256 with (2 ^ 8). rewrite <- Z.pow_mul_r by lia. f_equal. lia. }
  unfold shl64. rewrite (Z.mod_small (i * 8)) by lia.
  rewrite wrap_small.
  - rewrite lor_shiftl_add by lia.
    replace (Z.to_nat (i + 1)) with (S (Z.to_nat i)) by lia.
    rewrite le_snoc, Z2Nat.id by lia. by rewrite Hp.
  - rewrite Z.shiftl_mul_pow2 by lia. split; [apply Z.mul_nonneg_nonneg; lia|].
    apply Z.lt_le_trans with (2 ^ 8 * 2 ^ (i * 8)).
    + apply Z.mul_lt_mono_pos_r; lia.
    + rewrite <- Z.pow_add_r by lia. apply Z.pow_le_mono_r; lia.
Qed.

(** ** Run lists *)

(** The loop goes on as long as a turn gives a run: the fuel is enough. *)
Lemma parse_run_shorter data r rest :
  parse_run data = Some (r, rest) → (length rest < length data)%nat.
Proof.
  unfold parse_run. destruct data as [|h data]; [done|].
  destruct (h =? 0); [done|]. cbn zeta. destruct (_ || _); [done|].
  destruct (_ =? 0). { intros [= _ <-]. simpl. rewrite length_drop. lia. }
  destruct (_ <? _); [done|]. intros [= _ <-]. simpl. rewrite !length_drop. lia.
Qed.

Lemma parse_runs_fuel f1 : ∀ f2 data,
  (length data ≤ f1)%nat → (length data ≤ f2)%nat → parse_runs f1 data = parse_runs f2 data.
Proof.
  induction f1 as [|f1 IH]; intros [|f2] data H1 H2; simpl; try done;
    try (destruct data; simpl in *; [done|lia]).
  destruct (parse_run data) as [[r rest]|] eqn:E; [|done].
  apply parse_run_shorter in E. f_equal. apply IH; lia.
Qed.

Lemma parse_run_list_eq data :
  parse_run_list data =
    match parse_run data with
    | None => []
    | Some (r, rest) => r :: parse_run_list rest
    end.
Proof.
  unfold parse_run_list at 1. destruct data as [|h data]; [done|]. cbn [length parse_runs].
  destruct (parse_run (h :: data)) as [[r rest]|] eqn:E; [|done].
  apply parse_run_shorter in E. simpl in E. f_equal. apply parse_runs_fuel; lia.
Qed.

Lemma le_bytes_is_bytes n v : is_bytes (le_bytes n v).
Proof. apply le_bytes_range. Qed.

Lemma pow256 n : 0 ≤ n → 256 ^ n = 2 ^ (8 * n).
Proof. intros Hn. change 256 with (2 ^ 8). by rewrite <- Z.pow_mul_r by lia. Qed.

(** The sign bit of a little-endian number is bit 7 of its last byte. *)
Lemma sign_byte n v rest :
  (0 < n)%nat →
  (Z.land (byte (le_bytes n v ++ rest) (Z.of_nat n - 1)) 0x80 =? 0) =
    (v mod 256 ^ Z.of_nat n <? 2 ^ (8 * Z.of_nat n - 1)).
Proof.
  intros Hn. replace (Z.of_nat n - 1) with (Z.of_nat (n - 1)) by lia.
  pose proof (le_snoc (le_bytes n v ++ rest) (n - 1)) as Hs.
  rewrite length_app, le_bytes_length in Hs. specialize (Hs ltac:(lia)).
  replace (S (n - 1)) with n in Hs by lia. rewrite le_le_bytes in Hs. rewrite Hs.
  set (b := byte (le_bytes n v ++ rest) (Z.of_nat (n - 1))).
  assert (Hb : 0 ≤ b < 256).
  { unfold b, byte. rewrite Nat2Z.id, lookup_app_l by (rewrite le_bytes_length; lia).
    pose proof (byte_bound (le_bytes n v) (Z.of_nat (n - 1)) (le_bytes_is_bytes n v)) as H.
    unfold byte in H. by rewrite Nat2Z.id in H. }
  set (low := le (le_bytes n v ++ rest) 0 (n - 1)).
  assert (Hlow : 0 ≤ low < 256 ^ Z.of_nat (n - 1)).
  { unfold low, le. change (Z.to_nat 0) with 0%nat. rewrite drop_0.
    rewrite take_app_le by (rewrite le_bytes_length; lia).
    pose proof (le_bound (le_bytes n v) 0 (n - 1) (le_bytes_is_bytes n v)) as H.
    unfold le in H. change (Z.to_nat 0) with 0%nat in H. by rewrite drop_0 in H. }
  assert (Hp : 2 ^ (8 * Z.of_nat n - 1) = 128 * 256 ^ Z.of_nat (n - 1)).
  { rewrite pow256 by lia. change 128 with (2 ^ 7). rewrite <- Z.pow_add_r by lia. f_equal. lia. }
  rewrite Hp. change 0x80 with (2 ^ 7). 
  assert (Hbit : (Z.land b (2 ^ 7) =? 0) = (b <? 128)).
  { by apply eqb_prop, (byte_cases (λ b, Bool.eqb (Z.land b (2 ^ 7) =? 0) (b <? 128))). }
  rewrite Hbit. apply eq_true_iff_eq. rewrite !Z.ltb_lt. nia.
Qed.

(** A run as NTFS writes it, with [sl] bytes of length and [ol] bytes of
    offset. *)
Definition encode_run (sl ol : nat) (r : DataRun) : list Z :=
  (Z.of_nat sl + 16 * Z.of_nat ol) :: le_bytes sl (run_length r) ++ le_bytes ol (run_offset r).

Definition encodable (x : nat * nat * DataRun) : Prop :=
  let '(sl, ol, r) := x in
  (1 ≤ sl ≤ 8)%nat ∧ (1 ≤ ol ≤ 7)%nat ∧ 0 ≤ run_length r < 256 ^ Z.of_nat sl ∧
  - 2 ^ (8 * Z.of_nat ol - 1) ≤ run_offset r < 2 ^ (8 * Z.of_nat ol - 1).

(** The offset with its sign extended. *)
Lemma sign_extend n v :
  (1 ≤ n ≤ 7)%nat → - 2 ^ (8 * Z.of_nat n - 1) ≤ v < 2 ^ (8 * Z.of_nat n - 1) →
  let u := v mod 256 ^ Z.of_nat n in
  swrap 64 (if u <? 2 ^ (8 * Z.of_nat n - 1) then u
            else Z.lor u (shl64 (Z.ones 64) (Z.of_nat n * 8))) = v.
Proof.
  intros Hn Hv u. unfold u. clear u. rewrite pow256 by lia. set (k := 8 * Z.of_nat n) in *.
  set (u := v mod 2 ^ k).
  assert (Hk : 2 ^ k = 2 * 2 ^ (k - 1)) by (rewrite <- Z.pow_succ_r by lia; f_equal; lia).
  assert (Hk1 : 0 < 2 ^ (k - 1)) by lia.
  assert (Hk64 : 2 ^ (k - 1) ≤ 2 ^ 63) by (apply Z.pow_le_mono_r; lia).
  destruct (Z.le_gt_cases 0 v) as [Hp|Hp].
  - assert (Hu : u = v) by (apply Z.mod_small; lia). rewrite Hu. case_if; [|lia].
    apply swrap_small; lia.
  - assert (Hu : u = v + 2 ^ k).
    { unfold u. rewrite <- (Z_mod_plus_full v 1), Z.mod_small; lia. }
    rewrite Hu. case_if; [lia|].
    unfold shl64. replace (Z.of_nat n * 8) with k by lia. rewrite (Z.mod_small k) by lia.
    assert (Hs : wrap 64 (Z.shiftl (Z.ones 64) k) = Z.shiftl (2 ^ (64 - k) - 1) k).
    { unfold wrap. rewrite !Z.shiftl_mul_pow2, Z.ones_equiv by lia.
      replace (Z.pred (2 ^ 64) * 2 ^ k) with (2 ^ 64 - 2 ^ k + (2 ^ k - 1) * 2 ^ 64) by lia.
      rewrite Z_mod_plus_full. replace (2 ^ 64) with (2 ^ (64 - k) * 2 ^ k) at 1
        by (rewrite <- Z.pow_add_r by lia; f_equal; lia).
      rewrite Z.mod_small; [lia|].
      assert (2 ^ k < 2 ^ 64) by (apply Z.pow_lt_mono_r; lia).
      assert (2 ^ 64 = 2 ^ (64 - k) * 2 ^ k) by (rewrite <- Z.pow_add_r by lia; f_equal; lia).
      lia. }
    rewrite Hs, lor_shiftl_add by lia.
    replace (v + 2 ^ k + (2 ^ (64 - k) - 1) * 2 ^ k) with (v + 2 ^ 64)
      by (replace (2 ^ 64) with (2 ^ (64 - k) * 2 ^ k)
            by (rewrite <- Z.pow_add_r by lia; f_equal; lia); lia).
    unfold swrap, wrap. rewrite <- (Z.mul_1_l (2 ^ 64)) at 1.
    replace (v + 2 ^ 64) with (v + 1 * 2 ^ 64) by lia. rewrite Z_mod_plus_full.
    rewrite <- (Z_mod_plus_full v 1), Z.mod_small by lia.
    case_if; [|lia]. exfalso. change (64 - 1) with 63 in *. lia.
Qed.

Lemma header_fields sl ol :
  (sl ≤ 8)%nat → (ol ≤ 8)%nat →
  let h := Z.of_nat sl + 16 * Z.of_nat ol in
  Z.land h 0x0F = Z.of_nat sl ∧ Z.land (Z.shiftr h 4) 0x0F = Z.of_nat ol.
Proof.
  intros Hs Ho h. change 0x0F with (Z.ones 4).
  rewrite !Z.land_ones, Z.shiftr_div_pow2 by lia. change (2 ^ 4) with 16. unfold h. dlia.
Qed.

Lemma parse_encode_run sl ol r rest :
  encodable (sl, ol, r) → is_bytes rest →
  parse_run (encode_run sl ol r ++ rest) = Some (r, rest).
Proof.
  intros (Hsl & Hol & Hlen & Hoff) Hrest. unfold encode_run, parse_run. cbn [app].
  destruct (header_fields sl ol) as [Hh1 Hh2]; [lia|lia|]. rewrite Hh1, Hh2.
  case_if; [lia|]. rewrite <- app_assoc.
  set (tail := le_bytes ol (run_offset r) ++ rest).
  assert (Ht : is_bytes tail) by (apply Forall_app_2; [apply le_bytes_is_bytes|done]).
  assert (Hall : is_bytes (le_bytes sl (run_length r) ++ tail))
    by (apply Forall_app_2; [apply le_bytes_is_bytes|done]).
  assert (Hl : len (le_bytes sl (run_length r) ++ tail) = Z.of_nat sl + len tail).
  { unfold len. rewrite length_app, le_bytes_length. lia. }
  assert (Hlt : len tail = Z.of_nat ol + len rest).
  { unfold len, tail. rewrite length_app, le_bytes_length. lia. }
  assert (0 ≤ len rest) by (unfold len; lia).
  rewrite (proj2 (Z.eqb_neq (Z.of_nat sl) 0)), (proj2 (Z.ltb_ge _ (Z.of_nat sl))) by lia.
  cbn [orb]. rewrite (proj2 (Z.eqb_neq (Z.of_nat ol) 0)) by lia.
  rewrite Nat2Z.id, drop_app_length' by (by rewrite le_bytes_length).
  rewrite (proj2 (Z.ltb_ge _ (Z.of_nat ol))) by lia.
  rewrite !assemble_le, !Nat2Z.id by (done || lia).
  unfold tail. rewrite sign_byte, !le_le_bytes by lia.
  rewrite drop_app_length' by (by rewrite le_bytes_length).
  rewrite sign_extend by done. rewrite Z.mod_small by lia. by destruct r.
Qed.

Definition encode_runs (l : list (nat * nat * DataRun)) : list Z :=
  concat ((λ '(sl, ol, r), encode_run sl ol r) <$> l).

Lemma encode_run_is_bytes sl ol r : encodable (sl, ol, r) → is_bytes (encode_run sl ol r).
Proof.
  intros (Hsl & Hol & _). unfold encode_run. constructor; [lia|].
  apply Forall_app_2; apply le_bytes_is_bytes.
Qed.

Lemma encode_runs_is_bytes l : Forall encodable l → is_bytes (encode_runs l).
Proof.
  induction 1 as [|[[sl ol] r] l Hx Hl IH]; [constructor|].
  change (encode_runs ((sl, ol, r) :: l)) with (encode_run sl ol r ++ encode_runs l).
  apply Forall_app_2; [by apply encode_run_is_bytes|done].
Qed.

(** C16. Run lists round-trip: for every list of runs, with lengths written in up
    to eight bytes and signed offsets in up to seven, [parse_run_list] reads back
    what was written up to the terminating zero, whatever follows it. *)
Theorem run_list_roundtrip l junk (Hl : Forall encodable l) (Hj : is_bytes junk) :
  parse_run_list (encode_runs l ++ 0 :: junk) = (λ x, x.2) <$> l.
Proof.
  induction Hl as [|[[sl ol] r] l Hx Hl IH].
  { unfold encode_runs. simpl. by rewrite parse_run_list_eq. }
  change (encode_runs ((sl, ol, r) :: l)) with (encode_run sl ol r ++ encode_runs l).
  rewrite <- app_assoc, parse_run_list_eq, parse_encode_run.
  - rewrite IH. done.
  - done.
  - apply Forall_app_2; [by apply encode_runs_is_bytes|]. constructor; [lia|done].
Qed.

Lemma run_list_roundtrip_witness :
  parse_run_list (encode_runs [(2%nat, 3%nat, mkRun 0x1234 (-5)); (1%nat, 1%nat, mkRun 16 100)]
                  ++ [0; 7]) = [mkRun 0x1234 (-5); mkRun 16 100].
Proof.
  apply (run_list_roundtrip [(2%nat, 3%nat, mkRun 0x1234 (-5)); (1%nat, 1%nat, mkRun 16 100)] [7]).
  - repeat constructor; simpl; lia.
  - repeat constructor; lia.
Defined.

(** With eight bytes of offset the sign extension shifts by 64 bits, which is
    not at all: every negative offset reads as -1. *)
Example run_offset_of_eight_bytes :
  parse_run_list (encode_run 1 8 (mkRun 16 (-2)) ++ [0]) = [mkRun 16 (-1)].
Proof. vm_compute. reflexivity. Qed.

(** ** Reading *)

Lemma slice_in data a b :
  0 ≤ a ≤ b → b ≤ len data →
  slice data a b = Ret (take (Z.to_nat (b - a)) (drop (Z.to_nat a) data)).
Proof.
  intros Ha Hb. unfold slice. rewrite (proj2 (Z.leb_le a b)), (proj2 (Z.leb_le b _)) by lia. done.
Qed.

Lemma got_length data off buffer :
  Z.of_nat (length (got data off buffer)) = Z.min (len buffer) (Z.max 0 (len data - Z.max 0 off)).
Proof. unfold got, len. rewrite length_take, length_drop. lia. Qed.

(** A file whose data is resident in its record keeps the promise of the
    [Inode] interface: it reads as exactly those bytes. *)
Theorem resident_reads_as i a data
    (Ha : get_data_attribute i = Some a) (Hd : resident_data a = Some data)
    (Hl : len data < 2 ^ 63) :
  reads_as i data.
Proof.
  intros off buffer Hoff Hb. simpl. unfold ntfs_read. rewrite Ha, Hd.
  pose proof (got_length data off buffer) as Hg. fold (len buffer) in Hb.
  assert (0 ≤ len data ∧ 0 ≤ len buffer) as [Hd0 Hb0] by (unfold len; lia).
  rewrite (wrap_small 64 off) by lia. case_if.
  - assert (Hz : got data off buffer = []) by (apply nil_length_inv; lia).
    rewrite Hz. done.
  - rewrite (usize_small (off + len buffer)) by lia. rewrite usize_small by lia.
    case_if; [lia|]. rewrite slice_in by lia. cbn [obind].
    assert (Hn : Z.to_nat (Z.min (off + len buffer) (len data) - off) =
                 length (got data off buffer)) by lia.
    rewrite Hn. f_equal. f_equal; [|f_equal; lia]. f_equal.
    unfold got. rewrite length_take. unfold got, len in *.
    destruct (Nat.le_gt_cases (length buffer) (length (drop (Z.to_nat off) data))).
    + by rewrite Nat.min_l.
    + by rewrite Nat.min_r, !take_ge by lia.
Qed.

Definition demo_bpb : NtfsBpb := mkBpb 512 8 0 0 0 0 0 0 4096.
Definition demo_attr : NtfsAttribute :=
  mkAttribute DataAttribute 0x20 false None (Some (str "hello")) [] 5 5.
Definition demo_file : NtfsInode := from_mft_record (mkRecord 9 1 1 [demo_attr] 1024) demo_bpb.

Lemma resident_reads_as_witness :
  inode_read demo_file 1 [9; 9; 9; 9; 9] = Ret (str "ello" ++ [9], Ok 4).
Proof.
  pose proof (resident_reads_as demo_file demo_attr (str "hello") eq_refl eq_refl
    ltac:(unfold len; simpl; lia)) as H.
  exact (H 1 [9; 9; 9; 9; 9] ltac:(lia) ltac:(simpl; lia)).
Defined.

(** The buffer with its first [n] bytes cleared. *)
Definition cleared (n : Z) (buffer : list Z) : list Z :=
  replicate (Z.to_nat n) 0 ++ drop (Z.to_nat n) buffer.

Lemma cleared_length n buffer : 0 ≤ n ≤ len buffer → len (cleared n buffer) = len buffer.
Proof. intros Hn. unfold len, cleared in *. rewrite length_app, length_replicate, length_drop. lia. Qed.

Lemma clear_step n buffer :
  0 ≤ n < len buffer → <[Z.to_nat n := 0]> (cleared n buffer) = cleared (n + 1) buffer.
Proof.
  intros Hn. unfold cleared, len in *.
  rewrite insert_app_r_alt by (rewrite length_replicate; lia).
  rewrite length_replicate, Nat.sub_diag.
  replace (Z.to_nat (n + 1)) with (S (Z.to_nat n)) by lia.
  destruct (drop (Z.to_nat n) buffer) as [|x l] eqn:E.
  { apply (f_equal length) in E. rewrite length_drop in E. simpl in E. lia. }
  rewrite replicate_S_end, <- app_assoc. simpl. do 2 f_equal.
  replace (S (Z.to_nat n)) with (Z.to_nat n + 1)%nat by lia.
  by rewrite <- drop_drop, E.
Qed.

Lemma clear_loop a b buffer :
  0 ≤ a ≤ b → b ≤ len buffer →
  for_each a b (λ i l, <[Z.to_nat i := 0]> l) (cleared a buffer) = cleared b buffer.
Proof.
  intros Hab Hb. apply (for_each_rule (λ n l, l = cleared n buffer)); [lia|done|].
  intros i l Hi ->. apply clear_step. lia.
Qed.

(** What the loop over the runs keeps: the bytes read so far are zeros. *)
Definition zeroed (buffer : list Z) (x : Z * Z * Z * list Z) : Prop :=
  let '(_, bytes_read, _, b) := x in
  0 ≤ bytes_read ≤ len buffer ∧ b = cleared bytes_read buffer.

Lemma read_run_zeroed cs r buffer x :
  len buffer < 2 ^ 63 → zeroed buffer x →
  match read_run cs r x with inl y | inr y => zeroed buffer y end.
Proof.
  intros Hl. destruct x as [[[c n] fo] b]. intros [Hn ->].
  unfold read_run. cbn zeta. rewrite cleared_length by done.
  destruct (_ <=? fo); [done|].
  rewrite (usize_small (len buffer - n)) by lia.
  set (read_len := Z.min _ (len buffer - n)).
  assert (Hrl : 0 ≤ read_len ≤ len buffer - n).
  { unfold read_len. split; [|lia]. apply Z.min_glb; [|lia]. by apply wrap_bounds. }
  clearbody read_len. rewrite (usize_small (n + read_len)) by lia.
  rewrite (proj2 (Z.leb_le (n + read_len) _)) by lia. rewrite clear_loop by lia.
  rewrite cleared_length by lia.
  assert (Hz : ∀ c fo, zeroed buffer (c, n + read_len, fo, cleared (n + read_len) buffer))
    by (intros; split; [lia|done]).
  destruct (_ <=? n + read_len); apply Hz.
Qed.

Lemma read_runs_zeroed cs runs buffer x :
  len buffer < 2 ^ 63 → zeroed buffer x → zeroed buffer (read_runs cs runs x).
Proof.
  intros Hl. revert x. induction runs as [|r runs IH]; intros x Hx; simpl; [done|].
  pose proof (read_run_zeroed cs r buffer x Hl Hx) as Hr.
  destruct (read_run cs r x); [by apply IH|done].
Qed.

(** A file whose data is not resident is never read from the disk: whatever
    its runs and the volume, a read succeeds with some number of bytes, and every
    one of them is zero. *)
Theorem nonresident_reads_zeros i a offset buffer
    (Ha : get_data_attribute i = Some a) (Hd : resident_data a = None)
    (Hl : len buffer < 2 ^ 63) :
  ∃ n, 0 ≤ n ≤ len buffer ∧ inode_read i offset buffer = Ret (cleared n buffer, Ok n).
Proof.
  simpl. unfold ntfs_read. rewrite Ha, Hd. unfold read_from_runs.
  pose proof (read_runs_zeroed (cluster_size (volume i)) (run_list a) buffer
    (0, 0, wrap 64 offset, buffer) Hl) as Hz.
  destruct (read_runs _ _ _) as [[[c n] fo] b]. destruct Hz as [Hn ->]; [|by exists n].
  split; [unfold len; lia|done].
Qed.

Definition demo_sparse : NtfsInode :=
  from_mft_record (mkRecord 9 1 1
    [mkAttribute DataAttribute 0x50 true None None [mkRun 2 1] 6000 6000] 1024) demo_bpb.

Lemma nonresident_reads_zeros_witness :
  ∃ n, 0 ≤ n ≤ 3 ∧ inode_read demo_sparse 0 [7; 7; 7] = Ret (cleared n [7; 7; 7], Ok n).
Proof.
  apply (nonresident_reads_zeros demo_sparse
    (mkAttribute DataAttribute 0x50 true None None [mkRun 2 1] 6000 6000) 0 [7; 7; 7]).
  - reflexivity.
  - reflexivity.
  - unfold len. simpl. lia.
Defined.

(** ** File records *)

(** The offsets the loop of [parse_mft_record] comes to. *)
Inductive visits (data : list Z) : Z → Z → Prop :=
  | visits_here off : visits data off off
  | visits_next off size off' :
      attribute_size data off = Some size → visits data (off + size) off' → visits data off off'.

(** A non-resident attribute whose run list starts behind its end. *)
Definition bad_runs (data : list Z) (off : Z) : Prop :=
  ∃ size, attribute_size data off = Some size ∧ byte data (off + 8) ≠ 0 ∧
    off + 0x40 ≤ len data ∧ size < le data (off + 0x20) 2.

Lemma attribute_size_range data off size :
  is_bytes data → attribute_size data off = Some size → 0 < size ∧ off + size ≤ len data.
Proof.
  intros Hb. unfold attribute_size. destruct (negb _); [done|].
  destruct (_ =? 0xFFFFFFFF); [done|]. destruct (_ <? off + 24); [done|].
  destruct (_ || _) eqn:E; [done|]. intros [= <-]. break_cmp.
  pose proof (le_bound data (off + 4) 4 Hb). lia.
Qed.

Lemma parse_attribute_panics data off size :
  is_bytes data → 0 ≤ off → attribute_size data off = Some size →
  parse_attribute data off size = Panic ↔ bad_runs data off.
Proof.
  intros Hb Ho Hs. pose proof (attribute_size_range _ _ _ Hb Hs) as [Hs0 Hs1].
  pose proof (le_bound data (off + 0x20) 2 Hb) as Hrun.
  pose proof (le_bound data (off + 0x14) 2 Hb) as Hco.
  pose proof (le_bound data (off + 0x10) 4 Hb) as Hcs.
  unfold bad_runs. rewrite Hs. unfold parse_attribute. cbn zeta.
  match goal with |- context [mkAttribute _ _ _ ?n _ _ _ _] => generalize n; intros nm end.
  destruct (byte data (off + 8) =? 0) eqn:Enr; break_cmp; cbn [negb].
  - split; [|by intros (? & _ & ? & _)].
    destruct (off + 0x16 <=? len data); [|done].
    destruct (off + _ + _ <=? len data) eqn:E; break_cmp; [|done]. by rewrite slice_in by lia.
  - destruct (off + 0x40 <=? len data) eqn:E40; break_cmp.
    + destruct (Z.le_gt_cases (le data (off + 32) 2) size).
      * rewrite slice_in by lia. split; [done|]. intros (? & [= <-] & _ & _ & ?). lia.
      * unfold slice. rewrite (proj2 (Z.leb_gt _ (off + size))) by lia. simpl.
        split; [|done]. intros _. by exists size.
    + split; [done|]. intros (? & _ & _ & ? & _). lia.
Qed.

Lemma parse_attributes_panics data : is_bytes data → ∀ fuel off,
  0 ≤ off → len data - off ≤ Z.of_nat fuel →
  parse_attributes fuel data off = Panic ↔ ∃ off', visits data off off' ∧ bad_runs data off'.
Proof.
  intros Hb. induction fuel as [|fuel IH]; intros off Ho Hf.
  { split; [done|]. intros (off' & Hv & size & Hs & _). exfalso.
    assert (Hno : ∀ s, attribute_size data off ≠ Some s).
    { intros s Hs'. apply attribute_size_range in Hs'; [lia|done]. }
    destruct Hv as [|off s off' Hs' _]; [by apply (Hno size)|by apply (Hno s)]. }
  simpl. destruct (attribute_size data off) as [size|] eqn:Hs.
  - pose proof (attribute_size_range _ _ _ Hb Hs) as [Hs0 Hs1].
    pose proof (parse_attribute_panics data off size Hb Ho Hs) as Hp.
    specialize (IH (off + size) ltac:(lia) ltac:(lia)).
    destruct (parse_attribute data off size) as [a|]; simpl.
    + transitivity (parse_attributes fuel data (off + size) = Panic);
        [by destruct (parse_attributes fuel data (off + size))|].
      rewrite IH. split; intros (off' & Hv & Hbad); exists off'; (split; [|done]).
      * by apply (visits_next _ _ size).
      * inversion Hv as [|? size' ? Hs' Hv']; subst.
        { apply Hp in Hbad. done. }
        rewrite Hs in Hs'. by injection Hs' as <-.
    + split; [|done]. intros _. exists off. split; [constructor|]. by apply Hp.
  - split; [done|]. intros (off' & Hv & Hbad). exfalso.
    destruct Hv as [off|off s off' Hs' _]; [|congruence].
    destruct Hbad as (? & ? & _). congruence.
Qed.


(** A record whose first attribute, at 0x38, is not resident, 0x48 bytes long,
    with its run list at offset 0x60. *)
Definition demo_record : list Z :=
  [0x46; 0x49; 0x4C; 0x45] ++ replicate 16 0 ++ [0x38; 0] ++ replicate 34 0 ++
  [0x80; 0; 0; 0; 0x48; 0; 0; 0; 1] ++ replicate 23 0 ++ [0x60; 0] ++ replicate 934 0.


(** ** The volume *)

(** The driver reads nothing from the disk: with nothing cached, the root is the
    only record there is. *)
Lemma get_mft_record_only_root heap_has v number r :
  mft_cache v = [] → get_mft_record heap_has v number = Ret r →
  r = (v, if number =? MFT_NUMBER_ROOT then Ok create_root_directory_record else Err FileNotFound).
Proof.
  intros Hc. unfold get_mft_record. rewrite Hc. simpl. destruct (_ || _); [done|].
  assert (Hall : forallb (λ b, b =? 0) (replicate (Z.to_nat (mft_record_size_bytes (bpb v))) 0) = true).
  { apply forallb_forall. intros b Hb%list_elem_of_In.
    apply elem_of_replicate in Hb as [-> _]. done. }
  rewrite Hall. destruct (number =? MFT_NUMBER_ROOT); by intros [= <-].
Qed.

Definition demo_volume (disk : Z) : NtfsVolume := mkVolume demo_bpb [] NtfsJournal_new disk.

Lemma mount_ntfs_new disk :
  mount_ntfs Vfs_new disk =
    (mkVfs [(str "/", mkMountPoint (str "/") (demo_volume disk) MountFlags_default)] 3 [], Ok tt).
Proof. vm_compute. reflexivity. Qed.

Lemma walk_root v cs : walk (ntfs_root_inode v) cs = if bool_decide (cs = []) then Ok (ntfs_root_inode v) else Err FileNotFound.
Proof. by destruct cs. Qed.

Lemma traverse_ntfs v p :
  traverse_path (ntfs_root_inode v) p =
    if bool_decide (split_nonempty 47 p = []) then Ok (ntfs_root_inode v) else Err FileNotFound.
Proof.
  unfold traverse_path. case_bool_decide as H1; [by rewrite H1|].
  case_bool_decide as H2; [by rewrite H2|]. apply walk_root.
Qed.

(** The components of a path that starts with a slash are those of the rest. *)
Lemma split_nonempty_slash p : split_nonempty 47 (47 :: p) = split_nonempty 47 p.
Proof. done. Qed.

(** After [mount_ntfs] on a fresh layer, the only thing that can be opened is
    the root directory: a path with a component fails with [FileNotFound], and
    reading the root fails the same way. *)
Theorem ntfs_only_root disk p fl :
  let v := (mount_ntfs Vfs_new disk).1 in
  (open v p fl).2 = (if bool_decide (split_nonempty 47 p = []) then Ok 3 else Err FileNotFound) ∧
  ∀ buffer, inode_read (ntfs_root_inode (demo_volume disk)) 0 buffer = Ret (buffer, Err FileNotFound).
Proof.
  rewrite mount_ntfs_new. cbn [fst]. split; [|done].
  assert (Hf : find_inode (mkVfs [(str "/", mkMountPoint (str "/") (demo_volume disk)
      MountFlags_default)] 3 []) p = traverse_path (ntfs_root_inode (demo_volume disk)) p).
  { unfold find_inode, resolve_mount_point, best_mount.
    cbn [mount_points keys fmap list_fmap foldl fst].
    destruct (starts_with p (str "/") && (0 <? Z.of_nat (length (str "/")))) eqn:E.
    - apply andb_true_iff in E as [[rest ->]%starts_with_spec _].
      rewrite bool_decide_false by done.
      change (drop (Z.to_nat (Z.of_nat (length (str "/")))) (str "/" ++ rest)) with rest.
      change (traverse_path (ntfs_root_inode (demo_volume disk)) rest =
              traverse_path (ntfs_root_inode (demo_volume disk)) (47 :: rest)).
      by rewrite !traverse_ntfs, split_nonempty_slash.
    - rewrite bool_decide_true by done. done. }
  unfold open. rewrite Hf, traverse_ntfs. by case_bool_decide.
Qed.

(** ** The journal *)

Lemma seqZ_snoc m n : 0 < n → seqZ m n = seqZ m (n - 1) ++ [m + n - 1].
Proof.
  intros Hn. replace n with ((n - 1) + 1) at 1 by lia. rewrite seqZ_app by lia.
  f_equal. rewrite seqZ_cons by lia. simpl. f_equal. lia.
Qed.

Definition log_all (l : list (JournalOperation * text * list Z)) : NtfsJournal :=
  foldl (λ j '(op, nm, data), log j op nm data) NtfsJournal_new l.

(** After any number of entries the journal holds the last 1024 of them, in
    order, numbered consecutively up to the last. *)
Theorem journal_keeps_last l (Hl : Z.of_nat (length l) < 2 ^ 64) :
  let j := log_all l in
  let old := (length l - 1024)%nat in
  current_lsn j = wrap 64 (Z.of_nat (length l)) ∧
  (λ e, (operation e, file_name e, entry_data e)) <$> entries j = drop old l ∧
  lsn <$> entries j = seqZ (Z.of_nat old) (Z.of_nat (length l - old)).
Proof.
  unfold log_all. assert (Hm : max_entries NtfsJournal_new = 1024) by done.
  revert Hl. induction l as [|[[op nm] data] l IH] using rev_ind; intros Hl; [done|].
  rewrite length_app in Hl. simpl in Hl. destruct IH as (H1 & H2 & H3); [lia|].
  rewrite foldl_app. cbn [foldl]. set (j := foldl _ _ l) in *.
  assert (Hmax : max_entries j = 1024).
  { unfold j. clear. induction l as [|[[op nm] data] l IH] using rev_ind; [done|].
    rewrite foldl_app. simpl. done. }
  assert (Hlen : length (entries j) = (length l - (length l - 1024))%nat).
  { apply (f_equal length) in H2. by rewrite length_fmap, length_drop in H2. }
  unfold log. rewrite Hmax. cbn [current_lsn entries]. rewrite length_app. cbn [length].
  rewrite H1, (usize_small (Z.of_nat (length l))) by lia.
  split; [f_equal; lia|].
  destruct (1024 <=? Z.of_nat (length (entries j))) eqn:E; break_cmp.
  - replace (length l + 1 - 1024)%nat with (length l - 1024 + 1)%nat by lia.
    rewrite !fmap_app, !fmap_drop, H2, H3. split.
    + rewrite drop_drop, drop_app_le by lia. done.
    + rewrite seqZ_cons by lia. cbn [drop fmap list_fmap lsn].
      rewrite (seqZ_snoc _ (Z.of_nat _)) by lia. rewrite drop_0. f_equal; f_equal; lia.
  - replace (length l + 1 - 1024)%nat with (length l - 1024)%nat by lia.
    rewrite !fmap_app, H2, H3. split.
    + rewrite drop_app_le by lia. done.
    + cbn [fmap list_fmap lsn]. rewrite (seqZ_snoc _ (Z.of_nat (_ + 1 - _))) by lia.
      f_equal; f_equal; lia.
Qed.

Lemma journal_keeps_last_witness :
  lsn <$> entries (log_all [(FileCreate, str "a", []); (FileWrite, str "a", [1; 2])]) = [0; 1].
Proof.
  destruct (journal_keeps_last [(FileCreate, str "a", []); (FileWrite, str "a", [1; 2])])
    as (_ & _ & H).
  - simpl. lia.
  - exact H.
Defined.

End Ntfs.
