(* ===== verification/Acpi.v ===== *)
(** * The ACPI tables (src/acpi/mod.rs)

    The search for the root pointer, the checksums and the parsers of the root
    tables, the MADT and the HPET table, over the bytes of physical memory.  The
    packed structures are layouts, lists of fields with their sizes, and a field
    of a table in memory is read at the offset its layout gives.  The parser
    carries the lines it prints. *)

From stdpp Require Import base numbers list gmap strings.
From S2P Require Import Prelude Memory Text.
Import Text.
Open Scope Z_scope.

Module Acpi.

Definition RSDP_SIGNATURE : list Z := str "RSD PTR ".
Definition MADT_SIGNATURE : list Z := str "APIC".
Definition HPET_SIGNATURE : list Z := str "HPET".
Definition FADT_SIGNATURE : list Z := str "FACP".

(** The [n] bytes at [a]. *)
Definition read_bytes (m : mem) (a n : Z) : list Z := (λ i, rd m (a + i)) <$> seqZ 0 n.

(** The wrapping sum of bytes. *)
Definition byte_sum (l : list Z) : Z := foldl (λ acc b, wrap 8 (acc + b)) 0 l.

(** ** Packed structures *)

(** The fields of a [repr(C, packed)] structure in order, with their sizes. *)
Definition packed : Type := list (string * nat).

Fixpoint size_of (s : packed) : Z :=
  match s with
  | [] => 0
  | (_, n) :: s => Z.of_nat n + size_of s
  end.

Fixpoint offset_of (s : packed) (f : string) : Z :=
  match s with
  | [] => 0
  | (g, n) :: s => if (f =? g)%string then 0 else Z.of_nat n + offset_of s f
  end.

Fixpoint width_of (s : packed) (f : string) : nat :=
  match s with
  | [] => 0%nat
  | (g, n) :: s => if (f =? g)%string then n else width_of s f
  end.

(** The integer, and the array of bytes, that is the field [f] of the structure
    at [a]. *)
Definition field (m : mem) (a : Z) (s : packed) (f : string) : Z :=
  load m (a + offset_of s f) (width_of s f).
Definition array (m : mem) (a : Z) (s : packed) (f : string) : list Z :=
  read_bytes m (a + offset_of s f) (Z.of_nat (width_of s f)).

Definition nested (s : packed) : nat := Z.to_nat (size_of s).

Definition Rsdp : packed :=
  [("signature", 8%nat); ("checksum", 1%nat); ("oem_id", 6%nat); ("revision", 1%nat);
   ("rsdt_address", 4%nat); ("length", 4%nat); ("xsdt_address", 8%nat);
   ("extended_checksum", 1%nat); ("reserved", 3%nat)]%string.

Definition SdtHeader : packed :=
  [("signature", 4%nat); ("length", 4%nat); ("revision", 1%nat); ("checksum", 1%nat);
   ("oem_id", 6%nat); ("oem_table_id", 8%nat); ("oem_revision", 4%nat); ("compiler_id", 4%nat);
   ("compiler_revision", 4%nat)]%string.

Definition Madt : packed :=
  [("header", nested SdtHeader); ("local_apic_address", 4%nat); ("flags", 4%nat)]%string.

Definition MadtEntryHeader : packed := [("entry_type", 1%nat); ("length", 1%nat)]%string.

Definition MadtLocalApicEntry : packed :=
  [("header", nested MadtEntryHeader); ("processor_id", 1%nat); ("apic_id", 1%nat);
   ("flags", 4%nat)]%string.

Definition MadtIoApicEntry : packed :=
  [("header", nested MadtEntryHeader); ("io_apic_id", 1%nat); ("reserved", 1%nat);
   ("io_apic_address", 4%nat); ("global_system_interrupt_base", 4%nat)]%string.

Definition MadtIntSourceOverrideEntry : packed :=
  [("header", nested MadtEntryHeader); ("bus_source", 1%nat); ("irq_source", 1%nat);
   ("global_system_interrupt", 4%nat); ("flags", 2%nat)]%string.

Definition MadtLocalApicAddressOverrideEntry : packed :=
  [("header", nested MadtEntryHeader); ("reserved", 2%nat); ("local_apic_address", 8%nat)]%string.

Definition AcpiGenericAddress : packed :=
  [("address_space_id", 1%nat); ("register_bit_width", 1%nat); ("register_bit_offset", 1%nat);
   ("access_size", 1%nat); ("address", 8%nat)]%string.

Definition HpetTable : packed :=
  [("header", nested SdtHeader); ("event_timer_block_id", 4%nat);
   ("base_address", nested AcpiGenericAddress); ("hpet_number", 1%nat); ("minimum_tick", 2%nat);
   ("page_protection", 1%nat)]%string.

Definition Fadt : packed :=
  [("header", nested SdtHeader); ("firmware_ctrl", 4%nat); ("dsdt", 4%nat); ("reserved0", 1%nat);
   ("preferred_pm_profile", 1%nat); ("sci_interrupt", 2%nat); ("smi_command_port", 4%nat);
   ("acpi_enable", 1%nat); ("acpi_disable", 1%nat); ("s4bios_req", 1%nat); ("pstate_cnt", 1%nat);
   ("pm1a_event_block", 4%nat); ("pm1b_event_block", 4%nat); ("pm1a_control_block", 4%nat);
   ("pm1b_control_block", 4%nat); ("pm2_control_block", 4%nat); ("pm_timer_block", 4%nat);
   ("gpe0_block", 4%nat); ("gpe1_block", 4%nat); ("pm1_event_length", 1%nat);
   ("pm1_control_length", 1%nat); ("pm2_control_length", 1%nat); ("pm_timer_length", 1%nat);
   ("gpe0_block_length", 1%nat); ("gpe1_block_length", 1%nat); ("gpe1_base", 1%nat);
   ("cstate_cnt", 1%nat); ("p_lvl2_lat", 2%nat); ("p_lvl3_lat", 2%nat); ("flush_size", 2%nat);
   ("flush_stride", 2%nat); ("duty_offset", 1%nat); ("duty_width", 1%nat); ("day_alrm", 1%nat);
   ("mon_alrm", 1%nat); ("century", 1%nat); ("iapc_boot_arch", 2%nat); ("reserved1", 1%nat);
   ("flags", 4%nat); ("reset_reg", nested AcpiGenericAddress); ("reset_value", 1%nat);
   ("reserved2", 3%nat); ("x_firmware_ctrl", 8%nat); ("x_dsdt", 8%nat);
   ("x_pm1a_event_block", nested AcpiGenericAddress); ("x_pm1b_event_block", nested AcpiGenericAddress);
   ("x_pm1a_control_block", nested AcpiGenericAddress);
   ("x_pm1b_control_block", nested AcpiGenericAddress);
   ("x_pm2_control_block", nested AcpiGenericAddress); ("x_pm_timer_block", nested AcpiGenericAddress);
   ("x_gpe0_block", nested AcpiGenericAddress); ("x_gpe1_block", nested AcpiGenericAddress)]%string.

Inductive MadtEntryType :=
  | LocalApic | IoApic | InterruptSourceOverride | NmiSource | LocalApicNmi
  | LocalApicAddressOverride | IoSapic | LocalSapic | PlatformInterruptSource | UnknownEntry.

(** [impl From<u8> for MadtEntryType]. *)
Definition madt_entry_type (v : Z) : MadtEntryType :=
  match v with
  | 0 => LocalApic
  | 1 => IoApic
  | 2 => InterruptSourceOverride
  | 3 => NmiSource
  | 4 => LocalApicNmi
  | 5 => LocalApicAddressOverride
  | 6 => IoSapic
  | 7 => LocalSapic
  | 8 => PlatformInterruptSource
  | _ => UnknownEntry
  end.

Record ProcessorInfo := mkProcessor { processor_id : Z; apic_id : Z; is_enabled : bool }.

Record IntOverride := mkOverride {
  bus_source : Z;
  irq_source : Z;
  global_system_interrupt : Z;
  override_flags : Z
}.

Record AcpiInfo := mkAcpi {
  local_apic_address : Z;
  io_apic_address : Z;
  io_apic_gsi_base : Z;
  hpet_address : Z;
  hpet_number : Z;
  hpet_min_tick : Z;
  processor_count : Z;
  processors : list ProcessorInfo;
  int_overrides : list IntOverride;
  int_override_count : Z;
  is_acpi_2 : bool
}.

Definition AcpiInfo_new : AcpiInfo :=
  mkAcpi 0xFEE00000 0xFEC00000 0 0 0 0 0 (replicate 256 (mkProcessor 0 0 false))
    (replicate 16 (mkOverride 0 0 0 0)) 0 false.

Definition set_lapic (a : Z) (i : AcpiInfo) : AcpiInfo :=
  mkAcpi a (io_apic_address i) (io_apic_gsi_base i) (hpet_address i) (hpet_number i)
    (hpet_min_tick i) (processor_count i) (processors i) (int_overrides i)
    (int_override_count i) (is_acpi_2 i).
Definition set_ioapic (a gsi : Z) (i : AcpiInfo) : AcpiInfo :=
  mkAcpi (local_apic_address i) a gsi (hpet_address i) (hpet_number i) (hpet_min_tick i)
    (processor_count i) (processors i) (int_overrides i) (int_override_count i) (is_acpi_2 i).
Definition set_hpet (a n tick : Z) (i : AcpiInfo) : AcpiInfo :=
  mkAcpi (local_apic_address i) (io_apic_address i) (io_apic_gsi_base i) a n tick
    (processor_count i) (processors i) (int_overrides i) (int_override_count i) (is_acpi_2 i).
Definition set_acpi_2 (b : bool) (i : AcpiInfo) : AcpiInfo :=
  mkAcpi (local_apic_address i) (io_apic_address i) (io_apic_gsi_base i) (hpet_address i)
    (hpet_number i) (hpet_min_tick i) (processor_count i) (processors i) (int_overrides i)
    (int_override_count i) b.

(** The count is a [u8]: it is below 256 at any time, and wraps around. *)
Definition add_processor (p : ProcessorInfo) (i : AcpiInfo) : AcpiInfo :=
  if processor_count i <? 256 then
    mkAcpi (local_apic_address i) (io_apic_address i) (io_apic_gsi_base i) (hpet_address i)
      (hpet_number i) (hpet_min_tick i) (wrap 8 (processor_count i + 1))
      (<[Z.to_nat (processor_count i) := p]> (processors i)) (int_overrides i)
      (int_override_count i) (is_acpi_2 i)
  else i.

Definition add_override (o : IntOverride) (i : AcpiInfo) : AcpiInfo :=
  if int_override_count i <? 16 then
    mkAcpi (local_apic_address i) (io_apic_address i) (io_apic_gsi_base i) (hpet_address i)
      (hpet_number i) (hpet_min_tick i) (processor_count i) (processors i)
      (<[Z.to_nat (int_override_count i) := o]> (int_overrides i)) (int_override_count i + 1)
      (is_acpi_2 i)
  else i.

(** [AcpiParser], with the lines printed so far. *)
Record AcpiParser := mkParser { info : AcpiInfo; printed : list text }.

Definition AcpiParser_new : AcpiParser := mkParser AcpiInfo_new [].
Definition kprintln (line : text) (p : AcpiParser) : AcpiParser := mkParser (info p) (printed p ++ [line]).
Definition update (f : AcpiInfo → AcpiInfo) (p : AcpiParser) : AcpiParser :=
  mkParser (f (info p)) (printed p).

(** ** The root pointer *)

Definition validate_checksum (m : mem) (rsdp : Z) : bool :=
  byte_sum (read_bytes m rsdp (size_of Rsdp)) =? 0.

(** The address of the first valid root pointer in the region; the turn at
    offset [16 * k]. *)
Definition search_region (m : mem) (start size : Z) : option Z :=
  match for_loop 0 ((size + 15) / 16) (λ k (_ : unit),
    let p := start + 16 * k in
    if negb (rd m p =? 82) then inl tt
    else if start + size <? p + 8 then inr None
    else if bool_decide (array m p Rsdp "signature" = RSDP_SIGNATURE) && validate_checksum m p
    then inr (Some p) else inl tt) tt with
  | inl _ => None
  | inr r => r
  end.

Definition find (m : mem) : option Z :=
  let ebda_ptr := load m 0x40E 2 in
  match (if negb (ebda_ptr =? 0) then search_region m ebda_ptr 1024 else None) with
  | Some p => Some p
  | None => search_region m 0xE0000 0x20000
  end.

Definition xsdt_address (m : mem) (rsdp : Z) : option Z :=
  if (2 <=? field m rsdp Rsdp "revision") && negb (field m rsdp Rsdp "xsdt_address" =? 0)
  then Some (field m rsdp Rsdp "xsdt_address") else None.
Definition rsdt_address (m : mem) (rsdp : Z) : Z := field m rsdp Rsdp "rsdt_address".

(** ** The tables *)

Definition validate (m : mem) (a : Z) : bool :=
  byte_sum (read_bytes m a (field m a SdtHeader "length")) =? 0.

(** The entry of the MADT at [a]. *)
Definition parse_entry (m : mem) (a : Z) (i : AcpiInfo) : AcpiInfo :=
  match madt_entry_type (field m a MadtEntryHeader "entry_type") with
  | LocalApic =>
      let entry := field m a MadtLocalApicEntry in
      let is_enabled := negb (Z.land (entry "flags"%string) 1 =? 0) in
      add_processor (mkProcessor (entry "processor_id"%string) (entry "apic_id"%string) is_enabled) i
  | IoApic =>
      let entry := field m a MadtIoApicEntry in
      set_ioapic (entry "io_apic_address"%string) (entry "global_system_interrupt_base"%string) i
  | InterruptSourceOverride =>
      let entry := field m a MadtIntSourceOverrideEntry in
      add_override (mkOverride (entry "bus_source"%string) (entry "irq_source"%string)
                      (entry "global_system_interrupt"%string) (entry "flags"%string)) i
  | LocalApicAddressOverride =>
      set_lapic (field m a MadtLocalApicAddressOverrideEntry "local_apic_address") i
  | _ => i
  end.

(** The loop of [parse_madt]; every turn moves the offset on by at least one
    byte. *)
Fixpoint parse_entries (fuel : nat) (m : mem) (addr total_length offset : Z) (i : AcpiInfo)
    : AcpiInfo :=
  match fuel with
  | O => i
  | S fuel =>
      if negb (offset <? total_length) then i
      else
        let i := parse_entry m (addr + offset) i in
        let len := field m (addr + offset) MadtEntryHeader "length" in
        if len =? 0 then i else parse_entries fuel m addr total_length (offset + len) i
  end.

Definition parse_madt (m : mem) (addr : Z) (i : AcpiInfo) : AcpiInfo :=
  let i := set_lapic (field m addr Madt "local_apic_address") i in
  let total_length := field m addr SdtHeader "length" in
  parse_entries (Z.to_nat total_length) m addr total_length (size_of Madt) i.

Definition parse_hpet (m : mem) (addr : Z) (i : AcpiInfo) : AcpiInfo :=
  let base_address := addr + offset_of HpetTable "base_address" in
  set_hpet (field m base_address AcpiGenericAddress "address") (field m addr HpetTable "hpet_number")
    (field m addr HpetTable "minimum_tick") i.

Definition parse_table (m : mem) (addr : Z) (p : AcpiParser) : AcpiParser :=
  let s := array m addr SdtHeader "signature" in
  if bool_decide (s = MADT_SIGNATURE) then
    update (parse_madt m addr) (kprintln (str "[ACPI] Found MADT at " ++ fmt_hex addr) p)
  else if bool_decide (s = HPET_SIGNATURE) then
    update (parse_hpet m addr) (kprintln (str "[ACPI] Found HPET at " ++ fmt_hex addr) p)
  else if bool_decide (s = FADT_SIGNATURE) then
    kprintln (str "[ACPI] Found FADT at " ++ fmt_hex addr) p
  else p.

(** [parse_xsdt] and [parse_rsdt] differ in the signature and in the size of the
    entries. *)
Definition parse_root (m : mem) (sig : list Z) (width : nat) (bad_sig bad_sum : string)
    (addr : Z) (p : AcpiParser) : AcpiParser * result string unit :=
  if negb (bool_decide (array m addr SdtHeader "signature" = sig)) then (p, Err bad_sig)
  else if negb (validate m addr) then (p, Err bad_sum)
  else
    let entry_count := (field m addr SdtHeader "length" - size_of SdtHeader)%usize / Z.of_nat width in
    (for_each 0 entry_count (λ k p,
       let a := load m (addr + size_of SdtHeader + Z.of_nat width * k) width in
       if a =? 0 then p else parse_table m a p) p, Ok tt).

Definition parse_xsdt (m : mem) (addr : Z) (p : AcpiParser) : AcpiParser * result string unit :=
  parse_root m (str "XSDT") 8 "Invalid XSDT signature" "XSDT checksum invalid" addr p.
Definition parse_rsdt (m : mem) (addr : Z) (p : AcpiParser) : AcpiParser * result string unit :=
  parse_root m (str "RSDT") 4 "Invalid RSDT signature" "RSDT checksum invalid" addr p.

(** What [parse] prints at its end. *)
Definition report (p : AcpiParser) : AcpiParser :=
  let p := kprintln (str "[ACPI] Found " ++ fmt_dec (processor_count (info p)) ++ str " processors") p in
  let p := kprintln (str "[ACPI] LAPIC address: " ++ fmt_hex (local_apic_address (info p))) p in
  let p := if negb (io_apic_address (info p) =? 0)
           then kprintln (str "[ACPI] IO APIC address: " ++ fmt_hex (io_apic_address (info p))) p else p in
  if negb (hpet_address (info p) =? 0)
  then kprintln (str "[ACPI] HPET address: " ++ fmt_hex (hpet_address (info p))) p else p.

(** [AcpiParser::parse]: the information gathered, also when it fails. *)
Definition parse (m : mem) (p : AcpiParser) : AcpiParser * result string unit :=
  let p := kprintln (str "[ACPI] Searching for RSDP...") p in
  match find m with
  | None => (p, Err "RSDP not found"%string)
  | Some rsdp =>
      let revision := field m rsdp Rsdp "revision" in
      let p := kprintln (str "[ACPI] RSDP found at " ++ fmt_hex rsdp ++ str ", revision " ++
                         fmt_dec revision) p in
      let p := update (set_acpi_2 (2 <=? revision)) p in
      let '(p, r) :=
        match xsdt_address m rsdp with
        | Some xsdt_addr =>
            parse_xsdt m xsdt_addr (kprintln (str "[ACPI] Using XSDT at " ++ fmt_hex xsdt_addr) p)
        | None =>
            let rsdt_addr := rsdt_address m rsdp in
            parse_rsdt m rsdt_addr (kprintln (str "[ACPI] Using RSDT at " ++ fmt_hex rsdt_addr) p)
        end in
      match r with
      | Err e => (p, Err e)
      | Ok _ => (report p, Ok tt)
      end
  end.

(** ** The search *)

(** Computes the offsets and sizes of fields. *)
Ltac fields :=
  unfold field, array in *;
  repeat match goal with
  | |- context [offset_of ?s ?f] =>
      let v := eval vm_compute in (offset_of s f) in change (offset_of s f) with v
  | |- context [width_of ?s ?f] =>
      let v := eval vm_compute in (width_of s f) in change (width_of s f) with v
  | |- context [size_of ?s] =>
      let v := eval vm_compute in (size_of s) in change (size_of s) with v
  end.

Lemma load_1 m a : load m a 1 = rd m a.
Proof. simpl. lia. Qed.

(** A root pointer the search accepts. *)
Definition valid_rsdp (m : mem) (p : Z) : bool :=
  bool_decide (read_bytes m p 8 = RSDP_SIGNATURE) && validate_checksum m p.

Lemma valid_rsdp_head m p : valid_rsdp m p = true → rd m p = 82.
Proof.
  unfold valid_rsdp. intros [Hs%bool_decide_eq_true _]%andb_true_iff.
  unfold read_bytes in Hs. rewrite seqZ_cons in Hs by lia. injection Hs as Hs _.
  by rewrite Z.add_0_r in Hs.
Qed.

(** In a region whose size is a multiple of 16, the search finds the lowest
    address at a multiple of 16 from its start with the signature and a valid
    checksum; it fails exactly when there is none. *)
Theorem search_region_first m start size (Hs : 0 ≤ size) (H16 : size mod 16 = 0) :
  match search_region m start size with
  | Some p =>
      ∃ k, p = start + 16 * k ∧ 0 ≤ k < size / 16 ∧ valid_rsdp m p = true ∧
        ∀ j, 0 ≤ j < k → valid_rsdp m (start + 16 * j) = false
  | None => ∀ j, 0 ≤ j < size / 16 → valid_rsdp m (start + 16 * j) = false
  end.
Proof.
  unfold search_region. replace ((size + 15) / 16) with (size / 16) by dlia.
  match goal with |- context [for_loop 0 ?n ?body tt] =>
    assert (Hl : match for_loop 0 n body tt with
                 | inl _ => ∀ j, 0 ≤ j < n → valid_rsdp m (start + 16 * j) = false
                 | inr r => ∃ k, r = Some (start + 16 * k) ∧ 0 ≤ k < n ∧
                     valid_rsdp m (start + 16 * k) = true ∧
                     ∀ j, 0 ≤ j < k → valid_rsdp m (start + 16 * j) = false
                 end)
  end.
  { apply (for_loop_rule (λ n _, ∀ j, 0 ≤ j < n → valid_rsdp m (start + 16 * j) = false)
      (λ r, ∃ k, r = Some (start + 16 * k) ∧ 0 ≤ k < size / 16 ∧
         valid_rsdp m (start + 16 * k) = true ∧
         ∀ j, 0 ≤ j < k → valid_rsdp m (start + 16 * j) = false)).
    - dlia.
    - intros; lia.
    - intros k [] Hk Hold.
      assert (Hnext : valid_rsdp m (start + 16 * k) = false →
        ∀ j, 0 ≤ j < k + 1 → valid_rsdp m (start + 16 * j) = false).
      { intros Hv j Hj. destruct (decide (j = k)) as [->|]; [done|]. apply Hold. lia. }
      replace (bool_decide (array m (start + 16 * k) Rsdp "signature" = RSDP_SIGNATURE) &&
               validate_checksum m (start + 16 * k)) with (valid_rsdp m (start + 16 * k))
        by (fields; by rewrite Z.add_0_r).
      destruct (rd m (start + 16 * k) =? 82) eqn:E; break_cmp; cbn [negb].
      + destruct (start + size <? start + 16 * k + 8) eqn:E2; break_cmp; [dlia|].
        destruct (valid_rsdp m (start + 16 * k)) eqn:Ev; [|by apply Hnext].
        exists k. split_and!; try done; lia.
      + apply Hnext. destruct (valid_rsdp m (start + 16 * k)) eqn:Ev; [|done].
        apply valid_rsdp_head in Ev. congruence. }
  destruct (for_loop _ _ _ _) as [|r]; [done|].
  destruct Hl as (k & -> & Hk & Hv & Hmin). by exists k.
Qed.

(** A memory that holds the bytes [l] at [a]. *)
Fixpoint put_bytes (m : mem) (a : Z) (l : list Z) : mem :=
  match l with
  | [] => m
  | b :: l => put_bytes (wr m a b) (a + 1) l
  end.

(** A pointer of revision 0 at 0xE0010 whose 36 bytes sum to zero. *)
Definition demo_rsdp : mem :=
  put_bytes ∅ 0xE0010 (RSDP_SIGNATURE ++ [0] ++ str "DELTA " ++ [0; 0; 0; 0; 0]).
Definition demo_sum : Z := byte_sum (read_bytes demo_rsdp 0xE0010 36).
Definition demo_mem : mem := wr demo_rsdp (0xE0010 + 35) (256 - demo_sum).

Lemma search_region_first_witness :
  search_region demo_mem 0xE0000 0x20000 = Some 0xE0010 ∧ valid_rsdp demo_mem 0xE0010 = true.
Proof.
  pose proof (search_region_first demo_mem 0xE0000 0x20000 ltac:(lia) ltac:(reflexivity)) as H.
  assert (Hf : search_region demo_mem 0xE0000 0x20000 = Some 0xE0010)
    by (vm_compute; reflexivity).
  rewrite Hf in H. destruct H as (k & _ & _ & Hv & _). split; [exact Hf|exact Hv].
Defined.

(** The root pointer of ACPI 1.0 has 20 bytes; the checksum of the code runs over
    36, and the bytes behind the structure make it fail. *)
Example rsdp_1_rejected :
  let m := put_bytes ∅ 0xE0000 (RSDP_SIGNATURE ++ [87] ++ str "DELTA " ++ [0; 0; 0; 0; 0; 7]) in
  byte_sum (read_bytes m 0xE0000 20) = 0 ∧ find m = None.
Proof. vm_compute. split; reflexivity. Qed.

(** ** The MADT *)

(** The entries of a MADT, as the specification lays them out. *)
Inductive madt_entry :=
  | ELocal (pid aid flags : Z)
  | EIo (ident addr gsi : Z)
  | EOverride (bus irq gsi flags : Z)
  | ELapic (addr : Z)
  | EOther (ty : Z) (payload : list Z).

Definition encode_entry (e : madt_entry) : list Z :=
  match e with
  | ELocal pid aid flags => [0; 8; pid; aid] ++ le_bytes 4 flags
  | EIo ident addr gsi => [1; 12; ident; 0] ++ le_bytes 4 addr ++ le_bytes 4 gsi
  | EOverride bus irq gsi flags => [2; 10; bus; irq] ++ le_bytes 4 gsi ++ le_bytes 2 flags
  | ELapic addr => [5; 12; 0; 0] ++ le_bytes 8 addr
  | EOther ty payload => [ty; 2 + Z.of_nat (length payload)] ++ payload
  end.

Definition other_type (ty : Z) : Prop := ty ∈ [3; 4; 6; 7; 8] ∨ 9 ≤ ty < 256.

Definition entry_ok (e : madt_entry) : Prop :=
  match e with
  | ELocal _ _ flags => 0 ≤ flags < 2 ^ 32
  | EIo _ addr gsi => 0 ≤ addr < 2 ^ 32 ∧ 0 ≤ gsi < 2 ^ 32
  | EOverride _ _ gsi flags => 0 ≤ gsi < 2 ^ 32 ∧ 0 ≤ flags < 2 ^ 16
  | ELapic addr => 0 ≤ addr < 2 ^ 64
  | EOther ty _ => other_type ty
  end.

(** What an entry means for the information gathered. *)
Definition apply_entry (i : AcpiInfo) (e : madt_entry) : AcpiInfo :=
  match e with
  | ELocal pid aid flags => add_processor (mkProcessor pid aid (Z.odd flags)) i
  | EIo _ addr gsi => set_ioapic addr gsi i
  | EOverride bus irq gsi flags => add_override (mkOverride bus irq gsi flags) i
  | ELapic addr => set_lapic addr i
  | EOther _ _ => i
  end.

Lemma encode_entry_length e :
  ∃ t l, encode_entry e = t :: Z.of_nat (length (encode_entry e)) :: l.
Proof.
  destruct e as [pid aid flags|ident addr gsi|bus irq gsi flags|addr|ty payload]; cbn [encode_entry app].
  all: eexists _, _; f_equal; f_equal.
  all: rewrite ?length_cons, ?length_app, ?le_bytes_length; try done. lia.
Qed.

Lemma other_type_skips ty :
  other_type ty →
  match madt_entry_type ty with
  | LocalApic | IoApic | InterruptSourceOverride | LocalApicAddressOverride => False
  | _ => True
  end.
Proof.
  intros [Hin|Hr].
  - rewrite !elem_of_cons, elem_of_nil in Hin. destruct Hin as [->|[->|[->|[->|[->|[]]]]]]; done.
  - unfold madt_entry_type. destruct ty as [|q|]; [lia| |lia].
    do 4 (destruct q as [q|q|]; try lia; try done).
Qed.

Lemma odd_flag flags : negb (Z.land flags 1 =? 0) = Z.odd flags.
Proof.
  change 1 with (Z.ones 1). rewrite Z.land_ones by lia. change (2 ^ 1) with 2.
  rewrite Zmod_odd. by destruct (Z.odd flags).
Qed.

Lemma parse_entry_encoded m a e i :
  entry_ok e → bytes_at m a (encode_entry e) → parse_entry m a i = apply_entry i e.
Proof.
  intros Hok Hb. unfold parse_entry. cbv zeta. fields. rewrite !load_1, Z.add_0_r.
  destruct e as [pid aid flags|ident addr gsi|bus irq gsi flags|addr|ty payload];
    cbn [encode_entry app bytes_at] in Hb.
  - destruct Hb as (-> & _ & Hp & Ha & Hf). rewrite <- !Z.add_assoc in *.
    cbn [madt_entry_type apply_entry entry_ok] in *. change (1 + 1) with 2 in *.
    change (1 + 2) with 3 in *. change (1 + 3) with 4 in *.
    rewrite Hp, Ha, (bytes_at_load m (a + 4) 4 flags) by done.
    by rewrite Z.mod_small, odd_flag by lia.
  - destruct Hb as (-> & _ & _ & _ & Hf). rewrite <- !Z.add_assoc in Hf.
    apply bytes_at_app in Hf as [H1 H2]. rewrite le_bytes_length, <- Z.add_assoc in H2.
    cbn [madt_entry_type apply_entry entry_ok] in *.
    rewrite (bytes_at_load m (a + 4) 4 addr), (bytes_at_load m (a + 8) 4 gsi) by done.
    by rewrite !Z.mod_small by lia.
  - destruct Hb as (-> & _ & Hbus & Hirq & Hf). rewrite <- !Z.add_assoc in *.
    apply bytes_at_app in Hf as [H1 H2]. rewrite le_bytes_length, <- Z.add_assoc in H2.
    cbn [madt_entry_type apply_entry entry_ok] in *. change (1 + 1) with 2 in *.
    change (1 + 2) with 3 in *. change (1 + 3) with 4 in *.
    rewrite Hbus, Hirq, (bytes_at_load m (a + 4) 4 gsi), (bytes_at_load m (a + 8) 2 flags) by done.
    by rewrite !Z.mod_small by lia.
  - destruct Hb as (-> & _ & _ & _ & Hf). rewrite <- !Z.add_assoc in Hf.
    cbn [madt_entry_type apply_entry entry_ok] in *.
    rewrite (bytes_at_load m (a + 4) 8 addr) by done. by rewrite Z.mod_small by lia.
  - destruct Hb as (-> & _). cbn [entry_ok] in Hok. apply other_type_skips in Hok.
    cbn [apply_entry]. by destruct (madt_entry_type ty).
Qed.

Definition encode_entries (es : list madt_entry) : list Z := concat (encode_entry <$> es).

Lemma encode_entry_long e : (2 ≤ length (encode_entry e))%nat.
Proof. destruct (encode_entry_length e) as (t & l & E). rewrite E. simpl. lia. Qed.

Lemma parse_entries_encoded m addr total es : Forall entry_ok es → ∀ fuel offset i,
  total = offset + Z.of_nat (length (encode_entries es)) →
  (length (encode_entries es) ≤ fuel)%nat →
  bytes_at m (addr + offset) (encode_entries es) →
  parse_entries fuel m addr total offset i = foldl apply_entry i es.
Proof.
  induction 1 as [|e es He Hes IH]; intros fuel offset i Ht Hf Hb.
  { unfold encode_entries in Ht. simpl in Ht. destruct fuel; simpl; [done|].
    by rewrite (proj2 (Z.ltb_ge offset total)) by lia. }
  change (encode_entries (e :: es)) with (encode_entry e ++ encode_entries es) in *.
  rewrite length_app in Ht, Hf. apply bytes_at_app in Hb as [Hb1 Hb2].
  pose proof (encode_entry_long e) as Hlong.
  destruct fuel as [|fuel]; [lia|]. simpl.
  rewrite (proj2 (Z.ltb_lt offset total)) by lia. cbn [negb].
  rewrite (parse_entry_encoded m (addr + offset) e i) by done.
  destruct (encode_entry_length e) as (t & l & E).
  assert (Hlen : field m (addr + offset) MadtEntryHeader "length" = Z.of_nat (length (encode_entry e))).
  { fields. rewrite load_1. rewrite E in Hb1. by destruct Hb1 as (_ & ? & _). }
  rewrite Hlen, (proj2 (Z.eqb_neq _ 0)) by lia.
  apply IH; [lia|lia|]. by rewrite Z.add_assoc.
Qed.

(** The parser reads a MADT as the specification means it: with the entries
    [es] laid out behind the header and the table's length covering exactly
    them, what is gathered is the local APIC's address from the header, and then
    the effect of the entries one after the other. *)
Lemma parse_madt_encoded m addr es i :
  Forall entry_ok es →
  bytes_at m (addr + 44) (encode_entries es) →
  load m (addr + 4) 4 = 44 + Z.of_nat (length (encode_entries es)) →
  parse_madt m addr i = foldl apply_entry (set_lapic (load m (addr + 36) 4) i) es.
Proof.
  intros Hok Hb Hl. unfold parse_madt. fields. rewrite Hl.
  apply parse_entries_encoded; [done|done|lia|done].
Qed.

(** ** All tables *)

(** The tables a root table points to. *)
Inductive sdt :=
  | TMadt (lapic : Z) (es : list madt_entry)
  | THpet (address number tick : Z)
  | TFadt
  | TOther (sig : list Z).

(** The bytes of a table at [a], as the specification lays them out. *)
Definition sdt_at (m : mem) (a : Z) (t : sdt) : Prop :=
  match t with
  | TMadt lapic es =>
      bytes_at m a (str "APIC") ∧ load m (a + 4) 4 = 44 + Z.of_nat (length (encode_entries es)) ∧
      load m (a + 36) 4 = lapic ∧ bytes_at m (a + 44) (encode_entries es) ∧ Forall entry_ok es
  | THpet address number tick =>
      bytes_at m a (str "HPET") ∧ load m (a + 44) 8 = address ∧ rd m (a + 52) = number ∧
      load m (a + 53) 2 = tick
  | TFadt => bytes_at m a (str "FACP")
  | TOther sig =>
      length sig = 4%nat ∧ bytes_at m a sig ∧ sig ∉ [MADT_SIGNATURE; HPET_SIGNATURE; FADT_SIGNATURE]
  end.

(** What the table at [a] adds to the information gathered and to the lines
    printed. *)
Definition sdt_effect (p : AcpiParser) (a : Z) (t : sdt) : AcpiParser :=
  match t with
  | TMadt lapic es =>
      mkParser (foldl apply_entry (set_lapic lapic (info p)) es)
        (printed p ++ [str "[ACPI] Found MADT at " ++ fmt_hex a])
  | THpet address number tick =>
      mkParser (set_hpet address number tick (info p))
        (printed p ++ [str "[ACPI] Found HPET at " ++ fmt_hex a])
  | TFadt => mkParser (info p) (printed p ++ [str "[ACPI] Found FADT at " ++ fmt_hex a])
  | TOther _ => p
  end.

Lemma read_bytes_at m a l n : bytes_at m a l → n = Z.of_nat (length l) → read_bytes m a n = l.
Proof.
  intros H ->. unfold read_bytes. revert a H. induction l as [|b l IH]; intros a H; [done|].
  destruct H as [Hb H]. rewrite length_cons, seqZ_cons by lia. rewrite fmap_cons, Z.add_0_r. f_equal; [done|].
  rewrite <- (IH (a + 1) H) at 2. replace (Z.pred _) with (Z.of_nat (length l)) by lia.
  change (Z.succ 0) with (0 + 1). rewrite <- (Z.add_comm 1 0), <- (fmap_add_seqZ 1 0), <- list_fmap_compose.
  apply list_fmap_ext. intros i x _. simpl. f_equal. lia.
Qed.

Lemma array_sig m a sig :
  bytes_at m a sig → length sig = 4%nat → array m a SdtHeader "signature" = sig.
Proof. intros H Hl. fields. rewrite Z.add_0_r. apply read_bytes_at; [done|by rewrite Hl]. Qed.

Lemma parse_table_effect m a t p : sdt_at m a t → parse_table m a p = sdt_effect p a t.
Proof.
  intros H. unfold parse_table. destruct t as [lapic es|address number tick| |sig].
  - destruct H as (Hs & Hl & Ha & Hb & Hok). rewrite (array_sig m a _ Hs) by done.
    rewrite bool_decide_eq_true_2 by done. unfold update, kprintln. cbn [info printed].
    by rewrite (parse_madt_encoded m a es) by done; rewrite Ha.
  - destruct H as (Hs & Ha & Hn & Ht). rewrite (array_sig m a _ Hs) by done.
    rewrite bool_decide_eq_false_2, bool_decide_eq_true_2 by done.
    unfold update, kprintln, parse_hpet. cbn [info printed]. fields. rewrite load_1, <- Z.add_assoc.
    cbn [sdt_effect]. by rewrite Hn, Ht, <- Ha.
  - rewrite (array_sig m a _ H) by done. by rewrite !bool_decide_eq_false_2, bool_decide_eq_true_2 by done.
  - destruct H as (Hl & Hs & Hn). rewrite (array_sig m a _ Hs) by done.
    rewrite !elem_of_cons in Hn. rewrite !bool_decide_eq_false_2 by tauto. done.
Qed.

(** An entry of a root table: null, or the address of a table. *)
Definition slot_at (m : mem) (v : Z) (x : option (Z * sdt)) : Prop :=
  match x with
  | None => v = 0
  | Some (a, t) => v = a ∧ a ≠ 0 ∧ sdt_at m a t
  end.

Definition slot_effect (p : AcpiParser) (x : option (Z * sdt)) : AcpiParser :=
  match x with
  | None => p
  | Some (a, t) => sdt_effect p a t
  end.

Lemma parse_root_effect m sig width e1 e2 addr p ts :
  bytes_at m addr sig → length sig = 4%nat → (0 < width)%nat →
  load m (addr + 4) 4 = 36 + Z.of_nat width * Z.of_nat (length ts) →
  Z.of_nat width * Z.of_nat (length ts) < 2 ^ 32 →
  byte_sum (read_bytes m addr (36 + Z.of_nat width * Z.of_nat (length ts))) = 0 →
  (∀ k x, ts !! k = Some x → slot_at m (load m (addr + 36 + Z.of_nat width * Z.of_nat k) width) x) →
  parse_root m sig width e1 e2 addr p = (foldl slot_effect p ts, Ok tt).
Proof.
  intros Hs Hl Hw Hlen Hb Hsum Hts. unfold parse_root, validate.
  rewrite (array_sig m addr sig Hs Hl), bool_decide_eq_true_2 by done. cbn [negb].
  fields. rewrite Hlen, Hsum. cbn [Z.eqb negb]. f_equal.
  rewrite usize_small by lia. replace (36 + _ - 36) with (Z.of_nat (length ts) * Z.of_nat width) by lia.
  rewrite Z.div_mul by lia.
  rewrite <- (take_ge ts (Z.to_nat (Z.of_nat (length ts)))) at 2 by lia.
  apply (for_each_rule (λ k q, q = foldl slot_effect p (take (Z.to_nat k) ts))); [lia|done|].
  intros k q Hk ->. destruct (lookup_lt_is_Some_2 ts (Z.to_nat k)) as [x Hx]; [lia|].
  rewrite Z2Nat.inj_add by lia. rewrite Nat.add_1_r, (take_S_r _ _ _ Hx), foldl_app. cbn [foldl].
  pose proof (Hts _ _ Hx) as Hx'. rewrite Z2Nat.id in Hx' by lia.
  destruct x as [[a t]|]; cbn [slot_at slot_effect] in *; [|by rewrite Hx'].
  destruct Hx' as (-> & Ha & Ht). rewrite (proj2 (Z.eqb_neq _ _) Ha). by apply parse_table_effect.
Qed.

(** The root table the specification tells to use: the XSDT with pointers of 8
    bytes from revision 2 on, if there is one, and else the RSDT. *)
Definition root_of (m : mem) (rsdp : Z) : list Z * string * nat * Z :=
  if (2 <=? rd m (rsdp + 15)) && negb (load m (rsdp + 24) 8 =? 0)
  then (str "XSDT", "XSDT"%string, 8%nat, load m (rsdp + 24) 8)
  else (str "RSDT", "RSDT"%string, 4%nat, load m (rsdp + 16) 4).

(** C28. Parsing the tables succeeds on every memory laid out as the ACPI
    specification says and gathers what the tables mean: the effects of the MADT
    (its APIC address and its entries in order), of the HPET table and of every
    other table the root table points to, in the order of its pointers, null
    pointers skipped; and it prints which tables it found and what it gathered. *)
Theorem acpi_parse_correct m rsdp sig name width root ts
    (Hfind : find m = Some rsdp)
    (Hroot : root_of m rsdp = (sig, name, width, root))
    (Hsig : bytes_at m root sig)
    (Hlen : load m (root + 4) 4 = 36 + Z.of_nat width * Z.of_nat (length ts))
    (Hb : Z.of_nat width * Z.of_nat (length ts) < 2 ^ 32)
    (Hsum : byte_sum (read_bytes m root (36 + Z.of_nat width * Z.of_nat (length ts))) = 0)
    (Hts : ∀ k x, ts !! k = Some x →
       slot_at m (load m (root + 36 + Z.of_nat width * Z.of_nat k) width) x) :
  parse m AcpiParser_new =
    (report (foldl slot_effect
       (mkParser (set_acpi_2 (2 <=? rd m (rsdp + 15)) AcpiInfo_new)
          [str "[ACPI] Searching for RSDP...";
           str "[ACPI] RSDP found at " ++ fmt_hex rsdp ++ str ", revision " ++ fmt_dec (rd m (rsdp + 15));
           str "[ACPI] Using " ++ str name ++ str " at " ++ fmt_hex root]) ts), Ok tt).
Proof.
  assert (Hr : field m rsdp Rsdp "revision" = rd m (rsdp + 15)) by (fields; apply load_1).
  unfold parse. rewrite Hfind, Hr. unfold xsdt_address, rsdt_address, parse_xsdt, parse_rsdt. rewrite Hr.
  unfold root_of in Hroot.
  replace (field m rsdp Rsdp "xsdt_address") with (load m (rsdp + 24) 8) by (by fields).
  replace (field m rsdp Rsdp "rsdt_address") with (load m (rsdp + 16) 4) by (by fields).
  destruct (_ && _); injection Hroot as <- <- <- <-.
  all: by rewrite (parse_root_effect m _ _ _ _ _ _ ts) by (done || lia).
Qed.

Definition demo_entries : list madt_entry :=
  [ELocal 0 0 1; ELocal 1 1 0; EIo 2 0xFEC00000 0; EOverride 0 0 2 0].

(** A machine with a MADT and an HPET table behind an RSDT at 0x2000. *)
Definition demo_madt : list Z :=
  MADT_SIGNATURE ++ le_bytes 4 (44 + 38) ++ replicate 28 0 ++ le_bytes 4 0xFEE00000 ++ le_bytes 4 1 ++
  encode_entries demo_entries.
Definition demo_hpet : list Z :=
  HPET_SIGNATURE ++ le_bytes 4 56 ++ replicate 36 0 ++ le_bytes 8 0xFED00000 ++ [0] ++ le_bytes 2 128 ++ [0].
Definition with_sum (sig : list Z) (body : list Z) : list Z :=
  let l c := sig ++ le_bytes 4 (36 + Z.of_nat (length body)) ++ [1; c] ++ replicate 26 0 ++ body in
  l ((256 - byte_sum (l 0)) mod 256).
Definition demo_rsdt : list Z :=
  with_sum (str "RSDT") (le_bytes 4 0x1000 ++ le_bytes 4 0 ++ le_bytes 4 0x3000).
Definition demo_root : list Z := RSDP_SIGNATURE ++ [0] ++ str "DELTA " ++ [0] ++ le_bytes 4 0x2000.
Definition demo_tables : mem :=
  put_bytes (put_bytes (put_bytes (put_bytes ∅ 0x1000 demo_madt) 0x2000 demo_rsdt) 0x3000 demo_hpet)
    0xE0010 (demo_root ++ replicate 15 0 ++ [(256 - byte_sum demo_root) mod 256]).

Lemma acpi_parse_correct_witness :
  let p := (parse demo_tables AcpiParser_new).1 in
  processor_count (info p) = 2 ∧ int_override_count (info p) = 1 ∧ hpet_address (info p) = 0xFED00000 ∧
  length (printed p) = 9%nat.
Proof.
  rewrite (acpi_parse_correct demo_tables 0xE0010 (str "RSDT") "RSDT" 4 0x2000
    [Some (0x1000, TMadt 0xFEE00000 demo_entries); None; Some (0x3000, THpet 0xFED00000 0 128)]).
  - vm_compute. repeat split.
  - vm_compute. reflexivity.
  - vm_compute. reflexivity.
  - vm_compute. repeat split.
  - vm_compute. reflexivity.
  - vm_compute. reflexivity.
  - vm_compute. reflexivity.
  - intros [|[|[|k]]] x Hx; try discriminate Hx; injection Hx as <-.
    + split; [vm_compute; reflexivity|]. split; [discriminate|]. split; [vm_compute; repeat split|].
      split; [vm_compute; reflexivity|]. split; [vm_compute; reflexivity|].
      split; [vm_compute; repeat split|]. unfold demo_entries. repeat constructor; simpl; lia.
    + vm_compute. reflexivity.
    + split; [vm_compute; reflexivity|]. split; [discriminate|]. vm_compute. repeat split.
Defined.

(** ** What is gathered is well typed *)

Definition u8 (v : Z) : Prop := 0 ≤ v < 2 ^ 8.
Definition u16 (v : Z) : Prop := 0 ≤ v < 2 ^ 16.
Definition u32 (v : Z) : Prop := 0 ≤ v < 2 ^ 32.
Definition u64 (v : Z) : Prop := 0 ≤ v < 2 ^ 64.

Definition processor_typed (x : ProcessorInfo) : Prop := u8 (processor_id x) ∧ u8 (apic_id x).
Definition override_typed (o : IntOverride) : Prop :=
  u8 (bus_source o) ∧ u8 (irq_source o) ∧ u32 (global_system_interrupt o) ∧ u16 (override_flags o).

(** The fields are of the types of [AcpiInfo], the arrays of their sizes, and the
    counts within the arrays. *)
Record info_typed (i : AcpiInfo) : Prop := {
  typed_lapic : u64 (local_apic_address i);
  typed_ioapic : u64 (io_apic_address i) ∧ u32 (io_apic_gsi_base i);
  typed_hpet : u64 (hpet_address i) ∧ u8 (hpet_number i) ∧ u16 (hpet_min_tick i);
  typed_processors : length (processors i) = 256%nat ∧ Forall processor_typed (processors i);
  typed_processor_count : 0 ≤ processor_count i < 256;
  typed_overrides : length (int_overrides i) = 16%nat ∧ Forall override_typed (int_overrides i);
  typed_override_count : 0 ≤ int_override_count i ≤ 16
}.

Lemma AcpiInfo_new_typed : info_typed AcpiInfo_new.
Proof.
  unfold AcpiInfo_new. split; unfold u8, u16, u32, u64;
    cbn [local_apic_address io_apic_address io_apic_gsi_base hpet_address hpet_number hpet_min_tick
         processors processor_count int_overrides int_override_count]; try lia.
  - split; [done|]. apply Forall_replicate. unfold processor_typed, u8. simpl. lia.
  - split; [done|]. apply Forall_replicate. unfold override_typed, u8, u16, u32. simpl. lia.
Qed.

Section Typed.
Context (m : mem) (Hm : bytes m).
#[local] Arguments field : simpl never.

Lemma field_typed a s f n :
  width_of s f = n → 0 ≤ field m a s f < 256 ^ Z.of_nat n.
Proof. intros <-. by apply load_bounds. Qed.

Lemma set_lapic_typed a i : u64 a → info_typed i → info_typed (set_lapic a i).
Proof. intros Ha []. by split. Qed.

Lemma parse_entry_typed a i : info_typed i → info_typed (parse_entry m a i).
Proof.
  intros [H1 H2 H3 H4 H5 H6 H7]. unfold parse_entry. cbv zeta.
  destruct (madt_entry_type _); try by split.
  - unfold add_processor. rewrite (proj2 (Z.ltb_lt _ _)) by lia. split; try done; cbn.
    + rewrite length_insert. split; [apply H4|]. apply Forall_insert; [apply H4|].
      split; by apply (field_typed _ _ _ 1).
    + apply (Z.mod_pos_bound _ 256). lia.
  - split; try done; cbn. pose proof (field_typed a MadtIoApicEntry "io_apic_address" 4 eq_refl).
    split; [unfold u64; lia|]. by apply (field_typed _ _ _ 4).
  - unfold add_override. destruct (_ <? _) eqn:E; break_cmp; [|by split]. split; try done; cbn.
    + rewrite length_insert. split; [apply H6|]. apply Forall_insert; [apply H6|].
      split_and!; [by apply (field_typed _ _ _ 1)..|by apply (field_typed _ _ _ 4)|by apply (field_typed _ _ _ 2)].
    + lia.
  - split; try done. cbn. by apply (field_typed _ _ _ 8).
Qed.

Lemma parse_entries_typed fuel addr total offset i :
  info_typed i → info_typed (parse_entries fuel m addr total offset i).
Proof.
  revert offset i. induction fuel as [|fuel IH]; intros offset i Hi; simpl; [done|].
  destruct (negb _); [done|]. destruct (_ =? 0); [|apply IH]; by apply parse_entry_typed.
Qed.

Lemma parse_table_typed a p : info_typed (info p) → info_typed (info (parse_table m a p)).
Proof.
  intros Hi. unfold parse_table. repeat case_bool_decide; try done.
  - apply parse_entries_typed, set_lapic_typed; [|done].
    pose proof (field_typed a Madt "local_apic_address" 4 eq_refl). unfold u64. cbn in *. lia.
  - destruct Hi. split; try done. cbn. split; [by apply (field_typed _ _ _ 8)|].
    split; [by apply (field_typed _ _ _ 1)|by apply (field_typed _ _ _ 2)].
Qed.

Lemma parse_root_typed sig width e1 e2 addr p :
  info_typed (info p) → info_typed (info (parse_root m sig width e1 e2 addr p).1).
Proof.
  intros Hi. unfold parse_root. destruct (negb _); [done|]. destruct (negb _); [done|]. cbn [fst].
  set (n := _ / _). destruct (decide (0 ≤ n)) as [Hn|Hn]; [|by rewrite for_each_done by lia].
  apply (for_each_rule (λ _ p, info_typed (info p))); [done|done|].
  intros k q _ Hq. cbv zeta. case_if; [done|]. by apply parse_table_typed.
Qed.

Lemma report_info p : info (report p) = info p.
Proof. unfold report. by repeat case_if. Qed.

End Typed.


(** The layouts have the sizes the specification gives its structures. *)
Example packed_sizes :
  size_of <$> [Rsdp; SdtHeader; Madt; MadtLocalApicEntry; MadtIoApicEntry; MadtIntSourceOverrideEntry;
               MadtLocalApicAddressOverrideEntry; AcpiGenericAddress; HpetTable; Fadt] =
    [36; 36; 44; 8; 12; 10; 12; 12; 56; 244] ∧
  offset_of Fadt <$> ["dsdt"; "pm_timer_block"; "flags"; "reset_reg"; "x_dsdt"]%string =
    [40; 76; 112; 116; 140].
Proof. split; reflexivity. Qed.

End Acpi.
