(* ===== verification/Device.v ===== *)
(** * Device access (src/lib.rs, port operations)

    Code that talks to devices is in a monad over the sequence of accesses so
    far: port writes and reads, and volatile stores and loads of device
    registers.  What a device answers to a read is given by an instance of the
    class [Device], as a function of the accesses before it.  The lines the
    drivers print are events as well, in order with the accesses. *)

From stdpp Require Import base numbers list gmap.
From S2P Require Import Prelude Text.
Open Scope Z_scope.

Module Device.

Inductive event :=
  | OutB (port v : Z)
  | InB (port v : Z)
  | OutL (port v : Z)
  | InL (port v : Z)
  | Store (a v : Z)
  | Load (a v : Z)
  | Say (line : Text.text).

Inductive question := AskB (port : Z) | AskL (port : Z) | AskMem (a : Z).

Class Device := answer : list event → question → Z.

Definition io (A : Type) : Type := list event → A * list event.

#[export] Instance io_ret : MRet io := λ A a t, (a, t).
#[export] Instance io_bind : MBind io := λ A B k x t, let '(a, t) := x t in k a t.

Section Ops.
Context {D : Device}.

Definition outb (port v : Z) : io unit := λ t, (tt, t ++ [OutB port v]).
Definition outl (port v : Z) : io unit := λ t, (tt, t ++ [OutL port v]).
Definition inb (port : Z) : io Z := λ t, let v := answer t (AskB port) in (v, t ++ [InB port v]).
Definition inl (port : Z) : io Z := λ t, let v := answer t (AskL port) in (v, t ++ [InL port v]).

(** [write_volatile] and [read_volatile] of a device register. *)
Definition store (a v : Z) : io unit := λ t, (tt, t ++ [Store a v]).
Definition load (a : Z) : io Z := λ t, let v := answer t (AskMem a) in (v, t ++ [Load a v]).

(** [kprintln!]. *)
Definition kprintln (line : Text.text) : io unit := λ t, (tt, t ++ [Say line]).

(** [while (inb(port) & mask) == 0 {}], at most [polls] times; whether the loop
    has ended. *)
Fixpoint wait_set (polls : nat) (port mask : Z) : io bool :=
  match polls with
  | O => mret false
  | S polls => v ← inb port; if Z.land v mask =? 0 then wait_set polls port mask else mret true
  end.

(** [for i in lo..hi]. *)
Definition io_each (lo hi : Z) (body : Z → io unit) : io unit :=
  λ t, (tt, for_each lo hi (λ i t, (body i t).2) t).

(** One action for each element of a list, in order. *)
Fixpoint io_list {A} (body : A → io unit) (l : list A) : io unit :=
  match l with
  | [] => mret tt
  | x :: l => body x ≫= λ _, io_list body l
  end.
End Ops.

(** The lines printed among some events. *)
Definition said (es : list event) : list Text.text :=
  omap (λ e, match e with Say line => Some line | _ => None end) es.

(** An action, with the lines it prints. *)
Definition logged {A} (x : io A) : io (A * list Text.text) :=
  λ t, let '(a, t') := x t in ((a, said (drop (length t) t')), t').

(** The final trace of an action that returns nothing. *)
Definition trace {A} (x : io A) (t : list event) : list event := (x t).2.

Lemma run_bind {A B} (x : io A) (k : A → io B) t : (x ≫= k) t = k (x t).1 (trace x t).
Proof. unfold trace, mbind, io_bind. by destruct (x t). Qed.

Lemma trace_bind {A B} (x : io A) (k : A → io B) t :
  trace (x ≫= k) t = trace (k (x t).1) (trace x t).
Proof. unfold trace, mbind, io_bind. by destruct (x t). Qed.

Lemma logged_result {A} (x : io A) t : (logged x t).1.1 = (x t).1.
Proof. unfold logged. by destruct (x t). Qed.

Lemma logged_trace {A} (x : io A) t : trace (logged x) t = trace x t.
Proof. unfold trace, logged. by destruct (x t). Qed.

(** An action all of whose accesses satisfy [P]. *)
Definition emits {A} (P : event → Prop) (x : io A) : Prop :=
  ∀ t, ∃ es, trace x t = t ++ es ∧ Forall P es.

Lemma emits_ret {A} P (x : A) : emits P (mret x).
Proof. intros t. exists []. by rewrite app_nil_r. Qed.

Lemma emits_bind {A B} P (x : io A) (k : A → io B) :
  emits P x → (∀ y, emits P (k y)) → emits P (x ≫= k).
Proof.
  intros Hx Hk t. rewrite trace_bind. destruct (Hx t) as (es1 & -> & H1).
  destruct (Hk (x t).1 (t ++ es1)) as (es2 & -> & H2).
  exists (es1 ++ es2). rewrite app_assoc. split; [done|]. by apply Forall_app_2.
Qed.

Lemma emits_event {A} P (x : io A) (f : list event → event) :
  (∀ t, trace x t = t ++ [f t] ∧ P (f t)) → emits P x.
Proof. intros H t. destruct (H t) as [-> Ht]. exists [f t]. split; [done|]. by constructor. Qed.

Section Emits.
Context {D : Device} (P : event → Prop).

Lemma emits_outb port v : P (OutB port v) → emits P (outb port v).
Proof. intros H. by apply (emits_event _ _ (λ _, OutB port v)). Qed.

Lemma emits_inb port : (∀ v, P (InB port v)) → emits P (inb port).
Proof. intros H. apply (emits_event _ _ (λ t, InB port (answer t (AskB port)))). by split. Qed.

Lemma emits_store a v : P (Store a v) → emits P (store a v).
Proof. intros H. by apply (emits_event _ _ (λ _, Store a v)). Qed.

Lemma emits_load a : (∀ v, P (Load a v)) → emits P (load a).
Proof. intros H. apply (emits_event _ _ (λ t, Load a (answer t (AskMem a)))). by split. Qed.

Lemma emits_kprintln line : P (Say line) → emits P (kprintln line).
Proof. intros H. by apply (emits_event _ _ (λ _, Say line)). Qed.
End Emits.

Create HintDb emits.
#[export] Hint Resolve emits_ret emits_outb emits_inb emits_store emits_load emits_kprintln : emits.

End Device.
