(* ===== verification/Timer.v ===== *)
(** * The timer subsystem (src/timer/mod.rs)

    The statics of the module as a record, and the drivers of the PIT and of the
    HPET as sequences of accesses to their ports and registers and of lines
    printed. *)

From stdpp Require Import base numbers list gmap strings.
From S2P Require Import Prelude Text Acpi Device.
Import Text Device.
Open Scope Z_scope.

Module Timer.

Definition PIT_CHANNEL_0 : Z := 0x40.
Definition PIT_CHANNEL_1 : Z := 0x41.
Definition PIT_CHANNEL_2 : Z := 0x42.
Definition PIT_COMMAND : Z := 0x43.
Definition PIT_BASE_FREQ : Z := 1193182.
Definition PIT_MODE_INTERRUPT : Z := 0.
Definition PIT_MODE_ONESHOT : Z := 1.
Definition PIT_MODE_RATE_GEN : Z := 2.
Definition PIT_MODE_SQUARE : Z := 3.
Definition PIT_LOHI : Z := 3.

Definition HPET_GENERAL_CAPS : Z := 0x000.
Definition HPET_GENERAL_CONFIG : Z := 0x010.
Definition HPET_GENERAL_INT_STATUS : Z := 0x020.
Definition HPET_MAIN_COUNTER : Z := 0x0F0.
Definition HPET_TIMER0_CONFIG : Z := 0x100.
Definition HPET_TIMER0_COMPARATOR : Z := 0x108.
Definition HPET_CONFIG_ENABLE : Z := Z.shiftl 1 0.
Definition HPET_CONFIG_LEGACY_ROUTE : Z := Z.shiftl 1 1.
Definition HPET_TIMER_CONFIG_ENABLE : Z := Z.shiftl 1 0.
Definition HPET_TIMER_CONFIG_PERIODIC : Z := Z.shiftl 1 1.
Definition HPET_TIMER_CONFIG_IRQ_ENABLE : Z := Z.shiftl 1 2.

Record Timer := mkTimer {
  TICK_COUNT : Z;
  TIMER_HZ : Z;
  HPET_BASE : Z;
  HPET_PERIOD : Z;
  HPET_AVAILABLE : bool;
  UPTIME_MS : Z
}.

Definition Timer_statics : Timer := mkTimer 0 100 0 0 false 0.

(** ** The PIT *)

Definition pit_divisor (frequency_hz : Z) : Z :=
  if frequency_hz =? 0 then 0xFFFF
  else
    let d := PIT_BASE_FREQ / frequency_hz in
    if 65535 <? d then 65535 else if d <? 1 then 1 else wrap 16 d.

Section Drivers.
Context {D : Device}.

Definition Pit_init (t : Timer) (frequency_hz : Z) : io Timer :=
  let divisor := pit_divisor frequency_hz in
  outb PIT_COMMAND (Z.lor (Z.lor (Z.shiftl PIT_LOHI 4) (Z.shiftl PIT_MODE_RATE_GEN 1)) 0);;
  outb PIT_CHANNEL_0 (Z.land divisor 0xFF);;
  outb PIT_CHANNEL_0 (Z.land (Z.shiftr divisor 8) 0xFF);;
  let t := mkTimer (TICK_COUNT t) frequency_hz (HPET_BASE t) (HPET_PERIOD t) (HPET_AVAILABLE t)
             (UPTIME_MS t) in
  kprintln (str "[TIMER] PIT initialized at " ++ fmt_dec frequency_hz ++ str " Hz (divisor: " ++
            fmt_dec divisor ++ str ")");;
  mret t.

Definition Pit_current_count : io Z :=
  outb PIT_COMMAND 0;;
  lo ← inb PIT_CHANNEL_0;
  hi ← inb PIT_CHANNEL_0;
  mret (Z.lor (wrap 16 (Z.shiftl hi 8)) lo).

(** The count [Pit::delay_ms] loads into channel 2. *)
Definition delay_ticks (ms : Z) : Z := wrap 16 ((PIT_BASE_FREQ * ms)%usize / 1000).

(** Whether the wait for the terminal count, at most [polls] turns, has ended. *)
Definition Pit_delay_ms (polls : nat) (ms : Z) : io bool :=
  let ticks := delay_ticks ms in
  v ← inb 0x61; outb 0x61 (Z.lor (Z.land v 0x0D) 0x01);;
  outb PIT_COMMAND 0xB2;;
  outb PIT_CHANNEL_2 (Z.land ticks 0xFF);;
  outb PIT_CHANNEL_2 (Z.land (Z.shiftr ticks 8) 0xFF);;
  v ← inb 0x61; outb 0x61 (Z.lor (Z.land v 0x0D) 0x01);;
  wait_set polls 0x61 0x20.

Definition Pit_disable : io unit :=
  outb PIT_COMMAND (Z.lor (Z.lor (Z.shiftl PIT_LOHI 4) (Z.shiftl PIT_MODE_ONESHOT 1)) 0);;
  outb PIT_CHANNEL_0 0xFF;;
  outb PIT_CHANNEL_0 0xFF.

(** ** The HPET *)

Definition is_available (t : Timer) : bool := HPET_AVAILABLE t.

Definition read_reg (t : Timer) (offset : Z) : io Z := load (HPET_BASE t + offset)%usize.
Definition write_reg (t : Timer) (offset v : Z) : io unit := store (HPET_BASE t + offset)%usize v.

(** The quotient rounded to the nearest integer, ties to the even one. *)
Definition round_even (a b : Z) : Z :=
  let q := a / b in
  match 2 * (a mod b) ?= b with
  | Lt => q
  | Gt => q + 1
  | Eq => q + q mod 2
  end.

(** The quotient of two integers at least 1, the first below [2 ^ 53], in double
    precision: a mantissa and the power of two it is divided by. *)
Definition f64_div (n d : Z) : Z * Z :=
  let k := 52 - Z.log2 (n / d) in (round_even (n * 2 ^ k) d, k).

(** [{:.2}] of such a quotient. *)
Definition fmt_f64_2 (x : Z * Z) : text :=
  let hundredths := round_even (x.1 * 100) (2 ^ x.2) in
  fmt_dec (hundredths / 100) ++ str "." ++ pad_left 2 48 (fmt_dec (hundredths mod 100)).

Definition Hpet_init (t : Timer) (info : Acpi.AcpiInfo) : io (Timer * result string unit) :=
  if Acpi.hpet_address info =? 0 then
    kprintln (str "[TIMER] HPET not available, using PIT");; mret (t, Ok tt)
  else
    let t := mkTimer (TICK_COUNT t) (TIMER_HZ t) (Acpi.hpet_address info) (HPET_PERIOD t)
               (HPET_AVAILABLE t) (UPTIME_MS t) in
    kprintln (str "[TIMER] Initializing HPET at " ++ fmt_hex (Acpi.hpet_address info) ++ str "...");;
    caps ← read_reg t HPET_GENERAL_CAPS;
    let period := Z.land (Z.shiftr caps 32) 0xFFFFFFFF in
    let vendor_id := Z.land (Z.shiftr caps 16) 0xFFFF in
    let num_timers := Z.land (Z.shiftr caps 8) 0x1F + 1 in
    let is_64bit := negb (Z.land caps (Z.shiftl 1 13) =? 0) in
    let legacy_route := negb (Z.land caps (Z.shiftl 1 15) =? 0) in
    if (period =? 0) || (100000000 <? period) then mret (t, Err "Invalid HPET period"%string)
    else
      let t := mkTimer (TICK_COUNT t) (TIMER_HZ t) (HPET_BASE t) period true (UPTIME_MS t) in
      let freq_femto := 1000000000000000 / period in
      let freq_mhz := f64_div freq_femto 1000000 in
      kprintln (str "[TIMER] HPET: " ++ fmt_dec num_timers ++ str " timers, " ++
                str (if is_64bit then "64" else "32") ++ str " bit, period: " ++ fmt_dec period ++
                str " fs (" ++ fmt_f64_2 freq_mhz ++ str " MHz)");;
      kprintln (str "[TIMER] HPET vendor: " ++ fmt_hex vendor_id ++ str ", legacy route: " ++
                fmt_bool legacy_route);;
      let config := if legacy_route then Z.lor HPET_CONFIG_ENABLE HPET_CONFIG_LEGACY_ROUTE
                    else HPET_CONFIG_ENABLE in
      write_reg t HPET_GENERAL_CONFIG config;;
      write_reg t HPET_MAIN_COUNTER 0;;
      kprintln (str "[TIMER] HPET initialized and enabled");;
      mret (t, Ok tt).

(** Both divisions may be by zero. *)
Definition Hpet_setup_periodic (t : Timer) (frequency_hz : Z) : io (outcome (result string unit)) :=
  if negb (is_available t) then mret (Ret (Err "HPET not available"%string))
  else if (frequency_hz =? 0) || (HPET_PERIOD t =? 0) then mret Panic
  else
    let ticks_per_period := 1000000000000000 / frequency_hz / HPET_PERIOD t in
    kprintln (str "[TIMER] HPET periodic: " ++ fmt_dec frequency_hz ++ str " Hz, " ++
              fmt_dec ticks_per_period ++ str " ticks/period");;
    write_reg t HPET_TIMER0_CONFIG 0;;
    write_reg t HPET_TIMER0_COMPARATOR ticks_per_period;;
    let timer_config := Z.lor (Z.lor HPET_TIMER_CONFIG_ENABLE HPET_TIMER_CONFIG_PERIODIC)
                          HPET_TIMER_CONFIG_IRQ_ENABLE in
    write_reg t HPET_TIMER0_CONFIG timer_config;;
    kprintln (str "[TIMER] HPET Timer 0 configured for " ++ fmt_dec frequency_hz ++ str " Hz periodic");;
    mret (Ret (Ok tt)).

Definition Hpet_counter (t : Timer) : io Z :=
  if is_available t then read_reg t HPET_MAIN_COUNTER else mret 0.

Definition Hpet_uptime_us (t : Timer) : io (outcome Z) :=
  if negb (is_available t) then
    mret (if TIMER_HZ t =? 0 then Panic else Ret ((TICK_COUNT t * 10000)%usize / TIMER_HZ t))
  else
    count ← Hpet_counter t;
    mret (Ret ((count * HPET_PERIOD t)%usize / 1000000000)).

(** [timer::init]. *)
Definition init (t : Timer) (info : Acpi.AcpiInfo) : io Timer :=
  let scheduler_hz := 100 in
  t ← Pit_init t scheduler_hz;
  r ← Hpet_init t info;
  match r.2 with
  | Err e => kprintln (str "[TIMER] HPET init failed: " ++ str e ++ str ", using PIT");; mret r.1
  | Ok _ => mret r.1
  end.

Definition switch_to_hpet_if_available (t : Timer) : io unit :=
  if is_available t then kprintln (str "[TIMER] Switching to HPET for scheduler timing...") else mret tt.
End Drivers.

(** ** Ticks *)

Definition on_timer_tick (t : Timer) : outcome Timer :=
  if TIMER_HZ t =? 0 then Panic
  else
    Ret (mkTimer (TICK_COUNT t + 1)%usize (TIMER_HZ t) (HPET_BASE t) (HPET_PERIOD t)
           (HPET_AVAILABLE t) (UPTIME_MS t + 1000 / TIMER_HZ t)%usize).

Definition tick_count (t : Timer) : Z := TICK_COUNT t.
Definition timer_hz (t : Timer) : Z := TIMER_HZ t.
Definition uptime_ms (t : Timer) : Z := UPTIME_MS t.
Definition uptime_sec (t : Timer) : Z := uptime_ms t / 1000.

(** ** Ticks from boot *)

Fixpoint ticks (n : nat) (t : Timer) : outcome Timer :=
  match n with
  | O => Ret t
  | S n' => obind (ticks n' t) on_timer_tick
  end.

Lemma ticks_spec n t :
  TIMER_HZ t ≠ 0 →
  ∃ t', ticks n t = Ret t' ∧ TIMER_HZ t' = TIMER_HZ t ∧
    HPET_AVAILABLE t' = HPET_AVAILABLE t ∧
    (TICK_COUNT t' mod 2 ^ 64 = (TICK_COUNT t + Z.of_nat n) mod 2 ^ 64) ∧
    (UPTIME_MS t' mod 2 ^ 64 = (UPTIME_MS t + Z.of_nat n * (1000 / TIMER_HZ t)) mod 2 ^ 64) ∧
    (n ≠ 0%nat → 0 ≤ TICK_COUNT t' < 2 ^ 64 ∧ 0 ≤ UPTIME_MS t' < 2 ^ 64).
Proof.
  intros Hz. induction n as [|n (t1 & E & Hhz & Hav & Htc & Hup & _)].
  { exists t. split_and!; try done; f_equal; lia. }
  simpl. rewrite E. simpl. unfold on_timer_tick.
  rewrite (proj2 (Z.eqb_neq _ _)) by congruence.
  eexists. split; [done|]. simpl. split; [done|]. split; [done|]. unfold wrap.
  rewrite !Zmod_mod. split_and!.
  - rewrite <- Zplus_mod_idemp_l, Htc, Zplus_mod_idemp_l. f_equal. lia.
  - rewrite <- Zplus_mod_idemp_l, Hup, Zplus_mod_idemp_l, Hhz. f_equal. lia.
  - intros _. split; apply Z.mod_pos_bound; lia.
Qed.

Section Uptime.
Context {D : Device}.

Lemma Hpet_init_statics t info tr :
  let t' := (Hpet_init t info tr).1.1 in
  TIMER_HZ t' = TIMER_HZ t ∧ TICK_COUNT t' = TICK_COUNT t ∧ UPTIME_MS t' = UPTIME_MS t.
Proof.
  unfold Hpet_init. destruct (_ =? 0); rewrite !run_bind; [done|].
  destruct (_ || _); [done|]. by rewrite !run_bind.
Qed.

Lemma init_statics t info tr :
  let t' := (init t info tr).1 in
  TIMER_HZ t' = 100 ∧ TICK_COUNT t' = TICK_COUNT t ∧ UPTIME_MS t' = UPTIME_MS t.
Proof.
  unfold init. rewrite (run_bind (Pit_init _ _)), run_bind.
  assert (Hp : let t1 := (Pit_init t 100 tr).1 in
    TIMER_HZ t1 = 100 ∧ TICK_COUNT t1 = TICK_COUNT t ∧ UPTIME_MS t1 = UPTIME_MS t)
    by (unfold Pit_init; by rewrite !run_bind).
  destruct Hp as (Hp1 & Hp2 & Hp3).
  match goal with |- context [Hpet_init ?x info ?y] =>
    pose proof (Hpet_init_statics x info y) as H; destruct (Hpet_init x info y).1 as [t1 [u|e]] end.
  all: cbn [fst snd] in *; destruct H as (H1 & H2 & H3); rewrite ?run_bind; cbn [mret io_ret fst];
    rewrite H1, H2, H3; done.
Qed.

Lemma init_hz t info tr : TIMER_HZ (init t info tr).1 = 100.
Proof. apply init_statics. Qed.

(** After [n] ticks of the 100 Hz timer, [tick_count] is [n] and
    [uptime_ms] is [10 n]; but without an HPET [Hpet::uptime_us] gives [100 n],
    a hundredth of the elapsed microseconds. *)
Theorem uptime_after_ticks n info tr t0
    (Hn : 0 < Z.of_nat n < 2 ^ 48)
    (Hinit : (init Timer_statics info tr).1 = t0) (Hno : HPET_AVAILABLE t0 = false) :
  ∃ t, ticks n t0 = Ret t ∧ tick_count t = Z.of_nat n ∧ uptime_ms t = 10 * Z.of_nat n ∧
    ∀ tr, (Hpet_uptime_us t tr).1 = Ret (100 * Z.of_nat n).
Proof.
  pose proof (init_statics Timer_statics info tr) as Ht0. rewrite Hinit in Ht0. clear Hinit.
  destruct Ht0 as (Hhz & Htc & Hup). cbn [Timer_statics TICK_COUNT UPTIME_MS] in Htc, Hup.
  destruct (ticks_spec n t0) as (t & E & Hhz' & Hav & Htc' & Hup' & Hb); [congruence|].
  destruct Hb as [Hb1 Hb2]; [lia|].
  rewrite Htc, (Z.mod_small (TICK_COUNT t)), Z.mod_small in Htc' by lia.
  rewrite Hup, Hhz in Hup'. change (1000 / 100) with 10 in Hup'.
  rewrite (Z.mod_small (UPTIME_MS t)), Z.mod_small in Hup' by lia.
  exists t. split; [done|]. unfold tick_count, uptime_ms. split; [lia|].
  split; [lia|].
  intros tr'. unfold Hpet_uptime_us, is_available. rewrite Hav, Hno, Hhz', Hhz. simpl.
  rewrite Htc'. f_equal. rewrite usize_small by lia.
  replace ((0 + Z.of_nat n) * 10000) with (100 * Z.of_nat n * 100) by lia.
  by rewrite Z.div_mul.
Qed.
End Uptime.

Definition demo_silent : Device := λ t q, 0.

Lemma uptime_after_ticks_witness :
  ∃ t, ticks 250 (init (D := demo_silent) Timer_statics Acpi.AcpiInfo_new []).1 = Ret t ∧
    uptime_ms t = 2500.
Proof.
  destruct (uptime_after_ticks (D := demo_silent) 250 Acpi.AcpiInfo_new []
    (init (D := demo_silent) Timer_statics Acpi.AcpiInfo_new []).1) as (t & H1 & _ & H2 & _).
  - lia.
  - reflexivity.
  - vm_compute. reflexivity.
  - exists t. split; [exact H1|exact H2].
Defined.

(** A period of 69841279 fs, the HPET's usual one, is printed as 14.32 MHz. *)
Example hpet_mhz :
  fmt_f64_2 (f64_div (1000000000000000 / 69841279) 1000000) = str "14.32".
Proof. vm_compute. reflexivity. Qed.

End Timer.
