(* ===== verification/Apic.v ===== *)
(** * The interrupt controllers (src/apic/mod.rs)

    The local APIC and the I/O APIC: the statics of the module, and every
    operation as a sequence of accesses to their registers and of lines
    printed. *)

From stdpp Require Import base numbers list gmap strings.
From S2P Require Import Prelude Text Device Acpi.
Import Text Device.
Open Scope Z_scope.

Module Apic.

Definition LAPIC_ID : Z := 0x020.
Definition LAPIC_VERSION : Z := 0x030.
Definition LAPIC_EOI : Z := 0x0B0.
Definition LAPIC_SVR : Z := 0x0F0.
Definition LAPIC_ESR : Z := 0x280.
Definition LAPIC_ICR_LOW : Z := 0x300.
Definition LAPIC_ICR_HIGH : Z := 0x310.
Definition LAPIC_LVT_TIMER : Z := 0x320.
Definition LAPIC_LVT_THERMAL : Z := 0x330.
Definition LAPIC_LVT_PERF : Z := 0x340.
Definition LAPIC_LVT_LINT0 : Z := 0x350.
Definition LAPIC_LVT_LINT1 : Z := 0x360.
Definition LAPIC_LVT_ERROR : Z := 0x370.
Definition LAPIC_TIMER_ICR : Z := 0x380.
Definition LAPIC_TIMER_CCR : Z := 0x390.
Definition LAPIC_TIMER_DCR : Z := 0x3E0.
Definition LAPIC_SVR_ENABLE : Z := 0x100.
Definition LAPIC_SPURIOUS_VECTOR : Z := 0xFF.
Definition LAPIC_TIMER_VECTOR : Z := 0x20.
Definition LAPIC_TIMER_MODE_ONESHOT : Z := 0x00000.
Definition LAPIC_TIMER_MODE_PERIODIC : Z := 0x20000.
Definition LAPIC_LVT_MASKED : Z := 0x10000.
Definition LAPIC_TIMER_DIVIDE_BY_16 : Z := 0x03.
Definition ICR_DELIVERY_INIT : Z := 0x500000.
Definition ICR_DELIVERY_STARTUP : Z := 0x600000.
Definition ICR_DEST_PHYSICAL : Z := 0x000000.
Definition ICR_LEVEL_ASSERT : Z := 0x4000.
Definition IOAPIC_REG_VERSION : Z := 0x01.
Definition IOAPIC_REG_REDIRECT : Z := 0x10.
Definition IOAPIC_REDIRECT_MASKED : Z := Z.shiftl 1 16.
Definition IOAPIC_REDIRECT_LEVEL : Z := Z.shiftl 1 15.

Record Apic := mkApic {
  LAPIC_BASE : Z;
  IOAPIC_BASE : Z;
  APIC_INITIALIZED : bool;
  USING_APIC : bool
}.

Definition Apic_statics : Apic := mkApic 0 0 false false.

Definition is_available (s : Apic) : bool := APIC_INITIALIZED s.
Definition is_using_apic (s : Apic) : bool := USING_APIC s.

Section Apic.
Context {D : Device}.

(** ** The local APIC *)

Definition read_reg (s : Apic) (offset : Z) : io Z := load (LAPIC_BASE s + offset)%usize.
Definition write_reg (s : Apic) (offset v : Z) : io unit := store (LAPIC_BASE s + offset)%usize v.

Definition LocalApic_init (s : Apic) (info : Acpi.AcpiInfo) : io (Apic * result string unit) :=
  let s := mkApic (Acpi.local_apic_address info) (IOAPIC_BASE s) (APIC_INITIALIZED s)
             (USING_APIC s) in
  kprintln (str "[APIC] Initializing Local APIC at " ++ fmt_hex (LAPIC_BASE s) ++ str "...");;
  write_reg s LAPIC_LVT_TIMER LAPIC_LVT_MASKED;;
  write_reg s LAPIC_LVT_THERMAL LAPIC_LVT_MASKED;;
  write_reg s LAPIC_LVT_PERF LAPIC_LVT_MASKED;;
  write_reg s LAPIC_LVT_LINT0 LAPIC_LVT_MASKED;;
  write_reg s LAPIC_LVT_LINT1 LAPIC_LVT_MASKED;;
  write_reg s LAPIC_LVT_ERROR LAPIC_LVT_MASKED;;
  write_reg s LAPIC_ESR 0;;
  write_reg s LAPIC_ESR 0;;
  write_reg s LAPIC_SVR (Z.lor LAPIC_SVR_ENABLE LAPIC_SPURIOUS_VECTOR);;
  svr ← read_reg s LAPIC_SVR;
  if Z.land svr LAPIC_SVR_ENABLE =? 0
  then mret (s, Err "Failed to enable Local APIC"%string)
  else
    id ← read_reg s LAPIC_ID;
    let apic_id := Z.shiftr id 24 in
    v ← read_reg s LAPIC_VERSION;
    let version := Z.land v 0xFF in
    v ← read_reg s LAPIC_VERSION;
    let max_lvt := Z.land (Z.shiftr v 16) 0xFF in
    kprintln (str "[APIC] LAPIC ID: " ++ fmt_dec apic_id ++ str ", version: 0x" ++ fmt_radix 16 version ++
              str ", max LVT: " ++ fmt_dec max_lvt);;
    mret (mkApic (LAPIC_BASE s) (IOAPIC_BASE s) true true, Ok tt).

(** The constants of [calibrate_timer]. *)
Definition CALIBRATION_MS : Z := 50.
Definition CALIBRATION_TICKS : Z := wrap 16 (1193182 * CALIBRATION_MS / 1000).

(** [while (inb_legacy(0x61) & 0x20) == 0 {}]. *)
Definition wait_pit (polls : nat) : io bool := wait_set polls 0x61 0x20.

(** The bus frequency, if the wait for the PIT has ended. *)
Definition calibrate_timer (polls : nat) (s : Apic) : io (option Z) :=
  v ← inb 0x61; outb 0x61 (Z.lor (Z.land v 0x0D) 0x01);;
  outb 0x43 0xB2;;
  outb 0x42 (Z.land CALIBRATION_TICKS 0xFF);;
  outb 0x42 (Z.land (Z.shiftr CALIBRATION_TICKS 8) 0xFF);;
  write_reg s LAPIC_LVT_TIMER (Z.lor LAPIC_TIMER_MODE_ONESHOT LAPIC_TIMER_VECTOR);;
  write_reg s LAPIC_TIMER_DCR LAPIC_TIMER_DIVIDE_BY_16;;
  write_reg s LAPIC_TIMER_ICR 0xFFFFFFFF;;
  v ← inb 0x61; outb 0x61 (Z.lor (Z.land v 0x0D) 0x01);;
  done ← wait_pit polls;
  if negb done then mret None
  else
    current_count ← read_reg s LAPIC_TIMER_CCR;
    let elapsed := wrap 32 (0xFFFFFFFF - current_count) in
    let bus_freq := (elapsed * 16 * 1000)%usize / CALIBRATION_MS in
    write_reg s LAPIC_LVT_TIMER LAPIC_LVT_MASKED;;
    mret (Some bus_freq).

(** [None] while the calibration waits; a frequency of 0 divides by zero. *)
Definition setup_timer (polls : nat) (s : Apic) (frequency_hz : Z) : io (option (outcome unit)) :=
  if negb (is_available s) then mret (Some (Ret tt))
  else
    kprintln (str "[APIC] Setting up LAPIC timer at " ++ fmt_dec frequency_hz ++ str " Hz...");;
    write_reg s LAPIC_TIMER_DCR LAPIC_TIMER_DIVIDE_BY_16;;
    f ← calibrate_timer polls s;
    match f with
    | None => mret None
    | Some bus_freq =>
        if frequency_hz =? 0 then mret (Some Panic)
        else
          let initial_count := bus_freq / 16 / frequency_hz in
          kprintln (str "[APIC] Bus frequency: " ++ fmt_dec bus_freq ++ str " Hz, initial count: " ++
                    fmt_dec initial_count);;
          write_reg s LAPIC_LVT_TIMER (Z.lor LAPIC_TIMER_MODE_PERIODIC LAPIC_TIMER_VECTOR);;
          write_reg s LAPIC_TIMER_ICR (wrap 32 initial_count);;
          kprintln (str "[APIC] LAPIC timer active - " ++ fmt_dec frequency_hz ++ str " Hz periodic");;
          mret (Some (Ret tt))
    end.

Definition eoi (s : Apic) : io unit :=
  if is_available s then write_reg s LAPIC_EOI 0 else mret tt.

Definition lapic_id (s : Apic) : io Z :=
  if is_available s then v ← read_reg s LAPIC_ID; mret (Z.shiftr v 24) else mret 0.

(** At most 1000 polls of the delivery status. *)
Fixpoint wait_icr_polls (n : nat) (s : Apic) : io unit :=
  match n with
  | O => mret tt
  | S n =>
      v ← read_reg s LAPIC_ICR_LOW;
      if Z.land v 0x1000 =? 0 then mret tt else wait_icr_polls n s
  end.
Definition wait_icr (s : Apic) : io unit := wait_icr_polls 1000 s.

Definition send_init (s : Apic) (apic_id : Z) : io unit :=
  write_reg s LAPIC_ICR_HIGH (wrap 32 (Z.shiftl apic_id 24));;
  write_reg s LAPIC_ICR_LOW (Z.lor (Z.lor ICR_DELIVERY_INIT ICR_LEVEL_ASSERT) ICR_DEST_PHYSICAL);;
  wait_icr s.

Definition send_startup (s : Apic) (apic_id vector : Z) : io unit :=
  write_reg s LAPIC_ICR_HIGH (wrap 32 (Z.shiftl apic_id 24));;
  write_reg s LAPIC_ICR_LOW
    (Z.lor (Z.lor ICR_DELIVERY_STARTUP (Z.land vector 0xFF)) ICR_DEST_PHYSICAL);;
  wait_icr s.

Definition stop_timer (s : Apic) : io unit :=
  if is_available s then
    write_reg s LAPIC_LVT_TIMER LAPIC_LVT_MASKED;; write_reg s LAPIC_TIMER_ICR 0
  else mret tt.

Definition disable_pic : io unit :=
  kprintln (str "[APIC] Disabling legacy PIC...");; outb 0x21 0xFF;; outb 0xA1 0xFF.

(** ** The I/O APIC *)

Definition ioapic_read (s : Apic) (register : Z) : io Z :=
  store (IOAPIC_BASE s) register;; load (IOAPIC_BASE s + 0x10)%usize.

Definition ioapic_write (s : Apic) (register v : Z) : io unit :=
  store (IOAPIC_BASE s) register;; store (IOAPIC_BASE s + 0x10)%usize v.

Definition read_redirect (s : Apic) (entry : Z) : io Z :=
  let reg := IOAPIC_REG_REDIRECT + entry * 2 in
  low ← ioapic_read s reg;
  high ← ioapic_read s (reg + 1);
  mret (Z.lor (wrap 64 (Z.shiftl high 32)) low).

Definition write_redirect (s : Apic) (entry v : Z) : io unit :=
  let reg := IOAPIC_REG_REDIRECT + entry * 2 in
  ioapic_write s reg (wrap 32 v);;
  ioapic_write s (reg + 1) (wrap 32 (Z.shiftr v 32)).

Definition setup_irq (s : Apic) (irq vector : Z) (level_triggered : bool) : io unit :=
  let entry := if level_triggered then Z.lor vector IOAPIC_REDIRECT_LEVEL else vector in
  write_redirect s irq entry.

Definition mask_irq (s : Apic) (irq : Z) : io unit :=
  entry ← read_redirect s irq; write_redirect s irq (Z.lor entry IOAPIC_REDIRECT_MASKED).

Definition unmask_irq (s : Apic) (irq : Z) : io unit :=
  entry ← read_redirect s irq;
  write_redirect s irq (Z.land entry (usize_not IOAPIC_REDIRECT_MASKED)).

(** The routing of one override. *)
Definition route_override (s : Apic) (o : Acpi.IntOverride) : io unit :=
  kprintln (str "[APIC] IRQ override: bus=" ++ fmt_dec (Acpi.bus_source o) ++ str " irq=" ++
            fmt_dec (Acpi.irq_source o) ++ str " gsi=" ++ fmt_dec (Acpi.global_system_interrupt o) ++
            str " flags=" ++ fmt_hex (Acpi.override_flags o));;
  if Acpi.irq_source o =? 0 then
    setup_irq s (wrap 8 (Acpi.global_system_interrupt o)) (wrap 8 LAPIC_TIMER_VECTOR)
      (negb (Z.land (Acpi.override_flags o) 0x0A =? 0))
  else mret tt.

Definition IoApic_init (s : Apic) (info : Acpi.AcpiInfo) : io (Apic * result string unit) :=
  if Acpi.io_apic_address info =? 0 then
    kprintln (str "[APIC] No IO APIC found, using legacy PIC");; mret (s, Ok tt)
  else
    let s := mkApic (LAPIC_BASE s) (Acpi.io_apic_address info) (APIC_INITIALIZED s)
               (USING_APIC s) in
    kprintln (str "[APIC] Initializing IO APIC at " ++ fmt_hex (Acpi.io_apic_address info) ++ str "...");;
    version ← ioapic_read s IOAPIC_REG_VERSION;
    let max_entries := Z.land (Z.shiftr version 16) 0xFF + 1 in
    kprintln (str "[APIC] IO APIC version: " ++ fmt_dec (Z.land version 0xFF) ++
              str ", max redirection entries: " ++ fmt_dec max_entries);;
    io_each 0 max_entries (λ i, write_redirect s i IOAPIC_REDIRECT_MASKED);;
    setup_irq s 1 0x21 false;;
    io_list (route_override s)
      (take (Z.to_nat (Acpi.int_override_count info)) (Acpi.int_overrides info));;
    kprintln (str "[APIC] IO APIC initialized");;
    mret (s, Ok tt).

(** ** The registers behind the window of the I/O APIC *)

(** The register selected, and the values written, after the accesses [t]. *)
Definition window_step (base : Z) (x : Z * gmap Z Z) (e : event) : Z * gmap Z Z :=
  match e with
  | Store a v =>
      if a =? base then (v, x.2)
      else if a =? (base + 0x10)%usize then (x.1, <[x.1 := v]> x.2) else x
  | _ => x
  end.

Definition window (base : Z) (t : list event) : Z * gmap Z Z := foldl (window_step base) (0, ∅) t.
Definition ioreg (base : Z) (t : list event) (r : Z) : Z := default 0 ((window base t).2 !! r).

(** The redirection entry of a pin. *)
Definition pin (base : Z) (t : list event) (i : Z) : Z :=
  ioreg base t (IOAPIC_REG_REDIRECT + i * 2) + 2 ^ 32 * ioreg base t (IOAPIC_REG_REDIRECT + i * 2 + 1).

(** A constant lies between constants. *)
Ltac in_const := vm_compute; split; [discriminate|reflexivity].

Lemma window_distinct base : ((base + 0x10)%usize =? base) = false.
Proof.
  apply Z.eqb_neq. intros E. unfold wrap in E. change (2 ^ 64) with 18446744073709551616 in E.
  pose proof (Z.div_mod (base + 0x10) 18446744073709551616). lia.
Qed.

Lemma window_ioapic_write s r v t :
  window (IOAPIC_BASE s) (trace (ioapic_write s r v) t) =
    (r, <[r := v]> (window (IOAPIC_BASE s) t).2).
Proof.
  unfold trace, ioapic_write, mbind, io_bind, store, window. simpl.
  rewrite !foldl_app. simpl. rewrite window_distinct, !Z.eqb_refl. done.
Qed.

Lemma window_say base line t : window base (trace (kprintln line) t) = window base t.
Proof. unfold trace, kprintln, window. simpl. by rewrite foldl_app. Qed.

Lemma pin_say base line t i : pin base (trace (kprintln line) t) i = pin base t i.
Proof. unfold pin, ioreg. by rewrite window_say. Qed.

Lemma ioreg_write s r v t r' :
  ioreg (IOAPIC_BASE s) (trace (ioapic_write s r v) t) r' =
    if decide (r = r') then v else ioreg (IOAPIC_BASE s) t r'.
Proof.
  unfold ioreg. rewrite window_ioapic_write. simpl. rewrite lookup_insert. by case_decide.
Qed.

(** Writing the entry of a pin changes that entry only. *)
Lemma pin_write s i v t j :
  0 ≤ v < 2 ^ 64 →
  pin (IOAPIC_BASE s) (trace (write_redirect s i v) t) j =
    if i =? j then v else pin (IOAPIC_BASE s) t j.
Proof.
  intros Hv. unfold write_redirect. rewrite trace_bind. unfold pin.
  rewrite !ioreg_write. destruct (i =? j) eqn:E; break_cmp.
  - subst j. rewrite (decide_False (P := _ + 1 = IOAPIC_REG_REDIRECT + i * 2)) by lia.
    rewrite !decide_True by done. unfold wrap. rewrite Z.shiftr_div_pow2 by lia.
    rewrite (Z.mod_small (v / 2 ^ 32)); [pose proof (Z_div_mod_eq_full v (2 ^ 32)); lia|].
    split; [apply Z.div_pos; lia|]. apply Z.div_lt_upper_bound; lia.
  - rewrite !decide_False by lia. done.
Qed.

(** ** Routing *)

Definition override_entry (o : Acpi.IntOverride) : Z :=
  if negb (Z.land (Acpi.override_flags o) 0x0A =? 0)
  then Z.lor LAPIC_TIMER_VECTOR IOAPIC_REDIRECT_LEVEL else LAPIC_TIMER_VECTOR.

(** The entry a pin should have: the last override of the timer's interrupt that
    names it, or the keyboard's vector for pin 1, or masked. *)
Definition routed (os : list Acpi.IntOverride) (i : Z) : Z :=
  foldl (λ acc o, if (Acpi.irq_source o =? 0) && (wrap 8 (Acpi.global_system_interrupt o) =? i)
                  then override_entry o else acc)
    (if i =? 1 then 0x21 else IOAPIC_REDIRECT_MASKED) os.

Lemma pin_overrides s os i : ∀ t,
  pin (IOAPIC_BASE s) (trace (io_list (route_override s) os) t) i =
    foldl (λ acc o, if (Acpi.irq_source o =? 0) && (wrap 8 (Acpi.global_system_interrupt o) =? i)
                    then override_entry o else acc) (pin (IOAPIC_BASE s) t i) os.
Proof.
  induction os as [|o os IH]; intros t; simpl; [done|]. rewrite trace_bind, IH. f_equal.
  unfold route_override. rewrite trace_bind.
  destruct (Acpi.irq_source o =? 0); simpl; [|apply pin_say].
  unfold setup_irq, override_entry. destruct (negb _); rewrite pin_write, pin_say by in_const; done.
Qed.

Lemma pin_mask_all s n i t :
  0 ≤ n → 0 ≤ i < n →
  pin (IOAPIC_BASE s) (trace (io_each 0 n (λ i, write_redirect s i IOAPIC_REDIRECT_MASKED)) t) i =
    IOAPIC_REDIRECT_MASKED.
Proof.
  intros Hn Hi. unfold trace, io_each. cbn [snd].
  assert (Hgen : ∀ k, 0 ≤ k ≤ n → i < k →
    pin (IOAPIC_BASE s)
      (for_each 0 k (λ i t, (write_redirect s i IOAPIC_REDIRECT_MASKED t).2) t) i =
    IOAPIC_REDIRECT_MASKED).
  { intros k Hk Hik.
    pose proof (for_each_rule (λ k t', i < k → pin (IOAPIC_BASE s) t' i = IOAPIC_REDIRECT_MASKED)
      0 k (λ i t, (write_redirect s i IOAPIC_REDIRECT_MASKED t).2) t) as Hr.
    apply Hr; [lia|lia| |lia].
    intros j t' Hj IH Hlt. fold (trace (write_redirect s j IOAPIC_REDIRECT_MASKED) t').
    rewrite (pin_write s j) by in_const.
    destruct (j =? i) eqn:E; break_cmp; [done|]. apply IH. lia. }
  apply Hgen; lia.
Qed.

(** C30. After [IoApic::init] every redirection entry of the controller is as
    meant: the keyboard's pin leads to vector 0x21, the pins to which the firmware
    redirects the timer lead to vector 0x20, level triggered where the override
    says so, and all others are masked. *)
Theorem ioapic_routes s info t version
    (Hio : Acpi.io_apic_address info ≠ 0)
    (Hver : ∀ t, (ioapic_read (mkApic (LAPIC_BASE s) (Acpi.io_apic_address info) (APIC_INITIALIZED s)
               (USING_APIC s)) IOAPIC_REG_VERSION t).1 = version) :
  let os := take (Z.to_nat (Acpi.int_override_count info)) (Acpi.int_overrides info) in
  let '((s', r), t') := IoApic_init s info t in
  r = Ok tt ∧ IOAPIC_BASE s' = Acpi.io_apic_address info ∧
  ∀ i, 0 ≤ i ≤ Z.land (Z.shiftr version 16) 0xFF →
    pin (IOAPIC_BASE s') t' i = routed os i.
Proof.
  intros os. unfold IoApic_init. rewrite (proj2 (Z.eqb_neq _ _) Hio).
  set (s1 := mkApic _ _ _ _) in *. cbn zeta.
  rewrite (run_bind (kprintln _)), (run_bind (ioapic_read _ _)), Hver, !run_bind.
  cbn [mret io_ret]. split; [done|]. split; [done|].
  intros i Hi. change (Acpi.io_apic_address info) with (IOAPIC_BASE s1).
  rewrite pin_say, pin_overrides. unfold routed. f_equal.
  unfold setup_irq. rewrite pin_write by lia. rewrite pin_mask_all by lia.
  rewrite (Z.eqb_sym 1 i). done.
Qed.

(** ** Masking *)

(** The documented behaviour of the window: a load gives the register selected. *)
Definition is_window (base : Z) : Prop :=
  ∀ t, answer t (AskMem (base + 0x10)%usize) = ioreg base t (window base t).1.

Definition u32_regs (base : Z) (t : list event) : Prop := ∀ r, 0 ≤ ioreg base t r < 2 ^ 32.

Lemma window_load base a v t : window base (t ++ [Load a v]) = window base t.
Proof. unfold window. by rewrite foldl_app. Qed.

Lemma ioapic_read_spec s r t :
  is_window (IOAPIC_BASE s) →
  let '(v, t') := ioapic_read s r t in
  v = ioreg (IOAPIC_BASE s) t r ∧ ∀ r', ioreg (IOAPIC_BASE s) t' r' = ioreg (IOAPIC_BASE s) t r'.
Proof.
  intros Hw. unfold ioapic_read, mbind, io_bind, store, load. cbn zeta.
  set (t1 := t ++ [Store (IOAPIC_BASE s) r]).
  assert (H1 : window (IOAPIC_BASE s) t1 = (r, (window (IOAPIC_BASE s) t).2)).
  { unfold t1, window. rewrite foldl_app. simpl. by rewrite Z.eqb_refl. }
  rewrite Hw. unfold ioreg. rewrite H1. split; [done|].
  intros r'. by rewrite window_load, H1.
Qed.

Lemma read_redirect_spec s i t :
  is_window (IOAPIC_BASE s) → u32_regs (IOAPIC_BASE s) t →
  let '(v, t') := read_redirect s i t in
  v = pin (IOAPIC_BASE s) t i ∧ 0 ≤ v < 2 ^ 64 ∧
  ∀ j, pin (IOAPIC_BASE s) t' j = pin (IOAPIC_BASE s) t j.
Proof.
  intros Hw Hu. unfold read_redirect, mbind, io_bind.
  pose proof (ioapic_read_spec s (IOAPIC_REG_REDIRECT + i * 2) t Hw) as H1.
  destruct (ioapic_read s (IOAPIC_REG_REDIRECT + i * 2) t) as [low t1]. destruct H1 as [-> H1].
  pose proof (ioapic_read_spec s (IOAPIC_REG_REDIRECT + i * 2 + 1) t1 Hw) as H2.
  destruct (ioapic_read s (IOAPIC_REG_REDIRECT + i * 2 + 1) t1) as [high t2]. destruct H2 as [-> H2].
  rewrite H1. unfold mret, io_ret, pin.
  pose proof (Hu (IOAPIC_REG_REDIRECT + i * 2)) as Hlo.
  pose proof (Hu (IOAPIC_REG_REDIRECT + i * 2 + 1)) as Hhi.
  rewrite wrap_small by (rewrite Z.shiftl_mul_pow2 by lia; lia).
  rewrite Z.lor_comm, lor_shiftl_add by lia. split_and!; try lia.
  intros j. by rewrite !H2, !H1.
Qed.

(** [mask_irq] and [unmask_irq] as changes of the entry. *)
Lemma change_irq s i f t :
  is_window (IOAPIC_BASE s) → u32_regs (IOAPIC_BASE s) t →
  (∀ v, 0 ≤ v < 2 ^ 64 → 0 ≤ f v < 2 ^ 64) →
  let t' := trace (entry ← read_redirect s i; write_redirect s i (f entry)) t in
  ∀ j, pin (IOAPIC_BASE s) t' j =
    if i =? j then f (pin (IOAPIC_BASE s) t i) else pin (IOAPIC_BASE s) t j.
Proof.
  intros Hw Hu Hf t' j. unfold t'. rewrite trace_bind. unfold trace at 2.
  pose proof (read_redirect_spec s i t Hw Hu) as Hr.
  destruct (read_redirect s i t) as [v t1]. destruct Hr as (-> & Hv & Hr). cbn [fst snd].
  rewrite pin_write by (apply Hf; lia). by rewrite Hr.
Qed.

Lemma pin_regs base t i :
  u32_regs base t → 0 ≤ pin base t i < 2 ^ 64.
Proof.
  intros Hu. unfold pin. pose proof (Hu (IOAPIC_REG_REDIRECT + i * 2)).
  pose proof (Hu (IOAPIC_REG_REDIRECT + i * 2 + 1)). lia.
Qed.

Lemma u32_write s i v t :
  u32_regs (IOAPIC_BASE s) t → u32_regs (IOAPIC_BASE s) (trace (write_redirect s i v) t).
Proof.
  intros Hu r. unfold write_redirect. rewrite trace_bind, !ioreg_write.
  repeat case_decide; try apply Hu; by apply wrap_bounds.
Qed.

Lemma u32_read_redirect s i t :
  is_window (IOAPIC_BASE s) → u32_regs (IOAPIC_BASE s) t →
  u32_regs (IOAPIC_BASE s) (trace (read_redirect s i) t).
Proof.
  intros Hw Hu r. unfold read_redirect. rewrite !trace_bind. unfold trace, mret, io_ret. cbn [snd].
  match goal with |- context [ioapic_read s ?r1 (?x).2] =>
    pose proof (ioapic_read_spec s r1 x.2 Hw) as H2; destruct (ioapic_read s r1 x.2) as [? ?] end.
  pose proof (ioapic_read_spec s (IOAPIC_REG_REDIRECT + i * 2) t Hw) as H1.
  destruct (ioapic_read s (IOAPIC_REG_REDIRECT + i * 2) t) as [? ?].
  cbn [fst snd] in *. destruct H1 as [_ H1], H2 as [_ H2]. by rewrite H2, H1.
Qed.

(** Masking a pin and unmasking it again gives back its entry, if it was not
    masked, and in no case touches the entry of another pin. *)
Theorem mask_unmask_irq s i t
    (Hw : is_window (IOAPIC_BASE s)) (Hu : u32_regs (IOAPIC_BASE s) t) :
  let t1 := trace (mask_irq s i) t in
  let t2 := trace (unmask_irq s i) t1 in
  Z.testbit (pin (IOAPIC_BASE s) t1 i) 16 = true ∧
  Z.testbit (pin (IOAPIC_BASE s) t2 i) 16 = false ∧
  (Z.testbit (pin (IOAPIC_BASE s) t i) 16 = false →
     pin (IOAPIC_BASE s) t2 i = pin (IOAPIC_BASE s) t i) ∧
  ∀ j, j ≠ i → pin (IOAPIC_BASE s) t1 j = pin (IOAPIC_BASE s) t j ∧
               pin (IOAPIC_BASE s) t2 j = pin (IOAPIC_BASE s) t j.
Proof.
  intros t1 t2.
  assert (H1 : ∀ j, pin (IOAPIC_BASE s) t1 j = if i =? j
    then Z.lor (pin (IOAPIC_BASE s) t i) IOAPIC_REDIRECT_MASKED else pin (IOAPIC_BASE s) t j).
  { apply (change_irq s i (λ v, Z.lor v IOAPIC_REDIRECT_MASKED) t Hw Hu).
    intros v Hv. apply lor_bounds; [lia|done|in_const]. }
  assert (Hu1 : u32_regs (IOAPIC_BASE s) t1).
  { unfold t1, mask_irq. rewrite trace_bind. apply u32_write. by apply u32_read_redirect. }
  assert (H2 : ∀ j, pin (IOAPIC_BASE s) t2 j = if i =? j
    then Z.land (pin (IOAPIC_BASE s) t1 i) (usize_not IOAPIC_REDIRECT_MASKED)
    else pin (IOAPIC_BASE s) t1 j).
  { apply (change_irq s i (λ v, Z.land v (usize_not IOAPIC_REDIRECT_MASKED)) t1 Hw Hu1).
    intros v Hv. apply land_bounds; [lia|done]. }
  pose proof (pin_regs _ _ i Hu) as Hv.
  pose proof (H1 i) as H1i. pose proof (H2 i) as H2i. rewrite Z.eqb_refl in H1i, H2i.
  rewrite H1i in H2i. rewrite H1i, H2i. set (v := pin (IOAPIC_BASE s) t i) in *.
  assert (Hbit : ∀ n, 0 ≤ n → Z.testbit IOAPIC_REDIRECT_MASKED n = (n =? 16)).
  { intros n Hn. unfold IOAPIC_REDIRECT_MASKED. rewrite Z.shiftl_1_l, Z.pow2_bits_eqb by lia.
    apply Z.eqb_sym. }
  split_and!.
  - rewrite Z.lor_spec, Hbit by lia. by rewrite orb_true_r.
  - rewrite Z.land_spec. unfold usize_not. rewrite Z.lxor_spec, Hbit by lia. apply andb_false_r.
  - intros Hm. apply Z.bits_inj_iff'. intros n Hn. unfold usize_not.
    rewrite Z.land_spec, Z.lor_spec, Z.lxor_spec, Hbit, Z.testbit_ones_nonneg by lia.
    destruct (n =? 16) eqn:E; break_cmp; [subst; by rewrite Hm|].
    rewrite orb_false_r, xorb_false_r. destruct (Z.lt_ge_cases n 64).
    + by rewrite (proj2 (Z.ltb_lt n 64)), andb_true_r.
    + rewrite (bits_above 64 v) by lia. done.
  - intros j Hj. rewrite H2, H1, (proj2 (Z.eqb_neq i j)) by done. done.
Qed.

(** ** The timer *)

Lemma calibrate_spec polls s t :
  (∀ t q, 0 ≤ answer t q < 2 ^ 32) → (∀ t, (wait_pit polls t).1 = true) →
  ∃ t1 elapsed, calibrate_timer polls s t =
    (Some (elapsed * 320),
     t1 ++ [Load (LAPIC_BASE s + LAPIC_TIMER_CCR)%usize (0xFFFFFFFF - elapsed);
            Store (LAPIC_BASE s + LAPIC_LVT_TIMER)%usize LAPIC_LVT_MASKED]) ∧
    0 ≤ elapsed < 2 ^ 32.
Proof.
  intros Hans Hpit. unfold calibrate_timer. rewrite !run_bind, Hpit.
  match goal with |- context [trace (wait_pit polls) ?x] => set (tw := trace (wait_pit polls) x) end.
  clearbody tw. cbn [negb]. rewrite !run_bind. unfold read_reg, write_reg, trace, load, store, mret, io_ret.
  cbn [fst snd]. set (c := answer tw _). pose proof (Hans tw (AskMem (LAPIC_BASE s + LAPIC_TIMER_CCR)%usize)) as Hc.
  fold c in Hc. clearbody c. exists tw, (0xFFFFFFFF - c). rewrite <- app_assoc. cbn [app].
  rewrite (wrap_small 32) by lia. rewrite usize_small by lia. split; [|lia]. f_equal.
  - f_equal. unfold CALIBRATION_MS. dlia.
  - do 3 f_equal. lia.
Qed.

Lemma setup_timer_returns polls s hz t :
  (∀ t, (wait_pit polls t).1 = true) → hz ≠ 0 → (setup_timer polls s hz t).1 = Some (Ret tt).
Proof.
  intros Hpit Hz. unfold setup_timer. destruct (negb _); [done|].
  rewrite (run_bind (kprintln _)), (run_bind (write_reg _ _ _)), run_bind.
  unfold calibrate_timer. rewrite !run_bind, Hpit. cbn [negb]. rewrite !run_bind.
  rewrite (proj2 (Z.eqb_neq hz 0) Hz). done.
Qed.

(** With a frequency of at least 20 Hz, [setup_timer] programs the counter
    for the rate asked for: with [elapsed] counts in the 50 ms of the
    calibration, a period is the number of counts per second over the frequency,
    rounded down, and it fits the register. *)
Theorem setup_timer_rate polls s hz t
    (Hav : is_available s = true) (Hhz : 20 ≤ hz)
    (Hans : ∀ t q, 0 ≤ answer t q < 2 ^ 32)
    (Hpit : ∀ t, (wait_pit polls t).1 = true) :
  ∃ t1 elapsed count line1 line2,
    setup_timer polls s hz t =
      (Some (Ret tt),
       t1 ++ [Load (LAPIC_BASE s + LAPIC_TIMER_CCR)%usize (0xFFFFFFFF - elapsed);
              Store (LAPIC_BASE s + LAPIC_LVT_TIMER)%usize LAPIC_LVT_MASKED;
              Say line1;
              Store (LAPIC_BASE s + LAPIC_LVT_TIMER)%usize
                (Z.lor LAPIC_TIMER_MODE_PERIODIC LAPIC_TIMER_VECTOR);
              Store (LAPIC_BASE s + LAPIC_TIMER_ICR)%usize count;
              Say line2]) ∧
    0 ≤ elapsed < 2 ^ 32 ∧ count * hz ≤ elapsed * 1000 / CALIBRATION_MS < (count + 1) * hz.
Proof.
  unfold setup_timer. rewrite Hav. cbn [negb]. rewrite (run_bind (kprintln _)), (run_bind (write_reg _ _ _)).
  set (t0 := trace (write_reg _ _ _) _). rewrite run_bind. unfold trace.
  destruct (calibrate_spec polls s t0 Hans Hpit) as (t1 & elapsed & -> & He). cbn [fst snd].
  rewrite (proj2 (Z.eqb_neq hz 0)) by lia. rewrite !run_bind.
  unfold trace, write_reg, kprintln, store, mret, io_ret. cbn [fst snd]. rewrite <- !app_assoc. cbn [app].
  eexists t1, elapsed, (elapsed * 20 / hz), _, _.
  replace (elapsed * 320 / 16) with (elapsed * 20) by dlia.
  assert (Hq : elapsed * 20 / hz ≤ elapsed).
  { apply Z.div_le_upper_bound; [lia|]. nia. }
  assert (0 ≤ elapsed * 20 / hz) by (apply Z.div_pos; lia).
  rewrite (wrap_small 32 (_ / hz)) by lia. split; [done|]. split; [done|].
  replace (elapsed * 1000 / CALIBRATION_MS) with (elapsed * 20) by (unfold CALIBRATION_MS; dlia).
  pose proof (Z_div_mod_eq_full (elapsed * 20) hz).
  pose proof (Z.mod_pos_bound (elapsed * 20) hz). nia.
Qed.

End Apic.

(** ** Devices *)

(** An I/O APIC with 24 pins, and otherwise a device that answers 0x20 to every
    read. *)
Definition demo_ioapic : Device := λ t q, 0x170020.
Definition demo_pit : Device := λ t q, 0x20.
Definition demo_window (base : Z) : Device := λ t q, ioreg base t (window base t).1.

Definition demo_info : Acpi.AcpiInfo :=
  Acpi.add_override (Acpi.mkOverride 0 0 2 0) Acpi.AcpiInfo_new.
Definition demo_apic : Apic := mkApic 0xFEE00000 0xFEC00000 true true.

Lemma ioapic_routes_witness :
  let t := (IoApic_init (D := demo_ioapic) demo_apic demo_info []).2 in
  pin 0xFEC00000 t 1 = 0x21 ∧ pin 0xFEC00000 t 2 = 0x20 ∧ pin 0xFEC00000 t 3 = 0x10000.
Proof.
  pose proof (ioapic_routes (D := demo_ioapic) demo_apic demo_info [] 0x170020
    ltac:(discriminate) (λ t, eq_refl)) as H.
  cbv zeta in H |- *. destruct (IoApic_init demo_apic demo_info []) as [[s' r] t].
  destruct H as (_ & Hb & H). change (Acpi.io_apic_address demo_info) with 0xFEC00000 in Hb.
  rewrite Hb in H. cbn [snd].
  rewrite (H 1), (H 2), (H 3) by (vm_compute; split; discriminate).
  vm_compute. repeat split.
Defined.

Lemma mask_unmask_irq_witness :
  let t1 := trace (mask_irq (D := demo_window 0xFEC00000) demo_apic 4) [] in
  Z.testbit (pin 0xFEC00000 t1 4) 16 = true.
Proof.
  apply (mask_unmask_irq (D := demo_window 0xFEC00000) demo_apic 4 []).
  - intros t. reflexivity.
  - intros r. unfold ioreg, window. cbn [foldl snd]. rewrite lookup_empty. simpl. lia.
Defined.

Lemma setup_timer_rate_witness :
  (setup_timer (D := demo_pit) 1 demo_apic 100 []).1 = Some (Ret tt) ∧
  ∃ elapsed count, 0 ≤ elapsed < 2 ^ 32 ∧
    Store (0xFEE00000 + LAPIC_TIMER_ICR)%usize count ∈ (setup_timer (D := demo_pit) 1 demo_apic 100 []).2 ∧
    count * 100 ≤ elapsed * 1000 / CALIBRATION_MS < (count + 1) * 100.
Proof.
  destruct (setup_timer_rate (D := demo_pit) 1 demo_apic 100 []) as (t1 & e & count & l1 & l2 & H & He & Hc).
  - reflexivity.
  - lia.
  - intros t q. unfold answer, demo_pit. lia.
  - intros t. reflexivity.
  - rewrite H. split; [reflexivity|]. exists e, count. split; [exact He|]. split; [|exact Hc].
    cbn [snd]. apply elem_of_app. right. do 4 right. left.
Defined.

End Apic.
