(* ===== verification/Syscall.v ===== *)
(** * System calls (src/syscall.rs)

    The dispatch on the number in RAX and the calls behind it.  The buffers of a
    program are bytes of memory at the address it passes. *)

From stdpp Require Import base numbers list gmap strings.
From S2P Require Import Prelude Memory Text Console.
Import Text Console.
Open Scope Z_scope.

Module Syscall.

Inductive SyscallNumber :=
  | Read | Write | Open | Close | Seek | Stat | Mkdir | Unlink | Getdents | Mount | Umount
  | Clone | Exit | Waitpid | Getpid | Yield | Mmap | Munmap | Print | Readline | Sysinfo.

(** [impl From<u64> for SyscallNumber]. *)
Definition SyscallNumber_from (v : Z) : SyscallNumber :=
  match v with
  | 0 => Read | 1 => Write | 2 => Open | 3 => Close | 4 => Seek | 5 => Stat | 6 => Mkdir
  | 7 => Unlink | 8 => Getdents | 10 => Mount | 11 => Umount | 20 => Clone | 21 => Exit
  | 22 => Waitpid | 23 => Getpid | 24 => Yield | 30 => Mmap | 31 => Munmap | 100 => Print
  | 101 => Readline | 200 => Sysinfo
  | _ => Read
  end.

(** The bytes of [from_raw_parts(buffer, count)]. *)
Definition user_bytes (m : mem) (buffer count : Z) : list Z :=
  (λ i, rd m (buffer + i)%usize) <$> seqZ 0 count.

(** The loop that prints them one by one. *)
Definition print_bytes (c : Console) (l : list Z) : Console := foldl vga_print_char c l.

Definition sys_write (m : mem) (c : Console) (fd buffer count : Z) : Console * KernelResult Z :=
  if (fd =? 1) || (fd =? 2) then (print_bytes c (user_bytes m buffer count), Ok count)
  else (c, Err IoError).

Definition sys_print (m : mem) (c : Console) (buffer count : Z) : Console * KernelResult Z :=
  (print_bytes c (user_bytes m buffer count), Ok count).

Definition sys_close (fd : Z) : KernelResult Z := Ok 0.
Definition sys_getpid : KernelResult Z := Ok 1.
Definition sys_yield : KernelResult Z := Ok 0.
Definition sys_munmap (addr size : Z) : KernelResult Z := Ok 0.

(** The result is an [i64]; [sys_exit] does not return. *)
Definition rust_syscall_handler (m : mem) (c : Console) (nr arg1 arg2 arg3 arg4 : Z)
    : flow (Console * Z) :=
  let finish '(c, r) :=
    Returns (c, match r with Ok v => swrap 64 v | Err e => errno e end) in
  match SyscallNumber_from nr with
  | Write => finish (sys_write m c arg1 arg2 arg3)
  | Print => finish (sys_print m c arg1 arg2)
  | Getpid => finish (c, sys_getpid)
  | Yield => finish (c, sys_yield)
  | Close => finish (c, sys_close arg1)
  | Munmap => finish (c, sys_munmap arg1 arg2)
  | Exit => Halts
  | _ => finish (c, Err IoError)
  end.

Lemma print_bytes_serial c l :
  on_screen c → on_screen (print_bytes c l) ∧ serial (print_bytes c l) = serial c ++ l.
Proof.
  unfold print_bytes. revert c. induction l as [|b l IH]; intros c Hc; simpl.
  { by rewrite app_nil_r. }
  destruct (vga_print_serial c [b] Hc) as [H1 H2].
  destruct (IH (vga_print_char c b)) as [H3 H4]; [done|]. split; [done|].
  rewrite H4. unfold vga_print_char. by rewrite H2, <- app_assoc.
Qed.

(** The numbers with a call behind them. *)
Definition implemented : list Z := [1; 3; 21; 23; 24; 31; 100].

Lemma SyscallNumber_from_other nr :
  0 ≤ nr → nr ∉ implemented →
  match SyscallNumber_from nr with
  | Write | Print | Getpid | Yield | Close | Munmap | Exit => False
  | _ => True
  end.
Proof.
  intros Hn Hni. unfold implemented in Hni. rewrite !not_elem_of_cons in Hni.
  destruct (Z.le_gt_cases 256 nr) as [Hbig|Hsmall].
  - unfold SyscallNumber_from. destruct nr as [|q|]; [lia| |lia].
    do 8 (destruct q as [q|q|]; try lia; try done).
  - pose proof (byte_cases (λ v, match SyscallNumber_from v with
        | Write | Print | Getpid | Yield | Close | Munmap | Exit =>
            existsb (Z.eqb v) implemented
        | _ => true end) eq_refl nr ltac:(lia)) as Hall. cbn beta in Hall.
    assert (Hex : existsb (Z.eqb nr) implemented = false).
    { apply not_true_is_false. intros (x & Hx%list_elem_of_In & ?%Z.eqb_eq)%existsb_exists.
      subst. unfold implemented in Hx. rewrite !elem_of_cons in Hx. destruct Hni as (?&?&?&?&?&?&?&?).
      by destruct Hx as [?|[?|[?|[?|[?|[?|[?|?%elem_of_nil]]]]]]]. }
    destruct (SyscallNumber_from nr); try done; congruence.
Qed.


Definition demo_mem : mem := <[0x2000 := 72]> (<[0x2001 := 105]> ∅).


End Syscall.
