(* ===== verification/Interrupts.v ===== *)
(** * Interrupt handling (src/interrupts.rs)

    The keyboard's ring buffer and scan code tables, the acknowledgement of
    interrupts, and the handlers the assembly stubs call. *)

From stdpp Require Import base numbers list gmap strings.
From S2P Require Import Prelude Memory Text Console Timer Arch Task Scheduler Device Acpi Apic Syscall.
Import Text Device.
Open Scope Z_scope.

Module Keyboard.

Record Keyboard := mkKeyboard {
  buffer : list Z;
  head : Z;
  tail : Z;
  shift_pressed : bool;
  caps_lock : bool
}.

Definition Keyboard_statics : Keyboard := mkKeyboard (replicate 256 0) 0 0 false false.

Definition keyboard_has_data (k : Keyboard) : bool := negb (head k =? tail k).

Definition keyboard_read_char (k : Keyboard) : Keyboard * Z :=
  if head k =? tail k then (k, 0)
  else
    (mkKeyboard (buffer k) (head k) ((tail k + 1) mod 256) (shift_pressed k) (caps_lock k),
     default 0 (buffer k !! Z.to_nat (tail k))).

Definition SCANCODE_TO_ASCII : list Z :=
  [0; 27] ++ str "1234567890-=" ++ [8; 9] ++ str "qwertyuiop[]" ++ [10; 0] ++
  str "asdfghjkl;'`" ++ [0] ++ str "\zxcvbnm,./" ++ [0] ++ str "*" ++ [0] ++ str " " ++
  replicate 10 0 ++ replicate 10 0 ++
  [0; 0; 0; 0] ++ str "-" ++ [0; 0; 0] ++ str "+" ++ [0] ++ replicate 40 0.

(** The quotation mark is 34. *)
Definition SCANCODE_TO_ASCII_SHIFT : list Z :=
  [0; 27] ++ str "!@#$%^&*()_+" ++ [8; 9] ++ str "QWERTYUIOP{}" ++ [10; 0] ++
  str "ASDFGHJKL:" ++ [34] ++ str "~" ++ [0] ++ str "|ZXCVBNM<>?" ++ [0] ++ str "*" ++ [0] ++
  str " " ++ replicate 10 0 ++ replicate 10 0 ++
  [0; 0; 0; 0] ++ str "-" ++ [0; 0; 0] ++ str "+" ++ [0] ++ replicate 40 0.

(** The character of a key. *)
Definition ascii_of (shift : bool) (key : Z) : Z :=
  default 0 ((if shift then SCANCODE_TO_ASCII_SHIFT else SCANCODE_TO_ASCII) !! Z.to_nat key).

Definition handle_keyboard_scancode (k : Keyboard) (scancode : Z) : Keyboard :=
  let released := negb (Z.land scancode 0x80 =? 0) in
  let key := Z.land scancode 0x7F in
  if (key =? 0x2A) || (key =? 0x36) then
    mkKeyboard (buffer k) (head k) (tail k) (negb released) (caps_lock k)
  else if key =? 0x3A then
    if negb released
    then mkKeyboard (buffer k) (head k) (tail k) (shift_pressed k) (negb (caps_lock k))
    else k
  else if released then k
  else if key <? 128 then
    let ch := ascii_of (shift_pressed k) key in
    if negb (ch =? 0) then
      let next_head := (head k + 1) mod 256 in
      if negb (next_head =? tail k) then
        mkKeyboard (<[Z.to_nat (head k) := ch]> (buffer k)) next_head (tail k)
          (shift_pressed k) (caps_lock k)
      else k
    else k
  else k.

(** ** The queue the buffer stands for *)

(** The characters from the tail to the head. *)
Definition waiting (k : Keyboard) : list Z :=
  (λ i, default 0 (buffer k !! Z.to_nat ((tail k + i) mod 256))) <$>
    seqZ 0 ((head k - tail k) mod 256).

Definition wf (k : Keyboard) : Prop :=
  length (buffer k) = 256%nat ∧ 0 ≤ head k < 256 ∧ 0 ≤ tail k < 256.

(** The specification: a queue of at most 255 characters and the state of the
    shift keys. *)
Definition queue : Type := list Z * bool.

Inductive op := Scan (scancode : Z) | ReadChar | HasData.

Definition spec_scan (q : queue) (scancode : Z) : queue :=
  let released := Z.testbit scancode 7 in
  let key := scancode mod 128 in
  let '(chars, shift) := q in
  if (key =? 0x2A) || (key =? 0x36) then (chars, negb released)
  else if released then q
  else
    let ch := ascii_of shift key in
    if (ch =? 0) || (255 <=? Z.of_nat (length chars)) then q else (chars ++ [ch], shift).

(** The state after an operation and its answer. *)
Definition spec_step (q : queue) (o : op) : queue * Z :=
  match o with
  | Scan c => (spec_scan q c, 0)
  | ReadChar => match q.1 with [] => (q, 0) | c :: rest => ((rest, q.2), c) end
  | HasData => (q, match q.1 with [] => 0 | _ => 1 end)
  end.

Definition code_step (k : Keyboard) (o : op) : Keyboard * Z :=
  match o with
  | Scan c => (handle_keyboard_scancode k c, 0)
  | ReadChar => keyboard_read_char k
  | HasData => (k, if keyboard_has_data k then 1 else 0)
  end.

Fixpoint run {S} (step : S → op → S * Z) (s : S) (ops : list op) : list Z :=
  match ops with
  | [] => []
  | o :: ops => let '(s, r) := step s o in r :: run step s ops
  end.

(** The code's state implements the specification's. *)
Definition implements (k : Keyboard) (q : queue) : Prop :=
  wf k ∧ waiting k = q.1 ∧ shift_pressed k = q.2.

Lemma waiting_length k : Z.of_nat (length (waiting k)) = (head k - tail k) mod 256.
Proof.
  unfold waiting. rewrite length_fmap, length_seqZ, Z2Nat.id; [done|].
  apply Z.mod_pos_bound. lia.
Qed.

Lemma waiting_nil k : wf k → (head k =? tail k) = true ↔ waiting k = [].
Proof.
  intros (_ & Hh & Ht). rewrite Z.eqb_eq. split.
  - intros E. apply nil_length_inv. pose proof (waiting_length k) as Hl. rewrite E, Z.sub_diag in Hl.
    change (0 mod 256) with 0 in Hl. lia.
  - intros E. pose proof (waiting_length k) as Hl. rewrite E in Hl. simpl in Hl. dlia.
Qed.

(** One more character at the head. *)
Lemma waiting_push k ch :
  wf k → (head k + 1) mod 256 ≠ tail k →
  waiting (mkKeyboard (<[Z.to_nat (head k) := ch]> (buffer k)) ((head k + 1) mod 256) (tail k)
             (shift_pressed k) (caps_lock k)) = waiting k ++ [ch].
Proof.
  intros (Hl & Hh & Ht) Hne. unfold waiting. cbn [head tail buffer].
  set (n := (head k - tail k) mod 256).
  assert (Hn : ((head k + 1) mod 256 - tail k) mod 256 = n + 1) by (unfold n; dlia).
  assert (Hn0 : 0 ≤ n < 255) by (unfold n in *; dlia).
  rewrite Hn, seqZ_app, fmap_app by lia. f_equal.
  - apply list_fmap_ext. intros j x Hx. apply lookup_seqZ in Hx as [-> Hj].
    rewrite list_lookup_insert_ne; [done|]. unfold n in *. dlia.
  - rewrite Z.add_0_l, seqZ_cons by lia. change (seqZ (Z.succ n) (Z.pred 1)) with (@nil Z).
    cbn [fmap list_fmap]. f_equal.
    replace ((tail k + n) mod 256) with (head k) by (unfold n; dlia).
    rewrite list_lookup_insert_eq by lia. done.
Qed.

(** The character at the tail comes out. *)
Lemma waiting_pop k c rest :
  wf k → waiting k = c :: rest →
  default 0 (buffer k !! Z.to_nat (tail k)) = c ∧
  waiting (mkKeyboard (buffer k) (head k) ((tail k + 1) mod 256) (shift_pressed k) (caps_lock k))
    = rest.
Proof.
  intros (Hl & Hh & Ht) Hw.
  assert (Hn : 0 < (head k - tail k) mod 256).
  { pose proof (waiting_length k) as Hlen. rewrite Hw in Hlen. simpl in Hlen. lia. }
  unfold waiting in *. cbn [head tail buffer]. rewrite seqZ_cons in Hw by lia.
  rewrite fmap_cons in Hw. injection Hw as Hc Hr. split.
  - rewrite Z.add_0_r, Z.mod_small in Hc by lia. done.
  - rewrite <- Hr. replace ((head k - (tail k + 1) mod 256) mod 256) with
      (Z.pred ((head k - tail k) mod 256)) by dlia.
    replace (Z.succ 0) with 1 by lia. rewrite <- (fmap_add_seqZ 1 0), <- list_fmap_compose.
    apply list_fmap_ext. intros j x Hx. apply lookup_seqZ in Hx as [-> Hj]. simpl.
    do 3 f_equal. dlia.
Qed.

Lemma scan_key scancode :
  0 ≤ scancode < 256 →
  negb (Z.land scancode 0x80 =? 0) = Z.testbit scancode 7 ∧
  Z.land scancode 0x7F = scancode mod 128 ∧ 0 ≤ scancode mod 128 < 128.
Proof.
  intros Hs. split_and!; [|change 0x7F with (Z.ones 7); by rewrite Z.land_ones|apply Z.mod_pos_bound; lia|apply Z.mod_pos_bound; lia].
  by apply eqb_prop,
    (byte_cases (λ c, Bool.eqb (negb (Z.land c 0x80 =? 0)) (Z.testbit c 7))).
Qed.

Lemma ascii_of_caps shift : ascii_of shift 0x3A = 0.
Proof. by destruct shift. Qed.

Lemma scan_implements k q scancode :
  0 ≤ scancode < 256 → implements k q →
  implements (handle_keyboard_scancode k scancode) (spec_scan q scancode).
Proof.
  intros Hs (Hwf & Hq & Hsh). destruct q as [chars shift]. simpl in Hq, Hsh. subst shift.
  unfold handle_keyboard_scancode, spec_scan.
  destruct (scan_key scancode Hs) as (-> & -> & Hkey). cbn zeta.
  destruct (_ || _) eqn:E1. { split; [exact Hwf|]. done. }
  destruct (scancode mod 128 =? 0x3A) eqn:E2; break_cmp.
  { rewrite E2, ascii_of_caps. destruct (Z.testbit scancode 7); simpl; (split; [exact Hwf|done]). }
  destruct (Z.testbit scancode 7). { split; [exact Hwf|done]. }
  rewrite (proj2 (Z.ltb_lt (scancode mod 128) 128)) by lia.
  set (ch := ascii_of (shift_pressed k) (scancode mod 128)).
  pose proof (waiting_length k) as Hlen. rewrite Hq in Hlen. pose proof Hwf as (Hl & Hh & Ht).
  destruct (ch =? 0) eqn:Ec; cbn [negb orb]. { split; [exact Hwf|done]. }
  destruct ((head k + 1) mod 256 =? tail k) eqn:Ef; break_cmp; cbn [negb].
  - rewrite (proj2 (Z.leb_le 255 _)); [split; [exact Hwf|done]|]. dlia.
  - rewrite (proj2 (Z.leb_gt 255 _)) by dlia. split; [|split; [|done]].
    + unfold wf. cbn [buffer head tail]. rewrite length_insert. split_and!; try done; dlia.
    + cbn [fst]. rewrite waiting_push by done. by rewrite Hq.
Qed.

Lemma step_implements k q o :
  match o with Scan c => 0 ≤ c < 256 | _ => True end → implements k q →
  let '(k', r) := code_step k o in
  let '(q', r') := spec_step q o in
  implements k' q' ∧ r = r'.
Proof.
  intros Ho Hi. destruct o as [c| |]; simpl.
  - split; [by apply scan_implements|done].
  - destruct Hi as (Hwf & Hq & Hsh). unfold keyboard_read_char.
    destruct q as [[|c rest] sh]; simpl in *.
    + assert (E : (head k =? tail k) = true) by by apply waiting_nil. by rewrite E.
    + destruct (head k =? tail k) eqn:E; [apply waiting_nil in E; [congruence|done]|].
      destruct (waiting_pop k c rest Hwf Hq) as [H1 H2]. split; [|done].
      split_and!; [|done|done]. destruct Hwf as (? & ? & ?). unfold wf. cbn [buffer head tail].
      split_and!; try done; dlia.
  - split; [done|]. destruct Hi as (Hwf & Hq & _). unfold keyboard_has_data.
    destruct q as [[|c rest] sh]; simpl in *.
    + apply waiting_nil in Hq; [|done]. by rewrite Hq.
    + destruct (head k =? tail k) eqn:E; [|done].
      apply waiting_nil in E; [congruence|done].
Qed.

(** C14. The keyboard driver implements a first-in first-out queue of 255
    characters: for every sequence of scan codes from the controller and reads
    by the shell, the answers are those of the queue into which each key press
    puts the character of the table selected by the shift keys, and which drops
    what does not fit.  Caps lock has no part in it. *)
Theorem keyboard_refines_queue ops
    (Hops : Forall (λ o, match o with Scan c => 0 ≤ c < 256 | _ => True end) ops) :
  run code_step Keyboard_statics ops = run spec_step ([], false) ops.
Proof.
  assert (H0 : implements Keyboard_statics ([], false)) by (split_and!; done || (simpl; lia)).
  revert H0. generalize Keyboard_statics, ([] : list Z, false).
  induction Hops as [|o ops Ho Hops IH]; intros k q Hi; [done|]. simpl.
  pose proof (step_implements k q o Ho Hi) as Hs.
  destruct (code_step k o) as [k' r], (spec_step q o) as [q' r'].
  destruct Hs as [Hi' ->]. f_equal. by apply IH.
Qed.

Lemma keyboard_refines_queue_witness :
  run code_step Keyboard_statics [Scan 0x2A; Scan 0x23; Scan 0xAA; Scan 0x17; ReadChar; ReadChar] =
    [0; 0; 0; 0; 72; 105].
Proof.
  rewrite (keyboard_refines_queue [Scan 0x2A; Scan 0x23; Scan 0xAA; Scan 0x17; ReadChar; ReadChar]).
  - vm_compute. reflexivity.
  - repeat constructor; lia.
Defined.

End Keyboard.

Module Interrupts.
Import Keyboard Console.

Record InterruptContext := mkContext {
  r15 : Z; r14 : Z; r13 : Z; r12 : Z; r11 : Z; r10 : Z; r9 : Z; r8 : Z; rbp : Z; rdi : Z;
  rsi : Z; rdx : Z; rcx : Z; rbx : Z; rax : Z; vector : Z; error_code : Z; rip : Z; cs : Z;
  rflags : Z; rsp : Z; ss : Z
}.

Definition set_rax (v : Z) (c : InterruptContext) : InterruptContext :=
  mkContext (r15 c) (r14 c) (r13 c) (r12 c) (r11 c) (r10 c) (r9 c) (r8 c) (rbp c) (rdi c)
    (rsi c) (rdx c) (rcx c) (rbx c) v (vector c) (error_code c) (rip c) (cs c)
    (rflags c) (rsp c) (ss c).

(** The statics of the kernel the handlers use; [KERNEL_SCHEDULER] is [None]
    until the scheduler is set up. *)
Record Kernel := mkKernel {
  keyboard : Keyboard.Keyboard;
  timer : Timer.Timer;
  apic : Apic.Apic;
  scheduler : option Scheduler.Scheduler;
  console : Console.Console
}.

Definition set_keyboard (x : Keyboard.Keyboard) (k : Kernel) : Kernel :=
  mkKernel x (timer k) (apic k) (scheduler k) (console k).
Definition set_timer (x : Timer.Timer) (k : Kernel) : Kernel :=
  mkKernel (keyboard k) x (apic k) (scheduler k) (console k).
Definition set_scheduler (x : option Scheduler.Scheduler) (k : Kernel) : Kernel :=
  mkKernel (keyboard k) (timer k) (apic k) x (console k).
Definition set_console (x : Console.Console) (k : Kernel) : Kernel :=
  mkKernel (keyboard k) (timer k) (apic k) (scheduler k) x.

(** [kprint!]. *)
Definition kprint (msg : text) (k : Kernel) : Kernel := set_console (vga_print (console k) msg) k.

Section Handlers.
Context {D : Device}.

Definition send_eoi (k : Kernel) (irq : Z) : io unit :=
  if Apic.is_using_apic (apic k) then Apic.eoi (apic k)
  else
    (if 8 <=? irq then outb 0xA0 0x20 else mret tt);;
    outb 0x20 0x20.

(** What the handler does before the acknowledgement at its end: the context
    and the kernel after it, and the switch in which [tick] ends.  Then the
    handler has not returned, and the rest of it is [isr_resumed]. *)
Definition isr_branch (m : mem) (cr2 : Z) (ctx : InterruptContext) (k : Kernel)
    : io (flow (InterruptContext * Kernel * Scheduler.switch)) :=
  let back k := mret (Returns (ctx, k, None)) in
  let v := vector ctx in
  if v =? 0 then
    back (kprint (str "[EXC] #DE Divide Error at RIP=" ++ fmt_hex (rip ctx) ++ [10]) k)
  else if v =? 6 then
    back (kprint (str "[EXC] #UD Invalid Opcode at RIP=" ++ fmt_hex (rip ctx) ++ [10]) k)
  else if v =? 8 then mret Halts
  else if v =? 13 then
    back (kprint (str "[EXC] #GP General Protection at RIP=" ++ fmt_hex (rip ctx) ++
                  str " err=" ++ fmt_hex (error_code ctx) ++ [10]) k)
  else if v =? 14 then
    let present := negb (Z.land (error_code ctx) 1 =? 0) in
    let write := negb (Z.land (error_code ctx) 2 =? 0) in
    let user := negb (Z.land (error_code ctx) 4 =? 0) in
    back (kprint (str "[EXC] #PF at RIP=" ++ fmt_hex (rip ctx) ++ str " addr=" ++ fmt_hex cr2 ++
                  str " P=" ++ fmt_bool present ++ str " W=" ++ fmt_bool write ++
                  str " U=" ++ fmt_bool user ++ [10]) k)
  else if v =? 32 then
    match Timer.on_timer_tick (timer k) with
    | Panic => mret Panics
    | Ret t =>
        let k := set_timer t k in
        let '(k, sw) :=
          match scheduler k with
          | Some s => let '(s, sw) := Scheduler.tick s in (set_scheduler (Some s) k, sw)
          | None => (k, None)
          end in
        match sw with
        | None => send_eoi k 0;; mret (Returns (ctx, k, None))
        | Some _ => mret (Returns (ctx, k, sw))
        end
    end
  else if v =? 33 then
    scancode ← inb 0x60;
    let k := set_keyboard (handle_keyboard_scancode (keyboard k) scancode) k in
    send_eoi k 1;; mret (Returns (ctx, k, None))
  else if (v =? 39) || (v =? 47) then back k
  else if v =? 128 then
    match Syscall.rust_syscall_handler m (console k) (rax ctx) (rdi ctx) (rsi ctx) (rdx ctx)
            (r10 ctx) with
    | Returns (c, r) => mret (Returns (set_rax (wrap 64 r) ctx, set_console c k, None))
    | Halts => mret Halts
    | Panics => mret Panics
    end
  else if v =? 255 then back k
  else if v <? 32 then
    back (kprint (str "[EXC] Vector " ++ fmt_dec v ++ str " at RIP=" ++ fmt_hex (rip ctx) ++ [10]) k)
  else back k.

(** The rest of the branch of vector 32, once the task [tick] has switched away
    from runs again: the end of [schedule], and the acknowledgement. *)
Definition isr_resumed (k : Kernel) : io Kernel :=
  let k :=
    match scheduler k with
    | Some s => set_scheduler (Some (Scheduler.schedule_resumed s)) k
    | None => k
    end in
  send_eoi k 0;; mret k.

Definition rust_isr_handler (m : mem) (cr2 : Z) (ctx : InterruptContext) (k : Kernel)
    : io (flow (InterruptContext * Kernel * Scheduler.switch)) :=
  r ← isr_branch m cr2 ctx k;
  match r with
  | Returns (ctx, k, sw) =>
      (if (34 <=? vector ctx) && (vector ctx <? 48) then send_eoi k (wrap 8 (vector ctx - 32))
       else mret tt);;
      mret (Returns (ctx, k, sw))
  | Halts => mret Halts
  | Panics => mret Panics
  end.

(** The handler of the timer's own stub: the stack pointer to go on with. *)
Definition rust_timer_handler (k : Kernel) (saved_state_ptr : Z) : io (flow (Kernel * Z)) :=
  match Timer.on_timer_tick (timer k) with
  | Panic => mret Panics
  | Ret t =>
      let k := set_timer t k in
      send_eoi k 0;;
      match scheduler k with
      | Some s =>
          if Scheduler.preempt_enabled s then
            let '(s, sp) := Scheduler.preempt_schedule s saved_state_ptr in
            mret (Returns (set_scheduler (Some s) k, sp))
          else mret (Returns (k, saved_state_ptr))
      | None => mret (Returns (k, saved_state_ptr))
      end
  end.

Definition rust_apic_eoi_handler (k : Kernel) : io unit := Apic.eoi (apic k).

(** ** Acknowledgement *)

(** The accesses that acknowledge the interrupt [irq]. *)
Definition ack (k : Kernel) (irq : Z) : list event :=
  if Apic.is_using_apic (apic k) then
    if Apic.is_available (apic k)
    then [Store (Apic.LAPIC_BASE (apic k) + Apic.LAPIC_EOI)%usize 0] else []
  else (if 8 <=? irq then [OutB 0xA0 0x20] else []) ++ [OutB 0x20 0x20].

Lemma send_eoi_ack k irq t : send_eoi k irq t = (tt, t ++ ack k irq).
Proof.
  unfold send_eoi, ack. destruct (Apic.is_using_apic (apic k)).
  - unfold Apic.eoi. destruct (Apic.is_available (apic k)); [done|].
    unfold mret, io_ret. by rewrite app_nil_r.
  - rewrite run_bind. destruct (8 <=? irq); unfold trace, outb, mret, io_ret; cbn [fst snd app].
    + by rewrite <- app_assoc.
    + done.
Qed.

(** What the handler accesses for a vector. *)
Definition accesses (k : Kernel) (v : Z) (t : list event) : list event :=
  if v =? 33 then [InB 0x60 (answer t (AskB 0x60))] ++ ack k 1
  else if (32 <=? v) && (v <? 48) then ack k (v - 32) else [].

(** A branch that only changes the kernel's state. *)
Ltac not_vector := break_cmp; apply Z.eqb_neq; lia.

Lemma isr_branch_quiet m cr2 ctx k t ctx' k' sw t' :
  isr_branch m cr2 ctx k t = (Returns (ctx', k', sw), t') →
  vector ctx' = vector ctx ∧ apic k' = apic k ∧
  match sw with
  | None => t' = t ++ (if vector ctx =? 33 then [InB 0x60 (answer t (AskB 0x60))] ++ ack k 1
                       else if vector ctx =? 32 then ack k 0 else [])
  | Some _ => vector ctx = 32 ∧ t' = t
  end.
Proof.
  unfold isr_branch.
  assert (Hback : ∀ k1, apic k1 = apic k → (vector ctx =? 33) = false → (vector ctx =? 32) = false →
    (Returns (ctx, k1, None : Scheduler.switch), t) = (Returns (ctx', k', sw), t') →
    vector ctx' = vector ctx ∧ apic k' = apic k ∧
    match sw with
    | None => t' = t ++ (if vector ctx =? 33 then [InB 0x60 (answer t (AskB 0x60))] ++ ack k 1
                         else if vector ctx =? 32 then ack k 0 else [])
    | Some _ => vector ctx = 32 ∧ t' = t
    end).
  { intros k1 Hk1 H33 H32 [= <- <- <- <-]. rewrite H33, H32, app_nil_r. done. }
  destruct (vector ctx =? 0) eqn:E0; [apply Hback; [done|by not_vector|by not_vector]|].
  destruct (vector ctx =? 6) eqn:E6; [apply Hback; [done|by not_vector|by not_vector]|].
  destruct (vector ctx =? 8); [done|].
  destruct (vector ctx =? 13) eqn:E13; [apply Hback; [done|by not_vector|by not_vector]|].
  destruct (vector ctx =? 14) eqn:E14; [apply Hback; [done|by not_vector|by not_vector]|].
  destruct (vector ctx =? 32) eqn:E32.
  { rewrite (proj2 (Z.eqb_neq (vector ctx) 33)) by (break_cmp; lia).
    destruct (Timer.on_timer_tick (timer k)) as [tm|]; [|done]. cbn zeta.
    destruct (match scheduler (set_timer tm k) with Some _ => _ | None => _ end)
      as [k1 sw1] eqn:Es.
    assert (Hk1 : apic k1 = apic k).
    { destruct (scheduler (set_timer tm k)) as [s|].
      - destruct (Scheduler.tick s). by injection Es as <- _.
      - by injection Es as <- _. }
    destruct sw1; [intros [= <- <- <- <-]; break_cmp; done|].
    rewrite run_bind. unfold trace. rewrite send_eoi_ack. cbn [fst snd].
    intros [= <- <- <- <-]. unfold ack. by rewrite Hk1. }
  destruct (vector ctx =? 33) eqn:E33.
  { rewrite !run_bind. unfold trace, inb. cbn [fst snd].
    rewrite send_eoi_ack. cbn [fst snd]. intros [= <- <- <- <-]. by rewrite <- app_assoc. }
  destruct ((vector ctx =? 39) || (vector ctx =? 47)); [by apply Hback|].
  destruct (vector ctx =? 128).
  { destruct (Syscall.rust_syscall_handler _ _ _ _ _ _ _) as [[c r]| |]; [|done|done].
    intros [= <- <- <- <-]. by rewrite app_nil_r. }
  destruct (vector ctx =? 255); [by apply Hback|].
  destruct (vector ctx <? 32); by apply Hback.
Qed.

(** The branches that do not return. *)
Lemma isr_branch_stops m cr2 ctx k t r t' :
  isr_branch m cr2 ctx k t = (r, t') →
  match r with
  | Returns _ => True
  | Halts => vector ctx = 8 ∨ vector ctx = 128
  | Panics => vector ctx = 32 ∨ vector ctx = 128
  end.
Proof.
  unfold isr_branch.
  assert (Hback : ∀ k1, (Returns (ctx, k1, None : Scheduler.switch), t) = (r, t') →
    match r with
    | Returns _ => True
    | Halts => vector ctx = 8 ∨ vector ctx = 128
    | Panics => vector ctx = 32 ∨ vector ctx = 128
    end) by by intros k1 [= <- _].
  destruct (vector ctx =? 0); [by apply Hback|].
  destruct (vector ctx =? 6); [by apply Hback|].
  destruct (vector ctx =? 8) eqn:E8; [intros [= <- _]; break_cmp; by left|].
  destruct (vector ctx =? 13); [by apply Hback|].
  destruct (vector ctx =? 14); [by apply Hback|].
  destruct (vector ctx =? 32) eqn:E32.
  { destruct (Timer.on_timer_tick (timer k)) as [tm|]; [|intros [= <- _]; break_cmp; by left].
    cbn zeta. destruct (match scheduler (set_timer tm k) with Some _ => _ | None => _ end) as [k1 [sw|]];
      [by intros [= <- _]|]. rewrite run_bind. by intros [= <- _]. }
  destruct (vector ctx =? 33). { rewrite !run_bind. by intros [= <- _]. }
  destruct (_ || _); [by apply Hback|].
  destruct (vector ctx =? 128) eqn:E128.
  { break_cmp.
    destruct (Syscall.rust_syscall_handler _ _ _ _ _ _ _) as [[c x]| |]; intros [= <- _]; auto. }
  destruct (vector ctx =? 255); [by apply Hback|].
  destruct (vector ctx <? 32); by apply Hback.
Qed.

Lemma isr_accesses m cr2 ctx k t ctx' k' sw t' :
  rust_isr_handler m cr2 ctx k t = (Returns (ctx', k', sw), t') →
  match sw with
  | None => t' = t ++ accesses k (vector ctx) t
  | Some _ => vector ctx = 32 ∧ t' = t
  end.
Proof.
  unfold rust_isr_handler. rewrite run_bind. unfold trace.
  destruct (isr_branch m cr2 ctx k t) as [[[[ctx1 k1] sw1]| |] t1] eqn:E; [|done|done].
  apply isr_branch_quiet in E as (Hv & Ha & E). cbn [fst snd]. rewrite Hv, run_bind. unfold trace, accesses.
  destruct sw1 as [x|].
  { destruct E as [Hv32 ->]. rewrite Hv32. by intros [= _ _ <- <-]. }
  subst t1. destruct (vector ctx =? 33) eqn:E33; break_cmp.
  { rewrite E33. by intros [= _ _ <- <-]. }
  destruct (vector ctx =? 32) eqn:E32; break_cmp.
  { rewrite E32. by intros [= _ _ <- <-]. }
  rewrite app_nil_r.
  destruct ((34 <=? vector ctx) && (vector ctx <? 48)) eqn:E34; break_cmp.
  - rewrite send_eoi_ack. cbn [snd]. intros [= _ _ <- <-].
    rewrite (proj2 (Z.leb_le 32 _)), (proj2 (Z.ltb_lt _ 48)) by lia. cbn [andb].
    rewrite wrap_small by lia. unfold ack. by rewrite Ha.
  - intros [= _ _ <- <-]. destruct ((32 <=? vector ctx) && (vector ctx <? 48)) eqn:E48.
    + exfalso. break_cmp. rewrite (proj2 (Z.leb_le 34 _)), (proj2 (Z.ltb_lt _ 48)) in E34 by lia. done.
    + cbn [snd]. by rewrite app_nil_r.
Qed.

Lemma isr_resumed_ack k t : trace (isr_resumed k) t = t ++ ack k 0.
Proof.
  unfold isr_resumed. cbv zeta. rewrite trace_bind. unfold trace. rewrite send_eoi_ack. cbn [snd mret io_ret].
  unfold ack. by destruct (scheduler k).
Qed.


(** The stub behind the gate of the keyboard interrupt. *)
Lemma keyboard_gate isr timer_isr spurious base n :
  (∀ i, 0 ≤ isr i < 2 ^ 64) → (∀ i j, 0 ≤ i < 256 → 0 ≤ j < 256 → isr i = isr j → i = j) →
  0 ≤ n < 256 → 0 ≤ timer_isr < 2 ^ 64 → 0 ≤ spurious < 2 ^ 64 →
  Idt.gate (Idt.init isr timer_isr spurious base).1 33 = Some (isr n, Idt.kernel_gate) → n = 32.
Proof.
  intros Hisr Hinj Hn Ht Hs. assert (H33 : 0 ≤ 33 < 256) by lia.
  rewrite (Idt.idt_gates isr timer_isr spurious base 33 Hisr Ht Hs H33).
  change (33 <? 32) with false. change (33 =? 32) with false. change (33 <? 48) with true.
  cbn iota. change (33 - 1) with 32. generalize Idt.kernel_gate. intros g [= E].
  apply Hinj; [done|lia|by symmetry].
Qed.

(** The keyboard does not work: the gate of its interrupt leads to the stub
    that reports vector 32, so the handler counts a tick of the timer and leaves
    the scan code unread. *)
Theorem keyboard_irq_ticks_timer isr timer_isr spurious base n m cr2 ctx k t
    (Hisr : ∀ i, 0 ≤ isr i < 2 ^ 64) (Hinj : ∀ i j, 0 ≤ i < 256 → 0 ≤ j < 256 → isr i = isr j → i = j) (Hn : 0 ≤ n < 256)
    (Ht : 0 ≤ timer_isr < 2 ^ 64) (Hs : 0 ≤ spurious < 2 ^ 64)
    (Hgate : Idt.gate (Idt.init isr timer_isr spurious base).1 33 = Some (isr n, Idt.kernel_gate))
    (Hctx : vector ctx = n) (Hhz : Timer.TIMER_HZ (timer k) ≠ 0) :
  match rust_isr_handler m cr2 ctx k t with
  | (Returns (_, k', sw), t') =>
      keyboard k' = keyboard k ∧
      Timer.TICK_COUNT (timer k') = (Timer.TICK_COUNT (timer k) + 1)%usize ∧
      t' = t ++ match sw with None => ack k 0 | Some _ => [] end
  | _ => False
  end.
Proof.
  apply (keyboard_gate isr timer_isr spurious base n Hisr Hinj Hn Ht Hs) in Hgate. subst n.
  destruct (rust_isr_handler m cr2 ctx k t) as [r t'] eqn:E.
  pose proof E as Hb. revert Hb. unfold rust_isr_handler, isr_branch. rewrite run_bind. rewrite Hctx.
  change (32 =? 0) with false. change (32 =? 6) with false. change (32 =? 8) with false.
  change (32 =? 13) with false. change (32 =? 14) with false. change (32 =? 32) with true.
  unfold Timer.on_timer_tick. rewrite (proj2 (Z.eqb_neq _ 0) Hhz). cbn iota zeta.
  set (tm := Timer.mkTimer _ _ _ _ _ _). unfold trace.
  destruct (match scheduler (set_timer tm k) with Some _ => _ | None => _ end) as [k1 sw1] eqn:Es.
  assert (Hk1 : keyboard k1 = keyboard k ∧ timer k1 = tm).
  { destruct (scheduler (set_timer tm k)) as [sch|].
    - destruct (Scheduler.tick sch). by injection Es as <- _.
    - by injection Es as <- _. }
  destruct sw1 as [x|]; [|rewrite run_bind]; cbn [fst snd mret io_ret]; rewrite run_bind, Hctx;
    change ((34 <=? 32) && (32 <? 48)) with false; cbn [fst snd mret io_ret]; intros [= <- _];
    apply isr_accesses in E; destruct Hk1 as [-> ->]; (split; [done|split; [done|]]).
  - rewrite app_nil_r. apply E.
  - rewrite E. unfold accesses. by rewrite Hctx.
Qed.

End Handlers.

Definition demo_context : InterruptContext :=
  mkContext 0 0 0 0 0 0 0 0 0 0 0 0 0 0 0 32 0 0x100000 0x08 0x202 0x90000 0x10.
Definition demo_kernel : Kernel :=
  mkKernel Keyboard_statics Timer.Timer_statics Apic.Apic_statics None Console_new.
Definition demo_stubs (i : Z) : Z := 0x100000 + 16 * (i mod 256).

Lemma keyboard_irq_ticks_timer_witness :
  match rust_isr_handler (D := Apic.demo_pit) ∅ 0 demo_context demo_kernel [] with
  | (Returns (_, k', _), t') => Timer.TICK_COUNT (timer k') = 1
  | _ => False
  end.
Proof.
  assert (Hb : ∀ i : Z, 0 ≤ demo_stubs i < 2 ^ 64)
    by (intros i; unfold demo_stubs; pose proof (Z.mod_pos_bound i 256); lia).
  assert (Hinj : ∀ i j, 0 ≤ i < 256 → 0 ≤ j < 256 → demo_stubs i = demo_stubs j → i = j).
  { intros i j Hi Hj. unfold demo_stubs. rewrite !Z.mod_small by lia. lia. }
  assert (Hg : Idt.gate (Idt.init demo_stubs 0x200000 0x200100 0x300000).1 33 =
                 Some (demo_stubs 32, Idt.kernel_gate)) by (vm_compute; reflexivity).
  pose proof (keyboard_irq_ticks_timer (D := Apic.demo_pit) demo_stubs 0x200000 0x200100 0x300000 32
    ∅ 0 demo_context demo_kernel [] Hb Hinj ltac:(lia) ltac:(lia) ltac:(lia) Hg
    ltac:(reflexivity) ltac:(discriminate)) as H1.
  destruct (rust_isr_handler _ _ _ _ _) as [[[[ctx' k'] sw]| |] t']; [|done|done].
  destruct H1 as (_ & H1 & _). by rewrite H1.
Defined.

End Interrupts.
