(* ===== verification/Switch.v ===== *)
(** * Preemption end to end (sched/context_switch.asm, interrupts.rs, sched/scheduler.rs)

    A machine has the state of the kernel, the memory and the registers.  Its steps
    are the timer's interrupt, from the pushes of [timer_isr] over the handler and
    the scheduler to the registers popped for the next task, and the work of the
    task that runs.  A task that is preempted continues later with the registers
    and the stack it had.  Module [Stacks] shows what this needs of the scheduler:
    in every reachable state the stacks of different tasks are disjoint. *)

From stdpp Require Import base numbers list gmap strings.
From S2P Require Import Prelude Memory Timer Task Scheduler Device Interrupts.
Open Scope Z_scope.

Module Stacks.
Import Task Scheduler.

(** ** Stacks of all tasks *)

(** The store [a'] has only tasks of [a], on the same stacks. *)
Definition same_stacks (a a' : gmap Z Task) : Prop :=
  ∀ h t', a' !! h = Some t' → ∃ t, a !! h = Some t ∧ stack_top t' = stack_top t.

Lemma same_stacks_refl a : same_stacks a a.
Proof. intros h t Ht. by exists t. Qed.

Lemma same_stacks_trans a b c : same_stacks a b → same_stacks b c → same_stacks a c.
Proof.
  intros H1 H2 h t'' Ht. destruct (H2 h t'' Ht) as (t' & Ht' & ->).
  destruct (H1 h t' Ht') as (t & Ht0 & ->). by exists t.
Qed.

Lemma same_stacks_alter f h a :
  (∀ t, a !! h = Some t → stack_top (f t) = stack_top t) → same_stacks a (alter f h a).
Proof.
  intros Hf h' t' Ht. destruct (decide (h = h')) as [<-|Hne].
  - rewrite lookup_alter_eq in Ht. destruct (a !! h) as [t|]; [|done].
    injection Ht as <-. exists t. split; [done|]. by apply Hf.
  - rewrite lookup_alter_ne in Ht by done. by exists t'.
Qed.

Definition keeps_stacks (s s' : Scheduler) : Prop := same_stacks (arcs s) (arcs s').

Create HintDb stacks.
#[local] Hint Resolve same_stacks_refl : stacks.

Lemma keeps_modify h f s :
  (∀ t, arcs s !! h = Some t → stack_top (f t) = stack_top t) → keeps_stacks s (modify h f s).
Proof. intros Hf. by apply same_stacks_alter. Qed.

Lemma pick_next_task_arcs s : arcs (pick_next_task s).1 = arcs s.
Proof.
  unfold pick_next_task. destruct (ready_queue s); [done|]. destruct (_ !! best_index s); [|done].
  by destruct (state_is _ _ _).
Qed.

Lemma schedule_keeps s : keeps_stacks s (schedule s).1.
Proof.
  unfold schedule. set (s1 := match current (set_need false s) with Some _ => _ | None => _ end).
  assert (H1 : keeps_stacks s s1).
  { unfold s1. destruct (current (set_need false s)) as [h|]; [|apply same_stacks_refl].
    destruct (state_is _ _ _); [|apply same_stacks_refl].
    by apply same_stacks_alter. }
  clearbody s1. pose proof (pick_next_task_arcs s1) as Ep.
  destruct (pick_next_task s1) as [s2 [n|]]; cbn [fst] in *; unfold keeps_stacks in *.
  - apply (same_stacks_trans _ _ _ H1). cbn [arcs set_current modify set_arcs]. rewrite Ep.
    by apply same_stacks_alter.
  - cbn [arcs set_current]. by rewrite Ep.
Qed.

Lemma preempt_keeps s rsp : keeps_stacks s (preempt_schedule s rsp).1.
Proof.
  unfold preempt_schedule. destruct (preempt_enabled s); [|apply same_stacks_refl]. cbn [negb].
  change (match current s with Some h => _ | None => s end) with (requeued s rsp).
  assert (H1 : keeps_stacks s (requeued s rsp)).
  { unfold requeued. destruct (current s) as [h|]; [|apply same_stacks_refl].
    by apply same_stacks_alter. }
  pose proof (pick_next_task_arcs (requeued s rsp)) as Ep.
  destruct (pick_next_task (requeued s rsp)) as [s2 [n|]]; cbn [fst] in *; unfold keeps_stacks in *.
  - apply (same_stacks_trans _ _ _ H1). cbn [arcs set_switches set_current modify set_arcs].
    rewrite Ep. by apply same_stacks_alter.
  - destruct (current s2) as [h|]; [|by rewrite Ep]. apply (same_stacks_trans _ _ _ H1).
    cbn [arcs modify set_arcs]. rewrite Ep. by apply same_stacks_alter.
Qed.

Lemma tick_signals_stack t : stack_top (tick_signals t).1 = stack_top t.
Proof.
  unfold tick_signals, pop_signal. case_if; [done|]. case_if; [done|].
  repeat case_if; try done.
Qed.

Lemma tick_account_stack t : stack_top (tick_account t).1 = stack_top t.
Proof. unfold tick_account. cbn [fst]. by case_if. Qed.

(** The current task is replaced by [t], which is on the same stack. *)
Ltac put_task := unfold keeps_stacks; cbn [fst arcs set_need modify set_arcs];
  apply same_stacks_alter; intros ? ?; congruence.

Lemma tick_keeps s : keeps_stacks s (tick s).1.
Proof.
  unfold tick. cbn [preempt_enabled]. destruct (preempt_enabled s); [|apply same_stacks_refl]. cbn [negb].
  set (s0 := mkSched _ _ _ _ _ _ _ _ _ _ _).
  assert (E0 : keeps_stacks s s0) by apply same_stacks_refl. clearbody s0.
  set (x := match current s0 with Some _ => _ | None => _ end).
  assert (Hx : keeps_stacks s0 x.1).
  { unfold x. destruct (current s0) as [h|]; [|apply same_stacks_refl].
    destruct (arcs s0 !! h) as [t|] eqn:Et; [|apply same_stacks_refl].
    pose proof (tick_signals_stack t) as Hs. destruct (tick_signals t) as [t1 []]; cbn [fst] in Hs; [put_task|].
    destruct (negb _); [put_task|].
    pose proof (tick_account_stack t1) as Ha. destruct (tick_account t1) as [t2 []]; cbn [fst] in Ha; put_task. }
  clearbody x. destruct x as [s1 []]; cbn [fst] in Hx; [by apply (same_stacks_trans _ (arcs s0))|].
  assert (keeps_stacks s s1) as H1 by by apply (same_stacks_trans _ (arcs s0)).
  destruct (need_reschedule s1); [|done]. apply (same_stacks_trans _ _ _ H1), schedule_keeps.
Qed.

Lemma cleanup_keeps s : keeps_stacks s (cleanup_terminated s).
Proof.
  unfold cleanup_terminated. generalize (omap (λ h, match arcs s !! h with
    | Some t => if bool_decide (state t = Terminated) then Some (id t) else None | None => None end) (all_tasks s)).
  intros l. assert (E : arcs (foldl cleanup_one s l) = arcs s).
  { revert s. induction l as [|i l IH]; intros s; [done|]. cbn [foldl]. by rewrite IH. }
  unfold keeps_stacks. rewrite E. apply same_stacks_refl.
Qed.

Lemma foreground_keeps s i : keeps_stacks s (foreground_task s i).1.
Proof.
  unfold foreground_task. destruct (find_task _ _) as [h|]; [|apply same_stacks_refl].
  destruct (arcs s !! h) as [t|] eqn:Et; [|apply same_stacks_refl].
  case_bool_decide; [apply same_stacks_refl|]. cbn [foreground set_foreground].
  rewrite bool_decide_eq_false_2 by done. apply keeps_modify. intros u Hu. rewrite Et in Hu. by injection Hu as <-.
Qed.

Lemma background_keeps s i : keeps_stacks s (background_task s i).1.
Proof.
  unfold background_task. destruct (find_task _ _) as [h|]; [|apply same_stacks_refl].
  destruct (arcs s !! h) as [t|] eqn:Et; [|apply same_stacks_refl].
  case_bool_decide; [|apply same_stacks_refl]. by apply same_stacks_alter.
Qed.

(** ** The invariant *)

(** A task that got no stack has the top 0. *)
Record stacks_ok (g : Globals) (a : gmap Z Task) : Prop := {
  so_region : region_ok g;
  so_range : ∀ h t, a !! h = Some t → stack_top t ≠ 0 →
    0xA00000 ≤ stack_top t - TASK_STACK_SIZE ∧ stack_top t ≤ next_stack g;
  so_disj : ∀ h1 h2 t1 t2, h1 ≠ h2 → a !! h1 = Some t1 → a !! h2 = Some t2 →
    stack_top t1 ≠ 0 → stack_top t2 ≠ 0 →
    stack_top t1 ≤ stack_top t2 - TASK_STACK_SIZE ∨ stack_top t2 ≤ stack_top t1 - TASK_STACK_SIZE
}.

Lemma stacks_ok_keeps g s s' : keeps_stacks s s' → stacks_ok g (arcs s) → stacks_ok g (arcs s').
Proof.
  intros Hk [Hr Hra Hd]. split; [done| |].
  - intros h t Ht Hne. destruct (Hk h t Ht) as (t0 & Ht0 & E). rewrite E in *. by apply (Hra h).
  - intros h1 h2 t1 t2 Hne H1 H2. destruct (Hk _ _ H1) as (u1 & Hu1 & ->).
    destruct (Hk _ _ H2) as (u2 & Hu2 & ->). by apply (Hd h1 h2).
Qed.

(** A new task is put above all stacks in use. *)
Lemma stacks_ok_insert g g' a h t :
  stacks_ok g a → a !! h = None → region_ok g' → next_stack g ≤ next_stack g' →
  (stack_top t ≠ 0 → next_stack g ≤ stack_top t - TASK_STACK_SIZE ∧ stack_top t ≤ next_stack g') →
  stacks_ok g' (<[h := t]> a).
Proof.
  intros [Hr Hra Hd] Hh Hr' Hle Ht. split; [done| |].
  - intros h1 t1 [[<- <-]|[Hne H1]]%lookup_insert_Some Hz.
    + specialize (Ht Hz). unfold region_ok in Hr. lia.
    + specialize (Hra h1 t1 H1 Hz). lia.
  - intros h1 h2 t1 t2 Hne H1 H2 Hz1 Hz2.
    apply lookup_insert_Some in H1 as [[<- <-]|[Hn1 H1]]; apply lookup_insert_Some in H2 as [[<- <-]|[Hn2 H2]].
    + done.
    + right. specialize (Ht Hz1). specialize (Hra _ _ H2 Hz2). lia.
    + left. specialize (Ht Hz2). specialize (Hra _ _ H1 Hz1). lia.
    + by apply (Hd h1 h2).
Qed.

Lemma alloc_stack_above g :
  region_ok g →
  region_ok (alloc_stack g TASK_STACK_SIZE).1 ∧ next_stack g ≤ next_stack (alloc_stack g TASK_STACK_SIZE).1 ∧
  ((alloc_stack g TASK_STACK_SIZE).2 ≠ 0 →
     next_stack g ≤ (alloc_stack g TASK_STACK_SIZE).2 - TASK_STACK_SIZE ∧
     (alloc_stack g TASK_STACK_SIZE).2 ≤ next_stack (alloc_stack g TASK_STACK_SIZE).1).
Proof.
  unfold region_ok, alloc_stack, STACK_REGION_END, TASK_STACK_SIZE. intros Hg. unwrap.
  case_if; cbn [fst snd next_stack]; split_and!; done || lia.
Qed.

(** A constructor of tasks takes its stack from what is left of the region. *)
Definition takes_stack (g : Globals) (x : Globals * Task) : Prop :=
  region_ok x.1 ∧ next_stack g ≤ next_stack x.1 ∧
  (stack_top x.2 ≠ 0 →
     next_stack g ≤ stack_top x.2 - TASK_STACK_SIZE ∧ stack_top x.2 ≤ next_stack x.1).

Lemma new_kernel_takes g entry nm : region_ok g → takes_stack g (new_kernel g entry nm).
Proof.
  intros Hg. unfold new_kernel, fetch_id.
  pose proof (alloc_stack_above (mkGlobals (gmem g) (next_id g + 1)%usize (next_stack g)) Hg) as Ha.
  by destruct (alloc_stack _ _) as [g1 top].
Qed.

Lemma new_user_takes g entry nm : region_ok g → takes_stack g (new_user g entry nm).
Proof.
  intros Hg. unfold new_user, fetch_id.
  pose proof (alloc_stack_above (mkGlobals (gmem g) (next_id g + 1)%usize (next_stack g)) Hg) as Ha.
  destruct (alloc_stack _ _) as [g1 top]. cbn [fst snd next_stack] in Ha. destruct Ha as (H1 & H2 & H3).
  pose proof (alloc_stack_above g1 H1) as Hb. destruct (alloc_stack g1 _) as [g2 top2].
  cbn [fst snd] in Hb. destruct Hb as (H4 & H5 & _). unfold takes_stack. cbn [fst snd stack_top].
  split; [done|]. split; [lia|]. intros Hz. specialize (H3 Hz). lia.
Qed.

Lemma add_takes_ok g x now s :
  stacks_ok g (arcs s) → arcs s !! next_arc s = None → takes_stack g x →
  let y := (let '(g, t) := x in
            let '(m, s, i) := add_task (gmem g) t now s in (with_mem g m, s, i)) in
  stacks_ok y.1.1 (arcs y.1.2).
Proof.
  intros Hok Hn (H1 & H2 & H3). destruct x as [g1 t]. cbn [fst snd] in *. unfold add_task.
  rewrite setup_initial_stack_push. by apply (stacks_ok_insert g).
Qed.

#[local] Hint Resolve same_stacks_refl schedule_keeps preempt_keeps tick_keeps cleanup_keeps
  foreground_keeps background_keeps : stacks.

Lemma step_stacks_ok x y :
  step x y → inv x.1 x.2 → stacks_ok x.1 (arcs x.2) → stacks_ok y.1 (arcs y.2).
Proof.
  intros Hs Hinv Hok.
  assert (Hnew : arcs x.2 !! next_arc x.2 = None).
  { destruct (arcs x.2 !! next_arc x.2) as [t|] eqn:E; [|done]. destruct Hinv.
    specialize (inv_fresh0 (next_arc x.2)). rewrite elem_of_dom, E in inv_fresh0.
    specialize (inv_fresh0 ltac:(by eexists)). lia. }
  destruct Hs; cbn [fst snd] in *; try (eapply stacks_ok_keeps; [|exact Hok]; first [by auto with stacks | exact (same_stacks_refl (arcs s))
      | exact (schedule_keeps (set_need true s))]).
  - apply (add_takes_ok g (new_kernel g entry nm) now s Hok Hnew). apply new_kernel_takes, Hok.
  - apply (add_takes_ok g (new_kernel_with_priority g entry nm p) now s Hok Hnew).
    pose proof (new_kernel_takes g entry nm (so_region _ _ Hok)) as Hm.
    unfold new_kernel_with_priority. by destruct (new_kernel g entry nm).
  - apply (add_takes_ok g (new_kernel_background g entry nm) now s Hok Hnew).
    pose proof (new_kernel_takes g entry nm (so_region _ _ Hok)) as Hm.
    unfold new_kernel_background. by destruct (new_kernel g entry nm).
  - apply (add_takes_ok g (new_user g entry nm) now s Hok Hnew). apply new_user_takes, Hok.
  - eapply stacks_ok_keeps; [|exact Hok]. unfold do_context_switch.
    destruct (arcs s !! n) as [t|]; [|apply same_stacks_refl].
    destruct (context_switch m c (regs t)) as [saved c']. destruct cur; [|apply same_stacks_refl].
    by apply keeps_modify.
  - eapply stacks_ok_keeps; [|exact Hok]. unfold block_current. destruct (current s); [|apply same_stacks_refl].
    by apply same_stacks_alter.
  - eapply stacks_ok_keeps; [|exact Hok]. unfold unblock_task. destruct (find_task _ _); [|apply same_stacks_refl].
    by apply same_stacks_alter.
  - eapply stacks_ok_keeps; [|exact Hok]. unfold terminate_current. eapply same_stacks_trans; [|apply schedule_keeps].
    destruct (current s); [|apply same_stacks_refl]. by apply same_stacks_alter.
  - eapply stacks_ok_keeps; [|exact Hok]. unfold terminate_task. case_if; [apply same_stacks_refl|].
    destruct (find_task _ _); [|apply same_stacks_refl]. by apply same_stacks_alter.
  - eapply stacks_ok_keeps; [|exact Hok]. unfold send_signal_to. destruct (find_task _ _); [|apply same_stacks_refl].
    apply same_stacks_alter. intros t _. unfold send_signal. by case_if.
  - destruct Hok. by split.
Qed.

(** In every reachable state the stacks of different tasks are disjoint. *)
Theorem reachable_stacks_ok x : reachable x → stacks_ok x.1 (arcs x.2).
Proof.
  induction 1 as [m|x y Hr IH Hs].
  - split; [by split|..]; intros *; cbn [snd arcs Scheduler_new]; by rewrite !lookup_empty.
  - apply sched_reachable_inv in Hr as [Hinv _]. by apply (step_stacks_ok x).
Qed.

End Stacks.

Module Switch.
Import Task Device.

(** ** The machine *)

Record Machine := mkMachine {
  kernel : Interrupts.Kernel;
  memory : mem;
  cpu : Cpu;
  accesses : list event
}.

Definition running (M : Machine) : option Z :=
  s ← Interrupts.scheduler (kernel M); Scheduler.current s.

(** The lowest address of a task's stack. *)
Definition stack_bottom (t : Task) : Z := stack_top t - TASK_STACK_SIZE.

(** The interrupt of the timer, for the memory [m2] the handler leaves: it runs on
    the stack of the interrupted task, below the saved registers. *)
Definition timer_interrupt (M : Machine) (m2 : mem → Z → mem) : flow Machine :=
  let '(m, sp) := timer_isr_save (memory M) (cpu M) in
  match Interrupts.rust_timer_handler (kernel M) sp (accesses M) with
  | (Returns (k, sp'), tr) =>
      let m := m2 m sp in Returns (mkMachine k m (timer_isr_restore m sp') tr)
  | (Halts, _) => Halts
  | (Panics, _) => Panics
  end.

(** The running task computes: it may change its registers and any memory but the
    stacks of the tasks that wait in the queue, from their saved registers up. *)
Definition others_kept (M : Machine) (m : mem) : Prop :=
  ∀ s h t, Interrupts.scheduler (kernel M) = Some s → h ∈ Scheduler.ready_queue s →
    Scheduler.arcs s !! h = Some t →
    ∀ a, saved_rsp t ≤ a < stack_top t → rd m a = rd (memory M) a.

(** The running task is on its own stack and leaves room for the registers. *)
Definition on_own_stack (M : Machine) : Prop :=
  ∃ s h t, Interrupts.scheduler (kernel M) = Some s ∧ Scheduler.current s = Some h ∧
    Scheduler.arcs s !! h = Some t ∧
    cpu_ok (cpu M) ∧ stack_bottom t + 184 ≤ rsp (cpu M) ≤ stack_top t ∧ stack_top t ≠ 0.

(** The handler changes nothing but the part of the stack below the registers. *)
Definition below (M : Machine) (m2 : mem → Z → mem) : Prop :=
  ∀ s h t, Interrupts.scheduler (kernel M) = Some s → Scheduler.current s = Some h →
    Scheduler.arcs s !! h = Some t →
    ∀ m sp a, ¬ (stack_bottom t ≤ a < sp) → rd (m2 m sp) a = rd m a.

Inductive step : Machine → Machine → Prop :=
  | step_run M c m :
      others_kept M m → step M (mkMachine (kernel M) m c (accesses M))
  | step_tick M m2 M' :
      on_own_stack M → below M m2 → timer_interrupt M m2 = Returns M' → step M M'.

(** The steps from [M] until the task [h] runs. *)
Inductive until (h : Z) : Machine → Machine → Prop :=
  | until_now M : running M = Some h → until h M M
  | until_step M M' M'' : running M ≠ Some h → step M M' → until h M' M'' → until h M M''.

(** ** What the interrupt writes *)

Lemma push_all_above l m top a :
  8 * Z.of_nat (length l) ≤ top ≤ 2 ^ 64 - 1 → top ≤ a → rd (foldl push (m, top) l).1 a = rd m a.
Proof.
  revert m top. induction l as [|v l IH]; intros m top Htop Ha; [done|].
  cbn [length] in *. rewrite Nat2Z.inj_succ in Htop. cbn [foldl]. unfold push at 2. cbn [fst snd].
  rewrite usize_small by lia. rewrite IH by lia. apply rd_store_out. lia.
Qed.

Lemma timer_isr_save_frame m c m' sp :
  cpu_ok c → 184 ≤ rsp c → timer_isr_save m c = (m', sp) →
  sp = rsp c / 16 * 16 - 168 ∧ rsp c - 184 < sp ∧ sp + 168 ≤ rsp c ∧ rsp c < 2 ^ 64 ∧
  ∀ a, a < sp ∨ rsp c ≤ a → rd m' a = rd m a.
Proof.
  intros Hc Hsp E. assert (word (rsp c)) as Hr by (destruct Hc as [Hc _]; rewrite !Forall_cons in Hc; tauto).
  unfold word in Hr. assert (rsp c - 15 ≤ rsp c / 16 * 16 ≤ rsp c) by dlia.
  destruct (timer_isr_save_spec m c Hc Hsp) as (m1 & sp1 & E1 & Hsp1 & _). rewrite E in E1. injection E1 as <- <-.
  rewrite timer_isr_save_push in E. split; [done|]. split; [lia|]. split; [lia|]. split; [lia|].
  replace m' with (foldl push (m, rsp c / 16 * 16) (saved_words c)).1 by (by rewrite E).
  intros a [Ha|Ha].
  - apply push_all_frame; change (8 * Z.of_nat (length (saved_words c))) with 168; lia.
  - apply push_all_above; [|lia]. change (8 * Z.of_nat (length (saved_words c))) with 168. lia.
Qed.

Lemma restore_ext m1 m2 sp :
  0 ≤ sp → sp + 168 ≤ 2 ^ 64 → (∀ a, sp ≤ a < sp + 168 → rd m1 a = rd m2 a) →
  timer_isr_restore m1 sp = timer_isr_restore m2 sp.
Proof.
  intros H0 H1 Hk. apply timer_isr_restore_ext; [done|done|]. intros k Hk'. unfold load64.
  apply load_ext. intros b Hb. apply Hk. lia.
Qed.

(** ** A task that waits *)

(** The task [h] waits with the registers [c] and with the bytes [b] above them. *)
Record waits (h : Z) (c : Cpu) (b : Z → Z) (m : mem) (s : Scheduler.Scheduler) (t : Task) : Prop := {
  w_task : Scheduler.arcs s !! h = Some t;
  w_queue : h ∈ Scheduler.ready_queue s;
  w_top : stack_top t ≠ 0;
  w_low : stack_bottom t ≤ saved_rsp t;
  w_high : saved_rsp t + 168 ≤ rsp c;
  w_rsp : rsp c ≤ stack_top t;
  w_restore : timer_isr_restore m (saved_rsp t) = c;
  w_stack : ∀ a, rsp c ≤ a < stack_top t → rd m a = b a
}.

(** The scheduler's side of the machine. *)
Definition sched_ok (g : Globals) (s : Scheduler.Scheduler) : Prop :=
  Scheduler.inv g s ∧ Stacks.stacks_ok g (Scheduler.arcs s) ∧ Scheduler.preempt_enabled s = true.

Lemma top_bounds g s h t :
  sched_ok g s → Scheduler.arcs s !! h = Some t → stack_top t ≠ 0 →
  0xA00000 ≤ stack_bottom t ∧ stack_top t ≤ STACK_REGION_END.
Proof.
  intros (_ & Hs & _) Ht Hz. destruct (Stacks.so_range _ _ Hs h t Ht Hz) as [H1 H2].
  destruct (Stacks.so_region _ _ Hs) as [_ H3]. unfold stack_bottom. lia.
Qed.

(** Memory that agrees on the stack of a waiting task keeps it waiting. *)
Lemma waits_mem g h c b m m' s t :
  sched_ok g s → waits h c b m s t → (∀ a, saved_rsp t ≤ a < stack_top t → rd m' a = rd m a) →
  waits h c b m' s t.
Proof.
  intros Hok [] Hm. destruct (top_bounds g s h t) as [Hb Ht]; [done..|].
  unfold STACK_REGION_END in Ht. split; try done.
  - rewrite <- w_restore0. apply restore_ext; [lia|lia|]. intros a Ha. apply Hm. lia.
  - intros a Ha. rewrite Hm by lia. by apply w_stack0.
Qed.

(** The queue with the interrupted task in it: every task of it waits. *)
Lemma requeued_waits g M m2 s c0 t0 m sp :
  sched_ok g s → Scheduler.current s = Some c0 → Scheduler.arcs s !! c0 = Some t0 →
  cpu_ok (cpu M) → stack_bottom t0 + 184 ≤ rsp (cpu M) ≤ stack_top t0 → stack_top t0 ≠ 0 →
  timer_isr_save (memory M) (cpu M) = (m, sp) →
  (∀ a, ¬ (stack_bottom t0 ≤ a < sp) → rd m2 a = rd m a) →
  (∀ h c b t, waits h c b (memory M) s t → waits h c b m2 (Scheduler.requeued s sp) t) ∧
  ∃ t0', waits c0 (cpu M) (rd (memory M)) m2 (Scheduler.requeued s sp) t0' ∧ stack_top t0' = stack_top t0.
Proof.
  intros Hok Hc Ht0 Hcpu Hrsp Hz Hsave Hm2.
  destruct (top_bounds g s c0 t0 Hok Ht0 Hz) as [Hlo Hhi]. unfold STACK_REGION_END in Hhi.
  destruct (timer_isr_save_frame _ _ _ _ Hcpu ltac:(lia) Hsave) as (_ & Hsp1 & Hsp2 & _ & Hfr).
  pose proof (Scheduler.requeued_queue s sp) as Eq. rewrite Hc in Eq. cbn in Eq. split.
  - intros h c b t Hw. assert (Hne : h ≠ c0).
    { intros ->. by apply (Scheduler.current_not_queued g s c0 (proj1 Hok) Hc), (w_queue _ _ _ _ _ _ Hw). }
    assert (Hw' : waits h c b m2 s t).
    { apply (waits_mem g _ _ _ (memory M)); [done..|]. intros a Ha. destruct Hw.
      destruct (Stacks.so_disj _ _ (proj1 (proj2 Hok)) h c0 t t0 Hne) as [Hd|Hd]; [done..| |];
        unfold stack_bottom in *; rewrite Hm2 by lia; apply Hfr; lia. }
    destruct Hw'. split; try done.
    + rewrite Scheduler.requeued_lookup, bool_decide_eq_false_2 by congruence. done.
    + rewrite Eq. apply elem_of_app. by left.
  - exists (reset_time_slice (set_state Ready (set_saved_rsp sp t0))).
    pose proof (Scheduler.requeued_lookup s sp c0) as El. rewrite bool_decide_eq_true_2, Ht0 in El by done.
    split; [|done]. split; try done.
    + rewrite Eq. apply elem_of_app. right. by left.
    + change (stack_bottom t0 ≤ sp). lia.
    + change (rsp (cpu M) ≤ stack_top t0). lia.
    + change (timer_isr_restore m2 sp = cpu M). eapply timer_isr_roundtrip; [done| |exact Hsave|].
      * lia.
      * intros a Ha. unfold load64. apply load_ext. intros x Hx. apply Hm2. lia.
    + intros a Ha. change (stack_top _) with (stack_top t0) in Ha. rewrite Hm2 by lia. apply Hfr. lia.
Qed.

(** What the choice of the next task does to a task that waits. *)
Lemma preempt_waits g s sp h c b m2 t :
  sched_ok g s → waits h c b m2 (Scheduler.requeued s sp) t →
  let r := Scheduler.preempt_schedule s sp in
  sched_ok g r.1 ∧
  if decide (Scheduler.current r.1 = Some h)
  then timer_isr_restore m2 r.2 = c else waits h c b m2 r.1 t.
Proof.
  intros (Hinv & Hst & Hen) Hw r.
  assert (Hok' : sched_ok g r.1).
  { split; [by apply Scheduler.preempt_schedule_inv|].
    split; [eapply Stacks.stacks_ok_keeps; [apply Stacks.preempt_keeps|done]|].
    unfold r, Scheduler.preempt_schedule. rewrite Hen. cbn [negb].
    change (match Scheduler.current s with Some h => _ | None => s end) with (Scheduler.requeued s sp).
    assert (Scheduler.preempt_enabled (Scheduler.requeued s sp) = true) as Hq
      by (unfold Scheduler.requeued; by destruct (Scheduler.current s)).
    pose proof (Scheduler.pick_next_task_cases (Scheduler.requeued s sp)) as Hp.
    destruct (Scheduler.pick_next_task (Scheduler.requeued s sp)) as [s1 [n|]].
    - destruct Hp as (q1 & q2 & _ & -> & _). done.
    - destruct Hp as (-> & _). by destruct (Scheduler.current (Scheduler.requeued s sp)). }
  split; [done|]. destruct Hw. unfold r in *.
  destruct (Scheduler.preempt_schedule_eq g s sp Hinv Hen) as (n & tn & q1 & q2 & Eq & Hn & _ & _ & E).
  { intros E. rewrite E in w_queue0. by apply elem_of_nil in w_queue0. }
  rewrite E. cbn [fst snd]. rewrite Eq in w_queue0.
  case_decide as Hd; cbn in Hd.
  - injection Hd as ->. rewrite w_task0 in Hn. by injection Hn as <-.
  - split; try done.
    + cbn. rewrite lookup_alter_ne by congruence. done.
    + cbn. apply elem_of_app. apply elem_of_app in w_queue0 as [?|[->|?]%elem_of_cons]; [by left|done|by right].
Qed.

Lemma timer_handler_preempts k sp tr s k' sp' tr' :
  Interrupts.scheduler k = Some s → Scheduler.preempt_enabled s = true →
  Interrupts.rust_timer_handler k sp tr = (Returns (k', sp'), tr') →
  Interrupts.scheduler k' = Some (Scheduler.preempt_schedule s sp).1 ∧
  sp' = (Scheduler.preempt_schedule s sp).2.
Proof.
  intros Hs Hen. unfold Interrupts.rust_timer_handler.
  destruct (Timer.on_timer_tick _) as [tm|]; [|done]. rewrite run_bind.
  cbn [Interrupts.set_timer Interrupts.scheduler]. rewrite Hs, Hen.
  destruct (Scheduler.preempt_schedule s sp) as [s' sp'']. by intros [= <- <- <-].
Qed.

(** The task [h] with the registers [c] and the bytes [b] of its stack: it waits, or
    it has just been resumed. *)
Definition waiting (g : Globals) (h : Z) (c : Cpu) (b : Z → Z) (top : Z) (M : Machine) : Prop :=
  ∃ s t, Interrupts.scheduler (kernel M) = Some s ∧ sched_ok g s ∧ Scheduler.current s ≠ Some h ∧
    waits h c b (memory M) s t ∧ stack_top t = top.

Definition resumed (h : Z) (c : Cpu) (b : Z → Z) (top : Z) (M : Machine) : Prop :=
  running M = Some h ∧ cpu M = c ∧ ∀ a, rsp c ≤ a < top → rd (memory M) a = b a.

(** After the interrupt a task of the queue still waits or has been resumed. *)
Lemma tick_outcome g M m2 M' s h c b t m sp :
  Interrupts.scheduler (kernel M) = Some s → sched_ok g s →
  timer_isr_save (memory M) (cpu M) = (m, sp) →
  waits h c b (m2 m sp) (Scheduler.requeued s sp) t → timer_interrupt M m2 = Returns M' →
  waiting g h c b (stack_top t) M' ∨ resumed h c b (stack_top t) M'.
Proof.
  intros Hs Hok Hsave Hw E. unfold timer_interrupt in E. rewrite Hsave in E.
  destruct (Interrupts.rust_timer_handler (kernel M) sp (accesses M)) as [[[k sp']| |] tr] eqn:Eh; try done.
  injection E as <-. apply (timer_handler_preempts _ _ _ s) in Eh as [Hk ->]; [|done|apply Hok].
  destruct (preempt_waits g s sp h c b (m2 m sp) t Hok Hw) as [Hok' Hd].
  destruct (decide _) as [Hc|Hc].
  - right. split; [unfold running; cbn [kernel]; rewrite Hk; exact Hc|]. cbn [cpu memory].
    split; [done|]. apply (w_stack _ _ _ _ _ _ Hw).
  - left. exists (Scheduler.preempt_schedule s sp).1, t. by split_and!.
Qed.

Lemma step_outcome g h c b top M M' :
  step M M' → waiting g h c b top M → waiting g h c b top M' ∨ resumed h c b top M'.
Proof.
  intros [M1 c1 m1 Hkept|M1 m2 M1' Hown Hbelow E] (s & t & Hs & Hok & Hc & Hw & Htop).
  - left. exists s, t. split_and!; try done. cbn [memory]. eapply waits_mem; [exact Hok|exact Hw|].
    apply (Hkept s h t Hs); apply Hw.
  - destruct Hown as (s0 & h0 & t0 & Hs0 & Hc0 & Ht0 & Hcpu & Hrsp & Hz).
    rewrite Hs in Hs0. injection Hs0 as <-.
    destruct (timer_isr_save (memory M1) (cpu M1)) as [m sp] eqn:Esave.
    destruct (requeued_waits g M1 (m2 m sp) s h0 t0 m sp) as [Hq _]; [done..|by eapply Hbelow|].
    rewrite <- Htop. by eapply tick_outcome; [..|apply Hq|].
Qed.

Lemma until_outcome g h c b top M M' :
  until h M M' → waiting g h c b top M ∨ resumed h c b top M → resumed h c b top M'.
Proof.
  induction 1 as [M Hr|M M1 M2 Hr Hstep _ IH]; intros [Hw|Hd]; [| |by apply IH, (step_outcome g _ _ _ _ M)|].
  - destruct Hw as (s & t & Hs & _ & Hc & _). unfold running in Hr. rewrite Hs in Hr. done.
  - done.
  - by destruct Hd as [? _].
Qed.

(** C10. A task interrupted by the timer continues, whenever the scheduler comes back to
    it, with every register as it was and with its stack unchanged, whatever the tasks
    that run in between do on their own stacks. *)
Theorem preempted_task_resumes g M m2 M1 M2 s h t
    (Hr : Scheduler.reachable (g, s)) (Hen : Scheduler.preempt_enabled s = true)
    (Hs : Interrupts.scheduler (kernel M) = Some s)
    (Hc : Scheduler.current s = Some h) (Ht : Scheduler.arcs s !! h = Some t)
    (Hown : on_own_stack M) (Hbelow : below M m2)
    (Htick : timer_interrupt M m2 = Returns M1) (Huntil : until h M1 M2) :
  cpu M2 = cpu M ∧ ∀ a, rsp (cpu M) ≤ a < stack_top t → rd (memory M2) a = rd (memory M) a.
Proof.
  assert (Hok : sched_ok g s).
  { split; [apply (Scheduler.sched_reachable_inv _ Hr)|]. split; [apply (Stacks.reachable_stacks_ok _ Hr)|done]. }
  destruct Hown as (s0 & h0 & t0 & Hs0 & Hc0 & Ht0 & Hcpu & Hrsp & Hz).
  rewrite Hs in Hs0. injection Hs0 as <-. rewrite Hc in Hc0. injection Hc0 as <-.
  rewrite Ht in Ht0. injection Ht0 as <-.
  destruct (timer_isr_save (memory M) (cpu M)) as [m sp] eqn:Esave.
  destruct (requeued_waits g M (m2 m sp) s h t m sp) as [_ (t' & Hw & <-)]; [done..|by eapply Hbelow|].
  apply (until_outcome g h (cpu M) (rd (memory M)) (stack_top t') M1 M2 Huntil).
  by eapply tick_outcome.
Qed.

(** ** Three tasks *)

Definition demo_machine : Machine :=
  mkMachine (Interrupts.set_scheduler (Some Scheduler.trio.2) Interrupts.demo_kernel) ∅ demo_cpu [].
Definition demo_tick (M : Machine) : Machine :=
  match timer_interrupt M (λ m _, m) with Returns M => M | _ => M end.
(** The task that runs uses its stack at [sp] and its register RAX. *)
Definition demo_run (sp : Z) (M : Machine) : Machine :=
  mkMachine (kernel M) (memory M)
    (mkCpu 77 0 0 0 0 0 0 0 0 0 0 0 0 0 0 0x10 0x2000 0x08 0x202 sp 0x10) (accesses M).

Definition demo1 : Machine := demo_tick demo_machine.
Definition demo2 : Machine := demo_run 0xA1FF00 demo1.
Definition demo3 : Machine := demo_tick demo2.
Definition demo4 : Machine := demo_run 0xA2FF00 demo3.
Definition demo5 : Machine := demo_tick demo4.

Lemma demo_ticks :
  Forall (λ M, timer_interrupt M (λ m _, m) = Returns (demo_tick M))
    [demo_machine; demo2; demo4] ∧
  running demo1 = Some 1 ∧ running demo2 = Some 1 ∧ running demo3 = Some 2 ∧ running demo4 = Some 2 ∧
  running demo5 = Some 0.
Proof.
  split; [|split_and!; vm_compute; reflexivity].
  assert (Hr : ∀ M, match timer_interrupt M (λ m _, m) with Returns _ => true | _ => false end = true →
    timer_interrupt M (λ m _, m) = Returns (demo_tick M))
    by (intros M; unfold demo_tick; by destruct (timer_interrupt M (λ m _, m))).
  repeat (apply Forall_cons_2; [apply Hr; vm_compute; reflexivity|]). by apply Forall_nil_2.
Qed.

(** The task of a machine that runs [h] is on its own stack. *)
Definition own_stack_check (M : Machine) : bool :=
  match Interrupts.scheduler (kernel M) with
  | Some s =>
      match Scheduler.current s with
      | Some h =>
          match Scheduler.arcs s !! h with
          | Some t => (stack_bottom t + 184 <=? rsp (cpu M)) && (rsp (cpu M) <=? stack_top t) &&
                      negb (stack_top t =? 0)
          | None => false
          end
      | None => false
      end
  | None => false
  end.

Lemma own_stack_checked M : own_stack_check M = true → cpu_ok (cpu M) → on_own_stack M.
Proof.
  unfold own_stack_check, on_own_stack. destruct (Interrupts.scheduler (kernel M)) as [s|]; [|done].
  destruct (Scheduler.current s) as [h|] eqn:Hc; [|done].
  destruct (Scheduler.arcs s !! h) as [t|] eqn:Ht; [|done]. intros H Hcpu. break_cmp.
  exists s, h, t. split_and!; done || lia.
Qed.

Lemma demo_own : Forall on_own_stack [demo_machine; demo2; demo4].
Proof.
  assert (Hw : ∀ c, forallb (λ v, (0 <=? v) && (v <? 2 ^ 64)) [rax c; rbx c; rcx c; rdx c; rsi c; rdi c; rbp c; r8 c;
    r9 c; r10 c; r11 c; r12 c; r13 c; r14 c; r15 c; rip c; cs c; rflags c; rsp c; ss c] &&
    (0 <=? ds c) && (ds c <? 2 ^ 16) = true → cpu_ok c).
  { intros c H. apply andb_true_iff in H as [[H H1]%andb_true_iff H2]. break_cmp. split; [|lia].
    apply Forall_forall. intros v Hv%list_elem_of_In. apply (proj1 (forallb_forall _ _) H) in Hv.
    unfold word. apply andb_true_iff in Hv as [? ?]. break_cmp. lia. }
  repeat (apply Forall_cons_2; [apply own_stack_checked; [vm_compute; reflexivity|apply Hw; vm_compute; reflexivity]|]).
  by apply Forall_nil_2.
Qed.

Lemma preempted_task_resumes_witness :
  until 0 demo1 demo5 ∧ rax (cpu demo4) = 77 ∧ cpu demo5 = demo_cpu.
Proof.
  assert (Hkept : ∀ M sp, step M (demo_run sp M)) by (intros M sp; by apply step_run).
  assert (Hbelow : ∀ M, below M (λ m _, m)) by by intros M.
  destruct demo_ticks as [(T1 & [T2 [T3 _]%Forall_cons]%Forall_cons)%Forall_cons (R1 & R2 & R3 & R4 & R5)].
  destruct (proj1 (Forall_cons _ _ _) demo_own) as [O1 [O2 [O3 _]%Forall_cons]%Forall_cons].
  assert (Hu : until 0 demo1 demo5).
  { apply (until_step 0 demo1 demo2); [rewrite R1; discriminate|exact (Hkept demo1 0xA1FF00)|].
    apply (until_step 0 demo2 demo3); [rewrite R2; discriminate|exact (step_tick _ _ _ O2 (Hbelow _) T2)|].
    apply (until_step 0 demo3 demo4); [rewrite R3; discriminate|exact (Hkept demo3 0xA2FF00)|].
    apply (until_step 0 demo4 demo5); [rewrite R4; discriminate|exact (step_tick _ _ _ O3 (Hbelow _) T3)|].
    exact (until_now 0 demo5 R5). }
  split; [exact Hu|]. split; [vm_compute; reflexivity|].
  destruct (Scheduler.arcs Scheduler.trio.2 !! 0) as [t|] eqn:Et; [|exfalso; revert Et; vm_compute; discriminate].
  refine (proj1 (preempted_task_resumes Scheduler.trio.1 demo_machine (λ m _, m) demo1 demo5
    Scheduler.trio.2 0 t Scheduler.trio_reachable _ _ _ Et O1 (Hbelow _) T1 Hu)).
  - vm_compute. reflexivity.
  - reflexivity.
  - vm_compute. reflexivity.
Defined.

End Switch.
