(* ===== verification/Entry.v ===== *)
(** * Interrupt entry and exit (boot/long_mode.asm, sched/context_switch.asm)

    The stubs [isr0] to [isr47] and [isr128] and the common code behind them:
    what the processor and the stubs push before [rust_isr_handler] is called
    with a pointer to it, and what is popped afterwards; the two short stubs for
    the APIC. *)

From stdpp Require Import base numbers list gmap strings.
From S2P Require Import Prelude Memory Text Task Scheduler Console Timer Apic Device Syscall Interrupts.
Open Scope Z_scope.

Module Entry.
Import Task.Task.
Import Device.Device(Device).

(** The vectors declared with [ISR_ERR]: the processor pushes an error code. *)
Definition ISR_ERR : list Z := [8; 10; 11; 12; 13; 14; 17; 21; 30].

(** The processor enters a handler on the stack [top]: the one of the interrupted
    code or the one of the task state segment. *)
Definition deliver (m : mem) (c : Cpu) (top : Z) (err : option Z) : mem * Z :=
  foldl push (m, top / 16 * 16)
    ([ss c; rsp c; rflags c; cs c; rip c] ++ match err with Some e => [e] | None => [] end).

(** The label [isr<n>]. *)
Definition isr (n : Z) (x : mem * Z) : mem * Z :=
  if bool_decide (n ∈ ISR_ERR) then push x n else push (push x 0) n.

(** [isr_common] up to the call. *)
Definition isr_common_save (c : Cpu) (x : mem * Z) : mem * Z :=
  foldl push x
    [rax c; rbx c; rcx c; rdx c; rsi c; rdi c; rbp c; r8 c; r9 c; r10 c; r11 c; r12 c; r13 c;
     r14 c; r15 c].

Definition isr_entry (n : Z) (err : option Z) (top : Z) (m : mem) (c : Cpu) : mem * Z :=
  isr_common_save c (isr n (deliver m c top err)).

(** The [InterruptContext] at an address, and writing one back. *)
Definition context_at (m : mem) (sp : Z) : Interrupts.InterruptContext :=
  let at_ n := load64 m (sp + 8 * n)%usize in
  Interrupts.mkContext (at_ 0) (at_ 1) (at_ 2) (at_ 3) (at_ 4) (at_ 5) (at_ 6) (at_ 7) (at_ 8)
    (at_ 9) (at_ 10) (at_ 11) (at_ 12) (at_ 13) (at_ 14) (at_ 15) (at_ 16) (at_ 17) (at_ 18)
    (at_ 19) (at_ 20) (at_ 21).

(** [ctx.rax = v] through the pointer, the only field the handler assigns. *)
Definition store_rax (m : mem) (sp v : Z) : mem := store64 m (sp + 8 * 14)%usize v.

(** [isr_common] after the call: the registers, [add rsp, 16], and [iretq]. *)
Definition isr_common_restore (m : mem) (sp : Z) (data_segment : Z) : Cpu :=
  let at_ n := load64 m (sp + 8 * n)%usize in
  mkCpu (at_ 14) (at_ 13) (at_ 12) (at_ 11) (at_ 10) (at_ 9) (at_ 8) (at_ 7) (at_ 6) (at_ 5)
    (at_ 4) (at_ 3) (at_ 2) (at_ 1) (at_ 0) data_segment (at_ 17) (at_ 18) (at_ 19) (at_ 20) (at_ 21).

Definition with_rax (v : Z) (c : Cpu) : Cpu :=
  mkCpu v (rbx c) (rcx c) (rdx c) (rsi c) (rdi c) (rbp c) (r8 c) (r9 c) (r10 c) (r11 c) (r12 c)
    (r13 c) (r14 c) (r15 c) (ds c) (rip c) (cs c) (rflags c) (rsp c) (ss c).

(** [iretq], with the general registers as they are. *)
Definition iretq (m : mem) (sp : Z) (c : Cpu) : Cpu :=
  let at_ n := load64 m (sp + 8 * n)%usize in
  mkCpu (rax c) (rbx c) (rcx c) (rdx c) (rsi c) (rdi c) (rbp c) (r8 c) (r9 c) (r10 c) (r11 c) (r12 c)
    (r13 c) (r14 c) (r15 c) (ds c) (at_ 0) (at_ 1) (at_ 2) (at_ 3) (at_ 4).

Definition spurious_isr (m : mem) (sp : Z) (c : Cpu) : Cpu := iretq m sp c.

(** [apic_eoi_isr]: only RAX is saved around the call; [handler] is what the call
    does to the registers. *)
Definition apic_eoi_isr (handler : Cpu → Cpu) (m : mem) (sp : Z) (c : Cpu) : Cpu :=
  let '(m, sp1) := push (m, sp) (rax c) in
  let c := handler (with_rax 1 c) in
  iretq m (sp1 + 8)%usize (with_rax (load64 m sp1) c).

(** ** The words on the stack *)

(** The context a processor state gives. *)
Definition context_of (c : Cpu) (n e : Z) : Interrupts.InterruptContext :=
  Interrupts.mkContext (r15 c) (r14 c) (r13 c) (r12 c) (r11 c) (r10 c) (r9 c) (r8 c) (rbp c) (rdi c)
    (rsi c) (rdx c) (rcx c) (rbx c) (rax c) n e (rip c) (cs c) (rflags c) (rsp c) (ss c).

Definition entry_words (c : Cpu) (n e : Z) : list Z :=
  [ss c; rsp c; rflags c; cs c; rip c; e; n; rax c; rbx c; rcx c; rdx c; rsi c; rdi c; rbp c; r8 c;
   r9 c; r10 c; r11 c; r12 c; r13 c; r14 c; r15 c].

(** The processor pushes an error code exactly for the vectors whose stub
    expects it. *)
Definition error_matches (n : Z) (err : option Z) : Prop :=
  match err with
  | Some e => n ∈ ISR_ERR ∧ word e
  | None => n ∉ ISR_ERR
  end.

Lemma isr_entry_push n err top m c :
  error_matches n err →
  isr_entry n err top m c = foldl push (m, top / 16 * 16) (entry_words c n (default 0 err)).
Proof.
  intros He. unfold isr_entry, isr_common_save, isr, deliver. destruct err as [e|]; cbn [default] in *.
  - rewrite bool_decide_true by apply He. done.
  - by rewrite bool_decide_false.
Qed.

Lemma isr_entry_spec n err top m c :
  cpu_ok c → 200 ≤ top < 2 ^ 64 → word n → error_matches n err →
  ∃ m' sp, isr_entry n err top m c = (m', sp) ∧ 8 ≤ sp ∧ sp + 176 ≤ top ∧
    ∀ k v, 0 ≤ k → reverse (entry_words c n (default 0 err)) !! Z.to_nat k = Some v →
      load64 m' (sp + 8 * k)%usize = v.
Proof.
  intros [Hc Hds] Htop Hn He. rewrite isr_entry_push by done.
  assert (top - 15 ≤ top / 16 * 16 ≤ top) by dlia.
  destruct (push_all (entry_words c n (default 0 err)) m (top / 16 * 16)) as (m' & E & Hk & _).
  - rewrite !Forall_cons in Hc. unfold entry_words. rewrite !Forall_cons.
    assert (word (default 0 err)) by (destruct err as [e|]; [apply He|unfold word; simpl; lia]).
    split_and!; tauto.
  - change (Z.of_nat (length (entry_words c n (default 0 err)))) with 22. lia.
  - change (8 * Z.of_nat (length (entry_words c n (default 0 err)))) with 176 in *.
    exists m', (top / 16 * 16 - 176). split; [done|]. split; [lia|]. split; [lia|].
    intros k v Hk0 Hkv. pose proof (lookup_lt_Some _ _ _ Hkv) as Hlt. rewrite length_reverse in Hlt.
    change (length (entry_words c n (default 0 err))) with 22%nat in Hlt.
    rewrite <- (Z2Nat.id k) by done. rewrite usize_small by lia. by apply Hk.
Qed.

Lemma context_at_entry m sp c n e :
  (∀ k v, 0 ≤ k → reverse (entry_words c n e) !! Z.to_nat k = Some v → load64 m (sp + 8 * k)%usize = v) →
  context_at m sp = context_of c n e.
Proof.
  intros H. unfold context_at, context_of. f_equal; by apply H.
Qed.

(** Returning, with the value the handler left in RAX. *)
Lemma restore_entry m sp c n e v :
  (∀ k v, 0 ≤ k → reverse (entry_words c n e) !! Z.to_nat k = Some v → load64 m (sp + 8 * k)%usize = v) →
  0 ≤ sp → sp + 176 < 2 ^ 64 → word v →
  isr_common_restore m sp (ds c) = c ∧
  isr_common_restore (store_rax m sp v) sp (ds c) = with_rax v c.
Proof.
  intros H H0 H1 Hv. split.
  - unfold isr_common_restore. destruct c. f_equal; by apply H.
  - assert (Hne : ∀ k, 0 ≤ k < 22 → k ≠ 14 →
      load64 (store_rax m sp v) (sp + 8 * k)%usize = load64 m (sp + 8 * k)%usize).
    { intros k Hk Hne. unfold store_rax. rewrite !usize_small by lia. apply load64_store64_ne. lia. }
    unfold isr_common_restore, with_rax. f_equal;
      first [rewrite Hne by lia; by apply H|unfold store_rax; by rewrite load64_store64_eq].
Qed.

(** What the processor pushed, for a handler that only returns. *)
Lemma deliver_spec m c top :
  cpu_ok c → 64 ≤ top < 2 ^ 64 →
  ∃ m' sp, deliver m c top None = (m', sp) ∧ 8 ≤ sp ∧ sp + 40 ≤ top ∧
    ∀ x, iretq m' sp x = mkCpu (rax x) (rbx x) (rcx x) (rdx x) (rsi x) (rdi x) (rbp x) (r8 x) (r9 x) (r10 x)
      (r11 x) (r12 x) (r13 x) (r14 x) (r15 x) (ds x) (rip c) (cs c) (rflags c) (rsp c) (ss c).
Proof.
  intros [Hc _] Htop. rewrite !Forall_cons in Hc. unfold deliver. rewrite app_nil_r.
  assert (top - 15 ≤ top / 16 * 16 ≤ top) by dlia.
  destruct (push_all [ss c; rsp c; rflags c; cs c; rip c] m (top / 16 * 16)) as (m' & E & Hk & _).
  - rewrite !Forall_cons. split_and!; try tauto.
  - cbn. lia.
  - exists m', (top / 16 * 16 - 40). split; [exact E|]. split; [lia|]. split; [lia|]. intros x. unfold iretq. cbn zeta.
    change (8 * Z.of_nat (length _)) with 40 in Hk.
    pose proof (Hk 0%nat _ eq_refl) as K0. pose proof (Hk 1%nat _ eq_refl) as K1. pose proof (Hk 2%nat _ eq_refl) as K2.
    pose proof (Hk 3%nat _ eq_refl) as K3. pose proof (Hk 4%nat _ eq_refl) as K4.
    rewrite !usize_small by lia. f_equal; assumption.
Qed.

(** A spurious interrupt changes nothing. *)
Theorem spurious_transparent m c top (Hc : cpu_ok c) (Htop : 64 ≤ top < 2 ^ 64) :
  let '(m', sp) := deliver m c top None in spurious_isr m' sp c = c.
Proof. destruct (deliver_spec m c top Hc Htop) as (m' & sp & -> & _ & _ & H). unfold spurious_isr. rewrite H. by destruct c. Qed.

(** [apic_eoi_isr] brings back RAX and what [iretq] pops; every other register is
    what the handler left in it. *)
Theorem apic_eoi_isr_loses_registers handler m c top (Hc : cpu_ok c) (Htop : 64 ≤ top < 2 ^ 64) :
  let '(m', sp) := deliver m c top None in
  let x := handler (with_rax 1 c) in
  apic_eoi_isr handler m' sp c =
  mkCpu (rax c) (rbx x) (rcx x) (rdx x) (rsi x) (rdi x) (rbp x) (r8 x) (r9 x) (r10 x) (r11 x) (r12 x)
    (r13 x) (r14 x) (r15 x) (ds x) (rip c) (cs c) (rflags c) (rsp c) (ss c).
Proof.
  destruct (deliver_spec m c top Hc Htop) as (m' & sp & -> & Hsp & Hend & H). cbn zeta.
  destruct Hc as [Hw _]. rewrite !Forall_cons in Hw. destruct Hw as [Hrax _].
  unfold apic_eoi_isr, push. cbn [fst snd]. rewrite !(usize_small (sp - 8)) by lia. rewrite load64_store64_eq by done.
  rewrite Z.sub_add, usize_small by lia. specialize (H (with_rax (rax c) (handler (with_rax 1 c)))).
  refine (eq_trans _ H). unfold iretq. cbn zeta. rewrite !usize_small by lia. by rewrite !load64_store64_ne by lia.
Qed.

(** ** Handlers *)

Section Handler.
Context {D : Device}.

(** The handler assigns nothing but RAX, and only for a system call. *)
Lemma isr_handler_context m cr2 ctx k t ctx' k' sw t' :
  Interrupts.rust_isr_handler m cr2 ctx k t = (Returns (ctx', k', sw), t') →
  if Interrupts.vector ctx =? 128 then
    ∃ con r, Syscall.rust_syscall_handler m (Interrupts.console k) (Interrupts.rax ctx)
        (Interrupts.rdi ctx) (Interrupts.rsi ctx) (Interrupts.rdx ctx) (Interrupts.r10 ctx) =
      Returns (con, r) ∧ ctx' = Interrupts.set_rax (wrap 64 r) ctx
  else ctx' = ctx.
Proof.
  unfold Interrupts.rust_isr_handler. rewrite Device.run_bind. unfold Device.trace.
  destruct (Interrupts.isr_branch m cr2 ctx k t) as [[[[ctx1 k1] sw1]| |] t1] eqn:E; cbn [fst snd];
    [|by intros [=]..].
  rewrite Device.run_bind. intros [= <- _ _ _]. revert E. unfold Interrupts.isr_branch.
  destruct (Interrupts.vector ctx =? 128) eqn:E128.
  - apply Z.eqb_eq in E128. rewrite E128. cbn [Z.eqb Pos.eqb orb].
    destruct (Syscall.rust_syscall_handler _ _ _ _ _ _ _) as [[con r]| |]; [|by intros [=]..].
    intros [= <- _ _ _]. by exists con, r.
  - assert (Hback : ∀ k0, (Returns (ctx, k0, None : Scheduler.switch), t) =
        (Returns (ctx1, k1, sw1), t1) → ctx1 = ctx) by by intros k0 [= <- _ _ _].
    destruct (Interrupts.vector ctx =? 0); [by apply Hback|].
    destruct (Interrupts.vector ctx =? 6); [by apply Hback|].
    destruct (Interrupts.vector ctx =? 8); [done|].
    destruct (Interrupts.vector ctx =? 13); [by apply Hback|].
    destruct (Interrupts.vector ctx =? 14); [by apply Hback|].
    destruct (Interrupts.vector ctx =? 32).
    { destruct (Timer.on_timer_tick _) as [tm|]; [|done].
      cbn zeta. destruct (match Interrupts.scheduler _ with Some _ => _ | None => _ end) as [k0 [sw0|]];
        [by intros [= <- _ _ _]|]. rewrite Device.run_bind. by intros [= <- _ _ _]. }
    destruct (Interrupts.vector ctx =? 33). { rewrite !Device.run_bind. by intros [= <- _ _ _]. }
    destruct (_ || _); [by apply Hback|].
    destruct (Interrupts.vector ctx =? 255); [by apply Hback|].
    destruct (Interrupts.vector ctx <? 32); by apply Hback.
Qed.

(** C13. An interrupt is transparent for the code it interrupts, whichever of the
    stubs handles it, with or without an error code and on whichever stack: the
    handler is given the registers, the vector and the error code, and when it
    returns every register has its value back; only a system call changes RAX,
    to the result of the call. *)
Theorem interrupt_transparent n err top m c cr2 k t
    (Hc : cpu_ok c) (Htop : 200 ≤ top < 2 ^ 64) (Hn : word n) (Herr : error_matches n err) :
  let '(m1, sp) := isr_entry n err top m c in
  let ctx := context_at m1 sp in
  ctx = context_of c n (default 0 err) ∧
  match Interrupts.rust_isr_handler m1 cr2 ctx k t with
  | (Returns (ctx', _, _), _) =>
      if n =? 128 then
        ∃ con r, Syscall.rust_syscall_handler m1 (Interrupts.console k) (rax c) (rdi c) (rsi c)
            (rdx c) (r10 c) = Returns (con, r) ∧
          isr_common_restore (store_rax m1 sp (Interrupts.rax ctx')) sp (ds c) = with_rax (wrap 64 r) c
      else ctx' = ctx ∧ isr_common_restore m1 sp (ds c) = c
  | _ => True
  end.
Proof.
  destruct (isr_entry_spec n err top m c Hc Htop Hn Herr) as (m1 & sp & -> & H0 & H1 & Hk).
  rewrite (context_at_entry m1 sp c n (default 0 err)) by done. cbn zeta. split; [done|].
  destruct (Interrupts.rust_isr_handler _ _ _ _ _) as [[[[ctx' k'] sw]| |] t'] eqn:E; [|done|done].
  apply isr_handler_context in E. cbn [Interrupts.vector context_of] in E.
  destruct (n =? 128).
  - destruct E as (con & r & E & ->). exists con, r. split; [exact E|].
    apply (restore_entry m1 sp c n (default 0 err)); [done|lia|lia|].
    cbn [Interrupts.rax Interrupts.set_rax]. unfold word, wrap. apply Z.mod_pos_bound. lia.
  - split; [done|]. apply (restore_entry m1 sp c n (default 0 err) 0); [done|lia|lia|].
    unfold word. lia.
Qed.
End Handler.

Lemma interrupt_transparent_witness :
  let '(m1, sp) := isr_entry 128 None 0x90000 ∅ demo_cpu in
  context_at m1 sp = context_of demo_cpu 128 0.
Proof.
  pose proof (interrupt_transparent (D := Apic.demo_pit) 128 None 0x90000 ∅ demo_cpu 0
    Interrupts.demo_kernel []) as H.
  destruct (isr_entry 128 None 0x90000 ∅ demo_cpu) as [m1 sp]. apply H.
  - split; [|vm_compute; split; congruence].
    rewrite !Forall_cons. unfold word. simpl. split_and!; try lia. apply Forall_nil_2.
  - lia.
  - unfold word. lia.
  - unfold error_matches, ISR_ERR. rewrite !not_elem_of_cons. split_and!; try lia. apply not_elem_of_nil.
Defined.

End Entry.
