(* ===== verification/Drivers.v ===== *)
(** * The drivers in C (drivers/keyboard.c, drivers/ahci.c)

    Module [KeyboardC] is the PS/2 keyboard driver: the handler with its modifier
    keys, the ring buffer, and the initialisation of the controller.  Module [Ahci]
    is the probe of the AHCI controller with the command structures it lays out
    in memory, and the search of the PCI bus for an NVMe device. *)

From stdpp Require Import base numbers list gmap strings.
From S2P Require Import Prelude Memory Text Device Acpi Interrupts.
Import Text.Text Device.Device.
Open Scope Z_scope.

Module KeyboardC.

Definition PS2_DATA_PORT : Z := 0x60.
Definition PS2_STATUS_PORT : Z := 0x64.
Definition PS2_COMMAND_PORT : Z := 0x64.
Definition PS2_CMD_READ_CONFIG : Z := 0x20.
Definition PS2_CMD_WRITE_CONFIG : Z := 0x60.
Definition PS2_CMD_DISABLE_PORT2 : Z := 0xA7.
Definition PS2_CMD_TEST_CTRL : Z := 0xAA.
Definition PS2_CMD_DISABLE_PORT1 : Z := 0xAD.
Definition PS2_CMD_ENABLE_PORT1 : Z := 0xAE.
Definition KB_CMD_SET_SCANCODE : Z := 0xF0.
Definition KB_CMD_SET_RATE : Z := 0xF3.
Definition KB_CMD_ENABLE : Z := 0xF4.
Definition KB_CMD_RESET : Z := 0xFF.
Definition KB_ACK : Z := 0xFA.
Definition SCANCODE_LSHIFT : Z := 0x2A.
Definition SCANCODE_RSHIFT : Z := 0x36.
Definition SCANCODE_CAPS_LOCK : Z := 0x3A.
Definition SCANCODE_CTRL : Z := 0x1D.
Definition SCANCODE_ALT : Z := 0x38.
Definition SCANCODE_EXTENDED : Z := 0xE0.
Definition SCANCODE_RELEASED : Z := 0x80.
Definition KB_BUFFER_SIZE : Z := 256.

(** The static variables. *)
Record State := mkState {
  g_shift_pressed : bool;
  g_ctrl_pressed : bool;
  g_alt_pressed : bool;
  g_caps_lock : bool;
  g_extended_key : bool;
  g_key_buffer : list Z;
  g_key_buffer_head : Z;
  g_key_buffer_tail : Z
}.

Definition statics : State := mkState false false false false false (replicate 256 0) 0 0.

Definition scancode_to_ascii : list Z :=
  [0; 27] ++ str "1234567890-=" ++ [8; 9] ++ str "qwertyuiop[]" ++ [10; 0] ++
  str "asdfghjkl;'`" ++ [0] ++ str "\zxcvbnm,./" ++ [0] ++ str "*" ++ [0] ++ str " " ++
  replicate 10 0 ++ [0; 0; 0; 0] ++ str "-" ++ [0; 0; 0] ++ str "+" ++ [0] ++ replicate 50 0.

(** The quotation mark is 34. *)
Definition scancode_to_ascii_shift : list Z :=
  [0; 27] ++ str "!@#$%^&*()_+" ++ [8; 9] ++ str "QWERTYUIOP{}" ++ [10; 0] ++
  str "ASDFGHJKL:" ++ [34] ++ str "~" ++ [0] ++ str "|ZXCVBNM<>?" ++ [0] ++ str "*" ++ [0] ++
  str " " ++ replicate 10 0 ++ [0; 0; 0; 0] ++ str "-" ++ [0; 0; 0] ++ str "+" ++ [0] ++
  replicate 50 0.

Definition set_extended (b : bool) (s : State) : State :=
  mkState (g_shift_pressed s) (g_ctrl_pressed s) (g_alt_pressed s) (g_caps_lock s) b
    (g_key_buffer s) (g_key_buffer_head s) (g_key_buffer_tail s).
Definition set_ring (b : list Z) (h t : Z) (s : State) : State :=
  mkState (g_shift_pressed s) (g_ctrl_pressed s) (g_alt_pressed s) (g_caps_lock s) (g_extended_key s)
    b h t.

Definition kb_buffer_put (s : State) (ch : Z) : State :=
  let next_head := (g_key_buffer_head s + 1) mod KB_BUFFER_SIZE in
  if negb (next_head =? g_key_buffer_tail s)
  then set_ring (<[Z.to_nat (g_key_buffer_head s) := ch]> (g_key_buffer s)) next_head
         (g_key_buffer_tail s) s
  else s.

Definition letter (lo hi ch : Z) : bool := (lo <=? ch) && (ch <=? hi).

(** The character of a key under the modifiers. *)
Definition char_of (shift ctrl caps : bool) (key : Z) : Z :=
  let ch :=
    if key <? 128 then
      if shift then
        let ch := default 0 (scancode_to_ascii_shift !! Z.to_nat key) in
        if caps && letter 65 90 ch then ch + 32 else ch
      else
        let ch := default 0 (scancode_to_ascii !! Z.to_nat key) in
        if caps && letter 97 122 ch then ch - 32 else ch
    else 0 in
  if ctrl && letter 97 122 ch then ch - 97 + 1 else ch.

Definition kb_handle_scancode (s : State) (scancode : Z) : State :=
  if scancode =? SCANCODE_EXTENDED then set_extended true s
  else
    let released := negb (Z.land scancode SCANCODE_RELEASED =? 0) in
    let key := Z.land scancode 0x7F in
    let set_keys shift ctrl alt caps :=
      mkState shift ctrl alt caps false (g_key_buffer s) (g_key_buffer_head s) (g_key_buffer_tail s) in
    if (key =? SCANCODE_LSHIFT) || (key =? SCANCODE_RSHIFT) then
      set_keys (negb released) (g_ctrl_pressed s) (g_alt_pressed s) (g_caps_lock s)
    else if key =? SCANCODE_CTRL then
      set_keys (g_shift_pressed s) (negb released) (g_alt_pressed s) (g_caps_lock s)
    else if key =? SCANCODE_ALT then
      set_keys (g_shift_pressed s) (g_ctrl_pressed s) (negb released) (g_caps_lock s)
    else if (key =? SCANCODE_CAPS_LOCK) && negb released then
      set_keys (g_shift_pressed s) (g_ctrl_pressed s) (g_alt_pressed s) (negb (g_caps_lock s))
    else if released then set_extended false s
    else
      let ch := char_of (g_shift_pressed s) (g_ctrl_pressed s) (g_caps_lock s) key in
      let s := if negb (ch =? 0) then kb_buffer_put s ch else s in
      set_extended false s.

Definition keyboard_get_char (s : State) : State * Z :=
  if g_key_buffer_head s =? g_key_buffer_tail s then (s, 0)
  else
    (set_ring (g_key_buffer s) (g_key_buffer_head s)
       ((g_key_buffer_tail s + 1) mod KB_BUFFER_SIZE) s,
     default 0 (g_key_buffer s !! Z.to_nat (g_key_buffer_tail s))).

Definition keyboard_has_data (s : State) : Z :=
  if g_key_buffer_head s =? g_key_buffer_tail s then 0 else 1.

Section Controller.
Context {D : Device}.

(** At most [polls] polls of the status port. *)
Fixpoint ps2_wait (polls : nat) (ready : Z → bool) : io unit :=
  match polls with
  | O => mret tt
  | S polls => status ← inb PS2_STATUS_PORT; if ready status then mret tt else ps2_wait polls ready
  end.

Definition ps2_wait_input : io unit := ps2_wait (Z.to_nat 100000) (λ status, Z.land status 0x02 =? 0).
Definition ps2_wait_output : io unit :=
  ps2_wait (Z.to_nat 100000) (λ status, negb (Z.land status 0x01 =? 0)).

Fixpoint kb_send (retries : nat) (cmd : Z) : io Z :=
  match retries with
  | O => mret (-1)
  | S retries =>
      ps2_wait_input;;
      outb PS2_DATA_PORT cmd;;
      ps2_wait_output;;
      response ← inb PS2_DATA_PORT;
      if response =? KB_ACK then mret 0 else kb_send retries cmd
  end.
Definition kb_send_command (cmd : Z) : io Z := kb_send 3 cmd.

(** [while (inb(PS2_STATUS_PORT) & 0x01) inb(PS2_DATA_PORT);], at most [rounds]
    times; whether the loop has ended. *)
Fixpoint drain (rounds : nat) : io bool :=
  match rounds with
  | O => mret false
  | S rounds =>
      status ← inb PS2_STATUS_PORT;
      if Z.land status 0x01 =? 0 then mret true else inb PS2_DATA_PORT;; drain rounds
  end.

Definition command (cmd : Z) : io unit := ps2_wait_input;; outb PS2_COMMAND_PORT cmd.
Definition response : io Z := ps2_wait_output;; inb PS2_DATA_PORT.

(** [None] while the loop that empties the controller runs. *)
Definition keyboard_init (rounds : nat) (s : State) : io (option (State * Z)) :=
  command PS2_CMD_DISABLE_PORT1;;
  command PS2_CMD_DISABLE_PORT2;;
  empty ← drain rounds;
  if negb empty then mret None
  else
    command PS2_CMD_TEST_CTRL;;
    test_result ← response;
    if negb (test_result =? 0x55) then mret (Some (s, -1))
    else
      command PS2_CMD_ENABLE_PORT1;;
      command PS2_CMD_READ_CONFIG;;
      config ← response;
      let config := Z.lor config 0x01 in
      let config := Z.land config (Z.lxor 0xFF 0x10) in
      let config := Z.land config (Z.lxor 0xFF 0x20) in
      command PS2_CMD_WRITE_CONFIG;;
      ps2_wait_input;;
      outb PS2_DATA_PORT config;;
      r ← kb_send_command KB_CMD_RESET;
      if negb (r =? 0) then mret (Some (s, -1))
      else
        bat_result ← response;
        if negb (bat_result =? 0xAA) then mret (Some (s, -1))
        else
          kb_send_command KB_CMD_SET_SCANCODE;;
          kb_send_command 0x01;;
          kb_send_command KB_CMD_ENABLE;;
          kb_send_command KB_CMD_SET_RATE;;
          kb_send_command 0x00;;
          mret (Some (mkState false false false false false (g_key_buffer s) 0 0, 0)).

Definition keyboard_read_scancode (s : State) : io (State * Z) :=
  scancode ← inb PS2_DATA_PORT; mret (kb_handle_scancode s scancode, scancode).
End Controller.

(** ** The queue *)

(** The ring buffer as the one of the kernel's own driver, which has the same
    size and discipline. *)
Definition ring (s : State) : Keyboard.Keyboard :=
  Keyboard.mkKeyboard (g_key_buffer s) (g_key_buffer_head s) (g_key_buffer_tail s) false false.

(** The specification: a queue of at most 255 characters, the shift and control
    keys and the caps lock. *)
Record queue := mkQueue { chars : list Z; shift : bool; ctrl : bool; caps : bool }.

Definition spec_scan (q : queue) (scancode : Z) : queue :=
  let released := Z.testbit scancode 7 in
  let key := scancode mod 128 in
  if scancode =? 0xE0 then q
  else if (key =? 0x2A) || (key =? 0x36) then mkQueue (chars q) (negb released) (ctrl q) (caps q)
  else if key =? 0x1D then mkQueue (chars q) (shift q) (negb released) (caps q)
  else if key =? 0x38 then q
  else if key =? 0x3A then
    if released then q else mkQueue (chars q) (shift q) (ctrl q) (negb (caps q))
  else if released then q
  else
    let ch := char_of (shift q) (ctrl q) (caps q) key in
    if (ch =? 0) || (255 <=? Z.of_nat (length (chars q))) then q
    else mkQueue (chars q ++ [ch]) (shift q) (ctrl q) (caps q).

Inductive op := Scan (scancode : Z) | GetChar | HasData.

Definition spec_step (q : queue) (o : op) : queue * Z :=
  match o with
  | Scan c => (spec_scan q c, 0)
  | GetChar =>
      match chars q with
      | [] => (q, 0)
      | c :: rest => (mkQueue rest (shift q) (ctrl q) (caps q), c)
      end
  | HasData => (q, match chars q with [] => 0 | _ => 1 end)
  end.

Definition code_step (s : State) (o : op) : State * Z :=
  match o with
  | Scan c => (kb_handle_scancode s c, 0)
  | GetChar => keyboard_get_char s
  | HasData => (s, keyboard_has_data s)
  end.

Fixpoint run {S} (step : S → op → S * Z) (s : S) (ops : list op) : list Z :=
  match ops with
  | [] => []
  | o :: ops => let '(s, r) := step s o in r :: run step s ops
  end.

Definition implements (s : State) (q : queue) : Prop :=
  Keyboard.wf (ring s) ∧ Keyboard.waiting (ring s) = chars q ∧
  g_shift_pressed s = shift q ∧ g_ctrl_pressed s = ctrl q ∧ g_caps_lock s = caps q.

Lemma put_implements s q ch :
  implements s q →
  implements (kb_buffer_put s ch)
    (if 255 <=? Z.of_nat (length (chars q)) then q else mkQueue (chars q ++ [ch]) (shift q) (ctrl q) (caps q)).
Proof.
  intros (Hwf & Hq & Hk). pose proof (Keyboard.waiting_length (ring s)) as Hlen. rewrite Hq in Hlen.
  pose proof Hwf as (Hl & Hh & Ht). unfold ring in Hlen, Hl, Hh, Ht.
  cbn [Keyboard.head Keyboard.tail Keyboard.buffer] in Hlen, Hl, Hh, Ht.
  unfold kb_buffer_put, KB_BUFFER_SIZE.
  destruct ((g_key_buffer_head s + 1) mod 256 =? g_key_buffer_tail s) eqn:Ef; break_cmp; cbn [negb].
  - rewrite (proj2 (Z.leb_le 255 _)) by dlia. split; [exact Hwf|]. by split.
  - rewrite (proj2 (Z.leb_gt 255 _)) by dlia. split; [|split; [|exact Hk]].
    + unfold Keyboard.wf, ring. cbn. rewrite length_insert. split_and!; try done; dlia.
    + cbn [chars]. rewrite <- Hq. apply (Keyboard.waiting_push (ring s)); [exact Hwf|]. exact Ef.
Qed.

Lemma keep_implements s q b : implements s q → implements (set_extended b s) q.
Proof. done. Qed.

Lemma c_scan_implements s q scancode :
  0 ≤ scancode < 256 → implements s q →
  implements (kb_handle_scancode s scancode) (spec_scan q scancode).
Proof.
  intros Hs Hi. unfold kb_handle_scancode, spec_scan, SCANCODE_EXTENDED.
  destruct (scancode =? 0xE0); [done|].
  destruct (Keyboard.scan_key scancode Hs) as (Hr & Hkey & Hb).
  unfold SCANCODE_RELEASED, SCANCODE_LSHIFT, SCANCODE_RSHIFT, SCANCODE_CTRL, SCANCODE_ALT,
    SCANCODE_CAPS_LOCK. rewrite Hr, Hkey. cbn zeta. destruct Hi as (Hwf & Hq & Hsh & Hct & Hca).
  assert (Hkeys : ∀ sh ct al ca sh' ct' ca', sh = sh' → ct = ct' → ca = ca' →
    implements (mkState sh ct al ca false (g_key_buffer s) (g_key_buffer_head s) (g_key_buffer_tail s))
      (mkQueue (chars q) sh' ct' ca')).
  { intros sh ct al ca sh' ct' ca' -> -> ->. split; [exact Hwf|]. split; [exact Hq|]. done. }
  assert (Hi : implements s q) by (split; [exact Hwf|]; split; [exact Hq|]; done).
  assert (Eq : q = mkQueue (chars q) (shift q) (ctrl q) (caps q)) by by destruct q.
  destruct (_ || _); [by apply Hkeys|]. destruct (_ =? 0x1D); [by apply Hkeys|].
  destruct (_ =? 0x38); [rewrite Eq; by apply Hkeys|].
  destruct (_ =? 0x3A) eqn:E3A; cbn [andb].
  { destruct (Z.testbit scancode 7); cbn [negb]; [by apply keep_implements|]. apply Hkeys; congruence. }
  destruct (Z.testbit scancode 7); [by apply keep_implements|].
  rewrite Hsh, Hct, Hca. set (ch := char_of _ _ _ _).
  destruct (ch =? 0); cbn [negb orb]; [by apply keep_implements|].
  apply keep_implements. by apply put_implements.
Qed.

Lemma c_step_implements s q o :
  match o with Scan c => 0 ≤ c < 256 | _ => True end → implements s q →
  let '(s', r) := code_step s o in
  let '(q', r') := spec_step q o in
  implements s' q' ∧ r = r'.
Proof.
  intros Ho Hi. destruct o as [c| |]; cbn [code_step spec_step].
  - split; [by apply c_scan_implements|done].
  - destruct Hi as (Hwf & Hq & Hk). unfold keyboard_get_char.
    change (g_key_buffer_head s =? g_key_buffer_tail s) with
      (Keyboard.head (ring s) =? Keyboard.tail (ring s)).
    destruct q as [[|c rest] sh ct ca]; cbn [chars shift ctrl caps] in *.
    + rewrite (proj2 (Keyboard.waiting_nil (ring s) Hwf)) by done. done.
    + destruct (Keyboard.head (ring s) =? Keyboard.tail (ring s)) eqn:E;
        [apply Keyboard.waiting_nil in E; [congruence|done]|].
      destruct (Keyboard.waiting_pop (ring s) c rest Hwf Hq) as [H1 H2]. split; [|exact H1].
      split; [|split; [exact H2|exact Hk]]. destruct Hwf as (Hl & Hh & Ht). unfold Keyboard.wf, ring in *.
      cbn in *. unfold KB_BUFFER_SIZE. split_and!; try done; dlia.
  - split; [done|]. destruct Hi as (Hwf & Hq & _). unfold keyboard_has_data.
    change (g_key_buffer_head s =? g_key_buffer_tail s) with
      (Keyboard.head (ring s) =? Keyboard.tail (ring s)).
    destruct q as [[|c rest] sh ct ca]; cbn [chars] in *.
    + by rewrite (proj2 (Keyboard.waiting_nil (ring s) Hwf)).
    + destruct (Keyboard.head (ring s) =? Keyboard.tail (ring s)) eqn:E; [|done].
      apply Keyboard.waiting_nil in E; [congruence|done].
Qed.

(** The driver implements a queue of 255 characters: for every sequence of scan
    codes and reads its answers are those of the queue into which each key press
    puts the character of the key under the shift and control keys and the caps
    lock. *)
Theorem c_keyboard_refines_queue ops
    (Hops : Forall (λ o, match o with Scan c => 0 ≤ c < 256 | _ => True end) ops) :
  run code_step statics ops = run spec_step (mkQueue [] false false false) ops.
Proof.
  assert (H0 : implements statics (mkQueue [] false false false)) by (split_and!; done || (simpl; lia)).
  revert H0. generalize statics, (mkQueue [] false false false).
  induction Hops as [|o ops Ho Hops IH]; intros s q Hi; [done|]. cbn [run].
  pose proof (c_step_implements s q o Ho Hi) as Hs.
  destruct (code_step s o) as [s' r], (spec_step q o) as [q' r'].
  destruct Hs as [Hi' ->]. f_equal. by apply IH.
Qed.

(** Caps lock, [a], shift and [a], control and [c] after caps lock is off. *)
Lemma c_keyboard_refines_queue_witness :
  run code_step statics
    [Scan 0x3A; Scan 0x1E; Scan 0x2A; Scan 0x1E; Scan 0xAA; Scan 0x3A; Scan 0x1D; Scan 0x2E;
     GetChar; GetChar; GetChar; GetChar] = replicate 8 0 ++ [65; 97; 3; 0].
Proof.
  rewrite c_keyboard_refines_queue.
  - vm_compute. reflexivity.
  - repeat constructor; lia.
Defined.

(** ** The two drivers *)

(** An operation, as the kernel's own driver has it. *)
Definition kernel_op (o : op) : Keyboard.op :=
  match o with
  | Scan c => Keyboard.Scan c
  | GetChar => Keyboard.ReadChar
  | HasData => Keyboard.HasData
  end.

(** The presses the drivers treat differently: control, caps lock and four keys of
    the keypad. *)
Definition told_apart : list Z := [0x1D; 0x3A; 0x48; 0x4C; 0x52; 0x56].

(** The queues of the two specifications, equal while no such key is pressed. *)
Definition same_queue (q : queue) (q' : Keyboard.queue) : Prop :=
  q' = (chars q, shift q) ∧ ctrl q = false ∧ caps q = false.

Lemma char_of_plain sh key :
  0 ≤ key < 128 → key ∉ told_apart → char_of sh false false key = Keyboard.ascii_of sh key.
Proof.
  intros Hk Hn.
  assert (H : forallb (λ key, bool_decide (key ∈ told_apart) ||
                (char_of sh false false key =? Keyboard.ascii_of sh key)) (seqZ 0 128) = true)
    by (destruct sh; vm_compute; reflexivity).
  rewrite forallb_forall in H. specialize (H key). rewrite <- list_elem_of_In, elem_of_seqZ in H.
  rewrite bool_decide_eq_false_2 in H by exact Hn. by apply Z.eqb_eq, H.
Qed.

Lemma same_queue_scan q q' c :
  0 ≤ c < 256 → c ∉ told_apart → same_queue q q' → same_queue (spec_scan q c) (Keyboard.spec_scan q' c).
Proof.
  intros Hc Hn (-> & Hct & Hca). unfold spec_scan, Keyboard.spec_scan.
  assert (Hr : Z.testbit c 7 = false → c mod 128 = c).
  { intros Hb. apply Z.mod_small. split; [lia|]. destruct (Z.lt_ge_cases c 128); [done|].
    apply (Z.testbit_false c 7) in Hb; [|lia]. change (2 ^ 7) with 128 in Hb.
    replace (c / 128) with 1 in Hb by dlia. done. }
  destruct (c =? 0xE0) eqn:E; break_cmp.
  { subst c. done. }
  destruct (_ || _); [done|]. unfold told_apart in Hn.
  destruct (c mod 128 =? 0x1D) eqn:E1; break_cmp.
  { destruct (Z.testbit c 7) eqn:Eb; [done|]. rewrite Hr in E1 by done. destruct Hn. rewrite E1.
    apply (bool_decide_unpack _). vm_compute. exact I. }
  destruct (c mod 128 =? 0x38) eqn:E2; break_cmp.
  { rewrite E2. destruct q as [cs [] ct ca], (Z.testbit c 7); done. }
  destruct (c mod 128 =? 0x3A) eqn:E3; break_cmp.
  { destruct (Z.testbit c 7) eqn:Eb; [done|]. rewrite Hr in E3 by done. destruct Hn. rewrite E3.
    apply (bool_decide_unpack _). vm_compute. exact I. }
  destruct (Z.testbit c 7) eqn:Eb; [done|]. rewrite Hct, Hca, Hr by done.
  rewrite char_of_plain; [|rewrite <- Hr by done; dlia|exact Hn].
  by destruct (_ || _).
Qed.

(** C15. The C driver and the kernel's own are interchangeable for plain typing: they
    give the same answers to every sequence of scan codes, reads and polls in which
    neither control, caps lock nor one of the four keypad keys that the tables place
    differently is pressed. *)
Theorem keyboard_drivers_agree ops
    (Hops : Forall (λ o, match o with Scan c => 0 ≤ c < 256 ∧ c ∉ told_apart | _ => True end) ops) :
  run code_step statics ops = Keyboard.run Keyboard.code_step Keyboard.Keyboard_statics (kernel_op <$> ops).
Proof.
  assert (H0 : implements statics (mkQueue [] false false false)) by (split_and!; done || (simpl; lia)).
  assert (H1 : Keyboard.implements Keyboard.Keyboard_statics ([], false)) by (split_and!; done || (simpl; lia)).
  assert (H2 : same_queue (mkQueue [] false false false) ([], false)) by done. revert H0 H1 H2.
  generalize statics, (mkQueue [] false false false), Keyboard.Keyboard_statics, ([] : list Z, false).
  induction Hops as [|o ops Ho Hops IH]; intros s q k q' Hs Hk Hq; [done|]. rewrite fmap_cons. cbn [run Keyboard.run].
  pose proof (c_step_implements s q o ltac:(destruct o; tauto) Hs) as H1.
  pose proof (Keyboard.step_implements k q' (kernel_op o) ltac:(destruct o; cbn; tauto) Hk) as H2.
  assert (H3 : same_queue (spec_step q o).1 (Keyboard.spec_step q' (kernel_op o)).1 ∧
               (spec_step q o).2 = (Keyboard.spec_step q' (kernel_op o)).2).
  { destruct o as [c| |]; cbn; [split; [apply same_queue_scan; tauto|done]|..];
      destruct q as [[|x cs] sh ct ca], Hq as (-> & Hct & Hca); cbn in *; subst; done. }
  destruct (code_step s o) as [s1 r1], (spec_step q o) as [q1 r2], (Keyboard.code_step k (kernel_op o)) as [k1 r3],
    (Keyboard.spec_step q' (kernel_op o)) as [q2 r4]. cbn [fst snd] in H3.
  destruct H1 as [H1 ->], H2 as [H2 ->], H3 as [H3 ->]. f_equal. by apply (IH s1 q1 k1 q2).
Qed.

(** Shift, [h], release, [i]. *)
Lemma keyboard_drivers_agree_witness :
  let ops := [Scan 0x2A; Scan 0x23; Scan 0xAA; Scan 0x17; HasData; GetChar; GetChar; GetChar] in
  run code_step statics ops = [0; 0; 0; 0; 1; 72; 105; 0] ∧
  Keyboard.run Keyboard.code_step Keyboard.Keyboard_statics (kernel_op <$> ops) = [0; 0; 0; 0; 1; 72; 105; 0].
Proof.
  intros ops. assert (E : run code_step statics ops = [0; 0; 0; 0; 1; 72; 105; 0]) by (vm_compute; reflexivity).
  split; [exact E|]. rewrite <- (keyboard_drivers_agree ops); [exact E|].
  unfold ops.
  repeat (apply Forall_cons_2; [first [exact I|split; [lia|apply (bool_decide_unpack _); vm_compute; exact I]]|]).
  by apply Forall_nil_2.
Defined.

End KeyboardC.

Module Ahci.

Definition AHCI_CAP : Z := 0x00.
Definition AHCI_GHC : Z := 0x04.
Definition AHCI_PI : Z := 0x0C.
Definition AHCI_VS : Z := 0x10.
Definition AHCI_PORT_CLB : Z := 0x00.
Definition AHCI_PORT_CLBU : Z := 0x04.
Definition AHCI_PORT_FB : Z := 0x08.
Definition AHCI_PORT_FBU : Z := 0x0C.
Definition AHCI_PORT_CMD : Z := 0x18.
Definition AHCI_PORT_SIG : Z := 0x24.
Definition AHCI_PORT_SSTS : Z := 0x28.
Definition AHCI_PORT_SIZE : Z := 0x80.
Definition AHCI_CMD_SLOT_COUNT : Z := 32.
Definition AHCI_CMD_TABLE_SIZE : Z := 256.
Definition AHCI_PRDT_ENTRIES : Z := 8.
Definition AHCI_GHC_AE : Z := Z.shiftl 1 31.
Definition AHCI_PORT_CMD_ST : Z := Z.shiftl 1 0.
Definition AHCI_PORT_CMD_FRE : Z := Z.shiftl 1 4.
Definition AHCI_PORT_CMD_FR : Z := Z.shiftl 1 14.
Definition AHCI_PORT_CMD_CR : Z := Z.shiftl 1 15.
Definition AHCI_SIG_SATA : Z := 0x00000101.
Definition AHCI_SIG_SATAPI : Z := 0xEB140101.
Definition AHCI_SIG_SEMB : Z := 0xC33C0101.
Definition AHCI_SIG_PM : Z := 0x96690101.

Inductive ahci_device_type_t := AHCI_DEV_NULL | AHCI_DEV_SATA | AHCI_DEV_SATAPI | AHCI_DEV_SEMB | AHCI_DEV_PM.

#[export] Instance ahci_device_type_eq_dec : EqDecision ahci_device_type_t.
Proof. solve_decision. Defined.

Record ahci_port_t := mkPort {
  port_num : Z;
  base : Z;
  dev_type : ahci_device_type_t;
  cmd_list : Z;
  cmd_table : Z;
  fis_recv : Z
}.

Definition ahci_port_zero : ahci_port_t := mkPort 0 0 AHCI_DEV_NULL 0 0 0.

(** [x & ~y] on [uint32_t]. *)
Definition clear32 (x y : Z) : Z := Z.land x (Z.lxor (Z.ones 32) y).

Section Probe.
Context {D : Device}.

Definition ahci_get_device_type (port_base : Z) : io ahci_device_type_t :=
  ssts ← load (port_base + AHCI_PORT_SSTS)%usize;
  sig ← load (port_base + AHCI_PORT_SIG)%usize;
  let det := Z.land ssts 0x0F in
  let ipm := Z.land (Z.shiftr ssts 8) 0x0F in
  mret (if negb (det =? 0x03) || negb (ipm =? 0x01) then AHCI_DEV_NULL
        else if sig =? AHCI_SIG_SATA then AHCI_DEV_SATA
        else if sig =? AHCI_SIG_SATAPI then AHCI_DEV_SATAPI
        else if sig =? AHCI_SIG_SEMB then AHCI_DEV_SEMB
        else if sig =? AHCI_SIG_PM then AHCI_DEV_PM
        else AHCI_DEV_NULL).

Definition engine_idle (cmd : Z) : bool :=
  (Z.land cmd AHCI_PORT_CMD_FR =? 0) && (Z.land cmd AHCI_PORT_CMD_CR =? 0).

(** At most [polls] polls of the command register; whether the engine is idle. *)
Fixpoint wait_idle (polls : nat) (port_base : Z) : io bool :=
  match polls with
  | O => mret false
  | S polls =>
      cmd ← load (port_base + AHCI_PORT_CMD)%usize;
      if engine_idle cmd then mret true else wait_idle polls port_base
  end.

Definition ahci_stop_cmd_engine (port_base : Z) : io Z :=
  cmd ← load (port_base + AHCI_PORT_CMD)%usize;
  store (port_base + AHCI_PORT_CMD)%usize (clear32 cmd AHCI_PORT_CMD_ST);;
  store (port_base + AHCI_PORT_CMD)%usize (clear32 cmd AHCI_PORT_CMD_FRE);;
  idle ← wait_idle (Z.to_nat 500000) port_base;
  mret (if (idle : bool) then 0 else -1).

Definition ahci_start_cmd_engine (port_base : Z) : io Z :=
  wait_idle (Z.to_nat 500000) port_base;;
  cmd ← load (port_base + AHCI_PORT_CMD)%usize;
  store (port_base + AHCI_PORT_CMD)%usize (Z.lor cmd AHCI_PORT_CMD_FRE);;
  cmd ← load (port_base + AHCI_PORT_CMD)%usize;
  store (port_base + AHCI_PORT_CMD)%usize (Z.lor cmd AHCI_PORT_CMD_ST);;
  mret 0.

(** The addresses of a port's structures. *)
Definition cmd_list_addr (num : Z) : Z := 0x400000 + num * 0x2000.
Definition fis_addr (num : Z) : Z := cmd_list_addr num + 1024.
Definition cmd_table_addr (num : Z) : Z := cmd_list_addr num + 4096.

(** The fields of the command headers the loop sets; a header has 32 bytes. *)
Definition set_headers (m : mem) (num : Z) : mem :=
  for_each 0 AHCI_CMD_SLOT_COUNT
    (λ i m,
       let header := cmd_list_addr num + 32 * i in
       let m := Memory.store m (header + 2) 2 AHCI_PRDT_ENTRIES in
       let m := Memory.store m (header + 8) 4 (wrap 32 (cmd_table_addr num + i * AHCI_CMD_TABLE_SIZE)) in
       Memory.store m (header + 12) 4 0) m.

Definition ahci_init_port (m : mem) (num port_base : Z) : io (mem * ahci_port_t) :=
  ty ← ahci_get_device_type port_base;
  if bool_decide (ty = AHCI_DEV_NULL) then mret (m, mkPort num port_base ty 0 0 0)
  else
    ahci_stop_cmd_engine port_base;;
    let m := write_zeros m (cmd_list_addr num) 1024 in
    store (port_base + AHCI_PORT_CLB)%usize (wrap 32 (cmd_list_addr num));;
    store (port_base + AHCI_PORT_CLBU)%usize 0;;
    let m := write_zeros m (fis_addr num) 256 in
    store (port_base + AHCI_PORT_FB)%usize (wrap 32 (fis_addr num));;
    store (port_base + AHCI_PORT_FBU)%usize 0;;
    let m := set_headers m num in
    ahci_start_cmd_engine port_base;;
    mret (m, mkPort num port_base ty (cmd_list_addr num) (cmd_table_addr num) (fis_addr num)).

(** The controller's address, and the ports with their number. *)
Definition AHCI_BASE : Z := 0xFEC00000.

Fixpoint init_ports (l : list Z) (pi : Z) (m : mem) (ports : list ahci_port_t) (count : Z)
    : io (mem * list ahci_port_t * Z) :=
  match l with
  | [] => mret (m, ports, count)
  | i :: l =>
      if negb (Z.land pi (Z.shiftl 1 i) =? 0) then
        x ← ahci_init_port m i (AHCI_BASE + 0x100 + i * AHCI_PORT_SIZE)%usize;
        let '(m, p) := x in
        init_ports l pi m (<[Z.to_nat i := p]> ports)
          (if bool_decide (dev_type p = AHCI_DEV_NULL) then count else count + 1)
      else init_ports l pi m ports count
  end.

Definition ahci_init (m : mem) (ports : list ahci_port_t) : io (mem * list ahci_port_t * Z) :=
  load (AHCI_BASE + AHCI_CAP)%usize;;
  load (AHCI_BASE + AHCI_VS)%usize;;
  ghc ← load (AHCI_BASE + AHCI_GHC)%usize;
  store (AHCI_BASE + AHCI_GHC)%usize (Z.lor ghc AHCI_GHC_AE);;
  pi ← load (AHCI_BASE + AHCI_PI)%usize;
  x ← init_ports (seqZ 0 32) pi m ports 0;
  let '(m, ports, count) := x in
  mret (m, ports, if 0 <? count then 0 else -1).

(** ** The search for an NVMe device *)

Definition pci_address (bus dev func : Z) : Z :=
  Z.lor (Z.lor (Z.lor (Z.shiftl 1 31) (Z.shiftl bus 16)) (Z.shiftl dev 11)) (Z.shiftl func 8).

(** The functions in the order of the three loops. *)
Definition pci_functions : list Z :=
  bus ← seqZ 0 256; dev ← seqZ 0 32; func ← seqZ 0 8; [pci_address bus dev func].

Fixpoint nvme_scan (l : list Z) : io Z :=
  match l with
  | [] => mret (-1)
  | addr :: l =>
      outl 0xCF8 addr;;
      vendor ← inl 0xCFC;
      if (vendor =? 0xFFFFFFFF) || (vendor =? 0) then nvme_scan l
      else
        outl 0xCF8 (Z.lor addr 0x09);;
        class_code ← inb (0xCFC + 1);
        subclass ← inb 0xCFC;
        if (class_code =? 0x01) && (subclass =? 0x08) then mret 0 else nvme_scan l
  end.

Definition nvme_detect : io Z := nvme_scan pci_functions.

(** *** The configuration mechanism

    The address register selects a double word, its lowest two bits are ignored,
    and the data port gives the double word or one of its bytes. *)
Definition selected (t : list event) : Z :=
  foldl (λ a e, match e with OutL port v => if port =? 0xCF8 then v else a | _ => a end) 0 t.

Definition is_pci (cfg : Z → Z) : Prop :=
  (∀ t, answer t (AskL 0xCFC) = cfg (selected t / 4 * 4)) ∧
  (∀ t k, 0 ≤ k < 4 → answer t (AskB (0xCFC + k)) = cfg (selected t / 4 * 4) / 256 ^ k mod 256).

Lemma selected_snoc t e :
  selected (t ++ [e]) =
    match e with OutL port v => if port =? 0xCF8 then v else selected t | _ => selected t end.
Proof. unfold selected. by rewrite foldl_app. Qed.

(** What the loop takes for a device: byte 1 and byte 0 of the register at
    offset 8, which hold the programming interface and the revision. *)
Definition taken_for_nvme (cfg : Z → Z) (a : Z) : bool :=
  negb ((cfg a =? 0xFFFFFFFF) || (cfg a =? 0)) &&
  ((cfg (a + 8) / 256 mod 256 =? 0x01) && (cfg (a + 8) mod 256 =? 0x08)).

Lemma pci_address_256 bus dev func :
  0 ≤ bus < 256 → 0 ≤ dev < 32 → 0 ≤ func < 8 → pci_address bus dev func mod 256 = 0.
Proof.
  intros Hb Hd Hf. unfold pci_address. change 256 with (2 ^ 8). rewrite <- Z.land_ones by lia.
  apply Z.bits_inj'. intros i Hi. rewrite Z.land_spec, Z.bits_0, !Z.lor_spec, !Z.shiftl_spec by done.
  destruct (decide (i < 8)).
  - rewrite !Z.testbit_neg_r by lia. done.
  - rewrite (Z.ones_spec_high 8) by lia. apply andb_false_r.
Qed.

Lemma pci_functions_256 a : a ∈ pci_functions → a mod 256 = 0 ∧ 0 ≤ a.
Proof.
  unfold pci_functions. intros (bus & (dev & (func & ->%list_elem_of_singleton & Hf%elem_of_seqZ)
    %list_elem_of_bind & Hd%elem_of_seqZ)%list_elem_of_bind & Hb%elem_of_seqZ)%list_elem_of_bind.
  split; [apply pci_address_256; lia|].
  unfold pci_address. rewrite !Z.lor_nonneg. split_and!; apply Z.shiftl_nonneg; lia.
Qed.

Lemma nvme_scan_spec cfg l t :
  is_pci cfg → Forall (λ a, a mod 256 = 0 ∧ 0 ≤ a) l →
  (nvme_scan l t).1 = if existsb (taken_for_nvme cfg) l then 0 else -1.
Proof.
  intros [HL HB] Hl. revert t. induction Hl as [|a l [Ha Ha0] Hl IH]; intros t; [done|].
  cbn [nvme_scan existsb]. rewrite !run_bind. unfold trace, outl, inl. cbn [fst snd].
  rewrite HL, selected_snoc. change (0xCF8 =? 0xCF8) with true. cbn iota.
  replace (a / 4 * 4) with a by dlia. unfold taken_for_nvme at 1.
  destruct (_ || _); cbn [negb andb orb]; [apply IH|].
  rewrite !run_bind. unfold trace, outl, inb. cbn [fst snd].
  assert (E9 : Z.lor a 0x09 / 4 * 4 = a + 8).
  { replace (Z.lor a 0x09) with (a + 9); [dlia|]. apply Z.mod_divide in Ha as [q ->]; [|lia].
    rewrite Z.add_nocarry_lxor, <- Z.lxor_lor; [done| |]; change 256 with (2 ^ 8);
      rewrite <- Z.shiftl_mul_pow2 by lia; apply Z.bits_inj'; intros i Hi;
      rewrite Z.land_spec, Z.bits_0, Z.shiftl_spec by done;
      (destruct (decide (i < 8)); [by rewrite Z.testbit_neg_r by lia|]);
      rewrite (bits_above 8 9) by lia; apply andb_false_r. }
  assert (H1 : ∀ t, answer t (AskB (0xCFC + 1)) = cfg (selected t / 4 * 4) / 256 mod 256)
    by (intros t'; rewrite HB by lia; by rewrite Z.pow_1_r).
  assert (H0 : ∀ t, answer t (AskB 0xCFC) = cfg (selected t / 4 * 4) mod 256).
  { intros t'. pose proof (HB t' 0 ltac:(lia)) as E. rewrite Z.add_0_r, Z.pow_0_r, Z.div_1_r in E. exact E. }
  rewrite H1, H0, !selected_snoc. change (0xCF8 =? 0xCF8) with true. cbn iota. rewrite E9.
  destruct (_ && _); [done|]. apply IH.
Qed.

(** [nvme_detect] looks at the wrong bytes: on a bus that ignores the two lowest
    bits of the address it succeeds exactly when some function has revision 8 and
    programming interface 1, whatever its class and subclass are. *)
Theorem nvme_detect_reads_revision cfg t (Hpci : is_pci cfg) :
  (nvme_detect t).1 = if existsb (taken_for_nvme cfg) pci_functions then 0 else -1.
Proof.
  apply nvme_scan_spec; [done|]. apply Forall_forall. intros a Ha. by apply pci_functions_256.
Qed.
End Probe.

(** ** The command structures *)

Lemma load_store_ne m a n v b k :
  a + Z.of_nat n ≤ b ∨ b + Z.of_nat k ≤ a → Memory.load (Memory.store m a n v) b k = Memory.load m b k.
Proof. intros H. apply load_ext. intros c Hc. apply rd_store_out. lia. Qed.

(** Each command header points to the table of its slot. *)
Lemma set_headers_spec m num i :
  0 ≤ num < 32 → 0 ≤ i < 32 →
  Memory.load (set_headers m num) (cmd_list_addr num + 32 * i + 8) 4 = cmd_table_addr num + i * 256.
Proof.
  intros Hn Hi. unfold set_headers, AHCI_CMD_SLOT_COUNT.
  apply (for_each_rule (λ k (m : mem), ∀ i, 0 ≤ i < k →
    Memory.load m (cmd_list_addr num + 32 * i + 8) 4 = cmd_table_addr num + i * 256)
    0 32 _ m ltac:(lia)); [intros j Hj; lia| |done].
  clear i Hi. intros k m1 Hk H1 i Hi. cbv zeta. unfold AHCI_CMD_TABLE_SIZE, AHCI_PRDT_ENTRIES.
  rewrite load_store_ne by lia.
  destruct (decide (i = k)) as [->|].
  - rewrite load_store_eq, wrap_small; [done|unfold cmd_table_addr, cmd_list_addr; lia|].
    unfold wrap. pose proof (Z.mod_pos_bound (cmd_table_addr num + k * 256) (2 ^ 32)). lia.
  - rewrite !load_store_ne by lia. apply H1. lia.
Qed.

(** The structures of neighbouring ports overlap: the headers of the slots 16 to 31
    of a port point into the 4096 bytes that start with the command list of the
    next one. *)
Theorem ahci_ports_overlap m num i
    (Hn : 0 ≤ num < 31) (Hi : 16 ≤ i < 32) :
  let table := Memory.load (set_headers m num) (cmd_list_addr num + 32 * i + 8) 4 in
  cmd_list_addr (num + 1) ≤ table ∧ table + AHCI_CMD_TABLE_SIZE ≤ cmd_list_addr (num + 1) + 4096.
Proof.
  cbv zeta. rewrite set_headers_spec by lia. unfold cmd_table_addr, cmd_list_addr, AHCI_CMD_TABLE_SIZE. lia.
Qed.

Lemma ahci_ports_overlap_witness :
  Memory.load (set_headers ∅ 0) (cmd_list_addr 0 + 32 * 16 + 8) 4 = cmd_list_addr 1.
Proof.
  destruct (ahci_ports_overlap ∅ 0 16 ltac:(lia) ltac:(lia)) as [H1 H2].
  revert H1 H2. vm_compute. reflexivity.
Defined.

(** The fixed address of the controller is the default one of the I/O APIC. *)
Lemma ahci_base_is_ioapic : AHCI_BASE = Acpi.io_apic_address Acpi.AcpiInfo_new.
Proof. done. Qed.

(** A bus whose only device is an NVMe controller: class 1, subclass 8, programming
    interface 2. *)
Definition demo_cfg (a : Z) : Z :=
  if a =? pci_address 0 4 0 then 0x00010B36
  else if a =? pci_address 0 4 0 + 8 then 0x01080202
  else 0xFFFFFFFF.
Definition demo_bus : Device := λ t q,
  match q with
  | AskL _ => demo_cfg (selected t / 4 * 4)
  | AskB port => demo_cfg (selected t / 4 * 4) / 256 ^ (port - 0xCFC) mod 256
  | AskMem _ => 0
  end.

(** It is not what the search looks for. *)
Lemma nvme_detect_reads_revision_witness :
  taken_for_nvme demo_cfg (pci_address 0 4 0) = false ∧
  (nvme_detect (D := demo_bus) []).1 = if existsb (taken_for_nvme demo_cfg) pci_functions then 0 else -1.
Proof.
  split; [vm_compute; reflexivity|].
  apply (nvme_detect_reads_revision (D := demo_bus) demo_cfg []).
  split; [intros t; reflexivity|]. intros t k Hk. unfold answer, demo_bus.
  by replace (0xCFC + k - 0xCFC) with k by lia.
Defined.

End Ahci.
