(* ===== verification/User.v ===== *)
(** * User programs (user/cpp_std.cpp, user/init.cpp, user/shell.cpp)

    Module [Runtime] is the C++ runtime: the allocator behind [operator new] and the
    memory functions, on the bytes of memory.  Module [Programs] has the parts of
    the two programs that compute: the number [init] prints, and the tokenizer and
    the working directory of the user's shell. *)

From stdpp Require Import base numbers list gmap strings.
From S2P Require Import Prelude Memory Text Console Syscall.
Import Text.Text Console.Console.
Open Scope Z_scope.

Module Runtime.

(** ** Memory functions *)

Definition memcpy (m : mem) (dest src n : Z) : mem * Z :=
  (for_each 0 n (λ i m, wr m (dest + i)%usize (rd m (src + i)%usize)) m, dest).

(** The second loop counts [i] from [n] down to 1. *)
Definition memmove (m : mem) (dest src n : Z) : mem * Z :=
  (if dest <? src then for_each 0 n (λ i m, wr m (dest + i)%usize (rd m (src + i)%usize)) m
   else if src <? dest then
     for_each 0 n (λ k m, let i := n - k in
       wr m (dest + (i - 1))%usize (rd m (src + (i - 1))%usize)) m
   else m, dest).

Definition memset (m : mem) (s c n : Z) : mem * Z :=
  (for_each 0 n (λ i m, wr m (s + i)%usize (wrap 8 c)) m, s).

Definition memcmp (m : mem) (s1 s2 n : Z) : Z :=
  match
    for_loop 0 n
      (λ i (_ : unit),
         let a := rd m (s1 + i)%usize in
         let b := rd m (s2 + i)%usize in
         if negb (a =? b) then inr (a - b) else inl tt) tt
  with
  | inr d => d
  | inl _ => 0
  end.

(** [while (s[len]) len++;], at most [fuel] rounds. *)
Fixpoint strlen_from (fuel : nat) (m : mem) (s len : Z) : Z :=
  match fuel with
  | O => len
  | S fuel => if rd m (s + len)%usize =? 0 then len else strlen_from fuel m s (len + 1)
  end.
Definition strlen (fuel : nat) (m : mem) (s : Z) : Z := strlen_from fuel m s 0.

Section Copy.
Context (m : mem) (dest src n : Z).
Context (Hn : 0 ≤ n) (Hd : 0 ≤ dest) (Hd2 : dest + n ≤ 2 ^ 64) (Hs : 0 ≤ src) (Hs2 : src + n ≤ 2 ^ 64).

(** Memory with the bytes [lo .. hi) of the copy in place. *)
Definition copied (lo hi : Z) (m' : mem) : Prop :=
  ∀ a, rd m' a = if decide (dest + lo ≤ a < dest + hi) then rd m (src + (a - dest)) else rd m a.

Lemma copied_done m' : copied 0 n m' →
  ∀ a, rd m' a = if decide (dest ≤ a < dest + n) then rd m (src + (a - dest)) else rd m a.
Proof. intros H a. rewrite (H a). by rewrite Z.add_0_r. Qed.

(** Upwards is right when the destination is not inside the source behind its
    start. *)
Lemma copy_forward :
  dest ≤ src ∨ src + n ≤ dest →
  copied 0 n (for_each 0 n (λ i m, wr m (dest + i)%usize (rd m (src + i)%usize)) m).
Proof.
  intros Hov. apply (for_each_rule (λ i, copied 0 i)); [done| |].
  - intros a. by rewrite decide_False by lia.
  - intros i m1 Hi H1 a. unwrap. rewrite rd_wr. rewrite !H1.
    repeat case_decide; try done; try lia.
    subst a. f_equal. lia.
Qed.

(** Downwards is right when the source is not inside the destination behind its
    start. *)
Lemma copy_backward :
  src ≤ dest →
  copied 0 n (for_each 0 n (λ k m, let i := n - k in
    wr m (dest + (i - 1))%usize (rd m (src + (i - 1))%usize)) m).
Proof.
  intros Hov. pose proof (for_each_rule (λ k, copied (n - k) n) 0 n (λ k m, let i := n - k in
    wr m (dest + (i - 1))%usize (rd m (src + (i - 1))%usize)) m Hn) as H.
  cbv beta in H. rewrite Z.sub_diag in H. apply H; clear H.
  - intros a. by rewrite decide_False by lia.
  - intros k m1 Hk H1 a. cbv zeta. unwrap. rewrite rd_wr. rewrite !H1.
    repeat case_decide; try done; try lia.
    subst a. f_equal. lia.
Qed.
End Copy.

(** [memmove] copies the source as it was before the call, however the two ranges
    overlap, and changes nothing else. *)
Theorem memmove_correct m dest src n a
    (Hn : 0 ≤ n) (Hd : 0 ≤ dest) (Hd2 : dest + n ≤ 2 ^ 64) (Hs : 0 ≤ src) (Hs2 : src + n ≤ 2 ^ 64) :
  rd (memmove m dest src n).1 a =
    (if decide (dest ≤ a < dest + n) then rd m (src + (a - dest)) else rd m a) ∧
  (memmove m dest src n).2 = dest.
Proof.
  split; [|done]. unfold memmove. cbn [fst].
  destruct (dest <? src) eqn:E1; break_cmp.
  { apply (copied_done m dest src n), copy_forward; lia. }
  destruct (src <? dest) eqn:E2; break_cmp.
  { apply (copied_done m dest src n), copy_backward; lia. }
  assert (src = dest) as -> by lia. case_decide; [f_equal; lia|done].
Qed.

Lemma memmove_correct_witness :
  let m := wr (wr (wr ∅ 10 1) 11 2) 12 3 in
  rd (memmove m 11 10 3).1 12 = 2 ∧ rd (memmove m 11 10 3).1 13 = 3.
Proof.
  split.
  - destruct (memmove_correct (wr (wr (wr ∅ 10 1) 11 2) 12 3) 11 10 3 12) as [H _]; [lia..|].
    rewrite H. reflexivity.
  - destruct (memmove_correct (wr (wr (wr ∅ 10 1) 11 2) 12 3) 11 10 3 13) as [H _]; [lia..|].
    rewrite H. reflexivity.
Defined.

(** [memcpy] does so when the destination does not start inside the source. *)
Lemma memcpy_correct m dest src n a :
  0 ≤ n → 0 ≤ dest → dest + n ≤ 2 ^ 64 → 0 ≤ src → src + n ≤ 2 ^ 64 →
  dest ≤ src ∨ src + n ≤ dest →
  rd (memcpy m dest src n).1 a =
    if decide (dest ≤ a < dest + n) then rd m (src + (a - dest)) else rd m a.
Proof. intros. by apply (copied_done m dest src n), copy_forward. Qed.

Lemma memset_correct m s c n a :
  0 ≤ n → 0 ≤ s → s + n ≤ 2 ^ 64 →
  rd (memset m s c n).1 a = if decide (s ≤ a < s + n) then wrap 8 c else rd m a.
Proof.
  intros Hn Hs He. unfold memset. cbn [fst].
  apply (for_each_rule (λ i m', rd m' a = if decide (s ≤ a < s + i) then wrap 8 c else rd m a)
    0 n _ m Hn); [by rewrite decide_False by lia|].
  intros i m1 Hi H1. unwrap. rewrite rd_wr, H1. repeat case_decide; done || lia.
Qed.

(** [memcmp] is zero exactly for equal ranges, and else the difference at the first
    byte that differs. *)
Lemma memcmp_correct m s1 s2 n :
  0 ≤ n → 0 ≤ s1 → s1 + n ≤ 2 ^ 64 → 0 ≤ s2 → s2 + n ≤ 2 ^ 64 →
  (memcmp m s1 s2 n = 0 ∧ ∀ i, 0 ≤ i < n → rd m (s1 + i) = rd m (s2 + i)) ∨
  (∃ i, 0 ≤ i < n ∧ memcmp m s1 s2 n = rd m (s1 + i) - rd m (s2 + i) ∧
     rd m (s1 + i) ≠ rd m (s2 + i) ∧ ∀ j, 0 ≤ j < i → rd m (s1 + j) = rd m (s2 + j)).
Proof.
  intros Hn H1 H1' H2 H2'. unfold memcmp.
  loop_inv (λ i (_ : unit), ∀ j, 0 ≤ j < i → rd m (s1 + j) = rd m (s2 + j))
    (λ d, ∃ i, 0 ≤ i < n ∧ d = rd m (s1 + i) - rd m (s2 + i) ∧
       rd m (s1 + i) ≠ rd m (s2 + i) ∧ ∀ j, 0 ≤ j < i → rd m (s1 + j) = rd m (s2 + j));
    [intros H|done|lia|].
  - destruct (for_loop _ _ _ _) as [[]|d]; [by left|by right].
  - intros i [] Hi Hj. unwrap. destruct (rd m (s1 + i) =? rd m (s2 + i)) eqn:E; break_cmp; cbn [negb].
    + intros j Hj'. destruct (decide (j = i)) as [->|]; [done|]. apply Hj. lia.
    + by exists i.
Qed.

(** ** Strings *)

(** A string of nonzero bytes with its terminator. *)
Definition cstring (m : mem) (a : Z) (s : list Z) : Prop :=
  bytes_at m a (s ++ [0]) ∧ Forall (λ c, c ≠ 0) s.

Lemma strlen_from_spec fuel m a s len :
  (length s < fuel)%nat → 0 ≤ a → 0 ≤ len → a + len + Z.of_nat (length s) < 2 ^ 64 →
  cstring m (a + len) s → strlen_from fuel m a len = len + Z.of_nat (length s).
Proof.
  revert len s. induction fuel as [|fuel IH]; intros len s Hf Ha Hl He [Hb Hnz]; [lia|].
  cbn [strlen_from]. unwrap. destruct s as [|c s]; cbn [app length] in *.
  - destruct Hb as [-> _]. simpl. lia.
  - destruct Hb as [-> Hb]. apply Forall_cons in Hnz as [Hc Hnz]. rewrite (proj2 (Z.eqb_neq c 0)) by done.
    rewrite (IH (len + 1) s); [lia|lia|done|lia|lia|]. split; [|done].
    by replace (a + (len + 1)) with (a + len + 1) by lia.
Qed.

Lemma strlen_spec fuel m a s :
  (length s < fuel)%nat → 0 ≤ a → a + Z.of_nat (length s) < 2 ^ 64 → cstring m a s →
  strlen fuel m a = Z.of_nat (length s).
Proof. intros. unfold strlen. rewrite (strlen_from_spec fuel m a s) by (rewrite ?Z.add_0_r; done || lia). lia. Qed.

(** ** The allocator *)

Record Heap := mkHeap {
  g_heap_current : Z;
  g_heap_end : Z
}.

Definition g_heap_start : Z := 0x500000.
Definition heap_init : Heap := mkHeap 0x500000 0x800000.

Section New.
(** What the system call [SYS_MMAP] with an address and a length returns. *)
Context (mmap : Z → Z → Z).

(** Both forms end the same way: [ptr] is returned, [total] bytes are taken and
    [cleared] of them, from [ptr] on, are zero. *)
Definition take_bytes (m : mem) (h : Heap) (ptr total cleared : Z) : mem * Heap * Z :=
  let grow (h : Heap) :=
    (write_zeros m ptr cleared, mkHeap (g_heap_current h + total)%usize (g_heap_end h), ptr) in
  if g_heap_end h <? (g_heap_current h + total)%usize then
    if 0 <=? mmap (g_heap_end h) total
    then grow (mkHeap (g_heap_current h) (g_heap_end h + total)%usize)
    else (m, h, 0)
  else grow h.

Definition operator_new (m : mem) (h : Heap) (size : Z) : mem * Heap * Z :=
  let size := if size =? 0 then 1 else size in
  let size := Z.land (size + 15)%usize (usize_not 15) in
  take_bytes m h (g_heap_current h) size size.

Definition operator_new_aligned (m : mem) (h : Heap) (size alignment : Z) : mem * Heap * Z :=
  let size := if size =? 0 then 1 else size in
  let aligned := Z.land (g_heap_current h + alignment - 1)%usize (usize_not (alignment - 1)) in
  let padding := (aligned - g_heap_current h)%usize in
  let total := (padding + size)%usize in
  let total := Z.land (total + 15)%usize (usize_not 15) in
  take_bytes m h aligned total size.

(** [operator delete] does nothing. *)
Definition operator_delete (h : Heap) (ptr : Z) : Heap := h.

(** A request: a size, and the alignment for the second form. *)
Definition request (m : mem) (h : Heap) (r : Z * option Z) : mem * Heap * Z :=
  match r.2 with
  | None => operator_new m h r.1
  | Some a => operator_new_aligned m h r.1 a
  end.

(** The blocks given out for a sequence of requests; a null pointer is none. *)
Fixpoint requests (m : mem) (h : Heap) (rs : list (Z * option Z)) : mem * Heap * list (Z * Z) :=
  match rs with
  | [] => (m, h, [])
  | r :: rs =>
      let '(m, h, ptr) := request m h r in
      let '(m, h, l) := requests m h rs in
      (m, h, if ptr =? 0 then l else (ptr, r.1) :: l)
  end.

(** Sizes and alignments the arithmetic is meant for. *)
Definition reasonable (r : Z * option Z) : Prop :=
  0 ≤ r.1 < 2 ^ 40 ∧ match r.2 with None => True | Some a => ∃ k, a = 2 ^ k ∧ 0 ≤ k ≤ 30 end.

Definition heap_ok (h : Heap) : Prop :=
  g_heap_start ≤ g_heap_current h ≤ g_heap_end h ∧ g_heap_end h = 0x800000 ∧
  g_heap_current h mod 16 = 0.

(** The kernel does not implement the call. *)
Context (Hmmap : ∀ a n, mmap a n < 0).

Lemma take_bytes_spec m h ptr total cleared m' h' p :
  heap_ok h → 0 < total < 2 ^ 42 → total mod 16 = 0 →
  take_bytes m h ptr total cleared = (m', h', p) →
  (p = 0 ∧ h' = h ∧ m' = m) ∨
  (p = ptr ∧ g_heap_current h' = g_heap_current h + total ∧ heap_ok h' ∧ m' = write_zeros m ptr cleared).
Proof.
  intros (Hc & He & Hm) Ht Hm' E. unfold take_bytes in E.
  rewrite (usize_small (g_heap_current h + total)) in E by (unfold g_heap_start in *; lia).
  destruct (g_heap_end h <? g_heap_current h + total) eqn:El; break_cmp.
  - rewrite (proj2 (Z.leb_gt 0 _)) in E by apply Hmmap. injection E as <- <- <-. by left.
  - injection E as <- <- <-. right. split; [done|]. split; [done|]. split; [|done].
    unfold heap_ok. cbn [g_heap_current g_heap_end]. split_and!; [lia|lia|done|].
    rewrite Z.add_mod, Hm, Hm' by lia. done.
Qed.

Lemma round16 x : 0 ≤ x < 2 ^ 62 →
  x ≤ Z.land (x + 15)%usize (usize_not 15) < x + 16 ∧ Z.land (x + 15)%usize (usize_not 15) mod 16 = 0.
Proof.
  intros Hx. rewrite usize_small by lia. change (usize_not 15) with (usize_not (2 ^ 4 - 1)).
  rewrite mask_round by lia. change (2 ^ 4) with 16. split; [dlia|]. apply Z.mod_mul. lia.
Qed.

(** One request gives a block above everything given out before, or nothing. *)
Lemma request_spec m h r m' h' p :
  heap_ok h → reasonable r → request m h r = (m', h', p) →
  heap_ok h' ∧ g_heap_current h ≤ g_heap_current h' ∧
  (p = 0 ∧ m' = m ∨
   g_heap_current h ≤ p ∧ p + r.1 ≤ g_heap_current h' ∧
   p mod (default 16 r.2) = 0 ∧ (∀ a, p ≤ a < p + r.1 → rd m' a = 0) ∧
   ∀ a, a < g_heap_current h → rd m' a = rd m a).
Proof.
  intros Hok [Hsz Hal] E. pose proof Hok as (Hc & He & Hm). unfold g_heap_start in Hc.
  unfold request in E. destruct r as [sz [al|]]; cbn [fst snd default] in *.
  - destruct Hal as (k & -> & Hk). unfold operator_new_aligned in E.
    set (size := if sz =? 0 then 1 else sz) in E.
    assert (Hsize : 0 < size < 2 ^ 40 ∧ sz ≤ size) by (unfold size; case_if; lia). clearbody size.
    assert (Hpow : 0 < 2 ^ k ≤ 2 ^ 30) by (split; [apply Z.pow_pos_nonneg; lia|apply Z.pow_le_mono_r; lia]).
    rewrite (usize_small (g_heap_current h + 2 ^ k - 1)), mask_round in E by lia.
    set (al := (g_heap_current h + 2 ^ k - 1) / 2 ^ k * 2 ^ k) in E.
    assert (Hal : g_heap_current h ≤ al < g_heap_current h + 2 ^ k ∧ al mod 2 ^ k = 0).
    { unfold al. split; [|apply Z.mod_mul; lia].
      pose proof (Z.div_mod (g_heap_current h + 2 ^ k - 1) (2 ^ k)).
      pose proof (Z.mod_pos_bound (g_heap_current h + 2 ^ k - 1) (2 ^ k)). lia. }
    clearbody al. rewrite (usize_small (al - _)), (usize_small (al - _ + size)) in E by lia.
    destruct (round16 (al - g_heap_current h + size)) as [Hr Hr16]; [lia|].
    apply take_bytes_spec in E; [|done|lia|done].
    destruct E as [(-> & -> & ->)|(-> & Hcur & Hok' & ->)]; [split; [done|]; split; [lia|]; by left|].
    split; [done|]. split; [lia|]. right. split_and!; [lia|lia|apply Hal| |].
    + intros a Ha. apply rd_write_zeros_in. lia.
    + intros a Ha. apply rd_write_zeros_out. lia.
  - unfold operator_new in E. set (size := if sz =? 0 then 1 else sz) in E.
    assert (Hsize : 0 < size < 2 ^ 40 ∧ sz ≤ size) by (unfold size; case_if; lia). clearbody size.
    destruct (round16 size) as [Hr Hr16]; [lia|].
    apply take_bytes_spec in E; [|done|lia|done].
    destruct E as [(-> & -> & ->)|(-> & Hcur & Hok' & ->)]; [split; [done|]; split; [lia|]; by left|].
    split; [done|]. split; [lia|]. right. split_and!; [lia|lia|done| |].
    + intros a Ha. apply rd_write_zeros_in. lia.
    + intros a Ha. apply rd_write_zeros_out. lia.
Qed.

Lemma requests_above m h rs m' h' l :
  heap_ok h → Forall reasonable rs → requests m h rs = (m', h', l) →
  Forall (λ b, g_heap_current h ≤ b.1 ∧ b.1 + b.2 ≤ 0x800000) l ∧ disjoint_list l.
Proof.
  intros Hok Hrs. revert m h l Hok. induction Hrs as [|r rs Hr Hrs IH]; intros m h l Hok E.
  { injection E as <- <- <-. split; [apply Forall_nil_2|done]. }
  cbn [requests] in E. destruct (request m h r) as [[m1 h1] p] eqn:E1.
  destruct (requests m1 h1 rs) as [[m2 h2] l2] eqn:E2. injection E as <- <- <-.
  apply request_spec in E1 as (Hok1 & Hle & Hp); [|done..].
  destruct (IH m1 h1 l2 Hok1 E2) as [Hl Hd].
  assert (Hl' : Forall (λ b, g_heap_current h ≤ b.1 ∧ b.1 + b.2 ≤ 0x800000) l2)
    by (eapply Forall_impl; [exact Hl|]; intros b [? ?]; lia).
  destruct (p =? 0) eqn:E0; break_cmp; [by split|]. destruct Hp as [[? _]|(Hp1 & Hp2 & _)]; [done|].
  pose proof Hok1 as (Hc1 & He1 & _). split; [apply Forall_cons_2; [cbn; lia|done]|]. split; [|done].
  eapply Forall_impl; [exact Hl|]. intros b [Hb _]. left. cbn. lia.
Qed.

End New.

(** The blocks [operator new] gives out under this kernel are disjoint and inside
    the heap, for every sequence of requests; those that do not fit are answered with
    a null pointer. *)
Theorem new_blocks_disjoint mmap m rs
    (Hmmap : ∀ a n, mmap a n < 0) (Hrs : Forall reasonable rs) :
  let l := (requests mmap m heap_init rs).2 in
  disjoint_list l ∧ Forall (λ b, g_heap_start ≤ b.1 ∧ b.1 + b.2 ≤ 0x800000) l.
Proof.
  destruct (requests mmap m heap_init rs) as [[m' h'] l] eqn:E.
  apply requests_above in E as [H1 H2]; [|done|done|done]. done.
Qed.

Lemma new_blocks_disjoint_witness :
  (requests (λ _ _, -5) ∅ heap_init [(10, None); (0, None); (100, Some 64); (0x400000, None); (8, None)]).2 =
    [(0x500000, 10); (0x500010, 0); (0x500040, 100); (0x5000B0, 8)] ∧
  disjoint_list [(0x500000, 10); (0x500010, 0); (0x500040, 100); (0x5000B0, 8)].
Proof.
  assert (E : (requests (λ _ _, -5) ∅ heap_init
    [(10, None); (0, None); (100, Some 64); (0x400000, None); (8, None)]).2 =
    [(0x500000, 10); (0x500010, 0); (0x500040, 100); (0x5000B0, 8)]) by (vm_compute; reflexivity).
  split; [exact E|]. rewrite <- E. apply (new_blocks_disjoint (λ _ _, -5)).
  - intros _ _. lia.
  - repeat (apply Forall_cons_2; [split; [cbn; lia|cbn; first [exact I|exists 6; lia]]|]). apply Forall_nil_2.
Defined.

(** The kernel answers [SYS_MMAP] with -5, whatever its arguments. *)
Lemma mmap_not_implemented m c a n : Syscall.rust_syscall_handler m c 30 a n 3 0 = Returns (c, -5).
Proof. done. Qed.

(** The heap is where the kernel has its page bitmap and its page tables. *)
Lemma user_heap_is_kernel_memory :
  g_heap_start = PMM_BITMAP_BASE ∧ g_heap_end heap_init = VMM_PAGES_BASE + VMM_PAGES_SIZE.
Proof. done. Qed.

End Runtime.

Module Programs.
Import Runtime.

(** ** The number [init] prints *)

(** [while (pid > 0 && i >= 0) { pid_str[i--] = '0' + pid % 10; pid /= 10; }] on the
    16 bytes of the buffer; the result has the last [i]. *)
Fixpoint pid_digits (fuel : nat) (buf : list Z) (pid i : Z) : list Z * Z :=
  match fuel with
  | O => (buf, i)
  | S fuel =>
      if (0 <? pid) && (0 <=? i)
      then pid_digits fuel (<[Z.to_nat i := 48 + pid mod 10]> buf) (pid / 10) (i - 1)
      else (buf, i)
  end.

(** The loop that moves the digits to the front. *)
Definition shift_digits (buf : list Z) (shift : Z) : list Z :=
  for_each 0 (14 - shift)
    (λ j buf,
       let buf := <[Z.to_nat j := nth (Z.to_nat (j + shift)) buf 0]> buf in
       <[Z.to_nat (j + shift) := 0]> buf) buf.

(** The buffer after the block of [init_main]: at most 15 digits are written. *)
Definition init_pid_str (pid : Z) : list Z :=
  let buf := replicate 16 0 in
  if pid =? 0 then <[0%nat := 48]> buf
  else let '(buf, i) := pid_digits 16 buf pid 14 in shift_digits buf (i + 1).

(** What [println] shows of a buffer: the bytes before the first zero. *)
Fixpoint c_text (buf : list Z) : list Z :=
  match buf with
  | [] => []
  | b :: buf => if b =? 0 then [] else b :: c_text buf
  end.

(** ** The tokenizer of the user's shell *)

Definition is_blank (c : Z) : bool := (c =? 32) || (c =? 9).

Fixpoint skip_blanks (fuel : nat) (m : mem) (line : Z) : Z :=
  match fuel with
  | O => line
  | S fuel => if is_blank (rd m line) then skip_blanks fuel m (line + 1) else line
  end.

Fixpoint skip_word (fuel : nat) (m : mem) (line : Z) : Z :=
  match fuel with
  | O => line
  | S fuel =>
      if negb (rd m line =? 0) && negb (is_blank (rd m line))
      then skip_word fuel m (line + 1) else line
  end.

(** The outer loop with room for [n] more tokens. *)
Fixpoint tokenize_loop (n fuel : nat) (m : mem) (line : Z) : mem * list Z :=
  match n with
  | O => (m, [])
  | S n =>
      if rd m line =? 0 then (m, [])
      else
        let token := line in
        let line := skip_word fuel m line in
        let '(m, line) :=
          if rd m line =? 0 then (m, line)
          else let m := wr m line 0 in (m, skip_blanks fuel m (line + 1)) in
        let '(m, tokens) := tokenize_loop n fuel m line in
        (m, token :: tokens)
  end.

Definition tokenize (fuel : nat) (m : mem) (line : Z) : mem * list Z :=
  tokenize_loop 16 fuel m (skip_blanks fuel m line).

(** ** The working directory *)

(** The bytes of [src], the terminator included, go to [d]. *)
Fixpoint strcpy (fuel : nat) (m : mem) (d src : Z) : mem :=
  match fuel with
  | O => m
  | S fuel =>
      let b := rd m src in
      let m := wr m d b in
      if b =? 0 then m else strcpy fuel m (d + 1) (src + 1)
  end.

Definition strcat (fuel : nat) (m : mem) (dst src : Z) : mem :=
  strcpy fuel m (dst + strlen fuel m dst) src.

(** [char] is signed. *)
Fixpoint strcmp (fuel : nat) (m : mem) (a b : Z) : Z :=
  match fuel with
  | O => 0
  | S fuel =>
      if negb (rd m a =? 0) && negb (rd m b =? 0) && (rd m a =? rd m b)
      then strcmp fuel m (a + 1) (b + 1)
      else swrap 8 (rd m a) - swrap 8 (rd m b)
  end.

Definition CWD_SIZE : Z := 512.

(** [g_cwd] is the address of the buffer, [slash] that of the literal. *)
Definition cmd_cd (fuel : nat) (m : mem) (g_cwd slash : Z) (args : list Z) : mem :=
  match args with
  | _ :: path :: _ =>
      if rd m path =? 47 then
        if strlen fuel m path <? CWD_SIZE then strcpy fuel m g_cwd path else m
      else if strlen fuel m g_cwd + strlen fuel m path + 2 <? CWD_SIZE then
        let m := if negb (strcmp fuel m g_cwd slash =? 0) then strcat fuel m g_cwd slash else m in
        strcat fuel m g_cwd path
      else m
  | _ => strcpy fuel m g_cwd slash
  end.

(** ** Reading a line *)

Definition read_line (fuel : nat) (m : mem) (c : Console) (buffer max_len : Z)
    : flow (mem * Console) :=
  match Syscall.rust_syscall_handler m c 101 buffer max_len 0 0 with
  | Returns (c, bytes) =>
      if bytes <? 0 then Returns (wr m buffer 0, c)
      else
        let len := strlen fuel m buffer in
        Returns (if (0 <? len) && (rd m (buffer + (len - 1)) =? 10)
                 then wr m (buffer + (len - 1)) 0 else m, c)
  | Halts => Halts
  | Panics => Panics
  end.

(** ** Digits *)

Lemma digits_value_pos d ds :
  0 < d → Forall (λ x, 0 ≤ x < 10) ds → 0 < digits_value 10 (d :: ds).
Proof.
  intros Hd. induction ds as [|x ds IH] using rev_ind; intros Hf; [unfold digits_value; cbn; lia|].
  apply Forall_app in Hf as [Hf [Hx _]%Forall_cons].
  rewrite (app_comm_cons ds [x] d), digits_value_snoc. specialize (IH Hf). lia.
Qed.

(** The digits go into the buffer from the right. *)
Lemma pid_digits_spec ds k tail fuel :
  (length ds < fuel)%nat → Forall (λ x, 0 ≤ x < 10) ds → (∀ d ds', ds = d :: ds' → 0 < d) →
  pid_digits fuel (replicate (k + length ds) 0 ++ tail) (digits_value 10 ds)
    (Z.of_nat (k + length ds) - 1) =
  (replicate k 0 ++ (digit_char <$> ds) ++ tail, Z.of_nat k - 1).
Proof.
  revert tail fuel. induction ds as [|x ds IH] using rev_ind; intros tail fuel Hfu Hf Hh.
  { destruct fuel as [|fuel]; [cbn in Hfu; lia|]. rewrite Nat.add_0_r. done. }
  rewrite length_app in Hfu |- *. cbn [length] in *. destruct fuel as [|fuel]; [lia|].
  apply Forall_app in Hf as [Hf [Hx _]%Forall_cons].
  assert (Hpos : 0 < digits_value 10 (ds ++ [x])).
  { destruct ds as [|d ds]; [apply digits_value_pos; [by eapply Hh|done]|].
    cbn [app]. apply digits_value_pos; [by eapply Hh|]. apply Forall_cons in Hf as [_ Hf].
    apply Forall_app_2; [done|]. by apply Forall_cons_2. }
  cbn [pid_digits]. rewrite (proj2 (Z.ltb_lt 0 _)), (proj2 (Z.leb_le 0 _)) by lia. cbn [andb].
  rewrite digits_value_snoc. rewrite (Z.add_comm _ x), Z.mod_add, Z.div_add by lia.
  rewrite (Z.mod_small x), (Z.div_small x) by lia. rewrite Z.add_0_l.
  replace (Z.to_nat (Z.of_nat (k + (length ds + 1)) - 1)) with (k + length ds)%nat by lia.
  replace (k + (length ds + 1))%nat with (k + length ds + 1)%nat by lia.
  rewrite replicate_add, <- app_assoc. cbn [replicate app].
  rewrite insert_app_r_alt by (rewrite length_replicate; lia).
  rewrite length_replicate, Nat.sub_diag. cbn.
  replace (Z.of_nat (k + length ds + 1) - 1 - 1) with (Z.of_nat (k + length ds) - 1) by lia.
  rewrite IH; [|lia|done|].
  - rewrite fmap_app, <- app_assoc. 
    assert (digit_char x = 48 + x) as Hdx by (unfold digit_char; by rewrite (proj2 (Z.ltb_lt x 10)) by lia).
    by rewrite list_fmap_singleton, Hdx.
  - intros d ds' ->. by eapply Hh.
Qed.

(** Of [n] digits the loop moves [n - 1]. *)
Lemma shift_digits_spec ds :
  (1 ≤ length ds ≤ 14)%nat →
  ∃ r, shift_digits (replicate (15 - length ds) 0 ++ ds ++ [0]) (Z.of_nat (15 - length ds)) =
       removelast ds ++ 0 :: r.
Proof.
  intros Hl.
  do 15 (destruct ds as [|? ds]; [first [cbn in Hl; lia|eexists; vm_compute; reflexivity]|]).
  cbn [length] in Hl. lia.
Qed.

Lemma c_text_stop l r : Forall (λ c, c ≠ 0) l → c_text (l ++ 0 :: r) = l.
Proof.
  induction 1 as [|c l Hc Hl IH]; [done|]. cbn. rewrite (proj2 (Z.eqb_neq c 0)) by done. by rewrite IH.
Qed.

Lemma radix_digits_length fuel n k :
  0 ≤ n < 10 ^ Z.of_nat (S k) → (length (radix_digits fuel 10 n) ≤ S k)%nat.
Proof.
  revert n k. induction fuel as [|fuel IH]; intros n k Hn; cbn [radix_digits]; [cbn; lia|].
  case_if; [cbn; lia|]. destruct k as [|k]; [cbn in Hn; lia|].
  rewrite length_app. cbn [length]. enough (length (radix_digits fuel 10 (n / 10)) ≤ S k)%nat by lia.
  apply IH. rewrite (Nat2Z.inj_succ (S k)), Z.pow_succ_r in Hn by lia.
  split; [apply Z.div_pos; lia|]. apply Z.div_lt_upper_bound; lia.
Qed.

(** The buffer with the digits of a number, before they are moved. *)
Lemma pid_buffer pid :
  0 < pid < 10 ^ 14 →
  let ds := fmt_dec pid in
  (1 ≤ length ds ≤ 14)%nat ∧ Forall (λ c, c ≠ 0) ds ∧
  pid_digits 16 (replicate 16 0) pid 14 =
  (replicate (15 - length ds) 0 ++ ds ++ [0], Z.of_nat (15 - length ds) - 1).
Proof.
  intros Hpid. assert (H64 : 0 ≤ pid < 10 ^ Z.of_nat 64) by lia.
  pose proof (radix_digits_range 64 10 pid ltac:(lia) ltac:(lia)) as Hr.
  pose proof (radix_digits_length 64 pid 13 ltac:(lia)) as Hlen.
  pose proof (radix_digits_ne 63 10 pid) as Hne.
  pose proof (radix_digits_value 64 10 pid ltac:(lia) H64) as Hv.
  destruct (radix_digits_head 64 10 pid ltac:(lia) H64) as [(? & _)|[(? & _)|(d & ds' & Hd & Hd0)]]; [lia..|].
  unfold fmt_dec, fmt_radix.
  assert (Hh : ∀ x xs, radix_digits 64 10 pid = x :: xs → 0 < x) by (intros x xs E; rewrite Hd in E; injection E as <- <-; lia).
  clear Hd Hd0. set (ds := radix_digits 64 10 pid) in *. clearbody ds. cbn zeta. rewrite !length_fmap.
  assert (Hl1 : (1 ≤ length ds)%nat) by (destruct ds; [done|cbn; lia]). split; [lia|]. split.
  - apply Forall_fmap. eapply Forall_impl; [exact Hr|]. intros x Hx. cbv beta in Hx. unfold compose, digit_char. case_if; lia.
  - pose proof (pid_digits_spec ds (15 - length ds) [0] 16 ltac:(lia) Hr Hh) as E.
    rewrite Hv in E. by replace (15 - length ds + length ds)%nat with 15%nat in E by lia.
Qed.

(** What [init] prints for its process id is the number without its last digit. *)
Theorem init_pid_drops_digit pid (Hpid : 0 < pid < 10 ^ 14) :
  c_text (init_pid_str pid) = removelast (fmt_dec pid).
Proof.
  destruct (pid_buffer pid Hpid) as (Hl & Hz & E). unfold init_pid_str.
  rewrite (proj2 (Z.eqb_neq pid 0)), E by lia. destruct (shift_digits_spec (fmt_dec pid) Hl) as [r Es].
  rewrite Z.sub_add, Es. apply c_text_stop. revert Hz.
  destruct (fmt_dec pid) as [|y l] using rev_ind; [done|]. rewrite removelast_last. by intros [? _]%Forall_app.
Qed.

(** With the process id the kernel gives every caller nothing is printed. *)
Lemma init_pid_drops_digit_witness :
  c_text (init_pid_str 4207) = str "420" ∧
  (∀ m c, Syscall.rust_syscall_handler m c 23 0 0 0 0 = Returns (c, 1)) ∧
  c_text (init_pid_str 1) = [].
Proof.
  split; [rewrite (init_pid_drops_digit 4207) by lia; reflexivity|]. split; [done|].
  rewrite (init_pid_drops_digit 1) by lia. reflexivity.
Defined.

(** ** Tokens *)

(** The words of a line: the blanks are spaces and tabs. *)
Definition words (s : list Z) : list (list Z) :=
  split_nonempty 32 ((λ c, if is_blank c then 32 else c) <$> s).

Definition no_blank (w : list Z) : Prop := Forall (λ c, is_blank c = false) w.

Lemma words_blank b s : is_blank b = true → words (b :: s) = words s.
Proof. intros Hb. unfold words, split_nonempty. cbn. rewrite Hb. done. Qed.

Lemma no_blank_id w : no_blank w → ((λ c, if is_blank c then 32 else c) <$> w) = w ∧ 32 ∉ w.
Proof.
  induction 1 as [|c w Hc Hw [IH1 IH2]]; [split; [done|apply not_elem_of_nil]|].
  split; [rewrite fmap_cons, Hc; by f_equal|]. apply not_elem_of_cons. split; [|done].
  intros <-. done.
Qed.

Lemma words_last w : no_blank w → w ≠ [] → words w = [w].
Proof.
  intros [Hid Hn]%no_blank_id Hne. unfold words, split_nonempty. rewrite Hid, split_at_word by done.
  rewrite filter_cons, decide_True by done. done.
Qed.

Lemma words_word w b s : no_blank w → w ≠ [] → is_blank b = true → words (w ++ b :: s) = w :: words s.
Proof.
  intros [Hid Hn]%no_blank_id Hne Hb. unfold words, split_nonempty.
  rewrite fmap_app, fmap_cons, Hid, Hb, split_at_cons by done. by rewrite filter_cons, decide_True.
Qed.

(** A line is its first word, then nothing or a blank. *)
Lemma first_word s :
  ∃ w r, s = w ++ r ∧ no_blank w ∧ match r with [] => True | b :: _ => is_blank b = true end.
Proof.
  induction s as [|c s (w & r & -> & Hw & Hr)]; [exists [], []; split_and!; [done|by apply Forall_nil_2|done]|].
  destruct (is_blank c) eqn:E; [exists [], (c :: w ++ r); split_and!; [done|by apply Forall_nil_2|done]|].
  exists (c :: w), r. split; [done|]. split; [by apply Forall_cons_2|done].
Qed.

Lemma words_forall (P : Z → Prop) s : Forall P s → Forall (Forall P) (words s).
Proof.
  remember (length s) as n eqn:En. revert s En.
  induction n as [n IH] using lt_wf_ind. intros s -> Hs.
  destruct (first_word s) as (w & r & -> & Hw & Hr). apply Forall_app in Hs as [Hsw Hsr].
  destruct w as [|x w], r as [|b r].
  - by apply Forall_nil_2.
  - cbn [app] in *. rewrite words_blank by done. apply Forall_cons in Hsr as [_ Hsr]. by apply (IH (length r)); [cbn; lia|..].
  - rewrite app_nil_r, words_last by done. by apply Forall_cons_2; [|apply Forall_nil_2].
  - rewrite words_word by done. apply Forall_cons_2; [done|]. apply Forall_cons in Hsr as [_ Hsr].
    apply (IH (length r)); [rewrite length_app; cbn; lia|done..].
Qed.

Lemma cstring_app m a w r : cstring m a (w ++ r) → cstring m (a + Z.of_nat (length w)) r.
Proof.
  intros [Hb Hn]. rewrite <- app_assoc in Hb. apply bytes_at_app in Hb as [_ Hb].
  apply Forall_app in Hn as [_ Hn]. done.
Qed.

Lemma bytes_at_frame m m' a l :
  (∀ b, a ≤ b < a + Z.of_nat (length l) → rd m' b = rd m b) → bytes_at m a l → bytes_at m' a l.
Proof.
  revert a. induction l as [|x l IH]; intros a Hf H; [done|]. destruct H as [H1 H2]. cbn [length] in Hf.
  split; [rewrite Hf by lia; done|]. apply IH; [|done]. intros b Hb. apply Hf. lia.
Qed.

Lemma cstring_frame m m' a s :
  (∀ b, a ≤ b < a + Z.of_nat (length s) + 1 → rd m' b = rd m b) → cstring m a s → cstring m' a s.
Proof.
  intros Hf [Hb Hn]. split; [|done]. eapply bytes_at_frame; [|exact Hb].
  intros b Hr. apply Hf. rewrite length_app in Hr. cbn in Hr. lia.
Qed.

Lemma cstring_head m a s : cstring m a s → rd m a = match s with [] => 0 | c :: _ => c end.
Proof. intros [Hb _]. destruct s; by destruct Hb. Qed.

Lemma cstring_zero m a s : cstring m a s → (rd m a =? 0) = match s with [] => true | _ => false end.
Proof.
  intros H. rewrite (cstring_head _ _ _ H). destruct s as [|c s]; [done|].
  destruct H as [_ [Hc _]%Forall_cons]. by apply Z.eqb_neq.
Qed.

Lemma skip_word_spec fuel m a w r :
  (length w < fuel)%nat → cstring m a (w ++ r) → no_blank w →
  match r with [] => True | b :: _ => is_blank b = true end →
  skip_word fuel m a = a + Z.of_nat (length w).
Proof.
  revert a w. induction fuel as [|fuel IH]; intros a w Hf Hs Hw Hr; [lia|]. cbn [skip_word].
  rewrite (cstring_zero _ _ _ Hs), (cstring_head _ _ _ Hs).
  destruct w as [|c w]; cbn [app length] in *.
  - rewrite Z.add_0_r. destruct r as [|b r]; [done|]. by rewrite Hr.
  - apply Forall_cons in Hw as [Hc Hw]. rewrite Hc. cbn. rewrite (IH (a + 1) w); [lia|lia| |done|done].
    apply (cstring_app m a [c] (w ++ r) Hs).
Qed.

(** Skipping blanks keeps the words. *)
Lemma skip_blanks_spec fuel m a s :
  (length s < fuel)%nat → cstring m a s →
  ∃ k s', skip_blanks fuel m a = a + k ∧ 0 ≤ k ∧ k + Z.of_nat (length s') = Z.of_nat (length s) ∧
          cstring m (a + k) s' ∧ words s' = words s ∧
          match s' with [] => True | c :: _ => is_blank c = false end.
Proof.
  revert a s. induction fuel as [|fuel IH]; intros a s Hf Hs; [lia|]. cbn [skip_blanks].
  rewrite (cstring_head _ _ _ Hs). destruct s as [|c s].
  { exists 0, []. rewrite Z.add_0_r. done. }
  destruct (is_blank c) eqn:E.
  - destruct (IH (a + 1) s) as (k & s' & -> & Hk & Hl & Hs' & Hw & Hh);
      [cbn in Hf; lia|apply (cstring_app m a [c] s Hs)|].
    exists (1 + k), s'. rewrite Z.add_assoc. cbn [length]. rewrite words_blank by done. split_and!; done || lia.
  - exists 0, (c :: s). rewrite Z.add_0_r. split_and!; done || lia.
Qed.

(** A token of the line of [n] bytes at [a]. *)
Definition token_in (m : mem) (a n t : Z) (w : list Z) : Prop :=
  cstring m t w ∧ a ≤ t ∧ t + Z.of_nat (length w) ≤ a + n.

Lemma token_in_mono m a n a' n' ts ws :
  Forall2 (token_in m a n) ts ws → a' ≤ a → a + n ≤ a' + n' → Forall2 (token_in m a' n') ts ws.
Proof. intros H Ha Hn. eapply Forall2_impl; [exact H|]. intros t w (H1 & H2 & H3). split; [done|lia]. Qed.

Lemma tokenize_loop_spec n fuel m a s m' ts :
  (length s < fuel)%nat → cstring m a s → match s with [] => True | c :: _ => is_blank c = false end →
  tokenize_loop n fuel m a = (m', ts) →
  Forall2 (token_in m' a (Z.of_nat (length s))) ts (take n (words s)) ∧
  ∀ b, b < a ∨ a + Z.of_nat (length s) ≤ b → rd m' b = rd m b.
Proof.
  revert m a s m' ts. induction n as [|n IH]; intros m a s m' ts Hf Hs Hh E; cbn [tokenize_loop] in E.
  { injection E as <- <-. split; [apply Forall2_nil_2|done]. }
  rewrite (cstring_zero _ _ _ Hs) in E.
  destruct (first_word s) as (w & r & -> & Hw & Hr).
  destruct w as [|c w].
  { destruct r as [|b r]; [|cbn in Hh; congruence]. injection E as <- <-. split; [apply Forall2_nil_2|done]. }
  cbn [app] in E. change (c :: w ++ r) with ((c :: w) ++ r) in *.
  rewrite length_app in Hf. rewrite (skip_word_spec fuel m a (c :: w) r) in E by (done || lia).
  pose proof (cstring_app m a (c :: w) r Hs) as Hs1. rewrite (cstring_zero _ _ _ Hs1) in E.
  set (q := a + Z.of_nat (length (c :: w))) in *. destruct r as [|b r].
  - destruct (tokenize_loop n fuel m q) as [m1 ts1] eqn:E1. injection E as <- <-.
    assert (E0 : (m, @nil Z) = (m1, ts1)).
    { rewrite <- E1. destruct n; [done|]. cbn [tokenize_loop]. by rewrite (cstring_zero _ _ _ Hs1). }
    injection E0 as <- <-. rewrite app_nil_r in *. rewrite words_last by done.
    split; [|done]. cbn [take]. rewrite take_nil. apply Forall2_cons_2; [split; [done|lia]|apply Forall2_nil_2].
  - pose proof (cstring_app m a ((c :: w) ++ [b]) r) as Hs2. rewrite <- app_assoc in Hs2. specialize (Hs2 Hs).
    rewrite length_app in Hs2. replace (a + _) with (q + 1) in Hs2 by (unfold q; cbn; lia).
    cbn [length] in Hf. assert (Hs3 : cstring (wr m q 0) (q + 1) r).
    { eapply cstring_frame; [|exact Hs2]. intros x Hx. apply rd_wr_ne. lia. }
    destruct (skip_blanks_spec fuel (wr m q 0) (q + 1) r ltac:(lia) Hs3) as (k & s' & Ek & Hk & Hl & Hs' & Hws & Hh').
    rewrite Ek in E. destruct (tokenize_loop n fuel (wr m q 0) (q + 1 + k)) as [m1 ts1] eqn:E1.
    injection E as <- <-. apply (IH _ _ s') in E1 as [Ht Hfr]; [|lia|done|done].
    rewrite words_word, <- Hws by done. split.
    + apply Forall2_cons_2.
      2:{ eapply token_in_mono; [exact Ht|unfold q; lia|].
          rewrite length_app. cbn [length]. unfold q. cbn [length]. lia. }
      split; [|rewrite length_app; lia]. destruct Hs as [Hsb Hsn]. apply Forall_app in Hsn as [Hsn _].
      split; [|done]. apply bytes_at_app. rewrite <- app_assoc in Hsb. apply bytes_at_app in Hsb as [Hsb _].
      split.
      * eapply bytes_at_frame; [|exact Hsb]. intros x Hx. fold q in Hx. rewrite Hfr by lia. apply rd_wr_ne. lia.
      * split; [|done]. fold q. rewrite Hfr by lia. apply rd_wr_eq.
    + intros x Hx. rewrite length_app in Hx. cbn [length] in Hx, q.
      rewrite Hfr by (unfold q; cbn; lia). apply rd_wr_ne. unfold q. cbn. lia.
Qed.

(** The tokens of a line are its first sixteen words, in the line and each ended in
    place by a zero byte; no byte outside the line changes. *)
Theorem tokenize_words fuel m line s m' ts
    (Hf : (length s < fuel)%nat) (Hs : cstring m line s) (E : tokenize fuel m line = (m', ts)) :
  Forall2 (token_in m' line (Z.of_nat (length s))) ts (take 16 (words s)) ∧
  ∀ b, b < line ∨ line + Z.of_nat (length s) ≤ b → rd m' b = rd m b.
Proof.
  destruct (skip_blanks_spec fuel m line s Hf Hs) as (k & s' & Ek & Hk & Hl & Hs' & Hw & Hh).
  unfold tokenize in E. rewrite Ek in E.
  destruct (tokenize_loop_spec 16 fuel m (line + k) s' m' ts) as [Ht Hfr]; [lia|done..|].
  rewrite <- Hw. split; [|intros b Hb; apply Hfr; lia].
  eapply token_in_mono; [exact Ht|lia|lia].
Qed.

Lemma tokenize_words_witness :
  let line := str " mount  none /" in
  let m := foldr (λ ib m, wr m (0x900 + Z.of_nat ib.1) ib.2) ∅ (imap (λ i b, (i, b)) line) in
  cstring m 0x900 line ∧ words line = [str "mount"; str "none"; str "/"] ∧
  Forall2 (token_in (tokenize 64 m 0x900).1 0x900 14) [0x901; 0x908; 0x90D] [str "mount"; str "none"; str "/"].
Proof.
  intros line m.
  assert (Hc : cstring m 0x900 line) by (vm_compute; split; [tauto|]; repeat constructor; discriminate).
  split; [exact Hc|]. split; [vm_compute; reflexivity|].
  refine (proj1 (tokenize_words 64 m 0x900 line (tokenize 64 m 0x900).1 [0x901; 0x908; 0x90D] _ Hc _)).
  - vm_compute. lia.
  - vm_compute. reflexivity.
Defined.

(** ** Strings in place *)

Lemma strcpy_spec fuel m d src s :
  (length s < fuel)%nat → cstring m src s →
  d + Z.of_nat (length s) < src ∨ src + Z.of_nat (length s) < d →
  cstring (strcpy fuel m d src) d s ∧
  ∀ b, b < d ∨ d + Z.of_nat (length s) < b → rd (strcpy fuel m d src) b = rd m b.
Proof.
  revert m d src s. induction fuel as [|fuel IH]; intros m d src s Hf Hs Hdis; [lia|]. cbn [strcpy].
  rewrite (cstring_zero _ _ _ Hs), (cstring_head _ _ _ Hs). destruct s as [|c s].
  { split; [|intros b Hb; apply rd_wr_ne; cbn in Hb; lia]. split; [|apply Forall_nil_2; done].
    split; [apply rd_wr_eq|done]. }
  cbn [length] in *. destruct Hs as [[Hc Hb] [Hc0 Hnz]%Forall_cons].
  destruct (IH (wr m d c) (d + 1) (src + 1) s) as [[H1 H2] Hfr]; [lia| |lia|].
  { split; [|done]. eapply bytes_at_frame; [|exact Hb]. intros x Hx. rewrite length_app in Hx.
    cbn [length] in Hx. apply rd_wr_ne. lia. }
  split; [split|].
  - split; [rewrite Hfr by lia; apply rd_wr_eq|done].
  - by apply Forall_cons_2.
  - intros b Hb'. rewrite Hfr by lia. apply rd_wr_ne. lia.
Qed.

Lemma strcat_spec fuel m dst src s t :
  (length s < fuel)%nat → (length t < fuel)%nat → cstring m dst s → cstring m src t →
  0 ≤ dst → dst + Z.of_nat (length s) < 2 ^ 64 →
  dst + Z.of_nat (length s + length t) < src ∨ src + Z.of_nat (length t) < dst →
  cstring (strcat fuel m dst src) dst (s ++ t) ∧
  ∀ b, b < dst ∨ dst + Z.of_nat (length s + length t) < b → rd (strcat fuel m dst src) b = rd m b.
Proof.
  intros Hf1 Hf2 Hs Ht Hd Hd2 Hdis. unfold strcat. rewrite (strlen_spec fuel m dst s) by done.
  destruct (strcpy_spec fuel m (dst + Z.of_nat (length s)) src t) as [[H1 H2] Hfr]; [done|done|lia|].
  split; [split|].
  - destruct Hs as [Hsb _]. apply bytes_at_app in Hsb as [Hsb _]. rewrite <- app_assoc. apply bytes_at_app.
    split; [|done]. eapply bytes_at_frame; [|exact Hsb]. intros x Hx. apply Hfr. lia.
  - destruct Hs as [_ Hsn]. by apply Forall_app_2.
  - intros b Hb. apply Hfr. lia.
Qed.

Definition byte_text (s : list Z) : Prop := Forall (λ c, 0 ≤ c < 256) s.

Lemma swrap8_inj a b : 0 ≤ a < 256 → 0 ≤ b < 256 → swrap 8 a - swrap 8 b = 0 → a = b.
Proof.
  unfold swrap, wrap. intros Ha Hb. change (2 ^ 8) with 256. rewrite !Z.mod_small by lia.
  change (2 ^ (8 - 1)) with 128. destruct (a <? 128) eqn:?, (b <? 128) eqn:?; break_cmp; lia.
Qed.

Lemma strcmp_zero fuel m a b s t :
  (length s < fuel)%nat → cstring m a s → cstring m b t → byte_text s → byte_text t →
  strcmp fuel m a b = 0 ↔ s = t.
Proof.
  revert a b s t. induction fuel as [|fuel IH]; intros a b s t Hf Hs Ht Bs Bt; [lia|]. cbn [strcmp].
  rewrite (cstring_zero _ _ _ Hs), (cstring_zero _ _ _ Ht), (cstring_head _ _ _ Hs), (cstring_head _ _ _ Ht).
  destruct s as [|x s], t as [|y t]; cbn [negb andb].
  - done.
  - apply Forall_cons in Bt as [By _]. destruct Ht as [_ [Hy _]%Forall_cons]. split; [|done].
    intros E%swrap8_inj; [congruence|lia|done].
  - apply Forall_cons in Bs as [Bx _]. destruct Hs as [_ [Hx _]%Forall_cons]. split; [|done].
    intros E%swrap8_inj; [congruence|done|lia].
  - apply Forall_cons in Bs as [Bx Bs]. apply Forall_cons in Bt as [By Bt].
    destruct (x =? y) eqn:E; break_cmp.
    + subst y. cbn [length] in Hf. rewrite (IH (a + 1) (b + 1) s t); [|lia| | |done|done].
      * split; [by intros ->|by intros [= ->]].
      * apply (cstring_app m a [x] s Hs).
      * apply (cstring_app m b [x] t Ht).
    + split; [intros E'%swrap8_inj; done|congruence].
Qed.

(** The directory [cd] goes to. *)
Definition cd_target (cwd p : list Z) : list Z :=
  if decide (p !! 0%nat = Some 47) then if Z.of_nat (length p) <? 512 then p else cwd
  else if Z.of_nat (length cwd) + Z.of_nat (length p) + 2 <? 512
  then (if decide (cwd = [47]) then cwd else cwd ++ [47]) ++ p else cwd.

Section Cd.
Context (fuel : nat) (m : mem) (g_cwd slash path : Z) (cwd p : list Z).
Context (Hf : (1024 < fuel)%nat) (Hg : 0 ≤ g_cwd ∧ g_cwd + 512 < 2 ^ 63) (Hp : 0 ≤ path < 2 ^ 63)
        (Hc : cstring m g_cwd cwd) (Hlen : (length cwd < 512)%nat) (Hb : byte_text cwd)
        (Hs : cstring m slash [47]) (Hsd : slash + 2 ≤ g_cwd ∨ g_cwd + 512 ≤ slash)
        (Ht : cstring m path p) (Htl : (length p < 1024)%nat)
        (Htd : path + Z.of_nat (length p) + 1 ≤ g_cwd ∨ g_cwd + 512 ≤ path).

(** A buffer with [c], and nothing else changed. *)
Definition cwd_is (m' : mem) (c : list Z) : Prop :=
  cstring m' g_cwd c ∧ (length c < 512)%nat ∧
  ∀ b, b < g_cwd ∨ g_cwd + 512 ≤ b → rd m' b = rd m b.

Lemma cwd_same : cwd_is m cwd.
Proof. done. Qed.

Lemma cwd_cat m1 src c t :
  cwd_is m1 c → cstring m src t → (length c + length t < 512)%nat →
  src + Z.of_nat (length t) + 1 ≤ g_cwd ∨ g_cwd + 512 ≤ src →
  cwd_is (strcat fuel m1 g_cwd src) (c ++ t).
Proof.
  intros (H1 & Hl1 & Hfr1) Hts Hl Hdis.
  destruct (strcat_spec fuel m1 g_cwd src c t) as [H2 Hfr2]; [lia|lia|done| |lia|lia|lia|].
  { eapply cstring_frame; [|exact Hts]. intros b Hb'. apply Hfr1. lia. }
  split; [done|]. rewrite length_app. split; [lia|]. intros b Hb'. rewrite Hfr2 by lia. by apply Hfr1.
Qed.

Lemma cd_slash :
  (length cwd + 1 < 512)%nat →
  cwd_is (if negb (strcmp fuel m g_cwd slash =? 0) then strcat fuel m g_cwd slash else m)
    (if decide (cwd = [47]) then cwd else cwd ++ [47]).
Proof.
  intros Hl. pose proof (strcmp_zero fuel m g_cwd slash cwd [47] ltac:(lia) Hc Hs Hb
    ltac:(apply Forall_cons_2; [lia|by apply Forall_nil_2])) as Hcmp.
  destruct (strcmp fuel m g_cwd slash =? 0) eqn:E; break_cmp; cbn [negb].
  - rewrite decide_True by tauto. apply cwd_same.
  - rewrite decide_False by tauto. apply cwd_cat; [apply cwd_same|done|cbn; lia|cbn; lia].
Qed.

Lemma cmd_cd_spec cmd : cwd_is (cmd_cd fuel m g_cwd slash [cmd; path]) (cd_target cwd p).
Proof.
  unfold cmd_cd, cd_target, CWD_SIZE.
  rewrite !(strlen_spec fuel m path p), (strlen_spec fuel m g_cwd cwd) by (done || lia).
  assert (Hh : (rd m path =? 47) = bool_decide (p !! 0%nat = Some 47)).
  { rewrite (cstring_head _ _ _ Ht). destruct p as [|c q]; [done|]. cbn.
    destruct (c =? 47) eqn:E; break_cmp; symmetry; [apply bool_decide_eq_true|apply bool_decide_eq_false]; congruence. }
  rewrite Hh. destruct (decide (p !! 0%nat = Some 47)) as [H47|H47].
  - rewrite bool_decide_eq_true_2 by done. destruct (_ <? 512) eqn:E; break_cmp; [|apply cwd_same].
    destruct (strcpy_spec fuel m g_cwd path p) as [H1 H2]; [lia|done|lia|].
    split; [done|]. split; [lia|]. intros b Hb'. apply H2. lia.
  - rewrite bool_decide_eq_false_2 by done. destruct (_ <? 512) eqn:E; break_cmp; [|apply cwd_same].
    apply cwd_cat; [apply cd_slash; lia|done| |lia].
    destruct (decide (cwd = [47])); rewrite ?length_app; cbn [length]; lia.
Qed.

End Cd.

(** [cd] leaves a string of less than 512 bytes in the buffer and writes no byte
    outside it: the absolute path, or the relative one behind a slash. *)
Theorem cd_stays_in_buffer fuel m g_cwd slash cmd path cwd p
    (Hf : (1024 < fuel)%nat) (Hg : 0 ≤ g_cwd ∧ g_cwd + 512 < 2 ^ 63) (Hp : 0 ≤ path < 2 ^ 63)
    (Hc : cstring m g_cwd cwd) (Hlen : (length cwd < 512)%nat) (Hb : byte_text cwd)
    (Hs : cstring m slash [47]) (Hsd : slash + 2 ≤ g_cwd ∨ g_cwd + 512 ≤ slash)
    (Ht : cstring m path p) (Htl : (length p < 1024)%nat)
    (Htd : path + Z.of_nat (length p) + 1 ≤ g_cwd ∨ g_cwd + 512 ≤ path) :
  let m' := cmd_cd fuel m g_cwd slash [cmd; path] in
  cstring m' g_cwd (cd_target cwd p) ∧ (length (cd_target cwd p) < 512)%nat ∧
  ∀ b, b < g_cwd ∨ g_cwd + 512 ≤ b → rd m' b = rd m b.
Proof. by apply cmd_cd_spec. Qed.

Lemma cd_stays_in_buffer_witness :
  let m := foldr (λ ib m, wr m ib.1 ib.2) ∅
             [(0x600, 47); (0x601, 97); (0x900, 47); (0xA00, 98)] in
  cd_target [47; 97] [98] = str "/a/b" ∧
  cstring (cmd_cd 1025 m 0x600 0x900 [0xA10; 0xA00]) 0x600 (str "/a/b").
Proof.
  intros m. split; [vm_compute; reflexivity|].
  assert (Hf : (1024 < 1025)%nat) by (apply Nat.ltb_lt; vm_compute; reflexivity).
  refine (proj1 (cd_stays_in_buffer 1025 m 0x600 0x900 0xA10 0xA00 [47; 97] [98] Hf _ _ _ _ _ _ _ _ _ _)).
  - lia.
  - lia.
  - vm_compute. split; [tauto|]. repeat constructor; discriminate.
  - cbn. lia.
  - repeat constructor; discriminate.
  - vm_compute. split; [tauto|]. repeat constructor; discriminate.
  - right. lia.
  - vm_compute. split; [tauto|]. repeat constructor; discriminate.
  - cbn. lia.
  - right. lia.
Defined.

(** The kernel has no [SYS_READLINE]: whatever is typed, the line the shell gets is
    empty and it has no command to execute. *)
Lemma user_shell_turn fuel m c g_input_line :
  (1 ≤ fuel)%nat →
  read_line fuel m c g_input_line 1024 = Returns (wr m g_input_line 0, c) ∧
  tokenize fuel (wr m g_input_line 0) g_input_line = (wr m g_input_line 0, []).
Proof.
  intros Hf. split; [done|]. destruct fuel as [|fuel]; [lia|].
  assert (E : rd (wr m g_input_line 0) g_input_line = 0) by apply rd_wr_eq.
  unfold tokenize. cbn [skip_blanks]. rewrite E. cbn [is_blank Z.eqb orb tokenize_loop]. by rewrite E.
Qed.

End Programs.
