(* ===== verification/UserShell.v ===== *)
(** * The programs init and shell (user/init.cpp, user/shell.cpp)

    The two programs over the kernel's system calls: every command of the user's
    shell, its loop, and [init] from its banner to the shell it starts.  The string
    literals of the programs are at addresses [lit] gives; [fuel] bounds the length
    of strings. *)

From stdpp Require Import base numbers list gmap strings.
From S2P Require Import Prelude Memory Text Console Syscall User.
Import Text.Text Console.Console User.Runtime User.Programs.
Open Scope Z_scope.

Module UserShell.

(** What the programs work on: the memory, the console behind the system calls and
    [g_running]. *)
Record State := mkState { um : mem; uc : Console; g_running : bool }.

Definition prog (A : Type) : Type := State → flow (A * State).

#[export] Instance prog_ret : MRet prog := λ A a s, Returns (a, s).
#[export] Instance prog_bind : MBind prog := λ A B k x s,
  match x s with
  | Returns (a, s) => k a s
  | Halts => Halts
  | Panics => Panics
  end.

Definition memory : prog mem := λ s, Returns (um s, s).
Definition set_memory (m : mem) : prog unit := λ s, Returns (tt, mkState m (uc s) (g_running s)).
Definition set_running (b : bool) : prog unit := λ s, Returns (tt, mkState (um s) (uc s) b).

(** [int $0x80]. *)
Definition syscall (nr a1 a2 a3 a4 : Z) : prog Z := λ s,
  match Syscall.rust_syscall_handler (um s) (uc s) nr a1 a2 a3 a4 with
  | Returns (c, r) => Returns (r, mkState (um s) c (g_running s))
  | Halts => Halts
  | Panics => Panics
  end.

Definition SYS_READ : Z := 0.
Definition SYS_OPEN : Z := 2.
Definition SYS_CLOSE : Z := 3.
Definition SYS_MKDIR : Z := 6.
Definition SYS_GETDENTS : Z := 8.
Definition SYS_MOUNT : Z := 10.
Definition SYS_EXIT : Z := 21.
Definition SYS_GETPID : Z := 23.
Definition SYS_PRINT : Z := 100.

Definition newline : string := String (Ascii.ascii_of_nat 10) EmptyString.

Section Programs.
Context (fuel : nat) (lit : string → Z).

Definition print (a : Z) : prog unit :=
  m ← memory;
  syscall SYS_PRINT a (strlen fuel m a) 0 0;;
  mret tt.

Definition println (a : Z) : prog unit :=
  print a;;
  syscall SYS_PRINT (lit newline) 1 0 0;;
  mret tt.

(** Some lines, each a literal. *)
Fixpoint printlns (l : list string) : prog unit :=
  match l with
  | [] => mret tt
  | x :: l => println (lit x);; printlns l
  end.

(** ** The shell *)

(** The globals, and the buffers on the stack. *)
Context (g_cwd g_input_line pid_buf dents_buf cat_buf : Z).

Definition token (args : list Z) (i : nat) : Z := nth i args 0.

Definition cmd_ls (args : list Z) : prog unit :=
  let path := if (2 <=? length args)%nat then token args 1 else g_cwd in
  fd ← syscall SYS_OPEN path 0 0 0;
  if fd <? 0 then
    print (lit "ls: cannot open '");; print path;; println (lit "'")
  else
    bytes ← syscall SYS_GETDENTS (wrap 64 fd) dents_buf 4096 0;
    (if 0 <? bytes then println (lit "  (directory listing not yet implemented)")
     else if bytes =? 0 then println (lit "  (empty directory)")
     else println (lit "ls: error reading directory"));;
    syscall SYS_CLOSE (wrap 64 fd) 0 0 0;;
    mret tt.

(** The loop of [cmd_cat], at most [n] turns. *)
Fixpoint cat_loop (n : nat) (fd : Z) : prog unit :=
  match n with
  | O => mret tt
  | S n =>
      bytes ← syscall SYS_READ (wrap 64 fd) cat_buf 512 0;
      if bytes <=? 0 then mret tt
      else syscall SYS_PRINT cat_buf (wrap 64 bytes) 0 0;; cat_loop n fd
  end.

Definition cmd_cat (args : list Z) : prog unit :=
  if (length args <? 2)%nat then println (lit "cat: missing file operand")
  else
    let path := token args 1 in
    fd ← syscall SYS_OPEN path 0 0 0;
    if fd <? 0 then
      print (lit "cat: ");; print path;; println (lit ": No such file")
    else
      cat_loop fuel fd;;
      syscall SYS_CLOSE (wrap 64 fd) 0 0 0;;
      mret tt.

Definition cmd_cd (args : list Z) : prog unit :=
  m ← memory; set_memory (User.Programs.cmd_cd fuel m g_cwd (lit "/") args).

Definition cmd_pwd : prog unit := println g_cwd.

Definition cmd_mkdir (args : list Z) : prog unit :=
  if (length args <? 2)%nat then println (lit "mkdir: missing operand")
  else
    result ← syscall SYS_MKDIR (token args 1) 493 0 0;
    if result <? 0 then
      print (lit "mkdir: cannot create '");; print (token args 1);; println (lit "'")
    else mret tt.

Definition cmd_mount (args : list Z) : prog unit :=
  if (length args <? 4)%nat then println (lit "mount: usage: mount <device> <path> <fstype>")
  else
    result ← syscall SYS_MOUNT (token args 1) (token args 2) (token args 3) 0;
    if result <? 0 then println (lit "mount: failed")
    else
      print (lit "mount: ");; print (token args 1);; print (lit " mounted at ");; println (token args 2).

(** The loop of [cmd_sysinfo] that moves the digits to the front. *)
Definition sysinfo_shift (buf : list Z) (shift : Z) : list Z :=
  for_each 0 (14 - shift)
    (λ j buf,
       let buf := <[Z.to_nat j := nth (Z.to_nat (j + shift)) buf 0]> buf in
       <[Z.to_nat (j + shift + 1) := 0]> buf) buf.

Definition sysinfo_pid_str (pid : Z) : list Z :=
  let buf := replicate 16 0 in
  if pid =? 0 then <[0%nat := 48]> buf
  else let '(buf, i) := pid_digits 16 buf pid 14 in sysinfo_shift buf (i + 1).

(** A local buffer. *)
Fixpoint local (m : mem) (a : Z) (l : list Z) : mem :=
  match l with
  | [] => m
  | b :: l => local (wr m a b) (a + 1) l
  end.
Definition put_local (a : Z) (l : list Z) : prog unit := m ← memory; set_memory (local m a l).

Definition sysinfo_lines : list string :=
  ["DeltaOS v0.1.0"; "Kernel: Rust #![no_std] x86_64"; "Filesystem: NTFS (delta_ntfs)";
   "Scheduler: Round-Robin with priorities"; "Memory: PMM (bitmap) + VMM (4-level paging)";
   "Drivers: AHCI, NVMe, PS/2 Keyboard (C)"; "Shell: C++17 freestanding"]%string.

Definition cmd_sysinfo : prog unit :=
  printlns sysinfo_lines;;
  pid ← syscall SYS_GETPID 0 0 0 0;
  print (lit "Current PID: ");;
  put_local pid_buf (sysinfo_pid_str pid);;
  println pid_buf.

Definition help_lines : list string :=
  ["DeltaOS Shell — Available commands:";
   "  ls [path]        - List directory contents";
   "  cat <file>       - Display file contents";
   "  cd <path>        - Change directory";
   "  pwd              - Print working directory";
   "  mkdir <dir>      - Create directory";
   "  mount <dev> <path> <fstype> - Mount filesystem";
   "  sysinfo          - Show system information";
   "  help             - Show this help";
   "  exit             - Exit shell"]%string.

Definition cmd_help : prog unit := printlns help_lines.

Definition cmd_exit : prog unit := println (lit "Goodbye!");; set_running false.

Definition cmd_unknown (cmd : Z) : prog unit := print (lit "shell: unknown command: ");; println cmd.

Definition show_prompt : prog unit := print (lit "deltaos:");; print g_cwd;; print (lit "$ ").

Definition read_line (buffer max_len : Z) : prog unit := λ s,
  match User.Programs.read_line fuel (um s) (uc s) buffer max_len with
  | Returns (m, c) => Returns (tt, mkState m c (g_running s))
  | Halts => Halts
  | Panics => Panics
  end.

(** [strcmp(cmd, "...") == 0]. *)
Definition named (cmd : Z) (name : string) : prog bool :=
  m ← memory; mret (strcmp fuel m cmd (lit name) =? 0).

Definition execute_command (args : list Z) : prog unit :=
  if (length args =? 0)%nat then mret tt
  else
    let cmd := token args 0 in
    b ← named cmd "ls"; if b : bool then cmd_ls args else
    b ← named cmd "cat"; if b : bool then cmd_cat args else
    b ← named cmd "cd"; if b : bool then cmd_cd args else
    b ← named cmd "pwd"; if b : bool then cmd_pwd else
    b ← named cmd "mkdir"; if b : bool then cmd_mkdir args else
    b ← named cmd "mount"; if b : bool then cmd_mount args else
    b ← named cmd "sysinfo"; if b : bool then cmd_sysinfo else
    b ← named cmd "help"; if b : bool then cmd_help else
    b ← named cmd "exit"; if b : bool then cmd_exit else
    cmd_unknown cmd.

(** A line, once read. *)
Definition run_line : prog unit :=
  m ← memory;
  let '(m, args) := tokenize fuel m g_input_line in
  set_memory m;;
  execute_command args.

(** The loop of [shell_main], at most [n] turns; whether it has ended. *)
Fixpoint shell_loop (n : nat) : prog bool := λ s,
  if negb (g_running s) then Returns (true, s)
  else
    match n with
    | O => Returns (false, s)
    | S n =>
        (show_prompt;;
         read_line g_input_line 1024;;
         run_line;;
         shell_loop n) s
    end.

Definition shell_banner : list string :=
  [""; "DeltaOS Shell v0.1.0"; "Type 'help' for available commands."; ""]%string.

Definition shell_main (n : nat) : prog bool := printlns shell_banner;; shell_loop n.

(** ** init *)

Definition init_banner : list string :=
  ["=========================================="; "  DeltaOS Init v0.1.0"; "  First userspace process";
   "=========================================="; ""]%string.

(** The mounts and directories; [syscall] alone, its result unused. *)
Definition mount (dev path fstype : string) : prog Z :=
  syscall SYS_MOUNT (lit dev) (lit path) (lit fstype) 0.
Definition mkdir (path : string) (mode : Z) : prog unit :=
  syscall SYS_MKDIR (lit path) mode 0 0;; mret tt.

(** [init_main] up to the first call of [shell_main]. *)
Definition init_start (pid_str : Z) : prog unit :=
  printlns init_banner;;
  print (lit "[init] PID: ");;
  pid ← syscall SYS_GETPID 0 0 0 0;
  put_local pid_str (init_pid_str (wrap 64 pid));;
  println pid_str;;
  println (lit "[init] Mounting NTFS root filesystem...");;
  mount_result ← mount "/dev/sda1" "/" "ntfs";
  (if mount_result <? 0 then
     println (lit "[init] WARNING: NTFS mount failed, using ramfs");;
     mount "none" "/" "ramfs";; mret tt
   else println (lit "[init] NTFS mounted at /"));;
  println (lit "[init] Creating base directories...");;
  mkdir "/dev" 493;; mkdir "/tmp" 511;; mkdir "/proc" 365;; mkdir "/mnt" 493;; mkdir "/etc" 493;;
  mkdir "/home" 493;;
  println (lit "[init] Base directories created");;
  mount "none" "/dev" "devfs";;
  mount "none" "/proc" "procfs";;
  println (lit "[init] Virtual filesystems mounted");;
  println (lit "[init] Starting shell...").

(** The loop that starts the shell again, for [turns] more times; each run of the
    shell has at most [n] turns.  [true] when all of them have ended. *)
Fixpoint respawn (turns n : nat) : prog bool :=
  match turns with
  | O => mret true
  | S turns =>
      ended ← shell_main n;
      if ended : bool then println (lit "[init] Shell crashed, respawning...");; respawn turns n
      else mret false
  end.

Definition init_main (pid_str : Z) (turns n : nat) : prog bool :=
  init_start pid_str;;
  ended ← shell_main n;
  if ended : bool then
    println (lit "[init] Shell exited, restarting...");; respawn turns n
  else mret false.

(** ** What the programs print *)

Lemma prog_then {A B} (x : prog A) (k : A → prog B) s a s' : x s = Returns (a, s') → (x ≫= k) s = k a s'.
Proof. intros E. unfold mbind, prog_bind. by rewrite E. Qed.

(** An action that prints [txt] and does nothing else. *)
Definition outputs (p : prog unit) (m : mem) (r : bool) (txt : list Z) : Prop :=
  ∀ c, on_screen c → ∃ c', p (mkState m c r) = Returns (tt, mkState m c' r) ∧ on_screen c' ∧
    serial c' = serial c ++ txt.

Lemma outputs_ret m r : outputs (mret tt) m r [].
Proof. intros c Hc. exists c. by rewrite app_nil_r. Qed.

Lemma outputs_bind p q m r t1 t2 :
  outputs p m r t1 → outputs q m r t2 → outputs (p;; q) m r (t1 ++ t2).
Proof.
  intros Hp Hq c Hc. destruct (Hp c Hc) as (c1 & E1 & Hc1 & Hs1). destruct (Hq c1 Hc1) as (c2 & E2 & Hc2 & Hs2).
  exists c2. unfold mbind, prog_bind. rewrite E1. split; [done|]. split; [done|]. by rewrite Hs2, Hs1, <- app_assoc.
Qed.

Lemma outputs_then p q m r t : outputs p m r [] → outputs q m r t → outputs (p;; q) m r t.
Proof. apply (outputs_bind p q m r [] t). Qed.

(** A system call the kernel does not have. *)
Lemma no_call nr a1 a2 a3 a4 s :
  existsb (Z.eqb nr) [0; 2; 6; 8; 10] = true → syscall nr a1 a2 a3 a4 s = Returns (-5, s).
Proof.
  intros (x & Hx & ->%Z.eqb_eq)%existsb_exists. destruct s as [m c r].
  destruct Hx as [<-|[<-|[<-|[<-|[<-|[]]]]]]; done.
Qed.

(** A string in the memory, of a length and at an address the programs can handle. *)
Definition string_at (m : mem) (a : Z) (t : list Z) : Prop :=
  cstring m a t ∧ (length t < fuel)%nat ∧ 0 ≤ a ∧ a + Z.of_nat (length t) < 2 ^ 63.

Lemma user_bytes_at m a t :
  bytes_at m a t → 0 ≤ a → a + Z.of_nat (length t) < 2 ^ 63 →
  Syscall.user_bytes m a (Z.of_nat (length t)) = t.
Proof.
  intros Hb Ha Hend. unfold Syscall.user_bytes. apply list_eq. intros i. rewrite list_lookup_fmap.
  destruct (decide (i < length t)%nat) as [Hi|Hi].
  - destruct (lookup_lt_is_Some_2 t i Hi) as [x Hx]. rewrite Hx.
    rewrite (lookup_seqZ_lt 0 (Z.of_nat (length t)) i) by lia. cbn. f_equal. rewrite usize_small by lia.
    clear Ha Hend Hi. revert a i Hb Hx. induction t as [|y t IH]; intros a i Hb Hx; [done|].
    destruct Hb as [H1 H2]. destruct i as [|i]; [injection Hx as <-; rewrite <- H1; f_equal; lia|].
    cbn in Hx. rewrite <- (IH (a + 1) i H2 Hx). f_equal. lia.
  - rewrite (lookup_ge_None_2 t) by lia. rewrite lookup_seqZ_ge by lia. done.
Qed.

Lemma sys_print_outputs m r a t :
  bytes_at m a t → 0 ≤ a → a + Z.of_nat (length t) < 2 ^ 63 →
  outputs (syscall SYS_PRINT a (Z.of_nat (length t)) 0 0;; mret tt) m r t.
Proof.
  intros Hb Ha Hend c Hc. destruct (Syscall.print_bytes_serial c t Hc) as [H1 H2].
  exists (Syscall.print_bytes c t). split; [|done].
  unfold mbind, prog_bind, syscall, SYS_PRINT. cbn [um uc g_running Syscall.rust_syscall_handler Syscall.SyscallNumber_from].
  unfold Syscall.sys_print. by rewrite user_bytes_at.
Qed.

Lemma print_outputs m r a t : string_at m a t → outputs (print a) m r t.
Proof.
  intros (Hs & Hl & Ha & Hend). unfold print. intros c Hc.
  pose proof Hs as [Hb _]. apply bytes_at_app in Hb as [Hb _].
  destruct (sys_print_outputs m r a t Hb Ha Hend c Hc) as (c' & E & H). exists c'. split; [|done].
  rewrite <- E. unfold mbind at 1, prog_bind at 1, memory. cbn [um].
  by rewrite (strlen_spec fuel m a t) by (done || lia).
Qed.

(** ** The literals *)

Definition literals : list string :=
  (newline :: sysinfo_lines ++ help_lines ++ shell_banner ++ init_banner ++
  ["ls: cannot open '"; "'"; "  (directory listing not yet implemented)"; "  (empty directory)";
   "ls: error reading directory"; "cat: missing file operand"; "cat: "; ": No such file"; "/";
   "mkdir: missing operand"; "mkdir: cannot create '"; "mount: usage: mount <device> <path> <fstype>";
   "mount: failed"; "mount: "; " mounted at "; "Current PID: "; "Goodbye!"; "shell: unknown command: ";
   "deltaos:"; "$ "; "ls"; "cat"; "cd"; "pwd"; "mkdir"; "mount"; "sysinfo"; "help"; "exit";
   "[init] PID: "; "[init] Mounting NTFS root filesystem...";
   "[init] WARNING: NTFS mount failed, using ramfs"; "[init] NTFS mounted at /";
   "[init] Creating base directories..."; "[init] Base directories created";
   "[init] Virtual filesystems mounted"; "[init] Starting shell..."; "[init] Shell exited, restarting...";
   "[init] Shell crashed, respawning..."])%string.

Definition is_literal (x : string) : bool := existsb (String.eqb x) literals.

Definition loaded (m : mem) : Prop := ∀ x, is_literal x = true → string_at m (lit x) (str x).

(** The text of some lines. *)
Definition ln (t : list Z) : list Z := t ++ [10].
Definition lines (l : list string) : list Z := concat ((λ x, ln (str x)) <$> l).

Section Output.
Context (m : mem) (r : bool) (Hm : loaded m).

Lemma print_lit x : is_literal x = true → outputs (print (lit x)) m r (str x).
Proof. intros Hx. apply print_outputs. by apply Hm. Qed.

Lemma println_outputs a t : string_at m a t → outputs (println a) m r (ln t).
Proof.
  intros Ht. apply outputs_bind; [by apply print_outputs|].
  destruct (Hm newline eq_refl) as ((Hb & _) & _ & Ha & Hend). apply bytes_at_app in Hb as [Hb _].
  exact (sys_print_outputs m r (lit newline) [10] Hb Ha Hend).
Qed.

Lemma println_lit x : is_literal x = true → outputs (println (lit x)) m r (ln (str x)).
Proof. intros Hx. apply println_outputs. by apply Hm. Qed.

Lemma printlns_outputs l :
  forallb is_literal l = true → outputs (printlns l) m r (lines l).
Proof.
  induction l as [|x l IH]; intros Hl; [apply outputs_ret|]. apply andb_true_iff in Hl as [Hx Hl].
  apply outputs_bind; [by apply println_lit|]. by apply IH.
Qed.
End Output.

(** No literal meets the [n] bytes at [a]. *)
Definition separate (a n : Z) : Prop :=
  ∀ x, is_literal x = true → lit x + Z.of_nat (length (str x)) + 1 ≤ a ∨ a + n ≤ lit x.

Lemma string_at_frame m m' a t b n :
  string_at m a t → a + Z.of_nat (length t) + 1 ≤ b ∨ b + n ≤ a →
  (∀ x, ¬ (b ≤ x < b + n) → rd m' x = rd m x) → string_at m' a t.
Proof.
  intros (Hs & H) Hd Hf. split; [|done]. eapply cstring_frame; [|exact Hs]. intros x Hx. apply Hf. lia.
Qed.

Lemma loaded_frame m m' a n :
  loaded m → separate a n → (∀ x, ¬ (a ≤ x < a + n) → rd m' x = rd m x) → loaded m'.
Proof. intros Hm Hsep Hf x Hx. eapply string_at_frame; [by apply Hm|by apply Hsep|done]. Qed.

Lemma local_frame m a l b : ¬ (a ≤ b < a + Z.of_nat (length l)) → rd (local m a l) b = rd m b.
Proof.
  revert m a. induction l as [|x l IH]; intros m a Hb; [done|]. cbn [local length] in *.
  rewrite IH by lia. apply rd_wr_ne. lia.
Qed.

Lemma local_bytes m a l : bytes_at (local m a l) a l.
Proof.
  revert m a. induction l as [|x l IH]; intros m a; [done|]. cbn [local bytes_at]. split; [|apply IH].
  rewrite local_frame by lia. apply rd_wr_eq.
Qed.

(** The text a zero-terminated buffer shows. *)
Lemma local_string m a l :
  (length l < fuel)%nat → 0 ≤ a → a + Z.of_nat (length l) < 2 ^ 63 → (∃ l1 l2, l = l1 ++ 0 :: l2 ∧ c_text l = l1) →
  string_at (local m a l) a (c_text l).
Proof.
  intros Hf Ha Hend (l1 & l2 & -> & E). rewrite E. rewrite length_app in Hf, Hend. cbn [length] in *.
  split; [|lia]. split.
  - apply (bytes_at_app _ _ (l1 ++ [0]) l2). rewrite <- app_assoc. apply local_bytes.
  - rewrite <- E. clear. induction (l1 ++ 0 :: l2) as [|x l IH]; [by apply Forall_nil_2|]. cbn [c_text].
    destruct (x =? 0) eqn:Ex; break_cmp; [by apply Forall_nil_2|]. by apply Forall_cons_2.
Qed.

Lemma outputs_call (x : prog Z) (k : Z → prog unit) m r v t :
  (∀ c, x (mkState m c r) = Returns (v, mkState m c r)) → outputs (k v) m r t → outputs (x ≫= k) m r t.
Proof.
  intros Hx Hk c Hc. destruct (Hk c Hc) as (c' & E & H). exists c'. split; [|done].
  unfold mbind, prog_bind. by rewrite Hx.
Qed.

(** The text of the prompt. *)
Definition prompt (cwd : list Z) : list Z := str "deltaos:" ++ cwd ++ str "$ ".

Lemma show_prompt_outputs m r cwd :
  loaded m → string_at m g_cwd cwd → outputs show_prompt m r (prompt cwd).
Proof.
  intros Hm Hc. apply outputs_bind; [by apply print_lit|].
  apply outputs_bind; [by apply print_outputs|by apply print_lit].
Qed.

(** Turns of the shell's loop: prompts, and nothing else. *)
Lemma shell_loop_prompts n cwd : (1 ≤ fuel)%nat → separate g_input_line 1 → ∀ m c,
  loaded m → string_at m g_cwd cwd →
  g_cwd + Z.of_nat (length cwd) + 1 ≤ g_input_line ∨ g_input_line + 1 ≤ g_cwd → on_screen c →
  ∃ m' c', shell_loop n (mkState m c true) = Returns (false, mkState m' c' true) ∧ on_screen c' ∧
    serial c' = serial c ++ concat (replicate n (prompt cwd)) ∧ ∀ b, b ≠ g_input_line → rd m' b = rd m b.
Proof.
  intros Hfu Hsep. induction n as [|n IH]; intros m c Hm Hcwd Hd Hc.
  { exists m, c. cbn. by rewrite app_nil_r. }
  destruct (show_prompt_outputs m true cwd Hm Hcwd c Hc) as (c1 & E1 & Hc1 & Hs1).
  cbn [shell_loop g_running negb]. unfold mbind, prog_bind. rewrite E1.
  destruct (User.Programs.user_shell_turn fuel m c1 g_input_line Hfu) as (E2 & E3).
  unfold read_line. cbn [um uc g_running]. rewrite E2.
  unfold run_line, mbind, prog_bind. cbn [memory um]. rewrite E3.
  set (m1 := wr m g_input_line 0). assert (Hf1 : ∀ b, b ≠ g_input_line → rd m1 b = rd m b) by (intros; by apply rd_wr_ne).
  clearbody m1. cbn [set_memory execute_command length Nat.eqb uc g_running mret prog_ret].
  destruct (IH m1 c1) as (m2 & c2 & E & Hc2 & Hs2 & Hf2); [| |done|done|].
  - eapply loaded_frame; [done|exact Hsep|]. intros x Hx. apply Hf1. lia.
  - eapply string_at_frame; [done|exact Hd|]. intros x Hx. apply Hf1. lia.
  - exists m2, c2. split; [exact E|]. split; [done|]. split.
    + rewrite Hs2, Hs1. cbn [replicate concat]. by rewrite <- app_assoc.
    + intros b Hb. rewrite Hf2 by done. by apply Hf1.
Qed.

(** What [init] prints before it starts the shell, on this kernel. *)
Definition init_text : list Z :=
  lines init_banner ++ str "[init] PID: " ++
  lines ["";
         "[init] Mounting NTFS root filesystem..."; "[init] WARNING: NTFS mount failed, using ramfs";
         "[init] Creating base directories..."; "[init] Base directories created";
         "[init] Virtual filesystems mounted"; "[init] Starting shell..."]%string.

(** A system call that fails prints nothing. *)
Ltac fails := apply (outputs_call _ _ _ _ (-5)); [intros; by apply no_call|].

Lemma mkdir_outputs path mode m r : outputs (mkdir path mode) m r [].
Proof. unfold mkdir. fails. apply outputs_ret. Qed.

Lemma init_rest_outputs m r pid_str :
  loaded m → string_at m pid_str [] →
  outputs
    (println pid_str;;
     println (lit "[init] Mounting NTFS root filesystem...");;
     mount_result ← mount "/dev/sda1" "/" "ntfs";
     (if mount_result <? 0 then
        println (lit "[init] WARNING: NTFS mount failed, using ramfs");;
        mount "none" "/" "ramfs";; mret tt
      else println (lit "[init] NTFS mounted at /"));;
     println (lit "[init] Creating base directories...");;
     mkdir "/dev" 493;; mkdir "/tmp" 511;; mkdir "/proc" 365;; mkdir "/mnt" 493;; mkdir "/etc" 493;;
     mkdir "/home" 493;;
     println (lit "[init] Base directories created");;
     mount "none" "/dev" "devfs";;
     mount "none" "/proc" "procfs";;
     println (lit "[init] Virtual filesystems mounted");;
     println (lit "[init] Starting shell...")) m r
    (lines ["";
         "[init] Mounting NTFS root filesystem..."; "[init] WARNING: NTFS mount failed, using ramfs";
         "[init] Creating base directories..."; "[init] Base directories created";
         "[init] Virtual filesystems mounted"; "[init] Starting shell..."]%string).
Proof.
  intros Hm Hp. pose proof (λ x H, println_lit m r Hm x H) as Hl.
  apply outputs_bind; [by apply println_outputs|]. apply outputs_bind; [by apply Hl|].
  unfold mount. fails. cbn [Z.ltb Z.compare].
  apply outputs_bind.
  { rewrite <- (app_nil_r (ln _)). apply outputs_bind; [by apply Hl|]. fails. apply outputs_ret. }
  apply outputs_bind; [by apply Hl|].
  do 6 (apply outputs_then; [apply mkdir_outputs|]).
  apply outputs_bind; [by apply Hl|]. fails. fails.
  apply outputs_bind; [by apply Hl|]. cbn [fmap list_fmap concat]. rewrite app_nil_r. by apply Hl.
Qed.

Lemma init_start_spec m c pid_str :
  (17 ≤ fuel)%nat → loaded m → separate pid_str 16 → 0 ≤ pid_str → pid_str + 16 < 2 ^ 63 → on_screen c →
  ∃ m' c', init_start pid_str (mkState m c true) = Returns (tt, mkState m' c' true) ∧ on_screen c' ∧
    serial c' = serial c ++ init_text ∧ loaded m' ∧
    ∀ b, ¬ (pid_str ≤ b < pid_str + 16) → rd m' b = rd m b.
Proof.
  intros Hfu Hm Hsep Hp0 Hp1 Hc. unfold init_start.
  destruct (printlns_outputs m true Hm init_banner eq_refl c Hc) as (c1 & E1 & Hc1 & Hs1).
  destruct (print_lit m true Hm "[init] PID: " eq_refl c1 Hc1) as (c2 & E2 & Hc2 & Hs2).
  rewrite (prog_then _ _ _ _ _ E1), (prog_then _ _ _ _ _ E2).
  rewrite (prog_then _ _ _ 1 (mkState m c2 true)) by reflexivity. change (wrap 64 1) with 1.
  rewrite (prog_then (put_local _ _) _ _ tt (mkState (local m pid_str (init_pid_str 1)) c2 true)) by reflexivity.
  set (l := init_pid_str 1). assert (Hl : length l = 16%nat) by (by vm_compute).
  assert (Ht : c_text l = [] ∧ ∃ l2, l = 0 :: l2) by (vm_compute; split; [done|by eexists]).
  destruct Ht as (Ht & l2 & El). set (m1 := local m pid_str l).
  assert (Hf1 : ∀ b, ¬ (pid_str ≤ b < pid_str + 16) → rd m1 b = rd m b).
  { intros b Hb. unfold m1. apply local_frame. rewrite Hl. lia. }
  assert (Hm1 : loaded m1) by (by eapply loaded_frame).
  assert (Hs : string_at m1 pid_str []).
  { rewrite <- Ht. apply local_string; rewrite ?Hl; [lia|lia|lia|]. exists [], l2. split; [exact El|exact Ht]. }
  clearbody m1. destruct (init_rest_outputs m1 true pid_str Hm1 Hs c2 Hc2) as (c3 & E3 & Hc3 & Hs3).
  exists m1, c3. split; [exact E3|]. split; [exact Hc3|]. split; [|split; [exact Hm1|exact Hf1]].
  unfold init_text. rewrite Hs3, Hs2, Hs1, <- !app_assoc. reflexivity.
Qed.

(** C33. On this kernel [init] never gets past the shell: it prints its banner with an
    empty process id, reports that no file system could be mounted, claims to have
    made directories and mounts that no system call made, and the shell it starts
    prints its banner and then its prompt once per turn, for ever: it never reads a
    command, whatever is typed, and never ends. *)
Theorem init_prompts_forever pid_str turns n m c cwd
    (Hfu : (17 ≤ fuel)%nat) (Hm : loaded m) (Hc : on_screen c)
    (Hpid : separate pid_str 16 ∧ 0 ≤ pid_str ∧ pid_str + 16 < 2 ^ 63) (Hline : separate g_input_line 1)
    (Hcwd : string_at m g_cwd cwd)
    (Hd : g_cwd + Z.of_nat (length cwd) + 1 ≤ g_input_line ∨ g_input_line + 1 ≤ g_cwd)
    (Hd' : g_cwd + Z.of_nat (length cwd) + 1 ≤ pid_str ∨ pid_str + 16 ≤ g_cwd) :
  ∃ s', init_main pid_str turns n (mkState m c true) = Returns (false, s') ∧ g_running s' = true ∧
    serial (uc s') = serial c ++ init_text ++ lines shell_banner ++ concat (replicate n (prompt cwd)).
Proof.
  destruct Hpid as (Hsep & Hp0 & Hp1). unfold init_main.
  destruct (init_start_spec m c pid_str Hfu Hm Hsep Hp0 Hp1 Hc) as (m1 & c1 & E1 & Hc1 & Hs1 & Hm1 & Hf1).
  rewrite (prog_then _ _ _ _ _ E1). unfold shell_main.
  destruct (printlns_outputs m1 true Hm1 shell_banner eq_refl c1 Hc1) as (c2 & E2 & Hc2 & Hs2).
  destruct (shell_loop_prompts n cwd ltac:(lia) Hline m1 c2 Hm1) as (m3 & c3 & E3 & Hc3 & Hs3 & _); [|done|done|].
  - by eapply string_at_frame.
  - rewrite (prog_then _ _ _ false (mkState m3 c3 true)) by (by rewrite (prog_then _ _ _ _ _ E2)).
    eexists. split; [reflexivity|]. split; [done|]. cbn [uc]. by rewrite Hs3, Hs2, Hs1, <- !app_assoc.
Qed.

(** Once the shell has ended, [init] starts it again and again without a prompt:
    nothing sets [g_running] back. *)
Theorem respawn_spins turns n m c (Hm : loaded m) (Hc : on_screen c) :
  ∃ c', respawn turns n (mkState m c false) = Returns (true, mkState m c' false) ∧
    serial c' = serial c ++ concat (replicate turns (lines shell_banner ++
                  ln (str "[init] Shell crashed, respawning..."))).
Proof.
  revert c Hc. induction turns as [|turns IH]; intros c Hc; [exists c; by rewrite app_nil_r|].
  cbn [respawn]. unfold shell_main.
  destruct (printlns_outputs m false Hm shell_banner eq_refl c Hc) as (c1 & E1 & Hc1 & Hs1).
  destruct (println_lit m false Hm "[init] Shell crashed, respawning..." eq_refl c1 Hc1) as (c2 & E2 & Hc2 & Hs2).
  destruct (IH c2 Hc2) as (c3 & E3 & Hs3). exists c3.
  unfold mbind, prog_bind. rewrite E1.
  replace (shell_loop n (mkState m c1 false)) with (Returns (true, mkState m c1 false)) by (by destruct n).
  rewrite E2. split; [exact E3|]. rewrite Hs3, Hs2, Hs1. cbn [replicate concat]. by rewrite <- !app_assoc.
Qed.

(** The loop of [sysinfo] clears each digit before it is moved. *)
Lemma sysinfo_shift_spec ds :
  (1 ≤ length ds ≤ 14)%nat →
  ∃ r, sysinfo_shift (replicate (15 - length ds) 0 ++ ds ++ [0]) (Z.of_nat (15 - length ds)) =
       match ds with d :: _ :: _ => [d] | _ => [] end ++ 0 :: r.
Proof.
  intros Hl.
  do 15 (destruct ds as [|? ds]; [first [cbn in Hl; lia|eexists; vm_compute; reflexivity]|]).
  cbn [length] in Hl. lia.
Qed.

(** [sysinfo] shows the first digit of the process id, and nothing of a single digit. *)
Theorem sysinfo_pid_first_digit pid (Hpid : 0 < pid < 10 ^ 14) :
  c_text (sysinfo_pid_str pid) = match fmt_dec pid with d :: _ :: _ => [d] | _ => [] end.
Proof.
  destruct (pid_buffer pid Hpid) as (Hl & Hz & E). unfold sysinfo_pid_str.
  rewrite (proj2 (Z.eqb_neq pid 0)), E by lia. destruct (sysinfo_shift_spec (fmt_dec pid) Hl) as [r Es].
  rewrite Z.sub_add, Es. apply c_text_stop. destruct Hz as [|d ds Hd _]; [by apply Forall_nil_2|].
  destruct ds; [by apply Forall_nil_2|]. by apply Forall_cons_2; [|apply Forall_nil_2].
Qed.

(** ** The commands *)

(** What a command line prints on this kernel, and the working directory after it. *)
Definition command_output (cwd : list Z) (ws : list (list Z)) : list Z :=
  match ws with
  | [] => []
  | cmd :: args =>
      if bool_decide (cmd = str "ls") then
        str "ls: cannot open '" ++ default cwd (head args) ++ ln (str "'")
      else if bool_decide (cmd = str "cat") then
        match args with
        | [] => ln (str "cat: missing file operand")
        | path :: _ => str "cat: " ++ path ++ ln (str ": No such file")
        end
      else if bool_decide (cmd = str "cd") then []
      else if bool_decide (cmd = str "pwd") then ln cwd
      else if bool_decide (cmd = str "mkdir") then
        match args with
        | [] => ln (str "mkdir: missing operand")
        | path :: _ => str "mkdir: cannot create '" ++ path ++ ln (str "'")
        end
      else if bool_decide (cmd = str "mount") then
        if (length args <? 3)%nat then ln (str "mount: usage: mount <device> <path> <fstype>")
        else ln (str "mount: failed")
      else if bool_decide (cmd = str "sysinfo") then lines sysinfo_lines ++ ln (str "Current PID: ")
      else if bool_decide (cmd = str "help") then lines help_lines
      else if bool_decide (cmd = str "exit") then ln (str "Goodbye!")
      else str "shell: unknown command: " ++ ln cmd
  end.

Definition command_cwd (cwd : list Z) (ws : list (list Z)) : list Z :=
  match ws with
  | cmd :: args =>
      if bool_decide (cmd = str "cd") then
        match args with [] => [47] | path :: _ => cd_target cwd path end
      else cwd
  | [] => cwd
  end.

Lemma str_bytes x : byte_text (str x).
Proof.
  induction x as [|ch x IH]; [by apply Forall_nil_2|]. apply Forall_cons_2; [|exact IH].
  pose proof (Ascii.N_ascii_bounded ch). lia.
Qed.

Lemma command_named m c r cmd w x :
  loaded m → is_literal x = true → string_at m cmd w → byte_text w →
  named cmd x (mkState m c r) = Returns (bool_decide (w = str x), mkState m c r).
Proof.
  intros Hm Hx (Hw & Hl & _) Hb. unfold named, mbind, prog_bind, memory. cbn [um].
  destruct (Hm x Hx) as (Hs & _).
  pose proof (strcmp_zero fuel m cmd (lit x) w (str x) Hl Hw Hs Hb (str_bytes x)) as Hz.
  unfold mret, prog_ret. do 2 f_equal. case_bool_decide as E.
  - by apply Z.eqb_eq, Hz.
  - apply Z.eqb_neq. intros H. by apply E, Hz.
Qed.

Lemma Forall2_with_r {A B} (R : A → B → Prop) (Q : B → Prop) l k :
  Forall2 R l k → Forall Q k → Forall2 (λ x y, R x y ∧ Q y) l k.
Proof.
  induction 1 as [|x y l k Hxy _ IH]; intros HQ; [apply Forall2_nil_2|].
  apply Forall_cons in HQ as [Hy HQ]. apply Forall2_cons_2; [done|by apply IH].
Qed.

(** A word of the line: a string that is not in the buffer of the working directory. *)
Definition word_at (m : mem) (a : Z) (w : list Z) : Prop :=
  string_at m a w ∧ byte_text w ∧ (length w < 1024)%nat ∧
  (a + Z.of_nat (length w) + 1 ≤ g_cwd ∨ g_cwd + 512 ≤ a).

Section Commands.
Context (m : mem) (cwd : list Z) (args : list Z) (ws : list (list Z)).
Context (Hfu : (1024 < fuel)%nat) (Hm : loaded m) (Hargs : Forall2 (word_at m) args ws)
        (Hcwd : string_at m g_cwd cwd ∧ byte_text cwd ∧ (length cwd < 512)%nat)
        (Hg : separate g_cwd 512 ∧ g_cwd + 512 < 2 ^ 63)
        (Hpid : separate pid_buf 16 ∧ 0 ≤ pid_buf ∧ pid_buf + 16 < 2 ^ 63 ∧
                (pid_buf + 16 ≤ g_cwd ∨ g_cwd + 512 ≤ pid_buf)).

Lemma word_outputs a w : word_at m a w → outputs (print a) m true w.
Proof. intros [Hw _]. by apply print_outputs. Qed.

Lemma cmd_ls_outputs a w args' ws' :
  word_at m a w → Forall2 (word_at m) args' ws' →
  outputs (cmd_ls (a :: args')) m true (str "ls: cannot open '" ++ default cwd (head ws') ++ ln (str "'")).
Proof.
  intros Hw Hws. unfold cmd_ls. fails. cbn [Z.ltb Z.compare].
  apply outputs_bind; [by apply print_lit|]. apply outputs_bind; [|by apply println_lit].
  destruct Hws as [|a1 w1 args1 ws1 H1 H2]; [apply print_outputs, Hcwd|by apply word_outputs].
Qed.

Lemma cmd_cat_outputs a args' ws' :
  Forall2 (word_at m) args' ws' →
  outputs (cmd_cat (a :: args')) m true
    (match ws' with [] => ln (str "cat: missing file operand")
     | path :: _ => str "cat: " ++ path ++ ln (str ": No such file") end).
Proof.
  intros [|a1 w1 args1 ws1 H1 H2]; unfold cmd_cat; cbn [length Nat.ltb Nat.leb]; [by apply println_lit|].
  fails. cbn [Z.ltb Z.compare]. apply outputs_bind; [by apply print_lit|].
  apply outputs_bind; [by apply word_outputs|by apply println_lit].
Qed.

Lemma cmd_mkdir_outputs a args' ws' :
  Forall2 (word_at m) args' ws' →
  outputs (cmd_mkdir (a :: args')) m true
    (match ws' with [] => ln (str "mkdir: missing operand")
     | path :: _ => str "mkdir: cannot create '" ++ path ++ ln (str "'") end).
Proof.
  intros [|a1 w1 args1 ws1 H1 H2]; unfold cmd_mkdir; cbn [length Nat.ltb Nat.leb]; [by apply println_lit|].
  fails. cbn [Z.ltb Z.compare]. apply outputs_bind; [by apply print_lit|].
  apply outputs_bind; [by apply word_outputs|by apply println_lit].
Qed.

Lemma cmd_mount_outputs a args' ws' :
  Forall2 (word_at m) args' ws' →
  outputs (cmd_mount (a :: args')) m true
    (if (length ws' <? 3)%nat then ln (str "mount: usage: mount <device> <path> <fstype>")
     else ln (str "mount: failed")).
Proof.
  intros <-%Forall2_length. unfold cmd_mount. change (length (a :: args') <? 4)%nat with (length args' <? 3)%nat.
  destruct (length args' <? 3)%nat; [by apply println_lit|]. fails. by apply println_lit.
Qed.

(** The memory after a command: the working directory is [d], and only its buffer
    and the one for the process id have changed. *)
Definition after (m' : mem) (d : list Z) : Prop :=
  cstring m' g_cwd d ∧ (length d < 512)%nat ∧
  ∀ b, ¬ (g_cwd ≤ b < g_cwd + 512) → ¬ (pid_buf ≤ b < pid_buf + 16) → rd m' b = rd m b.

Definition behaves (p : prog unit) (r : bool) (txt d : list Z) : Prop :=
  ∀ c, on_screen c → ∃ m' c', p (mkState m c true) = Returns (tt, mkState m' c' r) ∧ on_screen c' ∧
    serial c' = serial c ++ txt ∧ after m' d.

Lemma outputs_behaves p txt : outputs p m true txt → behaves p true txt cwd.
Proof.
  intros Hp c Hc. destruct (Hp c Hc) as (c' & E & Hc' & Hs). exists m, c'. do 3 (split; [done|]).
  destruct Hcwd as ((H1 & _) & _ & H2). split; [exact H1|]. split; [exact H2|]. done.
Qed.

Lemma cmd_cd_behaves a args' ws' :
  Forall2 (word_at m) args' ws' →
  behaves (cmd_cd (a :: args')) true []
    (match ws' with [] => [47] | path :: _ => cd_target cwd path end).
Proof.
  intros Hws c Hc. destruct Hcwd as ((H1 & H2 & H3 & H4) & H5 & H6), Hg as [Hg1 Hg2].
  destruct (Hm "/"%string eq_refl) as ((Hs1 & Hs2) & _ & Hs3 & Hs4).
  pose proof (Hg1 "/"%string eq_refl) as Hsep. change (str "/") with [47] in *. cbn [length] in *.
  eexists _, c. split; [reflexivity|]. split; [done|]. split; [by rewrite app_nil_r|].
  destruct Hws as [|a1 w1 args1 ws1 [(Hw1 & _ & Hw2 & Hw3) (Hw4 & Hw5 & Hw6)] _].
  - destruct (strcpy_spec fuel m g_cwd (lit "/") [47]) as [E1 E2]; [cbn; lia|done|cbn; lia|].
    split; [exact E1|]. split; [cbn; lia|]. intros b Hb _. apply E2. cbn. lia.
  - destruct (cmd_cd_spec fuel m g_cwd (lit "/") a1 cwd w1) with (cmd := a) as (E1 & E2 & E3); try done; try lia.
    split; [exact E1|]. split; [exact E2|]. intros b Hb _. apply E3. lia.
Qed.

Lemma cmd_sysinfo_behaves : behaves cmd_sysinfo true (lines sysinfo_lines ++ ln (str "Current PID: ")) cwd.
Proof.
  intros c Hc. destruct Hpid as (Hp1 & Hp2 & Hp3 & Hp4), Hcwd as ((H1 & _) & _ & H2). unfold cmd_sysinfo.
  destruct (printlns_outputs m true Hm sysinfo_lines eq_refl c Hc) as (c1 & E1 & Hc1 & Hs1).
  destruct (print_lit m true Hm "Current PID: " eq_refl c1 Hc1) as (c2 & E2 & Hc2 & Hs2).
  rewrite (prog_then _ _ _ _ _ E1). rewrite (prog_then _ _ _ 1 (mkState m c1 true)) by reflexivity.
  rewrite (prog_then _ _ _ _ _ E2).
  rewrite (prog_then (put_local _ _) _ _ tt (mkState (local m pid_buf (sysinfo_pid_str 1)) c2 true)) by reflexivity.
  set (l := sysinfo_pid_str 1). assert (Hl : length l = 16%nat) by (by vm_compute).
  assert (Ht : c_text l = [] ∧ ∃ l2, l = 0 :: l2) by (vm_compute; split; [done|by eexists]).
  destruct Ht as (Ht & l2 & El). set (m1 := local m pid_buf l).
  assert (Hf1 : ∀ b, ¬ (pid_buf ≤ b < pid_buf + 16) → rd m1 b = rd m b).
  { intros b Hb. unfold m1. apply local_frame. rewrite Hl. lia. }
  assert (Hm1 : loaded m1) by (by eapply loaded_frame).
  assert (Hs : string_at m1 pid_buf []).
  { rewrite <- Ht. apply local_string; rewrite ?Hl; [lia|lia|lia|]. exists [], l2. split; [exact El|exact Ht]. }
  clearbody m1. destruct (println_outputs m1 true Hm1 pid_buf [] Hs c2 Hc2) as (c3 & E3 & Hc3 & Hs3).
  exists m1, c3. split; [exact E3|]. split; [exact Hc3|]. split.
  - rewrite Hs3, Hs2, Hs1. unfold ln. by rewrite <- !app_assoc.
  - split; [|split; [exact H2|intros b _; apply Hf1]].
    eapply cstring_frame; [|exact H1]. intros b Hb. apply Hf1. lia.
Qed.

Lemma cmd_exit_behaves : behaves cmd_exit false (ln (str "Goodbye!")) cwd.
Proof.
  intros c Hc. destruct (println_lit m true Hm "Goodbye!" eq_refl c Hc) as (c1 & E1 & Hc1 & Hs1).
  exists m, c1. unfold cmd_exit. rewrite (prog_then _ _ _ _ _ E1). do 3 (split; [done|]).
  destruct Hcwd as ((H1 & _) & _ & H2). split; [exact H1|]. split; [exact H2|]. done.
Qed.

(** Whether the shell goes on after a line. *)
Definition goes_on (l : list (list Z)) : bool :=
  match l with cmd :: _ => negb (bool_decide (cmd = str "exit")) | [] => true end.

Lemma behaves_eq p r r' t t' d d' : behaves p r t d → r = r' → t = t' → d = d' → behaves p r' t' d'.
Proof. by intros H <- <- <-. Qed.

(** One [else if] of [execute_command]. *)
Ltac branch x :=
  match goal with
  | Hm : loaded ?m, H1 : string_at ?m ?a ?w, H2 : byte_text ?w |- _ =>
      let c := fresh in let Hc := fresh in
      let N := fresh "N" in
      destruct (decide (w = str x)) as [->|N];
      [eapply behaves_eq;
       [intros c Hc; rewrite (prog_then _ _ _ _ _ (command_named m c true a _ x Hm eq_refl H1 H2));
        rewrite bool_decide_eq_true_2 by reflexivity; revert c Hc
       |vm_compute; reflexivity|reflexivity|reflexivity]
      |intros c Hc; rewrite (prog_then _ _ _ _ _ (command_named m c true a w x Hm eq_refl H1 H2));
       rewrite bool_decide_eq_false_2 by exact N; revert c Hc]
  end.

Lemma execute_command_behaves :
  behaves (execute_command args) (goes_on ws) (command_output cwd ws) (command_cwd cwd ws).
Proof.
  destruct Hargs as [|a w args' ws' Hw Hws]; [apply outputs_behaves, outputs_ret|].
  pose proof Hw as (Hw1 & Hw2 & _). unfold execute_command. cbn [length Nat.eqb token nth].
  branch "ls"%string.
  { apply outputs_behaves. by apply (cmd_ls_outputs a (str "ls")). }
  branch "cat"%string.
  { apply outputs_behaves. by apply (cmd_cat_outputs a args' ws'). }
  branch "cd"%string.
  { by apply cmd_cd_behaves. }
  branch "pwd"%string.
  { apply outputs_behaves. apply println_outputs; [done|apply Hcwd]. }
  branch "mkdir"%string.
  { apply outputs_behaves. by apply (cmd_mkdir_outputs a args' ws'). }
  branch "mount"%string.
  { apply outputs_behaves. by apply (cmd_mount_outputs a args' ws'). }
  branch "sysinfo"%string.
  { apply cmd_sysinfo_behaves. }
  branch "help"%string.
  { apply outputs_behaves. by apply printlns_outputs. }
  branch "exit"%string.
  { apply cmd_exit_behaves. }
  unfold goes_on, command_output, command_cwd. rewrite !bool_decide_eq_false_2 by assumption.
  apply outputs_behaves, outputs_bind; [by apply print_lit|]. by apply println_outputs.
Qed.
End Commands.

(** C34. A line the user's shell has read is split into its first sixteen words and
    executed: every command prints exactly what [command_output] says - on this
    kernel [ls], [cat], [mkdir] and [mount] all fail and [sysinfo] shows no process
    id -, the working directory becomes [command_cwd], [exit] and nothing else ends
    the loop, and no byte outside the line, the working directory and the buffer on
    the stack changes. *)
Theorem user_shell_runs_line m c s cwd
    (Hfu : (1024 < fuel)%nat) (Hm : loaded m) (Hc : on_screen c)
    (Hline : cstring m g_input_line s ∧ byte_text s ∧ (length s < 1024)%nat)
    (Hbuf : separate g_input_line 1024 ∧ 0 ≤ g_input_line ∧ g_input_line + 1024 < 2 ^ 63)
    (Hcwd : string_at m g_cwd cwd ∧ byte_text cwd ∧ (length cwd < 512)%nat)
    (Hg : separate g_cwd 512 ∧ g_cwd + 512 < 2 ^ 63)
    (Hd : g_input_line + 1024 ≤ g_cwd ∨ g_cwd + 512 ≤ g_input_line)
    (Hpid : separate pid_buf 16 ∧ 0 ≤ pid_buf ∧ pid_buf + 16 < 2 ^ 63 ∧
            (pid_buf + 16 ≤ g_cwd ∨ g_cwd + 512 ≤ pid_buf)) :
  let ws := take 16 (words s) in
  ∃ m' c', run_line (mkState m c true) = Returns (tt, mkState m' c' (goes_on ws)) ∧
    serial c' = serial c ++ command_output cwd ws ∧
    cstring m' g_cwd (command_cwd cwd ws) ∧ (length (command_cwd cwd ws) < 512)%nat ∧
    ∀ b, ¬ (g_cwd ≤ b < g_cwd + 512) → ¬ (pid_buf ≤ b < pid_buf + 16) →
         ¬ (g_input_line ≤ b < g_input_line + 1024) → rd m' b = rd m b.
Proof.
  intros ws. destruct Hline as (Hs & Hsb & Hsl), Hbuf as (Hb1 & Hb2 & Hb3).
  destruct (tokenize fuel m g_input_line) as [m1 args] eqn:E.
  destruct (tokenize_words fuel m g_input_line s m1 args ltac:(lia) Hs E) as [Hts Hfr].
  assert (Hfr1 : ∀ b, ¬ (g_input_line ≤ b < g_input_line + 1024) → rd m1 b = rd m b) by (intros b Hb; apply Hfr; lia).
  assert (Hm1 : loaded m1) by (by eapply loaded_frame).
  destruct Hcwd as (Hc1 & Hc2 & Hc3).
  assert (Hcwd1 : string_at m1 g_cwd cwd) by (eapply string_at_frame; [done| |exact Hfr1]; lia).
  assert (Hargs : Forall2 (word_at m1) args ws).
  { pose proof (Forall_take _ 16 _ (words_forall _ s Hsb)) as Hwb.
    eapply Forall2_impl; [exact (Forall2_with_r _ _ _ _ Hts Hwb)|].
    intros a w [(H1 & H2 & H3) H4]. split_and!; [|exact H4|lia|lia]. split; [exact H1|]. lia. }
  destruct (execute_command_behaves m1 cwd args ws Hfu Hm1 Hargs (conj Hcwd1 (conj Hc2 Hc3)) Hg Hpid c Hc)
    as (m2 & c2 & E2 & _ & Hs2 & H1 & H2 & H3).
  exists m2, c2. split; [|split; [exact Hs2|split; [exact H1|split; [exact H2|]]]].
  - unfold run_line, mbind, prog_bind. cbn [memory um]. rewrite E. exact E2.
  - intros b Hb4 Hb5 Hb6. rewrite H3 by done. by apply Hfr1.
Qed.
End Programs.

(** ** The programs in memory *)

(** The literals, one every 256 bytes. *)
Module Loaded.

Fixpoint slot (l : list string) (x : string) : Z :=
  match l with
  | [] => 0
  | y :: l => if String.eqb x y then 0 else 256 + slot l x
  end.
Definition lit (x : string) : Z := 0x10000 + slot literals x.

Definition image : mem := foldr (λ x m, local m (lit x) (str x ++ [0])) ∅ literals.

Fixpoint bytes_atb (m : mem) (a : Z) (l : list Z) : bool :=
  match l with
  | [] => true
  | b :: l => (rd m a =? b) && bytes_atb m (a + 1) l
  end.

Lemma bytes_atb_at m a l : bytes_atb m a l = true → bytes_at m a l.
Proof.
  revert a. induction l as [|b l IH]; intros a H; [done|]. apply andb_true_iff in H as [H1 H2].
  split; [by apply Z.eqb_eq|by apply IH].
Qed.

Definition string_atb (fuel : nat) (m : mem) (a : Z) (t : list Z) : bool :=
  bytes_atb m a (t ++ [0]) && forallb (λ c, negb (c =? 0)) t && (length t <? fuel)%nat && (0 <=? a) &&
  (a + Z.of_nat (length t) <? 2 ^ 63).

Lemma string_atb_at fuel m a t : string_atb fuel m a t = true → string_at fuel m a t.
Proof.
  unfold string_atb. intros H. repeat (apply andb_true_iff in H as [H ?]). split; [split|].
  - by apply bytes_atb_at.
  - apply Forall_forall. intros c Hc%list_elem_of_In.
    pose proof (proj1 (forallb_forall _ t) ltac:(eassumption) c Hc) as E. cbn in E. by destruct (Z.eqb_spec c 0).
  - rewrite Nat.ltb_lt, Z.leb_le, Z.ltb_lt in *. done.
Qed.

Lemma for_literals (P : string → bool) :
  forallb P literals = true → ∀ x, is_literal x = true → P x = true.
Proof.
  intros H x (y & Hy & ->%String.eqb_eq)%existsb_exists. exact (proj1 (forallb_forall P literals) H y Hy).
Qed.

Definition loadedb (fuel : nat) (m : mem) : bool := forallb (λ x, string_atb fuel m (lit x) (str x)) literals.

Lemma loadedb_loaded fuel m : loadedb fuel m = true → loaded fuel lit m.
Proof. intros H x Hx. apply string_atb_at. exact (for_literals _ H x Hx). Qed.

Definition separateb (a n : Z) : bool :=
  forallb (λ x, (lit x + Z.of_nat (length (str x)) + 1 <=? a) || (a + n <=? lit x)) literals.

Lemma separateb_separate a n : separateb a n = true → separate lit a n.
Proof.
  intros H x Hx. pose proof (for_literals _ H x Hx) as E. cbn beta in E.
  apply orb_true_iff in E as [E%Z.leb_le|E%Z.leb_le]; [by left|by right].
Qed.

(** [g_cwd] at 0x8000, [g_input_line] at 0x8200, the buffers on the stack at 0x9000. *)
Definition demo (line : list Z) : mem := local (local image 0x8000 [47; 0]) 0x8200 (line ++ [0]).

End Loaded.

Lemma init_prompts_forever_witness :
  ∃ s', init_main 64 Loaded.lit 0x8000 0x8200 0x9000 0x9100 0xA200 0x9000 5 3
          (mkState (Loaded.demo []) Console_new true) = Returns (false, s') ∧
    g_running s' = true ∧
    serial (uc s') = init_text ++ lines shell_banner ++ str "deltaos:/$ deltaos:/$ deltaos:/$ ".
Proof.
  refine (init_prompts_forever 64 Loaded.lit 0x8000 0x8200 0x9000 0x9100 0xA200 0x9000 5 3
            (Loaded.demo []) Console_new [47] _ _ _ _ _ _ _ _).
  - apply Nat.leb_le. vm_compute. reflexivity.
  - apply Loaded.loadedb_loaded. vm_compute. reflexivity.
  - split; split; vm_compute; congruence.
  - split; [apply Loaded.separateb_separate; vm_compute; reflexivity|lia].
  - apply Loaded.separateb_separate. vm_compute. reflexivity.
  - apply Loaded.string_atb_at. vm_compute. reflexivity.
  - left. cbn. lia.
  - left. cbn. lia.
Defined.

Lemma user_shell_runs_line_witness :
  let line := str "  cd  /mnt/disk" in
  ∃ m' c', run_line 1025 Loaded.lit 0x8000 0x8200 0x9000 0x9100 0xA200
             (mkState (Loaded.demo line) Console_new true) = Returns (tt, mkState m' c' true) ∧
    serial c' = [] ∧ cstring m' 0x8000 (str "/mnt/disk").
Proof.
  intros line.
  assert (Hf : (1024 < 1025)%nat) by (apply Nat.ltb_lt; vm_compute; reflexivity).
  destruct (user_shell_runs_line 1025 Loaded.lit 0x8000 0x8200 0x9000 0x9100 0xA200
              (Loaded.demo line) Console_new line [47] Hf)
    as (m' & c' & E & Hs & Hc & _).
  - apply Loaded.loadedb_loaded. vm_compute. reflexivity.
  - split; split; vm_compute; congruence.
  - split; [|split].
    + apply (Loaded.string_atb_at 1025). vm_compute. reflexivity.
    + apply str_bytes.
    + apply Nat.ltb_lt. vm_compute. reflexivity.
  - split; [apply Loaded.separateb_separate; vm_compute; reflexivity|lia].
  - split; [apply Loaded.string_atb_at; vm_compute; reflexivity|].
    split; [apply (str_bytes "/")|apply Nat.ltb_lt; vm_compute; reflexivity].
  - split; [apply Loaded.separateb_separate; vm_compute; reflexivity|lia].
  - right. lia.
  - split; [apply Loaded.separateb_separate; vm_compute; reflexivity|lia].
  - exists m', c'. split; [exact E|]. split; [exact Hs|exact Hc].
Defined.
End UserShell.
