(* ===== verification/Shell.v ===== *)
(** * The kernel shell (src/lib.rs, commands and line editor)

    Module [Shell] has the statics the commands use, one definition per
    command, the two number parsers, the dispatch of a line, and the line editor
    with its 256-byte buffer.  Commands that touch devices are in the monad of
    device accesses; what they print goes to the console of the state. *)

From stdpp Require Import base numbers list gmap strings.
From S2P Require Import Prelude Memory Text Pmm Task Scheduler Console Timer Apic Device Interrupts.
Import Text.Text Device.Device.
Open Scope Z_scope.

Module Shell.
Import Console.Console Interrupts.Keyboard Interrupts.Interrupts.

(** The part of [KERNEL_STATE] the commands read, [DEV_MODE], the statics of
    the interrupt handlers, and the memory and counters tasks are made from. *)
Record System := mkSystem {
  kernel : Kernel;
  globals : Task.Globals;
  pmm : option Pmm.Pmm;
  vmm : option Z;
  DEV_MODE : bool
}.

Definition with_kernel (f : Kernel → Kernel) (s : System) : System :=
  mkSystem (f (kernel s)) (globals s) (pmm s) (vmm s) (DEV_MODE s).
Definition with_console (f : Console → Console) (s : System) : System :=
  with_kernel (λ k, set_console (f (console k)) k) s.
Definition with_scheduler (x : Scheduler.Scheduler) (s : System) : System :=
  with_kernel (set_scheduler (Some x)) s.
Definition set_dev_mode (b : bool) (s : System) : System :=
  mkSystem (kernel s) (globals s) (pmm s) (vmm s) b.

(** [kprint!] and [kprintln!]. *)
Definition print (msg : text) (s : System) : System := with_kernel (kprint msg) s.
Definition println (msg : text) (s : System) : System := print (msg ++ [10]) s.
Definition print_lines (l : list string) (s : System) : System :=
  foldl (λ s line, println (str line) s) s l.
Definition set_color (fg bg : Z) (s : System) : System := with_console (vga_set_color fg bg) s.

(** ** Numbers *)

Definition inchar (lo hi ch : Z) : bool := (lo <=? ch) && (ch <=? hi).

Fixpoint hex_chars (s : text) (result : Z) : Z :=
  match s with
  | [] => result
  | ch :: s =>
      let result := (result * 16)%usize in
      if inchar 48 57 ch then hex_chars s (result + (ch - 48))%usize
      else if inchar 97 102 ch then hex_chars s (result + (ch - 97 + 10))%usize
      else if inchar 65 70 ch then hex_chars s (result + (ch - 65 + 10))%usize
      else 0
  end.

Definition parse_hex (s : text) : Z :=
  let s := default s (strip_prefix s (str "0x")) in
  let s := default s (strip_prefix s (str "0X")) in
  hex_chars s 0.

Fixpoint dec_chars (s : text) (result : Z) : Z :=
  match s with
  | [] => result
  | ch :: s =>
      let result := (result * 10)%usize in
      if inchar 48 57 ch then dec_chars s (result + (ch - 48))%usize else 0
  end.

Definition parse_int (s : text) : Z :=
  if starts_with s (str "0x") || starts_with s (str "0X") then parse_hex s
  else dec_chars s 0.

(** [{:02}] and [{:02X}]. *)
Definition fmt_02 (n : Z) : text := pad_left 2 48 (fmt_dec n).
Definition fmt_02X (n : Z) : text := pad_left 2 48 (fmt_radix 16 n).

(** ** The clock *)

Definition bcd_to_binary (val : Z) : Z :=
  wrap 8 (Z.land val 0x0F + wrap 8 (Z.shiftr val 4 * 10)).

Section Commands.
Context {D : Device}.

(** The addresses the linker gives to the tasks of [run] and to the end of the
    kernel, and the control registers. *)
Context (demo_task counter_task idle_test_task kernel_end : Z).
Context (cr0 cr2 cr3 cr4 : Z).

Definition read_cmos (reg : Z) : io Z := outb 0x70 reg;; inb 0x71.

Definition read_rtc : io (Z * Z * Z * Z * Z * Z) :=
  seconds ← read_cmos 0x00;
  minutes ← read_cmos 0x02;
  hours ← read_cmos 0x04;
  day ← read_cmos 0x07;
  month ← read_cmos 0x08;
  year ← read_cmos 0x09;
  mret (bcd_to_binary seconds, bcd_to_binary minutes, bcd_to_binary hours,
        bcd_to_binary day, bcd_to_binary month, bcd_to_binary year).

(** ** Commands *)

Definition rule : string := "========================================".
Definition on_off (b : bool) : text := if b then str "ON" else str "OFF".

Definition info_lines : list string :=
  [rule; "  DeltaOS v0.2.0"; "  64-bit Rust Operating System"; rule;
   "  Architecture:   x86_64 (long mode)"; "  Kernel:         Rust #![no_std]";
   "  Bootloader:     NASM (multiboot2)";
   "  Memory Manager: PMM (bitmap) + VMM (4-level paging)";
   "  Heap:           Slab allocator (10 classes)";
   "  Scheduler:      Round-Robin + priorities + preemptive";
   "  VFS:            Trait-oriented (NTFS + ramfs)";
   "  Drivers:        AHCI, NVMe, PS/2 Keyboard (C)";
   "  Shell:          Kernel-space CLI"; "  Timer:          PIT + HPET + LAPIC Timer";
   "  Interrupts:     PIC/APIC with preemptive scheduling"].

Definition cmd_info (s : System) : io System :=
  let s := print_lines info_lines s in
  let s :=
    match pmm s with
    | Some p =>
        println (str "  PMM total:      " ++ fmt_dec (Pmm.total_pages p) ++ str " pages (" ++
                 fmt_dec ((Pmm.total_pages p * 4096)%usize / 1024 / 1024) ++ str " MB)")
          (println (str "  PMM free:       " ++ fmt_dec (Pmm.free_page_count p) ++ str " pages (" ++
                    fmt_dec (Pmm.free_memory p / 1024) ++ str " KB)") s)
    | None => s
    end in
  let s := println (str "  Dev mode:       " ++ on_off (DEV_MODE s)) s in
  s ← (if Apic.is_available (apic (kernel s)) then
         i ← Apic.lapic_id (apic (kernel s));
         mret (println (str "  APIC:           Local APIC active (ID: " ++ fmt_dec i ++ str ")") s)
       else mret (println (str "  APIC:           Legacy PIC mode") s));
  let s :=
    match scheduler (kernel s) with
    | Some sc =>
        let st := Scheduler.stats sc in
        let s := println (str "  Preemption:     " ++ on_off (Scheduler.preemption_enabled st)) s in
        let s := println (str "  Tasks:          " ++ fmt_dec (Scheduler.total_tasks st) ++
                          str " total, " ++ fmt_dec (Scheduler.ready_tasks st) ++ str " ready") s in
        println (str "  Context sw:     " ++ fmt_dec (Scheduler.stat_context_switches st)) s
    | None => s
    end in
  let s := println (str "  Uptime:         " ++ fmt_dec (Timer.uptime_sec (timer (kernel s))) ++
                    str " sec") s in
  mret (println (str rule) s).

Definition cmd_time (s : System) : io System :=
  r ← read_rtc;
  let '(sec, min, hour, day, month, year) := r in
  let s := println (str "RTC: 20" ++ fmt_02 year ++ str "-" ++ fmt_02 month ++ str "-" ++ fmt_02 day ++
                    str " " ++ fmt_02 hour ++ str ":" ++ fmt_02 min ++ str ":" ++ fmt_02 sec) s in
  mret (println (str "Uptime: " ++ fmt_dec (Timer.uptime_ms (timer (kernel s))) ++ str " ms (" ++
                 fmt_dec (Timer.tick_count (timer (kernel s))) ++ str " ticks)") s).

Definition cmd_dev (s : System) : System :=
  let s := set_dev_mode (negb (DEV_MODE s)) s in
  if DEV_MODE s then
    let s := set_color 0x0A 0x00 s in
    let s := print_lines ["[DEV] Developer mode ON"; "[DEV] Access: root";
                          "[DEV] Features: memory dump, register view, direct I/O"]%string s in
    let s :=
      match pmm s with
      | Some p =>
          println (str "[DEV] PMM bitmap at: " ++ fmt_hex PMM_BITMAP_BASE)
            (println (str "[DEV] PMM: " ++ fmt_dec (Pmm.free_page_count p) ++ str " free / " ++
                      fmt_dec (Pmm.total_pages p) ++ str " total pages") s)
      | None => s
      end in
    let s := match vmm s with Some _ => println (str "[DEV] VMM: PML4 at CR3") s | None => s end in
    let s := println (str "[DEV] Heap: " ++ fmt_hex HEAP_BASE ++ str "-" ++
                      fmt_hex (HEAP_BASE + HEAP_SIZE)) s in
    println (str "[DEV] Kernel end: " ++ fmt_hex kernel_end) s
  else
    println (str "[DEV] Developer mode OFF") (set_color 0x0F 0x00 s).

Definition cmd_dev_mem (args : list text) (s : System) : System :=
  match args with
  | _ :: arg :: _ =>
      let addr := parse_hex arg in
      if addr =? 0 then println (str "Invalid address") s
      else
        let s := println (str "Memory at " ++ fmt_hex addr ++ str ":") s in
        let s :=
          for_each 0 64
            (λ i s,
               let s := if i mod 16 =? 0
                        then print ([10] ++ str "  " ++ fmt_hex (addr + i)%usize ++ str ": ") s else s in
               let val := rd (Task.gmem (globals s)) (addr + i)%usize in
               print (fmt_02X val ++ str " ") s) s in
        print [10] s
  | _ => println (str "Usage: mem <address>") s
  end.

Definition cmd_dev_regs (s : System) : System :=
  let s := println (str "CR0: " ++ fmt_hex cr0) s in
  let s := println (str "CR2: " ++ fmt_hex cr2) s in
  let s := println (str "CR3: " ++ fmt_hex cr3) s in
  println (str "CR4: " ++ fmt_hex cr4) s.

Definition cmd_dev_io (args : list text) (s : System) : io System :=
  match args with
  | _ :: dir :: arg :: rest =>
      let port := parse_hex arg in
      if (port =? 0) && negb (bool_decide (arg = str "0")) && negb (bool_decide (arg = str "0x0"))
      then mret (println (str "Invalid port") s)
      else if bool_decide (dir = str "in") then
        val ← inb (wrap 16 port);
        mret (println (str "IN " ++ fmt_hex port ++ str ": " ++ fmt_hex val) s)
      else if bool_decide (dir = str "out") then
        match rest with
        | [] => mret (println (str "Usage: io out <port> <value>") s)
        | v :: _ =>
            let val := parse_hex v in
            outb (wrap 16 port) (wrap 8 val);;
            mret (println (str "OUT " ++ fmt_hex port ++ str " <- " ++ fmt_hex val) s)
        end
      else mret s
  | _ => mret (println (str "Usage: io <in|out> <port> [value]") s)
  end.

Definition help_lines : list string :=
  ["DeltaOS Shell v0.2.0 - Available commands:";
   "  info          - Show system information";
   "  time          - Show RTC time and uptime";
   "  dev           - Toggle developer mode";
   "  clear         - Clear screen";
   "  help          - Show this help";
   "  reboot        - Reboot system";
   "";
   "  Process Management:";
   "  ps            - List all processes";
   "  kill <id>     - Kill a process (SIGKILL)";
   "  run <name>    - Run a kernel task";
   "  bg <id>       - Resume stopped process in background";
   "  fg <id>       - Bring process to foreground";
   "  sched         - Show scheduler statistics"].

Definition dev_help_lines : list string :=
  [""; "[DEV] Developer commands:";
   "  mem <addr>    - Dump memory at address";
   "  regs          - Show CPU registers (CR0-CR4)";
   "  io <in|out> <port> [val] - I/O port access";
   "  pmm           - PMM status";
   "  apic          - APIC status";
   "  dev           - Turn off developer mode"].

Definition cmd_help (s : System) : System :=
  let s := print_lines help_lines s in
  if DEV_MODE s
  then set_color 0x0F 0x00 (print_lines dev_help_lines (set_color 0x0A 0x00 s))
  else s.

Definition cmd_clear (s : System) : System := with_console vga_clear s.

Definition cmd_reboot (s : System) : io System := outb 0x64 0xFE;; mret s.

Definition cmd_dev_pmm (s : System) : System :=
  match pmm s with
  | Some p =>
      let s := println (str "PMM Status:") s in
      let s := println (str "  Total pages:   " ++ fmt_dec (Pmm.total_pages p)) s in
      let s := println (str "  Free pages:    " ++ fmt_dec (Pmm.free_page_count p)) s in
      let s := println (str "  Used pages:    " ++ fmt_dec (Pmm.used_pages p)) s in
      let s := println (str "  Free memory:   " ++ fmt_dec (Pmm.free_memory p / 1024) ++ str " KB") s in
      println (str "  Used memory:   " ++ fmt_dec (Pmm.used_memory p / 1024) ++ str " KB") s
  | None => println (str "PMM not initialized") s
  end.

Definition ps_line (i : Scheduler.TaskInfo) : text :=
  str "  " ++ pad_left 3 32 (fmt_dec (Scheduler.info_id i)) ++
  str "  " ++ pad_right 16 (str (Scheduler.info_name i)) ++
  str " " ++ pad_right 6 (str (Task.state_str (Scheduler.info_state i))) ++
  str " " ++ pad_right 4 (str (Task.priority_str (Scheduler.info_priority i))) ++
  str " " ++ pad_right 4 (match Scheduler.info_task_type i with
                          | Task.Kernel => str "K"
                          | Task.User => str "U"
                          end) ++
  str "  " ++ pad_right 3 (str (Task.fg_str (Scheduler.info_foreground i))) ++
  str " " ++ fmt_dec (Scheduler.info_cpu_ticks i).

Definition cmd_ps (s : System) : System :=
  match scheduler (kernel s) with
  | Some sc =>
      let tasks := Scheduler.list_tasks sc in
      match tasks with
      | [] => println (str "No tasks") s
      | _ =>
          let s := print_lines ["  PID  NAME             STATE  PRI  TYPE  FG  CPU_T";
                                "  ---  ----             -----  ---  ----  --  -----"]%string s in
          let s := foldl (λ s i, println (ps_line i) s) s tasks in
          println (str "  Total: " ++ fmt_dec (Z.of_nat (length tasks)) ++ str " tasks") s
      end
  | None => println (str "Scheduler not initialized") s
  end.

Definition cmd_kill (args : list text) (s : System) : System :=
  match args with
  | [] => println (str "Usage: kill <pid>") s
  | arg :: _ =>
      let pid := parse_int arg in
      if pid =? 0 then println (str "Invalid PID") s
      else
        match scheduler (kernel s) with
        | Some sc =>
            let '(sc, r) := Scheduler.terminate_task sc pid (-9) in
            let s := with_scheduler sc s in
            match r with
            | Ok _ => println (str "Killed process " ++ fmt_dec pid) s
            | Err AccessDenied => println (str "Cannot kill system process " ++ fmt_dec pid) s
            | Err InvalidArgument => println (str "Process " ++ fmt_dec pid ++ str " not found") s
            | Err e => println (str "Error: " ++ fmt_error e) s
            end
        | None => s
        end
  end.

(** The entry point of a task [run] knows. *)
Definition run_entry (nm : text) : option (Z * string) :=
  if bool_decide (nm = str "demo") then Some (demo_task, "demo"%string)
  else if bool_decide (nm = str "counter") then Some (counter_task, "counter"%string)
  else if bool_decide (nm = str "idle_test") then Some (idle_test_task, "idle_test"%string)
  else None.

Definition cmd_run (args : list text) (s : System) : System :=
  match args with
  | [] => print_lines ["Usage: run <name>"; "Available: demo, counter, idle_test"]%string s
  | nm :: _ =>
      match run_entry nm with
      | None =>
          println (str "Available: demo, counter, idle_test") (println (str "Unknown task: " ++ nm) s)
      | Some (entry, name) =>
          match scheduler (kernel s) with
          | Some sc =>
              let '(g, sc, i) := Scheduler.create_kernel_task (globals s) sc entry name
                                   (Timer.tick_count (timer (kernel s))) in
              let s := mkSystem (set_scheduler (Some sc) (kernel s)) g (pmm s) (vmm s) (DEV_MODE s) in
              println (str "Started task '" ++ nm ++ str "' with PID " ++ fmt_dec i) s
          | None => println (str "Scheduler not initialized") s
          end
      end
  end.

Definition cmd_bg (args : list text) (s : System) : System :=
  match args with
  | [] => println (str "Usage: bg <pid>") s
  | arg :: _ =>
      let pid := parse_int arg in
      match scheduler (kernel s) with
      | Some sc =>
          let '(sc, r) := Scheduler.background_task sc pid in
          let s := with_scheduler sc s in
          match r with
          | Ok _ => println (str "Process " ++ fmt_dec pid ++ str " resumed in background") s
          | Err InvalidArgument =>
              println (str "Process " ++ fmt_dec pid ++ str " not found or not stopped") s
          | Err e => println (str "Error: " ++ fmt_error e) s
          end
      | None => s
      end
  end.

Definition cmd_fg (args : list text) (s : System) : System :=
  match args with
  | [] => println (str "Usage: fg <pid>") s
  | arg :: _ =>
      let pid := parse_int arg in
      match scheduler (kernel s) with
      | Some sc =>
          let '(sc, r) := Scheduler.foreground_task sc pid in
          let s := with_scheduler sc s in
          match r with
          | Ok _ => println (str "Process " ++ fmt_dec pid ++ str " brought to foreground") s
          | Err InvalidArgument =>
              println (str "Process " ++ fmt_dec pid ++ str " not found or already foreground") s
          | Err e => println (str "Error: " ++ fmt_error e) s
          end
      | None => s
      end
  end.

Definition cmd_sched (s : System) : System :=
  match scheduler (kernel s) with
  | Some sc =>
      let st := Scheduler.stats sc in
      let t := timer (kernel s) in
      let s := println (str "Scheduler Statistics:") s in
      let s := println (str "  Total tasks:       " ++ fmt_dec (Scheduler.total_tasks st)) s in
      let s := println (str "  Ready tasks:       " ++ fmt_dec (Scheduler.ready_tasks st)) s in
      let s := println (str "  Tick count:        " ++ fmt_dec (Scheduler.stat_tick_count st)) s in
      let s := println (str "  Context switches:  " ++
                        fmt_dec (Scheduler.stat_context_switches st)) s in
      let s := println (str "  Preemption:        " ++
                        (if Scheduler.preemption_enabled st then str "ENABLED"
                         else str "DISABLED")) s in
      let s := println (str "  Current task:      " ++ str (Scheduler.current_task st)) s in
      let s := println (str "  Timer frequency:   " ++ fmt_dec (Timer.timer_hz t) ++ str " Hz") s in
      println (str "  Uptime:            " ++ fmt_dec (Timer.uptime_sec t) ++ str " sec (" ++
               fmt_dec (Timer.tick_count t) ++ str " ticks)") s
  | None => println (str "Scheduler not initialized") s
  end.

Definition cmd_dev_apic (s : System) : io System :=
  if Apic.is_available (apic (kernel s)) then
    let s := println (str "APIC Status:") s in
    i ← Apic.lapic_id (apic (kernel s));
    let s := println (str "  Local APIC:   ACTIVE (ID: " ++ fmt_dec i ++ str ")") s in
    mret (println (str "  Using APIC:   " ++ fmt_bool (Apic.is_using_apic (apic (kernel s)))) s)
  else
    mret (print_lines ["APIC Status:"; "  Local APIC:   NOT AVAILABLE";
                       "  Using:        Legacy PIC"]%string s).

(** ** A line *)

(** A command of the developer mode. *)
Definition dev_only (cmd : text) (s : System) (run : io System) : io System :=
  if DEV_MODE s then run else mret (println (str "Unknown command: " ++ cmd) s).

Definition dispatch (cmd : text) (args : list text) (s : System) : io System :=
  if bool_decide (cmd = str "info") then cmd_info s
  else if bool_decide (cmd = str "time") then cmd_time s
  else if bool_decide (cmd = str "dev") then mret (cmd_dev s)
  else if bool_decide (cmd = str "help") then mret (cmd_help s)
  else if bool_decide (cmd = str "clear") then mret (cmd_clear s)
  else if bool_decide (cmd = str "reboot") then cmd_reboot s
  else if bool_decide (cmd = str "ps") then mret (cmd_ps s)
  else if bool_decide (cmd = str "kill") then mret (cmd_kill args s)
  else if bool_decide (cmd = str "run") then mret (cmd_run args s)
  else if bool_decide (cmd = str "bg") then mret (cmd_bg args s)
  else if bool_decide (cmd = str "fg") then mret (cmd_fg args s)
  else if bool_decide (cmd = str "sched") then mret (cmd_sched s)
  else if bool_decide (cmd = str "mem") then dev_only cmd s (mret (cmd_dev_mem args s))
  else if bool_decide (cmd = str "regs") then dev_only cmd s (mret (cmd_dev_regs s))
  else if bool_decide (cmd = str "io") then dev_only cmd s (cmd_dev_io args s)
  else if bool_decide (cmd = str "pmm") then dev_only cmd s (mret (cmd_dev_pmm s))
  else if bool_decide (cmd = str "apic") then dev_only cmd s (cmd_dev_apic s)
  else mret (println (str "Unknown command: " ++ cmd) s).

Definition execute_command (input : text) (s : System) : io System :=
  let input := trim input in
  match input with
  | [] => mret s
  | _ =>
      match split_nonempty 32 input with
      | [] => mret s
      | cmd :: args => dispatch cmd args s
      end
  end.

(** ** The line editor *)

Record Editor := mkEditor {
  input_buf : list Z;
  input_pos : Z
}.

(** [input_buf[i] = v]: an index out of range panics. *)
Definition put (b : list Z) (i v : Z) : option (list Z) :=
  if (0 <=? i) && (i <? Z.of_nat (length b)) then Some (<[Z.to_nat i := v]> b) else None.

(** The head of the outer loop: the prompt and an empty line. *)
Definition shell_prompt (s : System) (e : Editor) : outcome (System * Editor) :=
  let s := if DEV_MODE s then set_color 0x0A 0x00 s else s in
  let s := set_color 0x0F 0x00 (print (str "deltaos> ") s) in
  match put (input_buf e) 0 0 with
  | Some b => Ret (s, mkEditor b 0)
  | None => Panic
  end.

(** What the inner loop does with a character; after a line, the next round of
    the outer loop starts. *)
Definition shell_key (s : System) (e : Editor) (ch : Z) : io (outcome (System * Editor)) :=
  if ch =? 10 then
    let s := println [] s in
    match put (input_buf e) (input_pos e) 0 with
    | None => mret Panic
    | Some b =>
        s ← execute_command (take (Z.to_nat (input_pos e)) b) s;
        mret (shell_prompt s (mkEditor b (input_pos e)))
    end
  else if ch =? 8 then
    if 0 <? input_pos e then
      let pos := input_pos e - 1 in
      match put (input_buf e) pos 0 with
      | None => mret Panic
      | Some b =>
          let echo := foldl (λ c b, vga_print_char c b) in
          mret (Ret (with_console (λ c, echo c [8; 32; 8]) s, mkEditor b pos))
      end
    else mret (Ret (s, e))
  else if (32 <=? ch) && (input_pos e <? 255) then
    match put (input_buf e) (input_pos e) ch with
    | None => mret Panic
    | Some b =>
        mret (Ret (with_console (λ c, vga_print_char c ch) s, mkEditor b (input_pos e + 1)))
    end
  else mret (Ret (s, e)).

(** One round of the inner loop, after the processor wakes up. *)
Definition shell_wake (s : System) (e : Editor) : io (outcome (System * Editor)) :=
  if keyboard_has_data (keyboard (kernel s)) then
    let '(k, ch) := keyboard_read_char (keyboard (kernel s)) in
    shell_key (with_kernel (set_keyboard k) s) e ch
  else mret (Ret (s, e)).

(** The banner, and the first prompt. *)
Definition shell_start (s : System) : outcome (System * Editor) :=
  let s := print_lines [""; "DeltaOS Shell v0.2.0"; "Type 'help' for available commands."; ""]%string s in
  shell_prompt s (mkEditor (replicate 256 0) 0).

(** The characters of a line and the newline, one after the other. *)
Fixpoint shell_keys (x : outcome (System * Editor)) (chs : list Z) : io (outcome (System * Editor)) :=
  match chs with
  | [] => mret x
  | ch :: chs =>
      match x with
      | Panic => mret Panic
      | Ret (s, e) => x ← shell_key s e ch; shell_keys x chs
      end
  end.

(** ** Numbers *)

Definition dvalue (base a : Z) (ds : list Z) : Z := foldl (λ a d, a * base + d) a ds.

Lemma dvalue_ge base a ds :
  1 ≤ base → 0 ≤ a → Forall (λ d, 0 ≤ d < base) ds → a ≤ dvalue base a ds.
Proof.
  intros Hb. revert a. induction ds as [|d ds IH]; intros a Ha Hds; [simpl; lia|].
  apply Forall_cons in Hds as [Hd Hds]. unfold dvalue in *. simpl.
  specialize (IH (a * base + d) ltac:(nia) Hds). nia.
Qed.

Lemma hex_chars_digits ds a :
  0 ≤ a → Forall (λ d, 0 ≤ d < 16) ds → dvalue 16 a ds < 2 ^ 64 →
  hex_chars (digit_char <$> ds) a = dvalue 16 a ds.
Proof.
  revert a. induction ds as [|d ds IH]; intros a Ha Hds Hv; [done|].
  apply Forall_cons in Hds as [Hd Hds]. change (dvalue 16 a (d :: ds)) with (dvalue 16 (a * 16 + d) ds) in *.
  pose proof (dvalue_ge 16 (a * 16 + d) ds ltac:(lia) ltac:(lia) Hds) as Hge.
  rewrite fmap_cons. cbn [hex_chars]. rewrite (usize_small (a * 16)) by lia.
  unfold digit_char, inchar at 1. destruct (d <? 10) eqn:E; break_cmp.
  - rewrite (proj2 (Z.leb_le 48 (48 + d))), (proj2 (Z.leb_le (48 + d) 57)) by lia. cbn [andb].
    rewrite usize_small by lia. replace (a * 16 + (48 + d - 48)) with (a * 16 + d) by lia.
    by apply IH; [lia|..].
  - rewrite (proj2 (Z.leb_gt (55 + d) 57)) by lia. rewrite andb_false_r. unfold inchar.
    rewrite (proj2 (Z.leb_gt 97 (55 + d))) by lia. cbn [andb].
    rewrite (proj2 (Z.leb_le 65 (55 + d))), (proj2 (Z.leb_le (55 + d) 70)) by lia. cbn [andb].
    rewrite usize_small by lia. replace (a * 16 + (55 + d - 65 + 10)) with (a * 16 + d) by lia.
    by apply IH; [lia|..].
Qed.

Lemma dec_chars_digits ds a :
  0 ≤ a → Forall (λ d, 0 ≤ d < 10) ds → dvalue 10 a ds < 2 ^ 64 →
  dec_chars (digit_char <$> ds) a = dvalue 10 a ds.
Proof.
  revert a. induction ds as [|d ds IH]; intros a Ha Hds Hv; [done|].
  apply Forall_cons in Hds as [Hd Hds]. change (dvalue 10 a (d :: ds)) with (dvalue 10 (a * 10 + d) ds) in *.
  pose proof (dvalue_ge 10 (a * 10 + d) ds ltac:(lia) ltac:(lia) Hds) as Hge.
  rewrite fmap_cons. cbn [dec_chars]. rewrite (usize_small (a * 10)) by lia.
  unfold digit_char, inchar. rewrite (proj2 (Z.ltb_lt d 10)) by lia.
  rewrite (proj2 (Z.leb_le 48 (48 + d))), (proj2 (Z.leb_le (48 + d) 57)) by lia. cbn [andb].
  rewrite usize_small by lia. replace (a * 10 + (48 + d - 48)) with (a * 10 + d) by lia.
  by apply IH; [lia|..].
Qed.

(** A text that does not have [x] or [X] in it does not start with a prefix. *)
Lemma no_prefix s c : c ∉ s → ∀ a, starts_with s [a; c] = false.
Proof.
  intros Hc a. destruct (starts_with s [a; c]) eqn:E; [|done].
  apply starts_with_spec in E as [rest ->]. exfalso. apply Hc. simpl. set_solver.
Qed.

Lemma dec_value n : 0 ≤ n < 2 ^ 64 → dec_chars (fmt_dec n) 0 = n.
Proof.
  intros Hn. unfold fmt_dec, fmt_radix.
  pose proof (radix_digits_value 64 10 n ltac:(lia) ltac:(simpl; lia)) as Hv.
  unfold digits_value in Hv. rewrite dec_chars_digits; unfold dvalue; [done|lia| |lia].
  apply radix_digits_range; lia.
Qed.

Lemma hex_value n : 0 ≤ n < 2 ^ 64 → hex_chars (fmt_radix 16 n) 0 = n.
Proof.
  intros Hn. unfold fmt_radix.
  pose proof (radix_digits_value 64 16 n ltac:(lia) ltac:(simpl; lia)) as Hv.
  unfold digits_value in Hv. rewrite hex_chars_digits; unfold dvalue; [done|lia| |lia].
  apply radix_digits_range; lia.
Qed.

Lemma parse_int_dec n : 0 ≤ n < 2 ^ 64 → parse_int (fmt_dec n) = n.
Proof.
  intros Hn. unfold parse_int. change (str "0x") with [48; 120]. change (str "0X") with [48; 88].
  rewrite !no_prefix by (intros ?%fmt_dec_chars; lia). by apply dec_value.
Qed.

Lemma parse_hex_hex n : 0 ≤ n < 2 ^ 64 → parse_hex (fmt_hex n) = n.
Proof.
  intros Hn. unfold parse_hex, fmt_hex, strip_prefix. rewrite starts_with_app.
  rewrite drop_app_length. cbn [default from_option id]. change (str "0X") with [48; 88].
  rewrite no_prefix by (intros ?%fmt_radix_chars; lia). by apply hex_value.
Qed.

(** The numbers the kernel prints are those the shell reads: the decimal and
    the hexadecimal form of every 64-bit number parse to the number. *)
Theorem number_roundtrip n (Hn : 0 ≤ n < 2 ^ 64) :
  parse_int (fmt_dec n) = n ∧ parse_int (fmt_hex n) = n ∧ parse_hex (fmt_hex n) = n.
Proof.
  split; [by apply parse_int_dec|]. split; [|by apply parse_hex_hex].
  unfold parse_int. unfold fmt_hex at 1. rewrite starts_with_app. by apply parse_hex_hex.
Qed.

Lemma number_roundtrip_witness :
  fmt_hex 0xFEE00000 = str "0xFEE00000" ∧ parse_hex (str "0xFEE00000") = 0xFEE00000.
Proof.
  assert (E : fmt_hex 0xFEE00000 = str "0xFEE00000") by (vm_compute; reflexivity).
  split; [exact E|]. rewrite <- E. apply (number_roundtrip 0xFEE00000). lia.
Defined.

(** ** Lines *)

(** A word of a line: printable characters and no blank. *)
Definition word (w : text) : Prop := w ≠ [] ∧ Forall (λ c, 33 ≤ c ≤ 126) w.

Lemma word_char w c : word w → c ∈ w → is_whitespace c = false ∧ c ≠ 32.
Proof.
  intros [_ Hw] Hc. rewrite Forall_forall in Hw. specialize (Hw c Hc).
  unfold is_whitespace. rewrite (proj2 (Z.eqb_neq c 32)), (proj2 (Z.leb_gt c 13)) by lia.
  rewrite andb_false_r. split; [done|lia].
Qed.

Lemma join_cons c w ws : join c (w :: ws) = w ++ match ws with [] => [] | _ => c :: join c ws end.
Proof. destruct ws; simpl; by rewrite ?app_nil_r. Qed.

Lemma join_ends ws :
  ws ≠ [] → Forall word ws →
  ∃ a l b r, join 32 ws = a :: l ∧ join 32 ws = r ++ [b] ∧
    is_whitespace a = false ∧ is_whitespace b = false.
Proof.
  intros Hne Hws. induction ws as [|w ws IH]; [done|]. apply Forall_cons in Hws as [Hw Hws].
  rewrite join_cons. pose proof Hw as [Hwne _].
  assert (Hc : ∀ c, c ∈ w → is_whitespace c = false) by (intros c Hc; by apply (word_char w)).
  destruct w as [|a w]; [done|]. destruct ws as [|w2 ws].
  - rewrite app_nil_r. destruct (exists_last (l := a :: w) ltac:(done)) as (r & b & E).
    exists a, w, b, r. rewrite E. split_and!; try done; apply Hc.
    + apply list_elem_of_here.
    + rewrite E. apply elem_of_snoc.
  - destruct (IH ltac:(done) Hws) as (a2 & l2 & b & r & E1 & E2 & _ & Hb).
    exists a, (w ++ 32 :: join 32 (w2 :: ws)), b, ((a :: w) ++ 32 :: r).
    split_and!; [done| |apply Hc, list_elem_of_here|done].
    by rewrite E2, <- app_assoc.
Qed.

(** A command and its arguments, put together with blanks, are dispatched. *)
Lemma execute_words cmd args s :
  Forall word (cmd :: args) → execute_command (join 32 (cmd :: args)) s = dispatch cmd args s.
Proof.
  intros Hws. destruct (join_ends (cmd :: args)) as (a & l & b & r & E1 & E2 & Ha & Hb); [done..|].
  unfold execute_command. rewrite (trim_id _ a b l r) by done. rewrite E1 at 1.
  rewrite split_nonempty_join; [done|done|].
  eapply Forall_impl; [exact Hws|]. intros w Hw. split; [by destruct Hw|].
  intros Hc. by apply (word_char w) in Hc as [_ ?].
Qed.

Lemma fmt_dec_word n : 0 ≤ n → word (fmt_dec n).
Proof.
  intros Hn. split; [apply fmt_radix_ne|]. apply Forall_forall. intros c Hc.
  apply fmt_dec_chars in Hc; lia.
Qed.

Lemma println_serial msg s :
  serial (console (kernel (println msg s))) = serial (console (kernel s)) ++ msg ++ [10].
Proof. apply vga_print_sends. Qed.

(** What [kill] reports. *)
Definition kill_message (pid : Z) (r : KernelResult unit) : text :=
  match r with
  | Ok _ => str "Killed process " ++ fmt_dec pid
  | Err AccessDenied => str "Cannot kill system process " ++ fmt_dec pid
  | Err InvalidArgument => str "Process " ++ fmt_dec pid ++ str " not found"
  | Err e => str "Error: " ++ fmt_error e
  end.

(** The line [kill] and a process number, as the kernel prints it, terminates
    exactly that process with exit code -9, reports the result and touches
    nothing else but the screen. *)
Theorem shell_kill pid s sc t
    (Hpid : 0 < pid < 2 ^ 64) (Hs : scheduler (kernel s) = Some sc) :
  let '(s', t') := execute_command (str "kill " ++ fmt_dec pid) s t in
  let '(sc', r) := Scheduler.terminate_task sc pid (-9) in
  t' = t ∧ scheduler (kernel s') = Some sc' ∧
  serial (console (kernel s')) = serial (console (kernel s)) ++ kill_message pid r ++ [10] ∧
  (globals s', pmm s', vmm s', DEV_MODE s', keyboard (kernel s'), timer (kernel s'), apic (kernel s')) =
  (globals s, pmm s, vmm s, DEV_MODE s, keyboard (kernel s), timer (kernel s), apic (kernel s)).
Proof.
  change (str "kill " ++ fmt_dec pid) with (join 32 [str "kill"; fmt_dec pid]).
  rewrite execute_words.
  2: { repeat constructor; try (simpl; lia); [done|by apply fmt_dec_word; lia..]. }
  unfold dispatch. repeat (rewrite bool_decide_false by done). rewrite bool_decide_true by done.
  unfold cmd_kill, mret, io_ret. rewrite parse_int_dec by lia.
  rewrite (proj2 (Z.eqb_neq pid 0)), Hs by lia.
  destruct (Scheduler.terminate_task sc pid (-9)) as [sc' r].
  destruct r as [[]|e]; [|destruct e]; cbn iota; rewrite println_serial; done.
Qed.

(** ** Accesses *)

(** The accesses a user may cause without the developer mode: the clock, the
    reset line of the keyboard controller, and the identifier of the local APIC. *)
Definition harmless (a : Apic.Apic) (e : event) : Prop :=
  match e with
  | OutB port v => port = 0x70 ∧ v ∈ [0x00; 0x02; 0x04; 0x07; 0x08; 0x09] ∨ port = 0x64 ∧ v = 0xFE
  | InB port _ => port = 0x71
  | Load at_ _ => at_ = (Apic.LAPIC_BASE a + Apic.LAPIC_ID)%usize
  | _ => False
  end.

(** An action that only makes harmless accesses. *)
Definition quiet {A} (a : Apic.Apic) (x : io A) : Prop := emits (harmless a) x.

Lemma quiet_ret {A} a (x : A) : quiet a (mret x).
Proof. apply emits_ret. Qed.

Lemma quiet_read_cmos a reg : reg ∈ [0x00; 0x02; 0x04; 0x07; 0x08; 0x09] → quiet a (read_cmos reg).
Proof. intros Hr. apply emits_bind; [apply emits_outb; by left|intros _; by apply emits_inb]. Qed.

Lemma quiet_lapic_id a : quiet a (Apic.lapic_id a).
Proof.
  unfold Apic.lapic_id. destruct (Apic.is_available a); [|apply quiet_ret].
  apply emits_bind; [by apply emits_load|intros ?; apply quiet_ret].
Qed.

Lemma quiet_read_rtc a : quiet a read_rtc.
Proof.
  unfold read_rtc.
  do 6 (apply emits_bind; [apply quiet_read_cmos; repeat constructor|intros ?]).
  apply quiet_ret.
Qed.

Lemma print_apic msg s : apic (kernel (print msg s)) = apic (kernel s).
Proof. done. Qed.

Lemma print_lines_apic l s : apic (kernel (print_lines l s)) = apic (kernel s).
Proof. unfold print_lines. revert s. induction l as [|x l IH]; intros s; [done|]. simpl. by rewrite IH. Qed.

Lemma quiet_info s : quiet (apic (kernel s)) (cmd_info s).
Proof.
  unfold cmd_info. set (s1 := match pmm (print_lines info_lines s) with Some _ => _ | None => _ end).
  assert (E : apic (kernel s1) = apic (kernel s)).
  { unfold s1. rewrite <- (print_lines_apic info_lines s).
    generalize (print_lines info_lines s). intros s2. by destruct (pmm s2). }
  clearbody s1. rewrite <- E. apply emits_bind; [|intros ?; apply quiet_ret].
  destruct (Apic.is_available _); [|apply quiet_ret].
  apply emits_bind; [apply quiet_lapic_id|intros ?; apply quiet_ret].
Qed.


(** The help text promises [mem <addr>] and [io in <port>], but the commands look
    for their arguments one place too far: both only print their usage. *)
Lemma dev_arguments_shifted w s :
  DEV_MODE s = true → word w →
  execute_command (str "mem " ++ w) s = mret (println (str "Usage: mem <address>") s) ∧
  execute_command (str "io in " ++ w) s =
    mret (println (str "Usage: io <in|out> <port> [value]") s).
Proof.
  intros Hdev Hw.
  change (str "mem " ++ w) with (join 32 [str "mem"; w]).
  change (str "io in " ++ w) with (join 32 [str "io"; str "in"; w]).
  assert (Hwords : word (str "mem") ∧ word (str "io") ∧ word (str "in")).
  { split_and!; (split; [done|]); repeat (apply Forall_cons_2; [simpl; lia|]); apply Forall_nil_2. }
  destruct Hwords as (H1 & H2 & H3). split.
  - rewrite execute_words by by rewrite !Forall_cons.
    unfold dispatch, dev_only. rewrite Hdev. repeat (rewrite bool_decide_false by done).
    by rewrite bool_decide_true.
  - rewrite execute_words by by rewrite !Forall_cons.
    unfold dispatch, dev_only. rewrite Hdev. repeat (rewrite bool_decide_false by done).
    by rewrite bool_decide_true.
Qed.

(** ** The editor *)

(** The line a sequence of characters gives: the printable ones up to 255, and
    backspace takes the last one back. *)
Definition edit (line : list Z) (ch : Z) : list Z :=
  if ch =? 8 then removelast line
  else if (32 <=? ch) && (Z.of_nat (length line) <? 255) then line ++ [ch] else line.

Definition edited (keys : list Z) : list Z := foldl edit [] keys.

(** The buffer holds [line]. *)
Definition holds (e : Editor) (line : list Z) : Prop :=
  length (input_buf e) = 256%nat ∧ input_pos e = Z.of_nat (length line) ∧
  (length line ≤ 255)%nat ∧ take (length line) (input_buf e) = line.

(** Nothing but the console is different. *)
Definition same_but_console (s s' : System) : Prop :=
  ∃ c, s' = with_console (λ _, c) s.

Lemma put_in b i v :
  (i < length b)%nat → put b (Z.of_nat i) v = Some (<[i := v]> b).
Proof.
  intros Hi. unfold put. rewrite (proj2 (Z.leb_le 0 _)), (proj2 (Z.ltb_lt _ _)) by lia.
  by rewrite Nat2Z.id.
Qed.

Lemma key_edits s e line ch t :
  holds e line → ch ≠ 10 →
  ∃ s' e', shell_key s e ch t = (Ret (s', e'), t) ∧ same_but_console s s' ∧ holds e' (edit line ch).
Proof.
  intros (Hb & Hp & Hl & Ht) Hch. unfold shell_key, edit. rewrite (proj2 (Z.eqb_neq ch 10)) by done.
  assert (Hsame : same_but_console s s) by (exists (console (kernel s)); by destruct s as [[] ? ? ? ?]).
  destruct (ch =? 8) eqn:E8.
  - rewrite Hp. destruct (0 <? Z.of_nat (length line)) eqn:E0; break_cmp.
    + destruct (exists_last (l := line)) as (l & x & ->); [by destruct line|].
      rewrite length_app in *. cbn [length] in *.
      replace (Z.of_nat (length l + 1) - 1) with (Z.of_nat (length l)) by lia.
      rewrite put_in by lia. eexists _, _. split; [done|]. split; [by eexists|].
      rewrite removelast_last. split_and!; cbn [input_buf input_pos]; [by rewrite length_insert|done|lia|].
      rewrite take_insert_ge by lia. apply (f_equal (take (length l))) in Ht.
      rewrite take_take, take_app_length in Ht. rewrite Nat.min_l in Ht by lia. exact Ht.
    + eexists _, _. split; [done|]. split; [done|].
      by replace line with (@nil Z) in * by (destruct line; [done|cbn [length] in *; lia]).
  - rewrite Hp. destruct ((32 <=? ch) && _) eqn:E; [|by eexists _, _].
    apply andb_true_iff in E as [E1 E2]. break_cmp. rewrite put_in by lia.
    eexists _, _. split; [done|]. split; [by eexists|].
    split_and!; cbn [input_buf input_pos]; rewrite ?length_insert, ?length_app; cbn [length]; [done|lia|lia|].
    rewrite Nat.add_1_r. rewrite (take_S_r _ _ ch) by (apply list_lookup_insert_eq; lia).
    by rewrite take_insert_ge, Ht by lia.
Qed.

Lemma same_trans s1 s2 s3 : same_but_console s1 s2 → same_but_console s2 s3 → same_but_console s1 s3.
Proof. intros [c1 ->] [c2 ->]. by exists c2. Qed.

Lemma keys_edit keys s e line t :
  holds e line → Forall (λ ch, ch ≠ 10) keys →
  ∃ s' e', (∀ rest, shell_keys (Ret (s, e)) (keys ++ rest) t = shell_keys (Ret (s', e')) rest t) ∧
    same_but_console s s' ∧ holds e' (foldl edit line keys).
Proof.
  intros He Hk. revert s e line He. induction Hk as [|ch keys Hch Hk IH]; intros s e line He.
  { exists s, e. split; [done|]. split; [|done]. exists (console (kernel s)). by destruct s as [[] ? ? ? ?]. }
  destruct (key_edits s e line ch t He Hch) as (s1 & e1 & E & Hs1 & He1).
  destruct (IH s1 e1 _ He1) as (s2 & e2 & E2 & Hs2 & He2). exists s2, e2.
  split; [|split; [by apply (same_trans _ s1)|done]].
  intros rest. cbn [app shell_keys]. rewrite run_bind. unfold trace. rewrite E. apply E2.
Qed.

(** The newline hands the line over, and leaves an empty one. *)
Lemma key_newline s e line t :
  holds e line →
  ∃ s2 e2, shell_key s e 10 t = (Ret (s2, e2), (execute_command line (println [] s) t).2) ∧
    same_but_console (execute_command line (println [] s) t).1 s2 ∧ holds e2 [].
Proof.
  intros (Hb & Hp & Hl & Ht). unfold shell_key. change (10 =? 10) with true. cbn iota zeta.
  rewrite Hp, put_in, Nat2Z.id by lia. rewrite take_insert_ge, Ht, run_bind by lia. unfold trace.
  set (b1 := <[length line := 0]> (input_buf e)).
  generalize (execute_command line (println [] s) t). intros [s2 t2]. cbn [fst snd].
  unfold shell_prompt. cbn [input_buf].
  rewrite (put_in _ 0) by (unfold b1; rewrite length_insert; lia).
  eexists _, _. split; [done|]. split; [destruct (DEV_MODE s2); by eexists|].
  split_and!; cbn [input_buf input_pos length]; [unfold b1; by rewrite !length_insert|done|lia|done].
Qed.

(** The line editor hands to the shell exactly the line its user edited, for
    every sequence of keys before the newline: the buffer never overflows, and
    until then only the screen changes.  Afterwards the shell prompts for the
    next line with an empty buffer. *)
Theorem shell_executes_line keys s e t
    (Hk : Forall (λ ch, ch ≠ 10) keys) (He : holds e []) :
  ∃ s1 s2 e2, same_but_console s s1 ∧ holds e2 [] ∧
    same_but_console (execute_command (edited keys) s1 t).1 s2 ∧
    shell_keys (Ret (s, e)) (keys ++ [10]) t = (Ret (s2, e2), (execute_command (edited keys) s1 t).2).
Proof.
  destruct (keys_edit keys s e [] t He Hk) as (s1 & e1 & E & Hs1 & He1).
  change (foldl edit [] keys) with (edited keys) in *.
  destruct (key_newline s1 e1 _ t He1) as (s2 & e2 & Ek & Hs2 & He2).
  exists (println [] s1), s2, e2. split; [|split; [done|split; [done|]]].
  - apply (same_trans _ s1); [done|]. by eexists.
  - rewrite E. cbn [shell_keys]. rewrite run_bind. unfold trace. by rewrite Ek.
Qed.

End Commands.

Definition demo_editor : Editor := mkEditor (replicate 256 0) 0.
Definition demo_system : System := mkSystem demo_kernel (Task.Globals_init ∅) None None false.

Definition demo_ps : System :=
  mkSystem (set_scheduler (Some Scheduler.trio.2) demo_kernel) Scheduler.trio.1 None None false.

Lemma shell_kill_witness :
  let s' := (execute_command (D := Apic.demo_pit) 0 0 0 0 0 0 0 0 (str "kill 3") demo_ps []).1 in
  scheduler (kernel s') = Some (Scheduler.terminate_task Scheduler.trio.2 3 (-9)).1 ∧
  serial (console (kernel s')) = str "Killed process 3" ++ [10].
Proof.
  pose proof (shell_kill (D := Apic.demo_pit) 0 0 0 0 0 0 0 0 3 demo_ps Scheduler.trio.2 []
    ltac:(lia) eq_refl) as H1.
  change (str "kill " ++ fmt_dec 3) with (str "kill 3") in H1.
  assert (E : (Scheduler.terminate_task Scheduler.trio.2 3 (-9)).2 = Ok tt) by (vm_compute; reflexivity).
  revert H1 E. generalize (Scheduler.terminate_task Scheduler.trio.2 3 (-9)). intros [sc r].
  generalize (execute_command (D := Apic.demo_pit) 0 0 0 0 0 0 0 0 (str "kill 3") demo_ps []).
  intros [s' t'] (_ & H2 & H3 & _) E. cbn [fst snd] in *. subst r. split; [exact H2|]. exact H3.
Defined.


Lemma shell_executes_line_witness :
  edited [112; 120; 8; 115] = str "ps" ∧
  ∃ s2 e2, shell_keys (D := Apic.demo_pit) 0 0 0 0 0 0 0 0 (Ret (demo_system, demo_editor))
             ([112; 120; 8; 115] ++ [10]) [] = (Ret (s2, e2), []) ∧ holds e2 [].
Proof.
  split; [reflexivity|].
  destruct (shell_executes_line (D := Apic.demo_pit) 0 0 0 0 0 0 0 0 [112; 120; 8; 115]
    demo_system demo_editor []) as (s1 & s2 & e2 & _ & He & _ & E).
  - repeat constructor; lia.
  - split_and!; [reflexivity|reflexivity|simpl; lia|reflexivity].
  - exists s2, e2. split; [|exact He]. rewrite E. reflexivity.
Defined.

End Shell.
