(* ===== verification/Threads.v ===== *)
(** * The kernel's own tasks and the panic handler (src/lib.rs, src/sched/scheduler.rs)

    The endless loops that [run] and the scheduler start, for a given number of
    turns, and what is printed when the kernel gives up. *)

From stdpp Require Import base numbers list gmap strings.
From S2P Require Import Prelude Text Console.
Import Text.Text Console.Console.
Open Scope Z_scope.

Module Threads.

(** [kprintln!]. *)
Definition kprintln (line : text) (c : Console) : Console := vga_print c (line ++ [10]).

(** A turn of a loop that counts and prints a line every [period] turns. *)
Definition turn (period : Z) (line : Z → text) (x : Z * Console) : Z * Console :=
  let count := wrap 64 (x.1 + 1) in
  (count, if count mod period =? 0 then kprintln (line count) x.2 else x.2).

Definition demo_line (count : Z) : text := str "[demo] tick " ++ fmt_dec (count / 10000000).
Definition counter_line (count : Z) : text := str "[counter] count = " ++ fmt_dec count.

(** The tasks after [n] turns. *)
Definition demo_task (n : Z) (c : Console) : Console :=
  (for_each 0 n (λ _, turn 10000000 demo_line) (0, kprintln (str "[demo] Hello from demo task!") c)).2.
Definition counter_task (n : Z) (c : Console) : Console :=
  (for_each 0 n (λ _, turn 50000000 counter_line) (0, kprintln (str "[counter] Counter task started") c)).2.

(** The loops of [hlt]. *)
Definition idle_test_task (n : Z) (c : Console) : Console :=
  for_each 0 n (λ _ c, c) (kprintln (str "[idle_test] Idle test running") c).
Definition idle_task (n : Z) (c : Console) : Console := for_each 0 n (λ _ c, c) c.

(** The panic handler up to its loop; [info] is the panic as it formats itself. *)
Definition panic (info : text) (c : Console) : Console :=
  let c := vga_set_color 0x0F 0x04 c in
  let c := kprintln [] c in
  let c := kprintln (str "!!! KERNEL PANIC !!!") c in
  kprintln info c.

(** [display] makes the text of a panic from its message. *)
Definition alloc_error (display : text → text) (size align : Z) (c : Console) : Console :=
  panic (display (str "Memory allocation error: size=" ++ fmt_dec size ++ str ", align=" ++ fmt_dec align)) c.

(** ** What they print *)

Lemma kprintln_sends line c : serial (kprintln line c) = serial c ++ line ++ [10].
Proof. apply vga_print_sends. Qed.

(** The lines of a counting loop: one for every multiple of the period reached. *)
Definition counted (period : Z) (line : Z → text) (n : Z) : text :=
  concat ((λ k, line (period * k) ++ [10]) <$> seqZ 1 (n / period)).

Lemma div_succ_multiple n p :
  0 < p → 0 ≤ n → (n + 1) mod p = 0 → (n + 1) / p = n / p + 1 ∧ n + 1 = p * (n / p + 1).
Proof.
  intros Hp Hn Hm. pose proof (Z.div_mod n p ltac:(lia)) as E. pose proof (Z.mod_pos_bound n p Hp) as B.
  pose proof (Z.div_mod (n + 1) p ltac:(lia)) as E1. rewrite Hm in E1.
  assert (H : (n + 1) / p = n / p + 1); [|split; [exact H|rewrite <- H; lia]].
  assert (n / p < (n + 1) / p) by nia. nia.
Qed.

Lemma div_succ_other n p : 0 < p → 0 ≤ n → (n + 1) mod p ≠ 0 → (n + 1) / p = n / p.
Proof.
  intros Hp Hn Hm. pose proof (Z.div_mod n p ltac:(lia)) as E. pose proof (Z.mod_pos_bound n p Hp) as B.
  pose proof (Z.div_mod (n + 1) p ltac:(lia)) as E1. pose proof (Z.mod_pos_bound (n + 1) p Hp) as B1. nia.
Qed.

Lemma counted_succ period line n :
  0 < period → 0 ≤ n →
  counted period line (n + 1) =
  counted period line n ++ if (n + 1) mod period =? 0 then line (n + 1) ++ [10] else [].
Proof.
  intros Hp Hn. unfold counted. destruct ((n + 1) mod period =? 0) eqn:E; break_cmp.
  - destruct (div_succ_multiple n period Hp Hn E) as [-> ->].
    assert (0 ≤ n / period) by (apply Z.div_pos; lia).
    rewrite seqZ_app, fmap_app, concat_app by lia. f_equal. rewrite seqZ_cons by lia. cbn.
    rewrite app_nil_r. do 2 f_equal. lia.
  - rewrite div_succ_other by done. by rewrite app_nil_r.
Qed.

Lemma turns_print period line n c :
  0 < period → 0 ≤ n < 2 ^ 64 →
  serial (for_each 0 n (λ _, turn period line) (0, c)).2 = serial c ++ counted period line n.
Proof.
  intros Hp Hn.
  enough (H : (for_each 0 n (λ _, turn period line) (0, c)).1 = n ∧
              serial (for_each 0 n (λ _, turn period line) (0, c)).2 = serial c ++ counted period line n) by apply H.
  apply (for_each_rule (λ i x, x.1 = i ∧ serial x.2 = serial c ++ counted period line i)); [lia|..].
  - split; [done|]. unfold counted. rewrite Z.div_0_l by lia. by rewrite app_nil_r.
  - intros i [k c1] Hi (E & Hs). cbn [fst snd] in *. subst k. unfold turn. cbn [fst snd].
    rewrite wrap_small by lia. split; [done|]. rewrite counted_succ by lia.
    destruct (_ =? 0); [by rewrite kprintln_sends, Hs, <- app_assoc|by rewrite Hs, app_nil_r].
Qed.

(** After [n] turns the demonstration task has greeted once and numbered every ten
    millionth turn. *)
Theorem demo_task_prints n c (Hn : 0 ≤ n < 2 ^ 64) :
  serial (demo_task n c) =
  serial c ++ str "[demo] Hello from demo task!" ++ [10] ++ counted 10000000 demo_line n.
Proof. unfold demo_task. rewrite turns_print by lia. by rewrite kprintln_sends, <- !app_assoc. Qed.

Theorem counter_task_prints n c (Hn : 0 ≤ n < 2 ^ 64) :
  serial (counter_task n c) =
  serial c ++ str "[counter] Counter task started" ++ [10] ++ counted 50000000 counter_line n.
Proof. unfold counter_task. rewrite turns_print by lia. by rewrite kprintln_sends, <- !app_assoc. Qed.

(** A panic leaves the banner and the panic in the log, in white on red. *)
Theorem panic_reports info c :
  serial (panic info c) = serial c ++ [10] ++ str "!!! KERNEL PANIC !!!" ++ [10] ++ info ++ [10] ∧
  vga_color (vga_set_color 0x0F 0x04 c) = 0x4F.
Proof. unfold panic. rewrite !kprintln_sends, <- !app_assoc. done. Qed.

End Threads.
