(* ===== verification/Boot.v ===== *)
(** * Boot (boot/boot.asm, src/lib.rs)

    Module [PageTables] is the code of boot.asm that builds the first page
    tables; Module [Pic] is [init_pic], with the interrupt controllers it
    programs; Module [Boot] is [kernel_main], from the check of the multiboot
    magic to the start of the shell. *)

From stdpp Require Import base numbers list gmap strings.
From S2P Require Import Prelude Memory Text BTree Pmm Heap Vmm Task Scheduler Console Timer Arch.
From S2P Require Import Modules Vfs Ntfs Acpi Device Apic Interrupts Switch Shell.
Open Scope Z_scope.

Module PageTables.
Import Vmm.Vmm.

(** [rep stosd] with [ecx = 0x1000] and [eax = 0]: 0x1000 double words. *)
Definition clear_table (m : mem) (a : Z) : mem := write_zeros m a (4 * 0x1000).

(** [mov dword [a], eax]. *)
Definition store32 (m : mem) (a v : Z) : mem := store m a 4 v.

Definition setup_page_tables (m : mem) (p4_table p3_table p2_table : Z) : mem :=
  let m := clear_table m p4_table in
  let m := clear_table m p3_table in
  let m := clear_table m p2_table in
  let m := store32 m p4_table (Z.lor p3_table 0x3) in
  let m := store32 m p3_table (Z.lor p2_table 0x3) in
  for_each 0 512
    (λ ecx m,
       let eax := wrap 32 (0x200000 * ecx) in
       store32 m (p2_table + ecx * 8) (Z.lor eax 0x83)) m.

(** ** Entries *)

Lemma load_app m a n k : load m a (n + k) = load m a n + 256 ^ Z.of_nat n * load m (a + Z.of_nat n) k.
Proof.
  revert a. induction n as [|n IH]; intros a.
  - simpl load. rewrite Z.add_0_r. lia.
  - change (S n + k)%nat with (S (n + k)). cbn [load]. rewrite IH, Nat2Z.inj_succ, Z.pow_succ_r by lia.
    replace (a + 1 + Z.of_nat n) with (a + Z.succ (Z.of_nat n)) by lia. lia.
Qed.

Lemma load_zero m a n : (∀ b, a ≤ b < a + Z.of_nat n → rd m b = 0) → load m a n = 0.
Proof.
  revert a. induction n as [|n IH]; intros a H; [done|]. cbn [load].
  rewrite (H a) by lia. rewrite IH by (intros; apply H; lia). lia.
Qed.

(** A double word stored where the memory is zero is the whole entry. *)
Lemma load64_store32 m a v :
  (∀ b, a ≤ b < a + 8 → rd m b = 0) → 0 ≤ v < 2 ^ 32 → load64 (store32 m a v) a = v.
Proof.
  intros Hz Hv. unfold load64, store32. rewrite (load_app _ _ 4 4), load_store_eq by lia.
  rewrite load_zero; [lia|]. intros b Hb. rewrite rd_store_out by lia. apply Hz. lia.
Qed.

Lemma load64_zero m a : (∀ b, a ≤ b < a + 8 → rd m b = 0) → load64 m a = 0.
Proof. intros H. apply load_zero. intros. apply H. lia. Qed.

Section Tables.
(** The tables are one after the other, as boot.asm reserves them, below the
    memory the kernel hands out for further tables. *)
Context (m : mem) (p4 p3 p2 : Z).
Context (Hp4 : 0 < p4) (Hend : p4 + 0x3000 ≤ 0x500000) (Halign : p4 mod PAGE_SIZE = 0).
Context (Hp3 : p3 = p4 + 0x1000) (Hp2 : p2 = p4 + 0x2000).

Lemma table_frame k : 0 ≤ k < 3 → frame (p4 + k * 0x1000).
Proof.
  intros Hk. unfold frame, PAGE_SIZE in *. split; [lia|].
  by rewrite Z.mod_add.
Qed.

(** The entries of the last table, while the loop fills them. *)
Lemma fill_spec m0 m2 i :
  0 ≤ i ≤ 512 → (∀ b, p2 ≤ b < p2 + 0x1000 → rd m0 b = 0) →
  m2 = for_each 0 i
    (λ ecx m, let eax := wrap 32 (0x200000 * ecx) in store32 m (p2 + ecx * 8) (Z.lor eax 0x83)) m0 →
  (∀ b, ¬ (p2 ≤ b < p2 + 8 * i) → rd m2 b = rd m0 b) ∧
  ∀ j, 0 ≤ j < i → get_entry m2 p2 j = Z.lor (0x200000 * j) 0x83.
Proof.
  intros Hi Hz ->. cbn zeta.
  apply (for_each_rule (λ i (m2 : mem), (∀ b, ¬ (p2 ≤ b < p2 + 8 * i) → rd m2 b = rd m0 b) ∧
    ∀ j, 0 ≤ j < i → get_entry m2 p2 j = Z.lor (0x200000 * j) 0x83)).
  - lia.
  - split; [done|]. intros j Hj. lia.
  - intros k m2 Hk [H1 H2]. rewrite wrap_small by lia. split.
    + intros b Hb. unfold store32. rewrite rd_store_out by lia. apply H1. lia.
    + intros j Hj. unfold get_entry. replace (p2 + 8 * j) with (p2 + j * 8) by lia.
      destruct (decide (j = k)) as [->|].
      * apply load64_store32; [|apply (lor_bounds 32); lia].
        intros b Hb. rewrite H1 by lia. apply Hz. lia.
      * rewrite <- (H2 j) by lia. unfold get_entry. replace (p2 + 8 * j) with (p2 + j * 8) by lia.
        apply load_ext. intros b Hb. apply rd_store_out. lia.
Qed.

#[local] Strategy opaque [for_each].

(** The entries of the three tables. *)
Definition boot_mapped (m1 : mem) : Prop :=
  ∀ i, 0 ≤ i < 512 →
    get_entry m1 p4 i = (if i =? 0 then Z.lor p3 0x3 else 0) ∧
    get_entry m1 p3 i = (if i =? 0 then Z.lor p2 0x3 else 0) ∧
    get_entry m1 p2 i = Z.lor (0x200000 * i) 0x83.

Lemma boot_mapped_ext m1 m2 :
  boot_mapped m1 → (∀ a, p4 ≤ a < p4 + 0x3000 → rd m2 a = rd m1 a) → boot_mapped m2.
Proof.
  intros H Hext i Hi. destruct (H i Hi) as (<- & <- & <-).
  split_and!; apply load_ext; intros b Hb; apply Hext; lia.
Qed.

Lemma setup_frame m1 a :
  m1 = setup_page_tables m p4 p3 p2 → ¬ (p4 ≤ a < p4 + 0x6000) → rd m1 a = rd m a.
Proof.
  intros E1 Ha. unfold setup_page_tables, clear_table in E1. cbv zeta in E1.
  remember (write_zeros _ p2 _) as ma eqn:Ema in E1. remember (store32 _ p3 _) as mb eqn:Emb in E1.
  revert E1.
  assert (Hz : ∀ b, p2 ≤ b < p2 + 0x1000 → rd mb b = 0).
  { intros b Hb. rewrite Emb. unfold store32. rewrite !rd_store_out by (simpl; lia).
    rewrite Ema, rd_write_zeros. by rewrite decide_True by lia. }
  intros [Hf _]%(fill_spec mb m1 512 ltac:(lia) Hz). rewrite Hf by lia. rewrite Emb. unfold store32.
  rewrite !rd_store_out by (simpl; lia). rewrite Ema, !rd_write_zeros. by rewrite !decide_False by lia.
Qed.

Lemma boot_entries m1 : m1 = setup_page_tables m p4 p3 p2 → boot_mapped m1.
Proof.
  intros E1 i Hi. unfold setup_page_tables, clear_table in E1. cbv zeta in E1.
  remember (write_zeros _ p2 _) as ma eqn:Ema in E1. remember (store32 _ p3 _) as mb eqn:Emb in E1.
  revert E1.
  assert (Hz : ∀ b, p4 ≤ b < p4 + 0x3000 → rd ma b = 0).
  { intros b Hb. rewrite Ema, !rd_write_zeros. repeat case_decide; try done; lia. }
  clear Ema.
  assert (Hmb : ∀ b, p4 ≤ b < p4 + 0x3000 → ¬ (p4 ≤ b < p4 + 4) → ¬ (p3 ≤ b < p3 + 4) → rd mb b = 0).
  { intros b Hb H4 H3. rewrite Emb. unfold store32. rewrite !rd_store_out by (simpl; lia). by apply Hz. }
  assert (Hp2z : ∀ b, p2 ≤ b < p2 + 0x1000 → rd mb b = 0) by (intros b Hb; apply Hmb; lia).
  intros [Hf He]%(fill_spec mb m1 512 ltac:(lia) Hp2z).
  assert (Hlow : ∀ t, p4 ≤ t → t + 8 ≤ p2 → load64 m1 t = load64 mb t).
  { intros t H1 H2. apply load_ext. intros b Hb. apply Hf. lia. }
  split_and!; [| |by apply He]; unfold get_entry.
  - rewrite Hlow by lia. destruct (i =? 0) eqn:E; break_cmp.
    + subst i. rewrite Z.mul_0_r, Z.add_0_r.
      transitivity (load64 (store32 ma p4 (Z.lor p3 0x3)) p4).
      * rewrite Emb. apply load_ext. intros b Hb. apply rd_store_out. simpl. lia.
      * apply load64_store32; [intros; apply Hz; lia|apply (lor_bounds 32); lia].
    + apply load64_zero. intros b Hb. apply Hmb; lia.
  - rewrite Hlow by lia. destruct (i =? 0) eqn:E; break_cmp.
    + subst i. rewrite Z.mul_0_r, Z.add_0_r, Emb.
      apply load64_store32; [|apply (lor_bounds 32); lia].
      intros b Hb. unfold store32. rewrite rd_store_out by (simpl; lia). apply Hz. lia.
    + apply load64_zero. intros b Hb. apply Hmb; lia.
Qed.

Lemma boot_frames : frame p4 ∧ frame p3 ∧ frame p2.
Proof.
  split_and!; [replace p4 with (p4 + 0 * 0x1000) by lia|replace p3 with (p4 + 1 * 0x1000) by lia
    |replace p2 with (p4 + 2 * 0x1000) by lia]; apply table_frame; lia.
Qed.

Lemma not_huge a : frame a → huge (Z.lor a 0x3) = false ∧ present (Z.lor a 0x3) = true.
Proof.
  intros Ha. rewrite entry_present by done. split; [|done]. unfold huge.
  rewrite Z.land_lor_distr_l. change (Z.land 0x3 HUGE_PAGE) with 0. rewrite Z.lor_0_r.
  assert (Z.land a HUGE_PAGE = 0) as ->; [|done].
  apply Z.bits_inj'. intros i Hi. rewrite Z.land_spec, Z.bits_0. unfold HUGE_PAGE.
  rewrite Z.shiftl_1_l. destruct (decide (i = 7)) as [->|].
  - by rewrite frame_bits by (done || lia).
  - rewrite Z.pow2_bits_false by lia. apply andb_false_r.
Qed.

(** The entry of a large page. *)
Lemma large_entry j :
  0 ≤ j < 512 →
  let e := Z.lor (0x200000 * j) 0x83 in
  huge e = true ∧ present e = true ∧ Z.land e ADDR_MASK = 0x200000 * j.
Proof.
  intros Hj. cbn zeta.
  assert (Hf : frame (0x200000 * j)).
  { unfold frame, PAGE_SIZE. split; [lia|]. replace (0x200000 * j) with (512 * j * 4096) by lia.
    apply Z.mod_mul. lia. }
  split_and!.
  - unfold huge. rewrite Z.land_lor_distr_l. change (Z.land 0x83 HUGE_PAGE) with 0x80.
    apply negb_true_iff, Z.eqb_neq. intros [_ ?]%Z.lor_eq_0_iff. done.
  - by rewrite entry_present.
  - by apply entry_addr.
Qed.

Lemma boot_translate m1 virt :
  boot_mapped m1 → 0 ≤ virt < 2 ^ 48 →
  translate m1 p4 virt = if virt <? 2 ^ 30 then Some virt else None.
Proof.
  intros He Hv. destruct boot_frames as (_ & F3 & F2).
  pose proof (index_bounds virt 39) as B39. pose proof (index_bounds virt 30) as B30.
  pose proof (index_bounds virt 21) as B21.
  unfold translate, get_next_table_addr, check_huge_page.
  destruct (He _ B39) as (-> & _ & _). destruct (He _ B30) as (_ & E30 & _).
  destruct (He _ B21) as (_ & _ & E21).
  destruct (not_huge p3 F3) as [H3h H3p]. destruct (not_huge p2 F2) as [H2h H2p].
  destruct (large_entry _ B21) as (Hh & Hp & Ha). cbn zeta in *.
  destruct (index virt 39 =? 0) eqn:E39; break_cmp.
  2: { simpl. rewrite index_div in E39 by lia.
       by replace (virt <? 2 ^ 30) with false by (symmetry; apply Z.ltb_ge; dlia). }
  rewrite H3p. cbn [negb mbind option_bind]. rewrite (entry_addr p3) by done. rewrite E30.
  rewrite index_div in E39 by lia.
  destruct (index virt 30 =? 0) eqn:E30'; break_cmp.
  2: { simpl. rewrite index_div in E30' by lia.
       by replace (virt <? 2 ^ 30) with false by (symmetry; apply Z.ltb_ge; dlia). }
  rewrite H2h, H2p. cbn [negb andb mbind option_bind]. rewrite (entry_addr p2) by done.
  rewrite E21, Hh, Hp. cbn [andb]. rewrite Ha. rewrite index_div in E30' by lia.
  replace (virt <? 2 ^ 30) with true by (symmetry; apply Z.ltb_lt; dlia).
  change (Z.shiftl 1 21 - 1) with (Z.ones 21). rewrite Z.land_ones, index_div by lia.
  f_equal. rewrite usize_small by dlia. dlia.
Qed.

(** The tables a walk from the root reaches. *)
Lemma boot_tables_reached m1 p a :
  boot_mapped m1 → Forall valid p → table_at m1 p4 levels p = Some a →
  (p = [] ∧ a = p4) ∨ (p = [0] ∧ a = p3) ∨ (p = [0; 0] ∧ a = p2).
Proof.
  intros He Hp. destruct boot_frames as (_ & F3 & F2).
  destruct (not_huge p3 F3) as [H3h H3p]. destruct (not_huge p2 F2) as [H2h H2p].
  destruct Hp as [|i p Hi Hp]; [intros [= <-]; by left|].
  cbn [table_at levels]. unfold next at 1. destruct (He i Hi) as (-> & _ & _).
  destruct (i =? 0) eqn:E0; break_cmp; [|done]. subst i. rewrite H3p, H3h, entry_addr by done.
  cbn [negb andb mbind option_bind]. change (39 <? 39) with false. cbn [negb andb mbind option_bind].
  destruct Hp as [|i p Hi' Hp]; [intros [= <-]; right; by left|].
  cbn [table_at]. unfold next at 1. destruct (He i Hi') as (_ & -> & _).
  destruct (i =? 0) eqn:E0; break_cmp; [|done]. subst i. rewrite H2p, H2h, entry_addr by done.
  cbn [negb andb mbind option_bind]. change (30 <? 39) with true. cbn [negb andb mbind option_bind].
  destruct Hp as [|i p Hi'' Hp]; [intros [= <-]; right; by right|].
  cbn [table_at]. unfold next at 1. destruct (He i Hi'') as (_ & _ & ->).
  destruct (large_entry i Hi'') as (Hh & Hpr & _). cbn zeta in *. rewrite Hh, Hpr. done.
Qed.

Lemma boot_wf m1 :
  boot_mapped m1 → wf (mkState m1 VMM_PAGES_BASE) p4.
Proof.
  intros E1. pose proof (boot_tables_reached m1) as Hr. destruct boot_frames as (F4 & F3 & F2).
  split; cbn [vmem next_page_addr].
  - vm_compute. split; [split; congruence|done].
  - intros p a Hp Ha. unfold PAGE_SIZE, VMM_PAGES_BASE.
    destruct (Hr p a E1 Hp Ha) as [[_ ->]|[[_ ->]|[_ ->]]]; (split; [done|left; lia]).
  - intros p q a Hp Hq Ha Hb. pose proof (Hr p a E1 Hp Ha) as H1. pose proof (Hr q a E1 Hq Hb) as H2.
    clear Hr E1 Ha Hb.
    destruct H1 as [[-> ->]|[[-> ->]|[-> ->]]], H2 as [[-> E]|[[-> E]|[-> E]]]; done || lia.
Qed.

End Tables.

(** The page tables of boot.asm map the first gigabyte of virtual memory to the
    same physical addresses and nothing above it, and they satisfy what the
    virtual memory manager requires of the tables it starts from: they are
    disjoint and none lies in the memory it takes new tables from. *)
Theorem boot_tables m p4 virt
    (Hp4 : 0 < p4) (Hend : p4 + 0x3000 ≤ 0x500000) (Halign : p4 mod PAGE_SIZE = 0)
    (Hv : 0 ≤ virt < 2 ^ 48) :
  let m' := setup_page_tables m p4 (p4 + 0x1000) (p4 + 0x2000) in
  translate m' p4 virt = (if virt <? 2 ^ 30 then Some virt else None) ∧
  wf (mkState m' VMM_PAGES_BASE) p4.
Proof.
  intros m'. split.
  - apply (boot_translate p4 (p4 + 0x1000) (p4 + 0x2000)); try done. by eapply (boot_entries m).
  - apply (boot_wf p4 (p4 + 0x1000) (p4 + 0x2000)); try done. by eapply (boot_entries m).
Qed.

Lemma boot_tables_witness :
  translate (setup_page_tables ∅ 0x200000 0x201000 0x202000) 0x200000 0xB8000 = Some 0xB8000 ∧
  translate (setup_page_tables ∅ 0x200000 0x201000 0x202000) 0x200000 Apic.demo_apic.(Apic.LAPIC_BASE) = None.
Proof.
  assert (Ha : 0x200000 mod PAGE_SIZE = 0) by reflexivity.
  destruct (boot_tables ∅ 0x200000 0xB8000 ltac:(lia) ltac:(lia) Ha ltac:(lia)) as [H1 _].
  destruct (boot_tables ∅ 0x200000 0xFEE00000 ltac:(lia) ltac:(lia) Ha ltac:(lia)) as [H2 _].
  split; [exact H1|exact H2].
Defined.

End PageTables.

(** ** Device registers under the boot page tables *)

Module Mmio.
Import Device.Device.

(** The virtual address of an access. *)
Definition register (e : event) : option Z :=
  match e with
  | Store a _ => Some a
  | Load a _ => Some a
  | _ => None
  end.

(** An access, if it is one, to one of the first 4096 bytes after [base]. *)
Definition near (base : Z) (e : event) : Prop :=
  match register e with
  | Some a => base ≤ a < base + 4096
  | None => True
  end.

Section Lapic.
Context {D : Device}.

Lemma reg_near s base off :
  Apic.LAPIC_BASE s = base → 0 ≤ base < 2 ^ 64 - 4096 → 0 ≤ off < 4096 →
  base ≤ (Apic.LAPIC_BASE s + off)%usize < base + 4096.
Proof. intros -> Hb Ho. rewrite usize_small by lia. lia. Qed.

Lemma lapic_init_near s info t :
  0 ≤ Acpi.local_apic_address info < 2 ^ 64 - 4096 →
  ∃ line a v es, (Apic.LocalApic_init s info t).2 = t ++ Say line :: Store a v :: es ∧
    Forall (near (Acpi.local_apic_address info)) (Store a v :: es).
Proof.
  intros Hb. unfold Apic.LocalApic_init.
  set (s1 := Apic.mkApic _ _ _ _). assert (E : Apic.LAPIC_BASE s1 = Acpi.local_apic_address info) by done.
  clearbody s1. revert E Hb. generalize (Acpi.local_apic_address info). intros base E Hb. cbv zeta.
  rewrite run_bind.
  match goal with |- context [mbind ?k0 (Apic.write_reg s1 Apic.LAPIC_LVT_TIMER _)] => set (k := k0) end.
  rewrite run_bind. unfold trace, Apic.write_reg, store. cbn [fst snd].
  assert (Hk : emits (near base) (k tt)).
  { unfold k.
    do 8 (apply emits_bind; [apply emits_store; apply (reg_near s1); done || lia|intros _]).
    apply emits_bind; [apply emits_load; intros v; apply (reg_near s1); done || lia|intros svr].
    destruct (_ =? 0); [apply emits_ret|].
    do 3 (apply emits_bind; [apply emits_load; intros v; apply (reg_near s1); done || lia|intros ?]).
    apply emits_bind; [by apply emits_kprintln|intros _]. apply emits_ret. }
  clearbody k. match goal with |- context [k tt ?t1] => destruct (Hk t1) as (es & Et & Hes) end.
  eexists _, _, _, es. unfold trace, kprintln in *. cbn [snd] in *. rewrite Et, <- !app_assoc. split; [done|].
  apply Forall_cons_2; [|done]. apply (reg_near s1); done || lia.
Qed.

(** C40. Under the page tables of boot.asm none of the registers the initialisation
    of the local APIC uses is mapped, wherever above the first gigabyte the
    tables of the firmware, or the default 0xFEE00000, put it: the first access,
    right after the first line it prints, faults. *)
Theorem lapic_init_faults m p4 s info t
    (Hp4 : 0 < p4) (Hend : p4 + 0x3000 ≤ 0x500000) (Halign : p4 mod PAGE_SIZE = 0)
    (Hbase : 2 ^ 30 ≤ Acpi.local_apic_address info < 2 ^ 48 - 4096) :
  let m' := PageTables.setup_page_tables m p4 (p4 + 0x1000) (p4 + 0x2000) in
  ∃ line a v es, (Apic.LocalApic_init s info t).2 = t ++ Say line :: Store a v :: es ∧
    Forall (λ e, ∀ a, register e = Some a → Vmm.translate m' p4 a = None) (Store a v :: es).
Proof.
  intros m'. assert (Hmap : PageTables.boot_mapped p4 (p4 + 0x1000) (p4 + 0x2000) m')
    by (by apply (PageTables.boot_entries m)).
  pose proof (λ a, PageTables.boot_translate p4 (p4 + 0x1000) (p4 + 0x2000) Hp4 Hend Halign eq_refl eq_refl m' a
    Hmap) as Htr'. clearbody m'.
  destruct (lapic_init_near s info t ltac:(lia)) as (line & a & v & es & E & Hes).
  exists line, a, v, es. split; [done|]. eapply Forall_impl; [exact Hes|]. intros e' He b Eb.
  unfold near in He. rewrite Eb in He.
  rewrite Htr' by lia. by replace (b <? 2 ^ 30) with false by (symmetry; apply Z.ltb_ge; lia).
Qed.
End Lapic.

Lemma lapic_init_faults_witness :
  let m' := PageTables.setup_page_tables ∅ 0x200000 (0x200000 + 0x1000) (0x200000 + 0x2000) in
  ∃ line a v es,
    (Apic.LocalApic_init (D := Apic.demo_pit) Apic.Apic_statics Acpi.AcpiInfo_new []).2 =
      Say line :: Store a v :: es ∧ Vmm.translate m' 0x200000 a = None.
Proof.
  intros m'.
  destruct (lapic_init_faults (D := Apic.demo_pit) ∅ 0x200000 Apic.Apic_statics Acpi.AcpiInfo_new []
    ltac:(lia) ltac:(lia) eq_refl ltac:(cbn; lia)) as (line & a & v & es & E & H).
  exists line, a, v, es. split; [exact E|]. apply Forall_cons in H as [H _]. exact (H a eq_refl).
Defined.

End Mmio.

(** ** The interrupt controllers *)

Module Pic.
Import Device.Device.

Definition init_pic : io unit :=
  outb 0x20 0x11;;
  outb 0xA0 0x11;;
  outb 0x21 0x20;;
  outb 0xA1 0x28;;
  outb 0x21 0x04;;
  outb 0xA1 0x02;;
  outb 0x21 0x01;;
  outb 0xA1 0x01;;
  outb 0x21 0xFC;;
  outb 0xA1 0xFF.

(** An 8259: the initialisation word it waits for next, if any, the vector of
    its first line, its cascade and mode words, and its mask. *)
Inductive stage := Operating | WantBase | WantCascade | WantMode.

Record Pic := mkPic {
  pic_stage : stage;
  pic_base : Z;
  pic_cascade : Z;
  pic_mode : Z;
  pic_mask : Z
}.

Definition write_command (p : Pic) (v : Z) : Pic :=
  if negb (Z.land v 0x10 =? 0) then mkPic WantBase (pic_base p) (pic_cascade p) 0 0 else p.

Definition write_data (p : Pic) (v : Z) : Pic :=
  match pic_stage p with
  | WantBase => mkPic WantCascade (Z.land v 0xF8) (pic_cascade p) (pic_mode p) (pic_mask p)
  | WantCascade => mkPic WantMode (pic_base p) v (pic_mode p) (pic_mask p)
  | WantMode => mkPic Operating (pic_base p) (pic_cascade p) v (pic_mask p)
  | Operating => mkPic Operating (pic_base p) (pic_cascade p) (pic_mode p) v
  end.

(** The controllers at the ports 0x20 and 0xA0 after a sequence of accesses. *)
Definition pic_step (ps : Pic * Pic) (e : event) : Pic * Pic :=
  match e with
  | OutB port v =>
      if port =? 0x20 then (write_command ps.1 v, ps.2)
      else if port =? 0x21 then (write_data ps.1 v, ps.2)
      else if port =? 0xA0 then (ps.1, write_command ps.2 v)
      else if port =? 0xA1 then (ps.1, write_data ps.2 v)
      else ps
  | _ => ps
  end.

Definition pics (ps : Pic * Pic) (t : list event) : Pic * Pic := foldl pic_step ps t.

(** The vector of an interrupt line, and whether it reaches the processor; the
    second controller hangs on line 2 of the first one. *)
Definition irq_vector (ps : Pic * Pic) (irq : Z) : Z :=
  if irq <? 8 then pic_base ps.1 + irq else pic_base ps.2 + (irq - 8).

Definition irq_enabled (ps : Pic * Pic) (irq : Z) : bool :=
  if irq <? 8 then negb (Z.testbit (pic_mask ps.1) irq)
  else negb (Z.testbit (pic_mask ps.2) (irq - 8)) && negb (Z.testbit (pic_mask ps.1) 2).

(** Both controllers expect no more initialisation words, are cascaded through
    line 2 and in 8086 mode. *)
Definition operating (ps : Pic * Pic) : Prop :=
  pic_stage ps.1 = Operating ∧ pic_stage ps.2 = Operating ∧
  pic_cascade ps.1 = 2 ^ 2 ∧ pic_cascade ps.2 = 2 ∧ pic_mode ps.1 = 1 ∧ pic_mode ps.2 = 1.

Lemma irq_cases (P : Z → bool) : forallb P (seqZ 0 16) = true → ∀ irq, 0 ≤ irq < 16 → P irq = true.
Proof.
  intros H irq Hi. rewrite forallb_forall in H. apply H, list_elem_of_In, elem_of_seqZ. lia.
Qed.

Lemma pics_app ps t1 t2 : pics ps (t1 ++ t2) = pics (pics ps t1) t2.
Proof. apply foldl_app. Qed.

(** Whatever state the firmware leaves the interrupt controllers in, after
    [init_pic] line [n] raises vector [32 + n], clear of the exceptions, and only
    the timer and the keyboard are enabled; after [disable_pic] the vectors are
    the same and no line is enabled. *)
Theorem pic_remapped ps t irq (Hirq : 0 ≤ irq < 16) :
  let ps1 := pics ps (init_pic t).2 in
  let ps2 := pics ps ((init_pic;; Apic.disable_pic) t).2 in
  operating ps1 ∧ operating ps2 ∧
  irq_vector ps1 irq = 32 + irq ∧ irq_vector ps2 irq = 32 + irq ∧
  irq_enabled ps1 irq = (irq <? 2) ∧ irq_enabled ps2 irq = false.
Proof.
  set (words := [OutB 0x20 0x11; OutB 0xA0 0x11; OutB 0x21 0x20; OutB 0xA1 0x28; OutB 0x21 0x04;
    OutB 0xA1 0x02; OutB 0x21 0x01; OutB 0xA1 0x01; OutB 0x21 0xFC; OutB 0xA1 0xFF]).
  assert (E1 : (init_pic t).2 = t ++ words) by (unfold init_pic, Apic.disable_pic, mbind, io_bind, outb; by rewrite <- !app_assoc).
  assert (E2 : ∃ line, ((init_pic;; Apic.disable_pic) t).2 =
      t ++ words ++ [Say line; OutB 0x21 0xFF; OutB 0xA1 0xFF])
    by (eexists; unfold init_pic, Apic.disable_pic, mbind, io_bind, kprintln, outb; by rewrite <- !app_assoc).
  destruct E2 as [line E2].
  rewrite E1, E2, !pics_app. generalize (pics ps t). intros [[] []]. cbn zeta.
  rename irq into n. match goal with |- operating ?x ∧ operating ?y ∧ _ => set (ps1 := x); set (ps2 := y) end.
  split; [by split_and!|]. split; [by split_and!|].
  pose proof (irq_cases (λ i, irq_vector ps1 i =? 32 + i) eq_refl n Hirq) as H1.
  pose proof (irq_cases (λ i, irq_vector ps2 i =? 32 + i) eq_refl n Hirq) as H2.
  pose proof (irq_cases (λ i, eqb (irq_enabled ps1 i) (i <? 2)) eq_refl n Hirq) as H3.
  pose proof (irq_cases (λ i, eqb (irq_enabled ps2 i) false) eq_refl n Hirq) as H4.
  apply Z.eqb_eq in H1, H2. apply eqb_prop in H3, H4. done.
Qed.

Lemma pic_remapped_witness :
  irq_vector (pics (mkPic Operating 8 4 1 0, mkPic Operating 0x70 2 1 0)
    (init_pic []).2) 1 = 33.
Proof.
  pose proof (pic_remapped (mkPic Operating 8 4 1 0, mkPic Operating 0x70 2 1 0)
    [] 1 ltac:(lia)) as (_ & _ & H & _). exact H.
Defined.

End Pic.

(** ** kernel_main *)

Module Boot.
Import Text.Text Device.Device Console.Console Interrupts.Interrupts Shell.Shell.

(** The state of the machine [kernel_main] sets up: what the shell uses, the
    tables of the processor, the heap, and the two tables of [KERNEL_STATE] the
    shell does not use. *)
Record Machine := mkMachine {
  system : System;
  gdt : list Gdt.GdtEntry * Z * Gdt.Tss;
  idt : list Idt.IdtEntry * (Z * Z);
  heap : bool * Heap.SlabAllocator;
  acpi : Acpi.AcpiInfo;
  vfs : option (Vfs.Vfs Ntfs.NtfsInode Ntfs.NtfsVolume);
  module_manager : option Modules.ModuleManager
}.

Definition on_system (f : System → System) (s : Machine) : Machine :=
  mkMachine (f (system s)) (gdt s) (idt s) (heap s) (acpi s) (vfs s) (module_manager s).
Definition say (line : string) (s : Machine) : Machine := on_system (println (str line)) s.
Definition prints (lines : list text) (s : Machine) : Machine :=
  foldl (λ s line, on_system (println line) s) s lines.

Definition memory (s : Machine) : mem := Task.gmem (globals (system s)).
Definition set_memory (m : mem) (s : System) : System :=
  mkSystem (kernel s) (Scheduler.with_mem (globals s) m) (pmm s) (vmm s) (DEV_MODE s).
Definition set_pmm (p : Pmm.Pmm) (s : System) : System :=
  mkSystem (kernel s) (globals s) (Some p) (vmm s) (DEV_MODE s).
Definition set_vmm (root : Z) (s : System) : System :=
  mkSystem (kernel s) (globals s) (pmm s) (Some root) (DEV_MODE s).
Definition set_apic (a : Apic.Apic) (k : Kernel) : Kernel :=
  mkKernel (keyboard k) (timer k) a (scheduler k) (console k).

Definition COM1 : Z := 0x3F8.

Definition serial_init : io unit :=
  outb (COM1 + 1) 0x00;;
  outb (COM1 + 3) 0x80;;
  outb (COM1 + 0) 0x03;;
  outb (COM1 + 1) 0x00;;
  outb (COM1 + 3) 0x03;;
  outb (COM1 + 2) 0xC7;;
  outb (COM1 + 4) 0x0B.

Section Main.
Context {D : Device}.

(** What the linker and the processor provide: the interrupt stubs, the places
    of the tables, the end of the kernel, the entry of the idle task, the
    addresses of the exported functions, and CR3. *)
Context (isr : Z → Z) (timer_isr spurious_isr idt_base tss_base stack_top kernel_end idle_task : Z).
Context (addr_of : string → Z) (cr3 : Z).

(** Phase 1: the processor. *)
Definition setup_cpu (s : Machine) : io Machine :=
  let s := say "[INIT] Initializing GDT..." s in
  let s := mkMachine (system s) (Gdt.init tss_base stack_top) (idt s) (heap s) (acpi s) (vfs s)
             (module_manager s) in
  let s := say "[INIT] GDT configured" s in
  let s := say "[INIT] Remapping PIC..." s in
  Pic.init_pic;;
  let s := say "[INIT] PIC remapped (IRQ0=timer enabled)" s in
  let s := say "[INIT] Setting up IDT..." s in
  let s := mkMachine (system s) (gdt s) (Idt.init isr timer_isr spurious_isr idt_base) (heap s) (acpi s)
             (vfs s) (module_manager s) in
  let s := say "[INIT] IDT configured (timer ISR + spurious handler)" s in
  let s := say "[INIT] Initializing interrupt handlers..." s in
  let s := say "[INIT] Interrupt handlers ready" s in
  let s := say "[INIT] Enabling interrupts..." s in
  mret (say "[INIT] Interrupts enabled" s).

(** The page allocator and what it keeps back. *)
Definition boot_pmm (m : mem) : mem * Pmm.Pmm :=
  let '(m, p) := Pmm.new m KERNEL_BASE (64 * 1024 * 1024 * 1024) in
  let '(m, p) := Pmm.reserve_range m p KERNEL_BASE
                   (Z.max (saturating_sub kernel_end KERNEL_BASE) (PMM_BITMAP_BASE - KERNEL_BASE)) in
  let '(m, p) := Pmm.reserve_range m p PMM_BITMAP_BASE PMM_BITMAP_SIZE in
  let '(m, p) := Pmm.reserve_range m p VMM_PAGES_BASE VMM_PAGES_SIZE in
  let '(m, p) := Pmm.reserve_range m p HEAP_BASE HEAP_SIZE in
  Pmm.reserve_range m p TASK_STACKS_BASE 0x400000.

(** Phase 2: memory. *)
Definition setup_memory (s : Machine) : outcome Machine :=
  let s := say "[INIT] Initializing Physical Memory Manager..." s in
  let '(m, p) := boot_pmm (memory s) in
  let s := if PMM_BITMAP_BASE <=? kernel_end then
             on_system (println (str "[WARN] Kernel end " ++ fmt_hex kernel_end ++
                                 str " overlaps PMM bitmap at " ++ fmt_hex PMM_BITMAP_BASE ++ str "!")) s
           else s in
  let s := on_system (λ x, set_pmm p (set_memory m x)) s in
  let s := say "[INIT] PMM initialized" s in
  let s := say "[INIT] Initializing Virtual Memory Manager..." s in
  let s := on_system (set_vmm (Vmm.Vmm.new cr3)) s in
  let s := say "[INIT] VMM initialized" s in
  let s := say "[INIT] Initializing kernel heap..." s in
  match Heap.init (memory s) (heap s).1 (heap s).2 HEAP_BASE HEAP_SIZE with
  | Panic => Panic
  | Ret (m, b, h) =>
      let s := mkMachine (set_memory m (system s)) (gdt s) (idt s) (b, h) (acpi s) (vfs s)
                 (module_manager s) in
      Ret (say "[INIT] Kernel heap initialized" s)
  end.

(** [AcpiParser::new] and [parse]; after an error the defaults and what was
    read until then. *)
Definition setup_acpi (s : Machine) : Machine :=
  let s := say "[INIT] Parsing ACPI tables..." s in
  let '(p, r) := Acpi.parse (memory s) Acpi.AcpiParser_new in
  let s := prints (Acpi.printed p) s in
  let s := match r with
           | Ok _ => say "[INIT] ACPI parsed successfully" s
           | Err e => on_system (println (str "[WARN] ACPI parse failed: " ++ str e ++
                                          str ", using defaults")) s
           end in
  mkMachine (system s) (gdt s) (idt s) (heap s) (Acpi.info p) (vfs s) (module_manager s).

Definition setup_timer (s : Machine) : io Machine :=
  let s := say "[INIT] Initializing timer subsystem..." s in
  r ← logged (Timer.init (timer (kernel (system s))) (acpi s));
  let '(t, lines) := r in
  let s := prints lines (on_system (with_kernel (set_timer t)) s) in
  mret (on_system (println (str "[INIT] Timer subsystem active (PIT at " ++ fmt_dec (Timer.timer_hz t) ++
                            str " Hz)")) s).

(** The interrupt controllers, as far as they are there; [None] while the
    calibration waits for the PIT. *)
Definition setup_apic (polls : nat) (s : Machine) : io (option (outcome Machine)) :=
  let s := say "[INIT] Initializing Local APIC..." s in
  r ← logged (Apic.LocalApic_init (apic (kernel (system s))) (acpi s));
  let '(a, r, lines) := r in
  let s := prints lines (on_system (with_kernel (set_apic a)) s) in
  match r with
  | Err _ => mret (Some (Ret (say "[WARN] APIC not available, using legacy PIC" s)))
  | Ok _ =>
      let s := say "[INIT] Local APIC initialized" s in
      w ← logged (Apic.setup_timer polls (apic (kernel (system s))) 100);
      let '(w, lines) := w in
      let s := prints lines s in
      match w with
      | None => mret None
      | Some Panic => mret (Some Panic)
      | Some (Ret _) =>
          if Acpi.io_apic_address (acpi s) =? 0 then mret (Some (Ret s))
          else
            r ← logged (Apic.IoApic_init (apic (kernel (system s))) (acpi s));
            let '(a, r, lines) := r in
            let s := prints lines (on_system (with_kernel (set_apic a)) s) in
            match r with
            | Ok _ =>
                let s := say "[INIT] IO APIC initialized" s in
                d ← logged Apic.disable_pic;
                let s := prints d.2 s in
                mret (Some (Ret (say "[INIT] Switched to APIC mode (PIC disabled)" s)))
            | Err _ => mret (Some (Ret s))
            end
      end
  end.

(** Phases 4 to 7: files, modules, the scheduler with its idle task. *)
Definition setup_tasks (s : Machine) : Machine :=
  let s := say "[INIT] Initializing VFS..." s in
  let s := mkMachine (system s) (gdt s) (idt s) (heap s) (acpi s) (Some Vfs.Vfs_new) (module_manager s) in
  let s := say "[INIT] VFS initialized" s in
  let s := say "[INIT] Initializing module system..." s in
  let s := mkMachine (system s) (gdt s) (idt s) (heap s) (acpi s) (vfs s)
             (Some (Modules.ModuleManager_new addr_of 1)) in
  let s := say "[INIT] Module system ready" s in
  let s := say "[INIT] Initializing scheduler..." s in
  let '(g, sc, _) := Scheduler.create_idle_task (globals (system s)) Scheduler.Scheduler_new idle_task
                       (Timer.tick_count (timer (kernel (system s)))) in
  let s := on_system (λ x, mkSystem (kernel x) g (pmm x) (vmm x) (DEV_MODE x)) s in
  let s := say "[INIT] Idle task created (PID 1)" s in
  let s := on_system (with_scheduler sc) s in
  let s := say "[INIT] Scheduler initialized" s in
  let s := say "[INIT] Setting up system call interface..." s in
  let s := say "[INIT] Syscall interface active" s in
  let s := say "[INIT] Enabling preemptive scheduling..." s in
  let s := match scheduler (kernel (system s)) with
           | Some sc =>
               say (Scheduler.preemption_line true)
                 (on_system (with_scheduler (Scheduler.enable_preemption sc)) s)
           | None => s
           end in
  let s := say "" s in
  let s := say "========================================" s in
  let s := say "  DeltaOS kernel initialized!" s in
  let s := say "  Multitasking: ACTIVE (Round-Robin)" s in
  let s := say "  All subsystems online." s in
  let s := say "========================================" s in
  say "" s.

(** Up to the call of [shell]; the two lines printed before it stops are not
    kept. *)
Definition kernel_main (polls : nat) (magic : Z) (s : Machine) : io (option (flow Machine)) :=
  serial_init;;
  let s := on_system (with_console vga_clear) s in
  if negb (magic =? 0x36D76289) && negb (magic =? 0x2BADB002) then mret (Some Halts)
  else
    let s := on_system (println (str "[BOOT] Multiboot magic validated: " ++ fmt_hex magic)) s in
    s ← setup_cpu s;
    match setup_memory s with
    | Panic => mret (Some Panics)
    | Ret s =>
        let s := setup_acpi s in
        s ← setup_timer s;
        r ← setup_apic polls s;
        match r with
        | None => mret None
        | Some Panic => mret (Some Panics)
        | Some (Ret s) => mret (Some (Returns (setup_tasks s)))
        end
    end.
(** *** The page allocator after boot *)

(** The allocator of 64 GB from [KERNEL_BASE], with the pages [Q] in use. *)
Definition pmm_uses (m : mem) (p : Pmm.Pmm) (Q : Z → Prop) : Prop :=
  Pmm.wf m p ∧
  (∃ n, p = Pmm.mkPmm Pmm.BITMAP_BASE Pmm.BITMAP_SIZE 0x1000000 n KERNEL_BASE (KERNEL_BASE + 2 ^ 36)) ∧
  ∀ j, 0 ≤ j < 0x1000000 → Pmm.get_bit m p j = true ↔ Q (KERNEL_BASE + j * PAGE_SIZE).

Lemma reserve_uses m p start size m' p' Q :
  pmm_uses m p Q → Pmm.reserve_range m p start size = (m', p') →
  KERNEL_BASE ≤ start → 0 ≤ size → start + size < 2 ^ 64 →
  pmm_uses m' p' (λ a, a < start + size ∧ start < a + PAGE_SIZE ∨ Q a) ∧
  ∀ a, ¬ (Pmm.BITMAP_BASE ≤ a < Pmm.BITMAP_BASE + Pmm.BITMAP_SIZE) → rd m' a = rd m a.
Proof.
  intros (Hwf & [n ->] & Hbits) E Hs Hsz Hlt.
  destruct (Pmm.reserve_range_post _ _ _ _ _ _ Hwf Hs Hsz Hlt E) as (Hwf' & Hp & Hb & Hf).
  split; [|exact Hf]. split; [done|]. split; [eexists; exact Hp|]. intros j Hj.
  rewrite Hb by exact Hj. rewrite Hbits by done. unfold Pmm.page_meets, Pmm.page_addr.
  cbn [Pmm.base_addr]. by replace (KERNEL_BASE + (j + 1) * PAGE_SIZE) with (KERNEL_BASE + j * PAGE_SIZE + PAGE_SIZE) by lia.
Qed.

Lemma pmm_uses_iff m p (Q Q' : Z → Prop) :
  pmm_uses m p Q → (∀ j, 0 ≤ j → Q (KERNEL_BASE + j * PAGE_SIZE) ↔ Q' (KERNEL_BASE + j * PAGE_SIZE)) →
  pmm_uses m p Q'.
Proof.
  intros (Hwf & Hp & Hbits) HQ. split; [done|]. split; [done|]. intros j Hj.
  rewrite Hbits by done. apply HQ. lia.
Qed.

Lemma boot_pmm_post m m' p :
  bytes m → kernel_end ≤ 0xE00000 → boot_pmm m = (m', p) →
  pmm_uses m' p (λ a, a < 0xE00000) ∧
  ∀ a, ¬ (Pmm.BITMAP_BASE ≤ a < Pmm.BITMAP_BASE + Pmm.BITMAP_SIZE) → rd m' a = rd m a.
Proof.
  intros Hm Hk. unfold boot_pmm.
  assert (C1 : 0 ≤ KERNEL_BASE ≤ Pmm.BITMAP_BASE) by by vm_compute.
  assert (C2 : 0 ≤ 64 * 1024 * 1024 * 1024 ≤ Pmm.MAX_PHYS_MEMORY) by by vm_compute.
  pose proof (λ m0 p0, Pmm.new_post m KERNEL_BASE (64 * 1024 * 1024 * 1024) m0 p0 Hm C1 eq_refl C2 eq_refl)
    as Hnew.
  destruct (Pmm.new m KERNEL_BASE _) as [m0 p0].
  destruct (Hnew m0 p0 eq_refl) as (Hwf & Hp & Hb & Hf0). clear Hnew.
  assert (H0 : pmm_uses m0 p0 (λ a, 0x500000 ≤ a < 0x700000)).
  { split; [done|]. split; [eexists; exact Hp|]. intros j Hj. rewrite Hb by exact Hj.
    unfold Pmm.bitmap_page. rewrite inrange_true.
    change ((Pmm.BITMAP_BASE - KERNEL_BASE) / PAGE_SIZE) with 1024.
    change (Pmm.BITMAP_SIZE / PAGE_SIZE) with 512. unfold KERNEL_BASE, PAGE_SIZE. lia. }
  clear Hb Hp Hwf.
  destruct (Pmm.reserve_range m0 p0 _ _) as [m1 p1] eqn:E1.
  eapply reserve_uses in E1 as [H1 Hf1]; [|exact H0|lia| |]; [|unfold saturating_sub, KERNEL_BASE, PMM_BITMAP_BASE; lia..].
  destruct (Pmm.reserve_range m1 p1 _ _) as [m2 p2] eqn:E2.
  eapply reserve_uses in E2 as [H2 Hf2]; [|exact H1|by vm_compute..].
  destruct (Pmm.reserve_range m2 p2 _ _) as [m3 p3] eqn:E3.
  eapply reserve_uses in E3 as [H3 Hf3]; [|exact H2|by vm_compute..].
  destruct (Pmm.reserve_range m3 p3 _ _) as [m4 p4] eqn:E4.
  eapply reserve_uses in E4 as [H4 Hf4]; [|exact H3|by vm_compute..].
  intros E5. eapply reserve_uses in E5 as [H5 Hf5]; [|exact H4|by vm_compute..].
  split.
  - eapply pmm_uses_iff; [exact H5|]. intros j Hj. cbn beta.
    unfold saturating_sub, TASK_STACKS_BASE, HEAP_BASE, HEAP_SIZE, VMM_PAGES_BASE, VMM_PAGES_SIZE,
      PMM_BITMAP_BASE, PMM_BITMAP_SIZE, KERNEL_BASE, PAGE_SIZE. lia.
  - intros a Ha. by rewrite Hf5, Hf4, Hf3, Hf2, Hf1, Hf0 by done.
Qed.

(** *** The phases *)

Lemma pmm_uses_ext m m' p Q :
  pmm_uses m p Q → bytes m' →
  (∀ a, Pmm.BITMAP_BASE ≤ a < Pmm.BITMAP_BASE + Pmm.BITMAP_SIZE → rd m' a = rd m a) →
  pmm_uses m' p Q.
Proof.
  intros (Hwf & [n ->] & Hbits) Hb Hm.
  assert (Hg : ∀ j, 0 ≤ j → Pmm.get_bit m' (Pmm.mkPmm Pmm.BITMAP_BASE Pmm.BITMAP_SIZE 0x1000000 n
      KERNEL_BASE (KERNEL_BASE + 2 ^ 36)) j = Pmm.get_bit m (Pmm.mkPmm Pmm.BITMAP_BASE Pmm.BITMAP_SIZE
      0x1000000 n KERNEL_BASE (KERNEL_BASE + 2 ^ 36)) j)
    by (intros j Hj; by apply Pmm.get_bit_ext).
  split; [|split; [by eexists|intros j Hj; rewrite Hg by lia; by apply Hbits]].
  destruct Hwf. split; try assumption.
  - rewrite wf_count. apply countZ_ext. intros i Hi. f_equal. symmetry. apply Hg. lia.
  - intros a Ha Hr. rewrite Hg; [by apply wf_self|]. cbn [Pmm.base_addr Pmm.end_addr] in *.
    apply Z.div_pos; [lia|done].
Qed.

(** What the later phases leave alone. *)
Definition core (s : Machine) :=
  (globals (system s), pmm (system s), vmm (system s), heap s, idt s, gdt s).
Definition hz (s : Machine) : Z := Timer.TIMER_HZ (timer (kernel (system s))).

Lemma setup_cpu_spec s t :
  let s' := (setup_cpu s t).1 in
  globals (system s') = globals (system s) ∧ heap s' = heap s ∧
  idt s' = Idt.init isr timer_isr spurious_isr idt_base ∧ gdt s' = Gdt.init tss_base stack_top.
Proof. unfold setup_cpu. rewrite run_bind. done. Qed.

Lemma setup_memory_spec s m :
  globals (system s) = Task.Globals_init m → bytes m → heap s = (false, Heap.SlabAllocator_new) →
  kernel_end ≤ 0xE00000 →
  ∃ s' m' p h, setup_memory s = Ret s' ∧
    core s' = (Task.Globals_init m', Some p, Some (Vmm.Vmm.new cr3), (true, h), idt s, gdt s) ∧
    bytes m' ∧ pmm_uses m' p (λ a, a < 0xE00000) ∧ Heap.inv true h [] ∧
    Heap.heap_start h = HEAP_BASE ∧ Heap.heap_size h = HEAP_SIZE ∧
    ∀ a, a < Pmm.BITMAP_BASE → rd m' a = rd m a.
Proof.
  intros Hg Hb Hh Hk. unfold setup_memory. cbv zeta.
  change (memory (say _ s)) with (Task.gmem (globals (system s))). rewrite Hg. cbn [Task.gmem Task.Globals_init].
  destruct (boot_pmm m) as [m1 p] eqn:E1. apply boot_pmm_post in E1 as [Huse Hf]; [|done..].
  set (s1 := if PMM_BITMAP_BASE <=? kernel_end then _ else _).
  assert (Hs1 : core s1 = core s) by (unfold s1; by destruct (_ <=? _)). clearbody s1.
  match goal with |- context [Heap.init (memory ?x) _ _ _ _] =>
    change (memory x) with m1; change (heap x) with (heap s1) end.
  assert (Hh1 : heap s1 = (false, Heap.SlabAllocator_new)) by (rewrite <- Hh; unfold core in Hs1; congruence).
  rewrite Hh1. cbn [fst snd].
  destruct (Heap.init_std m1) as (m2 & h & E2 & Hinv & Hst & Hsz & _). rewrite E2.
  apply Heap.init_frame in E2 as [Hb2 Hf2]; [|done..].
  assert (Hb1 : bytes m1) by by destruct Huse as [[] _].
  eexists _, m2, p, h. split; [done|]. split_and!; try done.
  - match goal with |- core ?x = _ => change (core x) with
      (Scheduler.with_mem (Scheduler.with_mem (globals (system s1)) m1) m2, Some p,
       Some (Vmm.Vmm.new cr3), (true, h), idt s1, gdt s1) end.
    unfold core in Hs1. injection Hs1 as -> _ _ _ -> ->. by rewrite Hg.
  - by apply Hb2.
  - eapply pmm_uses_ext; [exact Huse|by apply Hb2|]. intros a Ha. apply Hf2.
    unfold Pmm.BITMAP_BASE, PMM_BITMAP_BASE, HEAP_BASE in *. change Pmm.BITMAP_SIZE with 0x200000 in Ha. lia.
  - intros a Ha. unfold Pmm.BITMAP_BASE, PMM_BITMAP_BASE in Ha. rewrite Hf2 by (unfold HEAP_BASE; lia).
    apply Hf. unfold Pmm.BITMAP_BASE, PMM_BITMAP_BASE. lia.
Qed.

Lemma prints_core lines s : core (prints lines s) = core s ∧ hz (prints lines s) = hz s.
Proof.
  revert s. induction lines as [|l lines IH]; intros s; [done|].
  unfold prints. cbn [foldl]. fold (prints lines (on_system (println l) s)).
  destruct (IH (on_system (println l) s)) as [-> ->]. done.
Qed.

Lemma setup_acpi_spec s : core (setup_acpi s) = core s.
Proof.
  unfold setup_acpi. destruct (Acpi.parse _ _) as [p [u|e]].
  all: match goal with |- context [prints ?l ?x] => pose proof (prints_core l x) as [Hp _];
    set (s1 := prints l x) in *; clearbody s1 end.
  all: by transitivity (core s1).
Qed.

Lemma setup_timer_spec s t : core (setup_timer s t).1 = core s ∧ hz (setup_timer s t).1 = 100.
Proof.
  unfold setup_timer. rewrite run_bind.
  match goal with |- context [logged ?x t] =>
    pose proof (logged_result x t) as Hr; destruct (logged x t).1 as [tm lines] end.
  cbn [fst] in Hr. cbv zeta.
  match goal with |- context [prints lines ?x] => pose proof (prints_core lines x) as [Hp Hq];
    set (s1 := prints lines x) in *; clearbody s1 end.
  split; [by transitivity (core s1)|].
  match goal with |- hz ?x = _ => change (hz x) with (hz s1) end. rewrite Hq.
  match goal with |- hz ?x = _ => change (hz x) with (Timer.TIMER_HZ tm) end.
  rewrite Hr. apply Timer.init_hz.
Qed.

Lemma setup_apic_spec polls s t :
  (∀ t, (Apic.wait_pit polls t).1 = true) →
  ∃ s', (setup_apic polls s t).1 = Some (Ret s') ∧ core s' = core s ∧ hz s' = hz s.
Proof.
  intros Hpit. unfold setup_apic. rewrite run_bind. cbv zeta.
  destruct ((logged (Apic.LocalApic_init _ _) t).1) as [[a1 r1] l1].
  match goal with |- context [prints l1 ?x] => pose proof (prints_core l1 x) as [Hp Hq];
    set (s1 := prints l1 x) in *; clearbody s1 end.
  destruct r1 as [u|e]; [|by exists (say "[WARN] APIC not available, using legacy PIC" s1)].
  rewrite run_bind.
  match goal with |- context [logged (Apic.setup_timer polls ?a 100) ?t1] =>
    assert (Hw : (logged (Apic.setup_timer polls a 100) t1).1.1 = Some (Ret tt))
      by (rewrite logged_result; by apply Apic.setup_timer_returns);
    destruct (logged (Apic.setup_timer polls a 100) t1).1 as [w l2] end.
  cbn [fst] in Hw. subst w. cbn iota.
  match goal with |- context [prints l2 ?x] => pose proof (prints_core l2 x) as [Hp2 Hq2];
    set (s2 := prints l2 x) in *; clearbody s2 end.
  destruct (_ =? 0); [exists s2; split; [done|]; by rewrite Hp2, Hq2|]. rewrite run_bind.
  destruct ((logged (Apic.IoApic_init _ _) _).1) as [[a2 r2] l3].
  match goal with |- context [prints l3 ?x] => pose proof (prints_core l3 x) as [Hp3 Hq3];
    set (s3 := prints l3 x) in *; clearbody s3 end.
  assert (H3 : core s3 = core s ∧ hz s3 = hz s).
  { rewrite Hp3, Hq3. match goal with |- core ?x = _ ∧ _ => change (core x) with (core s2); change (hz x) with (hz s2) end.
    by rewrite Hp2, Hq2. }
  destruct r2 as [u2|e2]; [|by exists s3].
  rewrite run_bind. eexists. split; [done|].
  match goal with |- context [prints ?l ?x] => pose proof (prints_core l x) as [Hp4 Hq4];
    set (s4 := prints l x) in *; clearbody s4 end.
  destruct H3 as [H3 H3']. split; [by rewrite <- H3|by rewrite <- H3'].
Qed.

(** The idle task is made on a fresh stack at [TASK_STACKS_BASE]. *)
Lemma idle_task_spec m now g sc i :
  bytes m → Scheduler.create_idle_task (Task.Globals_init m) Scheduler.Scheduler_new idle_task now = (g, sc, i) →
  bytes (Task.gmem g) ∧ (∀ a, a < TASK_STACKS_BASE → rd (Task.gmem g) a = rd m a) ∧
  Scheduler.reachable (g, sc) ∧ i = 1 ∧
  (λ x, (Scheduler.info_id x, Scheduler.info_name x, Scheduler.info_state x, Scheduler.info_priority x))
    <$> Scheduler.list_tasks sc = [(1, "idle"%string, Task.Ready, Task.Low)] ∧
  Scheduler.ready_queue sc = Scheduler.all_tasks sc ∧ Scheduler.current sc = None.
Proof.
  intros Hb E.
  assert (Hr : Scheduler.reachable (g, sc)).
  { eapply Scheduler.reach_step; [apply (Scheduler.reach_new m)|].
    pose proof (Scheduler.st_create_priority (Task.Globals_init m) Scheduler.Scheduler_new idle_task
      "idle" Task.Low now ltac:(simpl; lia)) as Hstep.
    unfold Scheduler.create_idle_task in E. by rewrite E in Hstep. }
  assert (En : ∃ t, Task.new_kernel_with_priority (Task.Globals_init m) idle_task "idle" Task.Low =
      (Task.mkGlobals (write_zeros m 0xA00000 0x10000) 2 0xA10000, t) ∧ Task.stack_top t = 0xA10000 ∧
      (Task.id t, Task.name t, Task.state t, Task.priority t) = (1, "idle"%string, Task.Ready, Task.Low))
    by (eexists; split; [reflexivity|split; reflexivity]).
  destruct En as (t & En & Htop & Ht).
  unfold Scheduler.create_idle_task, Scheduler.create_kernel_task_with_priority in E. rewrite En in E. clear En.
  unfold Scheduler.add_task in E. cbn [Task.gmem] in E. rewrite Task.setup_initial_stack_push, Htop in E.
  destruct (Task.push_all_frame (Task.initial_words t) (write_zeros m 0xA00000 0x10000) 0xA10000) as [Hb2 Hf2];
    [change (8 * Z.of_nat (length (Task.initial_words t))) with 184; lia|].
  change (8 * Z.of_nat (length (Task.initial_words t))) with 184 in Hf2. revert E Hb2 Hf2.
  generalize (foldl Task.push (write_zeros m 0xA00000 0x10000, 0xA10000) (Task.initial_words t)).
  intros [m2 sp] E Hb2 Hf2. cbn [fst snd] in *. injection E as <- <- <-. injection Ht as Hi Hn Hs Hp.
  split; [apply Hb2; by apply bytes_write_zeros|]. split.
  { intros a Ha. cbn [Scheduler.with_mem Task.gmem]. unfold TASK_STACKS_BASE in Ha.
    rewrite Hf2 by lia. apply rd_write_zeros_out. lia. }
  split; [done|]. split; [done|]. split; [|done].
  unfold Scheduler.list_tasks. cbn [Scheduler.all_tasks Scheduler.arcs app omap list_omap].
  rewrite lookup_insert_eq. cbn. by rewrite Hi, Hn, Hs, Hp.
Qed.

(** The frame the idle task is resumed from, as [timer_isr] reads it. *)
Lemma idle_task_frame m now g sc i :
  0 ≤ idle_task < 2 ^ 64 →
  Scheduler.create_idle_task (Task.Globals_init m) Scheduler.Scheduler_new idle_task now = (g, sc, i) →
  ∃ t, Scheduler.arcs sc = {[0 := t]} ∧ Scheduler.ready_queue sc = [0] ∧ Task.state t = Task.Ready ∧
    Task.saved_rsp t = 0xA0FF48 ∧
    Task.rip (Task.timer_isr_restore (Task.gmem g) 0xA0FF48) = 0x20 ∧
    Task.cs (Task.timer_isr_restore (Task.gmem g) 0xA0FF48) = 0.
Proof.
  intros Hi E.
  assert (En : ∃ t, Task.new_kernel_with_priority (Task.Globals_init m) idle_task "idle" Task.Low =
      (Task.mkGlobals (write_zeros m 0xA00000 0x10000) 2 0xA10000, t) ∧ Task.stack_top t = 0xA10000 ∧
      Task.entry_point t = idle_task ∧ Task.state t = Task.Ready)
    by (eexists; split; [reflexivity|split_and!; reflexivity]).
  destruct En as (t & En & Htop & Hent & Hs).
  unfold Scheduler.create_idle_task, Scheduler.create_kernel_task_with_priority in E. rewrite En in E. clear En.
  unfold Scheduler.add_task in E. cbn [Task.gmem] in E.
  assert (Hst : Task.stacked t) by (split; [rewrite Htop; lia|rewrite Hent; exact Hi]).
  pose proof (Task.initial_frame (write_zeros m 0xA00000 0x10000) t Hst) as Hf.
  pose proof (Task.fresh_task_frame (write_zeros m 0xA00000 0x10000) t Hst) as Hw.
  destruct (Task.setup_initial_stack_keeps (write_zeros m 0xA00000 0x10000) t) as (_ & Hs' & _).
  destruct (Task.setup_initial_stack (write_zeros m 0xA00000 0x10000) t) as [m2 t2].
  destruct Hf as (Hsp & _). destruct Hw as (Hrip & Hcs & _). rewrite Htop in Hsp.
  injection E as <- <- <-. cbn [snd] in Hs'. exists (Task.set_start_tick now t2).
  split; [reflexivity|]. split; [reflexivity|]. split; [change (Task.state t2 = Task.Ready); by rewrite Hs'|].
  rewrite Hsp in Hrip, Hcs. split; [exact Hsp|]. split; [exact Hrip|exact Hcs].
Qed.

(** What the shell starts from, after a boot with the memory [m0]. *)
Record booted (m0 : mem) (s : Machine) : Prop := {
  booted_pmm : ∃ p, pmm (system s) = Some p ∧ pmm_uses (memory s) p (λ a, a < 0xE00000);
  booted_vmm : vmm (system s) = Some (Vmm.Vmm.new cr3);
  booted_heap : ∃ h, heap s = (true, h) ∧ Heap.inv true h [] ∧
    Heap.heap_start h = HEAP_BASE ∧ Heap.heap_size h = HEAP_SIZE;
  booted_tables : idt s = Idt.init isr timer_isr spurious_isr idt_base ∧ gdt s = Gdt.init tss_base stack_top;
  booted_timer : hz s = 100;
  booted_files : vfs s = Some Vfs.Vfs_new ∧ ∃ mm, module_manager s = Some mm ∧ Modules.reachable 0 mm;
  booted_tasks : ∃ sc, scheduler (kernel (system s)) = Some sc ∧
    Scheduler.reachable (globals (system s), sc) ∧ Scheduler.preempt_enabled sc = true ∧
    (λ x, (Scheduler.info_id x, Scheduler.info_name x, Scheduler.info_state x, Scheduler.info_priority x))
      <$> Scheduler.list_tasks sc = [(1, "idle"%string, Task.Ready, Task.Low)] ∧
    Scheduler.ready_queue sc = Scheduler.all_tasks sc ∧ Scheduler.current sc = None;
  booted_idle : 0 ≤ idle_task < 2 ^ 64 → ∃ sc t, scheduler (kernel (system s)) = Some sc ∧
    Scheduler.arcs sc = {[0 := t]} ∧ Scheduler.ready_queue sc = [0] ∧ Task.state t = Task.Ready ∧
    Task.saved_rsp t = 0xA0FF48 ∧
    Task.rip (Task.timer_isr_restore (memory s) 0xA0FF48) = 0x20 ∧
    Task.cs (Task.timer_isr_restore (memory s) 0xA0FF48) = 0;
  booted_memory : ∀ a, a < Pmm.BITMAP_BASE → rd (memory s) a = rd m0 a
}.

Lemma setup_tasks_booted s m0 m p h :
  core s = (Task.Globals_init m, Some p, Some (Vmm.Vmm.new cr3), (true, h),
            Idt.init isr timer_isr spurious_isr idt_base, Gdt.init tss_base stack_top) →
  bytes m → pmm_uses m p (λ a, a < 0xE00000) → Heap.inv true h [] →
  Heap.heap_start h = HEAP_BASE → Heap.heap_size h = HEAP_SIZE → hz s = 100 →
  (∀ a, a < Pmm.BITMAP_BASE → rd m a = rd m0 a) → booted m0 (setup_tasks s).
Proof.
  unfold core. intros Hc Hb Hp Hinv Hst Hsz Hhz Hm0.
  injection Hc. clear Hc. intros Hgdt Hidt Hheap Hvmm Hpmm Hg.
  unfold setup_tasks. cbv zeta.
  match goal with |- context [Scheduler.create_idle_task (globals ?x) _ _ ?now] =>
    change (globals x) with (globals (system s)); rewrite Hg;
    destruct (Scheduler.create_idle_task (Task.Globals_init m) Scheduler.Scheduler_new idle_task now)
      as [[g sc] i] eqn:E end.
  assert (Hidle := λ H, idle_task_frame _ _ _ _ _ H E).
  apply idle_task_spec in E as (Hb' & Hf & Hr & _ & Hl & Hq & Hcur); [|done].
  split.
  - exists p. split; [done|]. eapply pmm_uses_ext; [exact Hp|exact Hb'|]. intros a Ha. apply Hf.
    unfold Pmm.BITMAP_BASE, PMM_BITMAP_BASE, TASK_STACKS_BASE in *.
    change Pmm.BITMAP_SIZE with 0x200000 in Ha. lia.
  - exact Hvmm.
  - exists h. split_and!; [exact Hheap|done..].
  - split; [exact Hidt|exact Hgdt].
  - exact Hhz.
  - split; [done|]. eexists. split; [done|]. apply Modules.reachable_new.
  - exists (Scheduler.enable_preemption sc). split; [done|]. split_and!; try done.
    eapply Scheduler.reach_step; [exact Hr|]. apply Scheduler.st_enable.
  - intros H. destruct (Hidle H) as (t & Ht). by exists (Scheduler.enable_preemption sc), t.
  - intros a Ha. rewrite <- (Hm0 a Ha). apply Hf. unfold Pmm.BITMAP_BASE, PMM_BITMAP_BASE, TASK_STACKS_BASE in *. lia.
Qed.

Lemma kernel_main_boots polls magic s m t
    (Hg : globals (system s) = Task.Globals_init m) (Hb : bytes m)
    (Hh : heap s = (false, Heap.SlabAllocator_new)) (Hk : kernel_end ≤ 0xE00000)
    (Hpit : ∀ t, (Apic.wait_pit polls t).1 = true) :
  match (kernel_main polls magic s t).1 with
  | Some (Returns s') => (magic = 0x36D76289 ∨ magic = 0x2BADB002) ∧ booted m s'
  | Some Halts => magic ≠ 0x36D76289 ∧ magic ≠ 0x2BADB002
  | _ => False
  end.
Proof.
  unfold kernel_main. rewrite run_bind. cbv zeta.
  destruct (negb (magic =? 0x36D76289) && negb (magic =? 0x2BADB002)) eqn:Em.
  { apply andb_true_iff in Em as [E1 E2]. cbn [fst mret io_ret].
    split; apply Z.eqb_neq; by apply negb_true_iff. }
  apply andb_false_iff in Em.
  rewrite run_bind. match goal with |- context [setup_cpu ?x ?u] => set (s0 := x); generalize u; intros t0 end.
  assert (Hg0 : globals (system s0) = Task.Globals_init m) by exact Hg.
  assert (Hh0 : heap s0 = (false, Heap.SlabAllocator_new)) by exact Hh. clearbody s0.
  destruct (setup_cpu_spec s0 t0) as (H1 & H2 & H3 & H4). cbv zeta in *. rewrite Hg0 in H1. rewrite Hh0 in H2.
  unfold trace. destruct (setup_cpu s0 t0) as [s1 t1]. cbn [fst snd] in *.
  destruct (setup_memory_spec s1 m H1 Hb H2 Hk) as (s2 & m2 & p & h & -> & Hc & Hb2 & Hp & Hinv & Hst & Hsz & Hm0).
  rewrite H3, H4 in Hc. rewrite run_bind. rewrite <- (setup_acpi_spec s2) in Hc.
  destruct (setup_timer_spec (setup_acpi s2) t1) as [H5 H6]. rewrite <- H5 in Hc.
  unfold trace. destruct (setup_timer (setup_acpi s2) t1) as [s3 t3]. cbn [fst snd] in *. rewrite run_bind.
  destruct (setup_apic_spec polls s3 t3 Hpit) as (s4 & -> & H7 & H8). rewrite <- H7 in Hc. rewrite <- H8 in H6.
  cbn [fst mret io_ret]. split.
  - destruct Em as [E|E]; apply negb_false_iff, Z.eqb_eq in E; auto.
  - by eapply setup_tasks_booted.
Qed.


(** *** The first tick *)

(** The interrupt taken while no task is current and one waits. *)
Lemma preempt_without_current sc t sp :
  Scheduler.preempt_enabled sc = true → Scheduler.current sc = None → Scheduler.arcs sc = {[0 := t]} →
  Scheduler.ready_queue sc = [0] → Task.state t = Task.Ready →
  let r := Scheduler.preempt_schedule sc sp in
  r.2 = Task.saved_rsp t ∧ Scheduler.current r.1 = Some 0 ∧
  Scheduler.arcs r.1 = {[0 := Task.set_state Task.Running t]}.
Proof.
  intros Hen Hc Ha Hq Hs. unfold Scheduler.preempt_schedule. rewrite Hen, Hc. cbn [negb].
  assert (Hp : Scheduler.pick_next_task sc = (Scheduler.set_queue [] sc, Some 0)).
  { unfold Scheduler.pick_next_task, Scheduler.best_index. rewrite Hq. cbn [Scheduler.best_from].
    rewrite Ha, lookup_singleton_eq. destruct (bool_decide _ && _); cbn [lookup list_lookup delete list_delete];
    unfold Scheduler.state_is, Scheduler.task_is; by rewrite Ha, lookup_singleton_eq, bool_decide_eq_true_2. }
  rewrite Hp. cbn [fst snd Scheduler.arcs Scheduler.current Scheduler.modify Scheduler.set_arcs
    Scheduler.set_switches Scheduler.set_current Scheduler.set_queue].
  rewrite Ha, lookup_alter_eq, lookup_singleton_eq. cbn. split; [done|]. split; [done|].
  by rewrite alter_singleton_eq.
Qed.

(** C38. The boot ends with the shell running as no task at all: the first interrupt of the
    timer saves its registers on its stack and keeps no pointer to them, and goes on
    with the idle task, whose frame makes the processor continue at address 0x20 with
    a null code segment. *)
Theorem first_tick_abandons_shell polls magic s m t s' c m2
    (Hg : globals (system s) = Task.Globals_init m) (Hb : bytes m)
    (Hh : heap s = (false, Heap.SlabAllocator_new)) (Hk : kernel_end ≤ 0xE00000)
    (Hpit : ∀ t, (Apic.wait_pit polls t).1 = true) (Hidle : 0 ≤ idle_task < 2 ^ 64)
    (Hboot : (kernel_main polls magic s t).1 = Some (Returns s'))
    (Hc : Task.cpu_ok c) (Hsp : 184 ≤ Task.rsp c ≤ 0xA00000)
    (Hm2 : ∀ m sp a, sp ≤ a → rd (m2 m sp) a = rd m a) :
  ∃ M sc, Switch.timer_interrupt (Switch.mkMachine (kernel (system s')) (memory s') c t) m2 = Returns M ∧
    Switch.running M = Some 0 ∧ Task.rip (Switch.cpu M) = 0x20 ∧ Task.cs (Switch.cpu M) = 0 ∧
    scheduler (Switch.kernel M) = Some sc ∧
    ∀ h u, Scheduler.arcs sc !! h = Some u → Task.saved_rsp u ≠ (Task.timer_isr_save (memory s') c).2.
Proof.
  pose proof (kernel_main_boots polls magic s m t Hg Hb Hh Hk Hpit) as Hbt. rewrite Hboot in Hbt.
  destruct Hbt as [_ Hbt]. pose proof (booted_timer _ _ Hbt) as Hhz.
  destruct (booted_idle _ _ Hbt Hidle) as (sc & u & Hsc & Ha & Hq & Hst & Hrsp & Hrip & Hcs).
  destruct (booted_tasks _ _ Hbt) as (sc' & Hsc' & _ & Hen & _ & _ & Hcur).
  rewrite Hsc in Hsc'. injection Hsc' as <-. clear Hbt Hboot.
  unfold Switch.timer_interrupt. cbn [Switch.memory Switch.cpu Switch.kernel Switch.accesses].
  destruct (Task.timer_isr_save (memory s') c) as [m1 sp] eqn:Esave.
  apply Switch.timer_isr_save_frame in Esave as (_ & Hsp1 & Hsp2 & _ & Hfr); [|done|lia].
  unfold rust_timer_handler, Timer.on_timer_tick. unfold hz in Hhz. rewrite Hhz. cbn [Z.eqb].
  rewrite run_bind. cbn [set_timer scheduler]. rewrite Hsc, Hen.
  pose proof (preempt_without_current sc u sp Hen Hcur Ha Hq Hst) as (E1 & E2 & E3).
  destruct (Scheduler.preempt_schedule sc sp) as [sc1 sp1]. cbn [fst snd] in *.
  eexists _, sc1. split; [reflexivity|]. split; [exact E2|].
  cbn [Switch.cpu]. rewrite E1, Hrsp.
  assert (Er : Task.timer_isr_restore (m2 m1 sp) 0xA0FF48 = Task.timer_isr_restore (memory s') 0xA0FF48).
  { apply Switch.restore_ext; [lia|lia|]. intros a Ha'. rewrite Hm2 by lia. apply Hfr. lia. }
  rewrite Er. split; [exact Hrip|]. split; [exact Hcs|]. split; [reflexivity|].
  intros h v Hv. rewrite E3 in Hv. apply lookup_singleton_Some in Hv as [_ <-].
  cbn [Task.saved_rsp Task.set_state]. rewrite Hrsp. lia.
Qed.

(** *** Pages and stacks *)

Lemma new_kernel_stack g entry nm :
  0 ≤ Task.next_stack g → Task.next_stack g + 0x10000 ≤ 0x2000000 →
  Task.next_stack (Task.new_kernel g entry nm).1 = Task.next_stack g + 0x10000 ∧
  Task.stack_top (Task.new_kernel g entry nm).2 = Task.next_stack g + 0x10000.
Proof.
  intros H0 Hle. unfold Task.new_kernel. cbn [Task.fetch_id]. unfold Task.alloc_stack.
  cbn [Task.next_stack]. change Task.TASK_STACK_SIZE with 0x10000. change Task.STACK_REGION_END with 0x2000000.
  rewrite usize_small by lia. by rewrite (proj2 (Z.ltb_ge _ _)) by lia.
Qed.

Lemma create_all_stacks n g entry nm :
  0 ≤ Task.next_stack g → Task.next_stack g + 0x10000 * Z.of_nat n ≤ 0x2000000 →
  Task.next_stack (Task.create_all g (replicate n (false, entry, nm))).1 =
    Task.next_stack g + 0x10000 * Z.of_nat n.
Proof.
  revert g. induction n as [|n IH]; intros g H0 Hle; [cbn; lia|].
  cbn [replicate Task.create_all Task.create]. destruct (new_kernel_stack g entry nm) as [E _]; [lia..|].
  destruct (Task.new_kernel g entry nm) as [g1 t1]. cbn [fst] in E. specialize (IH g1).
  rewrite E in IH. destruct (Task.create_all g1 _) as [g2 ts]. cbn [fst] in *. rewrite IH; lia.
Qed.

(** The pages kept back at boot do not cover the stacks of the tasks, which
    reach from 0xA00000 to 0x2000000: the first page the allocator hands out
    afterwards is the lowest one of the stack of the 65th task. *)
Theorem first_page_in_task_stack m m' p g entry nm
    (Hb : bytes m) (Hk : kernel_end ≤ 0xE00000) (Hboot : boot_pmm m = (m', p)) :
  let tasks := Task.create_all (Task.Globals_init g) (replicate 64 (false, entry, nm)) in
  let next := (Task.new_kernel tasks.1 entry nm).2 in
  ∃ page, (Pmm.alloc_page m' p).2 = Ok page ∧
    Task.stack_top next - Task.TASK_STACK_SIZE ≤ page ∧
    page + PAGE_SIZE ≤ Task.stack_top next.
Proof.
  intros tasks next. apply boot_pmm_post in Hboot as [(Hwf & [n ->] & Hbits) _]; [|done..].
  pose proof (create_all_stacks 64 (Task.Globals_init g) entry nm ltac:(cbn; lia) ltac:(cbn; lia)) as Hs.
  change (Task.next_stack (Task.Globals_init g) + 0x10000 * Z.of_nat 64) with 0xE00000 in Hs.
  destruct (new_kernel_stack tasks.1 entry nm) as [_ Htop]; [unfold tasks; lia..|].
  fold next in Htop. unfold tasks in Htop. rewrite Hs in Htop. clearbody next. clear tasks Hs.
  exists 0xE00000. rewrite Htop. split; [|by vm_compute].
  pose proof (Pmm.alloc_page_post m' _ Hwf) as Hpost.
  assert (Hfree : ∀ j, 0 ≤ j < 0x1000000 → Pmm.free_run m' (Pmm.mkPmm Pmm.BITMAP_BASE Pmm.BITMAP_SIZE
     0x1000000 n KERNEL_BASE (KERNEL_BASE + 2 ^ 36)) j 1 ↔ 3328 ≤ j).
  { intros j Hj. rewrite Pmm.free_run_one. cbn [Pmm.total_pages]. specialize (Hbits j Hj).
    unfold KERNEL_BASE, PAGE_SIZE in Hbits.
    destruct (Pmm.get_bit _ _ j); split; intros H; [destruct H; done|lia| |]; [|split; [lia|done]].
    destruct (decide (3328 ≤ j)) as [|Hj']; [done|]. exfalso.
    assert (false = true) by (apply Hbits; lia). done. }
  destruct (Pmm.alloc_page _ _) as [[m2 p2] [a|e]]; cbn [snd].
  - destruct Hpost as (i & -> & Hrun & Hfirst & _).
    assert (Hi : 0 ≤ i < 0x1000000) by (apply Pmm.free_run_one in Hrun as [? _]; done).
    apply Hfree in Hrun; [|done]. f_equal. unfold Pmm.page_addr. cbn [Pmm.base_addr].
    assert (i = 3328) as ->; [|done].
    destruct (decide (i = 3328)) as [|Hne]; [done|]. exfalso. apply (Hfirst 3328 ltac:(lia)).
    apply Hfree; lia.
  - destruct Hpost as (_ & _ & _ & Hno). exfalso. apply (Hno 3328). apply Hfree; lia.
Qed.

End Main.

Definition demo_machine : Machine :=
  mkMachine demo_system (Gdt.init 0 0) (Idt.init (λ _, 0) 0 0 0) (false, Heap.SlabAllocator_new)
    Acpi.AcpiInfo_new None None.


Definition shell_cpu : Task.Cpu :=
  Task.mkCpu 1 2 3 4 5 6 7 8 9 10 11 12 13 14 15 0x10 0x200000 0x08 0x202 0x150000 0x10.

Lemma first_tick_abandons_shell_witness :
  ∃ s' M, (kernel_main (D := Apic.demo_pit) Interrupts.demo_stubs 0x200000 0x200100 0x300000 0x310000 0x320000
           0x400000 0x200200 (λ _, 0) 0x330000 1 0x36D76289 demo_machine []).1 = Some (Returns s') ∧
    Switch.timer_interrupt (Switch.mkMachine (kernel (system s')) (memory s') shell_cpu []) (λ m _, m) = Returns M ∧
    Task.rip (Switch.cpu M) = 0x20.
Proof.
  pose proof (kernel_main_boots (D := Apic.demo_pit) Interrupts.demo_stubs 0x200000 0x200100 0x300000 0x310000
    0x320000 0x400000 0x200200 (λ _, 0) 0x330000 1 0x36D76289 demo_machine ∅ [] eq_refl bytes_empty eq_refl
    ltac:(lia) ltac:(reflexivity)) as H.
  destruct (kernel_main _ _ _ _ _ _ _ _ _ _ _ _ _ _).1 as [[s'| |]|] eqn:E.
  - destruct (first_tick_abandons_shell (D := Apic.demo_pit) Interrupts.demo_stubs 0x200000 0x200100 0x300000
      0x310000 0x320000 0x400000 0x200200 (λ _, 0) 0x330000 1 0x36D76289 demo_machine ∅ [] s' shell_cpu (λ m _, m)
      eq_refl bytes_empty eq_refl ltac:(lia) ltac:(reflexivity) ltac:(lia) E) as (M & sc & H1 & _ & H2 & _).
    + split; [|cbn; lia]. unfold shell_cpu, Task.word. cbn.
      repeat (apply Forall_cons_2; [lia|]). by apply Forall_nil_2.
    + cbn. lia.
    + reflexivity.
    + exists s', M. split; [reflexivity|]. split; [exact H1|exact H2].
  - destruct H as [H _]. contradiction H. reflexivity.
  - contradiction.
  - contradiction.
Defined.

Lemma first_page_in_task_stack_witness :
  ∃ page, (Pmm.alloc_page (boot_pmm 0x400000 ∅).1 (boot_pmm 0x400000 ∅).2).2 = Ok page ∧
    0xE00000 ≤ page < 0xE10000.
Proof.
  destruct (first_page_in_task_stack 0x400000 ∅ (boot_pmm 0x400000 ∅).1 (boot_pmm 0x400000 ∅).2 ∅ 0x1000 "t"
    bytes_empty ltac:(lia) (surjective_pairing _)) as (page & H1 & H2 & H3).
  exists page. split; [exact H1|].
  assert (E : Task.stack_top (Task.new_kernel (Task.create_all (Task.Globals_init ∅)
    (replicate 64 (false, 0x1000, "t"%string))).1 0x1000 "t").2 = 0xE10000) by (vm_compute; reflexivity).
  rewrite E in H2, H3. unfold Task.TASK_STACK_SIZE, PAGE_SIZE in *. lia.
Defined.

End Boot.
