(* ===== verification/Startup.v ===== *)
(** * From the 32-bit entry to the kernel (boot/boot.asm, boot/long_mode.asm)

    Module [Processor] is what the code before [kernel_main] uses of the
    processor: its control registers, the descriptor table and the loads of
    segment registers.  Module [LongMode] is the 32-bit entry of boot.asm up to
    the call of [kernel_main] in long_mode.asm; Module [Multiboot] the headers in
    front of it. *)

From stdpp Require Import base numbers list gmap strings.
From S2P Require Import Prelude Memory Text Pmm Vmm Task Device Apic Interrupts Shell Heap Boot.
Import Device.
Open Scope Z_scope.

(** ** The processor *)

Module Processor.

(** The registers the code uses; [cs_long] and [cs_32] are the hidden part of CS,
    the L and D bits of its descriptor. *)
Record Cpu := mkCpu {
  cr0 : Z; cr3 : Z; cr4 : Z; efer : Z;
  gdtr : Z * Z;
  cs : Z; cs_long : bool; cs_32 : bool;
  ds : Z; es : Z; fs : Z; gs : Z; ss : Z;
  sp : Z; di : Z; si : Z; ip : Z
}.

Definition PE : Z := 0.
Definition PG : Z := 31.
Definition PAE : Z := 5.
Definition EFER_MSR : Z := 0xC0000080.
Definition LME : Z := 8.
Definition LMA : Z := 10.

Definition with_cr0 (v : Z) (c : Cpu) : Cpu :=
  mkCpu v (cr3 c) (cr4 c) (efer c) (gdtr c) (cs c) (cs_long c) (cs_32 c) (ds c) (es c) (fs c) (gs c) (ss c)
    (sp c) (di c) (si c) (ip c).
Definition with_cr3 (v : Z) (c : Cpu) : Cpu :=
  mkCpu (cr0 c) v (cr4 c) (efer c) (gdtr c) (cs c) (cs_long c) (cs_32 c) (ds c) (es c) (fs c) (gs c) (ss c)
    (sp c) (di c) (si c) (ip c).
Definition with_cr4 (v : Z) (c : Cpu) : Cpu :=
  mkCpu (cr0 c) (cr3 c) v (efer c) (gdtr c) (cs c) (cs_long c) (cs_32 c) (ds c) (es c) (fs c) (gs c) (ss c)
    (sp c) (di c) (si c) (ip c).
Definition with_efer (v : Z) (c : Cpu) : Cpu :=
  mkCpu (cr0 c) (cr3 c) (cr4 c) v (gdtr c) (cs c) (cs_long c) (cs_32 c) (ds c) (es c) (fs c) (gs c) (ss c)
    (sp c) (di c) (si c) (ip c).
Definition with_gdtr (v : Z * Z) (c : Cpu) : Cpu :=
  mkCpu (cr0 c) (cr3 c) (cr4 c) (efer c) v (cs c) (cs_long c) (cs_32 c) (ds c) (es c) (fs c) (gs c) (ss c)
    (sp c) (di c) (si c) (ip c).
Definition with_code (sel : Z) (l d : bool) (target : Z) (c : Cpu) : Cpu :=
  mkCpu (cr0 c) (cr3 c) (cr4 c) (efer c) (gdtr c) sel l d (ds c) (es c) (fs c) (gs c) (ss c)
    (sp c) (di c) (si c) target.
Definition with_sp (v : Z) (c : Cpu) : Cpu :=
  mkCpu (cr0 c) (cr3 c) (cr4 c) (efer c) (gdtr c) (cs c) (cs_long c) (cs_32 c) (ds c) (es c) (fs c) (gs c)
    (ss c) v (di c) (si c) (ip c).
Definition with_di_si (d s : Z) (c : Cpu) : Cpu :=
  mkCpu (cr0 c) (cr3 c) (cr4 c) (efer c) (gdtr c) (cs c) (cs_long c) (cs_32 c) (ds c) (es c) (fs c) (gs c)
    (ss c) (sp c) d s (ip c).
Definition with_ip (v : Z) (c : Cpu) : Cpu :=
  mkCpu (cr0 c) (cr3 c) (cr4 c) (efer c) (gdtr c) (cs c) (cs_long c) (cs_32 c) (ds c) (es c) (fs c) (gs c)
    (ss c) (sp c) (di c) (si c) v.

(** [mov cr0, v]: paging needs protected mode, and with [LME] set also [PAE]; it
    then activates long mode.  [None] is a general protection fault. *)
Definition write_cr0 (v : Z) (c : Cpu) : option Cpu :=
  if Z.testbit v PG && negb (Z.testbit v PE) then None
  else if Z.testbit v PG && negb (Z.testbit (cr0 c) PG) && Z.testbit (efer c) LME then
    if Z.testbit (cr4 c) PAE
    then Some (with_cr0 v (with_efer (Z.setbit (efer c) LMA) c)) else None
  else Some (with_cr0 v c).

(** [wrmsr] of EFER: [LME] must not change while paging is on. *)
Definition write_efer (v : Z) (c : Cpu) : option Cpu :=
  if Z.testbit (cr0 c) PG && negb (eqb (Z.testbit v LME) (Z.testbit (efer c) LME)) then None
  else Some (with_efer v c).

(** The physical address of a linear one. *)
Definition linear (m : mem) (c : Cpu) (a : Z) : option Z :=
  if Z.testbit (cr0 c) PG then Vmm.translate m (cr3 c) a else Some a.

(** The descriptor a selector names. *)
Definition descriptor (m : mem) (c : Cpu) (sel : Z) : option Z :=
  if sel + 7 <=? (gdtr c).2 then a ← linear m c ((gdtr c).1 + sel); Some (Memory.load m a 8) else None.

Definition present (d : Z) : bool := Z.testbit d 47.
Definition code_or_data (d : Z) : bool := Z.testbit d 44.
Definition executable (d : Z) : bool := Z.testbit d 43.
Definition writable (d : Z) : bool := Z.testbit d 41.
Definition long_code (d : Z) : bool := Z.testbit d 53.
Definition default_32 (d : Z) : bool := Z.testbit d 54.

(** A far jump or return to the same privilege level. *)
Definition far_jump (m : mem) (sel target : Z) (c : Cpu) : option Cpu :=
  d ← descriptor m c sel;
  if present d && code_or_data d && executable d && negb (long_code d && default_32 d) then
    _ ← linear m c target;
    Some (with_code sel (long_code d && Z.testbit (efer c) LMA) (default_32 d) target c)
  else None.

(** Loads of the data and stack segment registers. *)
Definition load_segments (m : mem) (set : Z → Cpu → Cpu) (sel : Z) (c : Cpu) : option Cpu :=
  d ← descriptor m c sel;
  if present d && code_or_data d && negb (executable d) && writable d then Some (set sel c) else None.

Definition set_all_data (sel : Z) (c : Cpu) : Cpu :=
  mkCpu (cr0 c) (cr3 c) (cr4 c) (efer c) (gdtr c) (cs c) (cs_long c) (cs_32 c) sel sel sel sel sel
    (sp c) (di c) (si c) (ip c).
Definition set_ds_es_ss (sel : Z) (c : Cpu) : Cpu :=
  mkCpu (cr0 c) (cr3 c) (cr4 c) (efer c) (gdtr c) (cs c) (cs_long c) (cs_32 c) sel sel (fs c) (gs c) sel
    (sp c) (di c) (si c) (ip c).

Section Serial.
Context {D : Device}.

(** Waits for the transmitter of COM1, at most [polls] times, and sends a byte;
    [None] while it waits. *)
Definition putc (polls : nat) (b : Z) : io (option unit) :=
  ready ← wait_set polls 0x3FD 0x20;
  if ready : bool then outb 0x3F8 b;; mret (Some tt) else mret None.
End Serial.

(** The bytes sent to COM1. *)
Definition sent (t : list event) : list Z :=
  omap (λ e, match e with OutB 0x3F8 v => Some v | _ => None end) t.

Section SerialLemmas.
Context {D : Device}.

Lemma wait_set_silent polls port mask t : sent (trace (wait_set polls port mask) t) = sent t.
Proof.
  revert t. induction polls as [|polls IH]; intros t; [done|]. cbn [wait_set]. rewrite trace_bind.
  assert (Hin : ∀ t, sent (trace (inb port) t) = sent t).
  { intros t'. unfold trace, inb, sent. cbn [snd]. by rewrite omap_app, app_nil_r. }
  destruct (_ =? 0); [by rewrite IH|]. apply Hin.
Qed.

Lemma putc_sends polls b t :
  (∀ t, (wait_set polls 0x3FD 0x20 t).1 = true) →
  (putc polls b t).1 = Some tt ∧ sent (trace (putc polls b) t) = sent t ++ [b].
Proof.
  intros Hw. unfold putc, trace. rewrite !run_bind, Hw. cbn iota. rewrite !run_bind.
  unfold mret, io_ret. cbn [fst snd]. split; [done|].
  unfold trace at 1, outb, sent. cbn [snd]. rewrite omap_app. f_equal.
  apply (wait_set_silent polls 0x3FD 0x20).
Qed.
End SerialLemmas.

End Processor.

(** ** From 32-bit code to kernel_main *)

Module LongMode.
Import Processor PageTables.

Definition gdt64 : list Z :=
  [0;
   Z.lor (Z.lor (Z.lor (Z.lor (Z.shiftl 1 41) (Z.shiftl 1 43)) (Z.shiftl 1 44)) (Z.shiftl 1 47)) (Z.shiftl 1 53);
   Z.lor (Z.lor (Z.shiftl 1 44) (Z.shiftl 1 47)) (Z.shiftl 1 41)].
Definition code_seg : Z := 8.
Definition data_seg : Z := 16.
(** [.pointer]. *)
Definition gdt64_limit : Z := 8 * Z.of_nat (length gdt64) - 1.

Section Entry.
Context {D : Device}.

(** The places the linker gives the tables, the stacks and the code, and the
    addresses the calls return to. *)
Context (p4_table stack_top gdt64_addr long_mode_start kernel_stack_top kernel_main : Z).
Context (return_B return_C return_K : Z).

Definition p3_table : Z := p4_table + 0x1000.
Definition p2_table : Z := p4_table + 0x2000.

(** [call] of a routine that leaves ESP alone, and its [ret]: it goes on behind
    the call only if the return address is still on the stack. *)
Definition call (f : mem → Cpu → option (mem * Cpu)) (return_ : Z) (m : mem) (c : Cpu)
    : option (mem * Cpu) :=
  let esp := wrap 32 (sp c - 4) in
  let m := Memory.store m esp 4 return_ in
  r ← f m (with_sp esp c);
  a ← linear r.1 r.2 (sp r.2);
  if Memory.load r.1 a 4 =? return_ then Some (r.1, with_sp (wrap 32 (sp r.2 + 4)) r.2) else None.

Definition enable_paging (m : mem) (c : Cpu) : option (mem * Cpu) :=
  let c := with_cr3 p4_table c in
  let c := with_cr4 (Z.lor (cr4 c) (Z.shiftl 1 5)) c in
  c ← write_efer (Z.lor (efer c) (Z.shiftl 1 8)) c;
  c ← write_cr0 (Z.lor (cr0 c) (Z.shiftl 1 31)) c;
  Some (m, c).

(** long_mode.asm, up to the call of [kernel_main]. *)
Definition long_mode_entry (m : mem) (c : Cpu) : option (mem * Cpu) :=
  c ← load_segments m set_all_data 0x10 c;
  let c := with_di_si 0x36D76289 0 c in
  let c := with_sp (kernel_stack_top - 8) c in
  a ← linear m c (sp c);
  Some (Memory.store m a 8 return_K, with_ip kernel_main c).

(** [.paging_already_on], up to the call of [kernel_main]; [None] inside is a
    fault, [None] outside a wait for the serial port. *)
Definition paging_already_on (polls : nat) (m : mem) (c : Cpu) : io (option (option (mem * Cpu))) :=
  let c := with_gdtr (gdt64_addr, gdt64_limit) c in
  w ← putc polls 68;
  match w with
  | None => mret None
  | Some _ => mret (Some (c ← far_jump m code_seg long_mode_start c; long_mode_entry m c))
  end.

Definition start_real (polls : nat) (m : mem) (c : Cpu) : io (option (option (mem * Cpu))) :=
  let m := Memory.store m 0xB8000 4 0x0F410F4D in
  w ← putc polls 65;
  match w with
  | None => mret None
  | Some _ =>
      let c := with_sp stack_top c in
      if negb (Z.land (cr0 c) 0x80000000 =? 0) then paging_already_on polls m c
      else
        match call (λ m c, Some (setup_page_tables m p4_table p3_table p2_table, c)) return_B m c with
        | None => mret (Some None)
        | Some (m, c) =>
            w ← putc polls 66;
            match w with
            | None => mret None
            | Some _ =>
                match call enable_paging return_C m c with
                | None => mret (Some None)
                | Some (m, c) =>
                    w ← putc polls 67;
                    match w with
                    | None => mret None
                    | Some _ => paging_already_on polls m c
                    end
                end
            end
        end
  end.

(** *** What the entry leaves behind *)

(** The layout boot.asm and the linker script make: the stack of the entry right
    behind the tables, below the memory the kernel takes its tables from; the
    descriptor table behind the text screen and before them; the stack of the
    kernel behind them. *)
Record layout : Prop := {
  p4_low : 0 < p4_table;
  p4_high : p4_table + 0x3000 ≤ 0x500000;
  p4_aligned : p4_table mod PAGE_SIZE = 0;
  stack_behind : stack_top = p4_table + 0x7000;
  gdt_place : 0xB8004 ≤ gdt64_addr ∧ gdt64_addr + 24 ≤ p4_table;
  code_place : 0 ≤ long_mode_start < 2 ^ 30;
  kernel_stack_place : p4_table + 0x7000 ≤ kernel_stack_top - 8 ∧ kernel_stack_top ≤ 2 ^ 30;
  returns_32 : 0 ≤ return_B < 2 ^ 32 ∧ 0 ≤ return_C < 2 ^ 32
}.

(** The descriptor table as it is loaded. *)
Definition gdt64_loaded (m : mem) : Prop :=
  ∀ k v, gdt64 !! k = Some v → Memory.load m (gdt64_addr + 8 * Z.of_nat k) 8 = v.

Lemma gdt64_loaded_ext m m' :
  gdt64_loaded m → (∀ a, gdt64_addr ≤ a < gdt64_addr + 24 → rd m' a = rd m a) → gdt64_loaded m'.
Proof.
  intros H Hext k v Hk. rewrite <- (H k v Hk). apply lookup_lt_Some in Hk as Hl.
  change (length gdt64) with 3%nat in Hl. apply load_ext. intros a Ha. apply Hext. lia.
Qed.

Context (L : layout).

Lemma with_sp_id c : with_sp (sp c) c = c.
Proof. by destruct c. Qed.

Lemma with_sp_sp x y c : with_sp x (with_sp y c) = with_sp x c.
Proof. by destruct c. Qed.

(** A call whose routine keeps the stack pointer and the word it points to. *)
Lemma call_returns f r m c m' c' :
  4 ≤ sp c < 2 ^ 32 → 0 ≤ r < 2 ^ 32 →
  f (Memory.store m (sp c - 4) 4 r) (with_sp (sp c - 4) c) = Some (m', c') →
  sp c' = sp c - 4 → linear m' c' (sp c - 4) = Some (sp c - 4) →
  (∀ a, sp c - 4 ≤ a < sp c → rd m' a = rd (Memory.store m (sp c - 4) 4 r) a) →
  call f r m c = Some (m', with_sp (sp c) c').
Proof.
  intros Hsp Hr Hf Es Hl Hext. unfold call. rewrite wrap_small by lia. rewrite Hf.
  cbn [mbind option_bind fst snd]. rewrite Es, Hl. cbn [mbind option_bind].
  rewrite (load_ext m' (Memory.store m (sp c - 4) 4 r)) by (intros a Ha; apply Hext; lia).
  rewrite load_store_eq by lia. rewrite Z.eqb_refl. rewrite wrap_small by lia.
  do 3 f_equal. lia.
Qed.

Lemma linear_identity m c a :
  boot_mapped p4_table p3_table p2_table m → cr3 c = p4_table → 0 ≤ a < 2 ^ 30 → linear m c a = Some a.
Proof.
  intros Hm Hc Ha. unfold linear. destruct (Z.testbit _ _); [|done]. rewrite Hc. destruct L.
  rewrite (boot_translate p4_table p3_table p2_table) by (done || lia).
  by rewrite (proj2 (Z.ltb_lt _ _)) by lia.
Qed.

(** The processor in long mode with the boot page tables. *)
Definition paged (c c' : Cpu) : Prop :=
  c' = with_cr0 (Z.lor (cr0 c) (Z.shiftl 1 31))
         (with_efer (Z.setbit (Z.lor (efer c) (Z.shiftl 1 8)) LMA)
            (with_cr4 (Z.lor (cr4 c) (Z.shiftl 1 5)) (with_cr3 p4_table c))).

Lemma enable_paging_spec m c :
  Z.testbit (cr0 c) PE = true → Z.testbit (cr0 c) PG = false →
  ∃ c', enable_paging m c = Some (m, c') ∧ paged c c'.
Proof.
  intros Hpe Hpg. unfold enable_paging, write_efer, write_cr0. cbv zeta.
  cbn [cr0 cr4 efer with_cr4 with_cr3 with_efer mbind option_bind].
  rewrite Hpg. cbn [andb mbind option_bind cr0 cr4 efer with_efer with_cr4 with_cr3].
  rewrite !Z.lor_spec, Hpe, Hpg. change (Z.testbit (Z.shiftl 1 31) PG) with true.
  change (Z.testbit (Z.shiftl 1 8) LME) with true. change (Z.testbit (Z.shiftl 1 5) PAE) with true.
  rewrite !orb_true_r. cbn [orb andb negb]. eexists. split; [done|]. done.
Qed.

Lemma gdt64_descriptor m c k v :
  boot_mapped p4_table p3_table p2_table m → gdt64_loaded m → cr3 c = p4_table →
  gdtr c = (gdt64_addr, gdt64_limit) → gdt64 !! k = Some v → descriptor m c (8 * Z.of_nat k) = Some v.
Proof.
  intros Hm Hg Hc Hr Hk. apply lookup_lt_Some in Hk as Hl. change (length gdt64) with 3%nat in Hl.
  unfold descriptor. rewrite Hr. change gdt64_limit with 23. cbn [fst snd].
  rewrite (proj2 (Z.leb_le _ _)) by lia. pose proof (gdt_place L). pose proof (p4_high L).
  rewrite linear_identity by (done || lia). cbn [mbind option_bind]. f_equal. by apply Hg.
Qed.

(** The state [kernel_main] is called in. *)
Definition entered (c c' : Cpu) : Prop :=
  c' = with_ip kernel_main (with_sp (kernel_stack_top - 8) (with_di_si 0x36D76289 0
         (set_all_data 0x10 (with_code code_seg true false long_mode_start
            (with_gdtr (gdt64_addr, gdt64_limit) c))))).

Lemma paging_on_spec polls m c t :
  (∀ t, (wait_set polls 0x3FD 0x20 t).1 = true) →
  boot_mapped p4_table p3_table p2_table m → gdt64_loaded m → cr3 c = p4_table →
  Z.testbit (efer c) LMA = true →
  ∃ c', (paging_already_on polls m c t).1 = Some (Some (Memory.store m (kernel_stack_top - 8) 8 return_K, c')) ∧
    entered c c' ∧ sent (trace (paging_already_on polls m c) t) = sent t ++ [68].
Proof.
  intros Hw Hm Hg Hc Hlma. unfold paging_already_on. cbv zeta. unfold trace. rewrite !run_bind.
  destruct (putc_sends polls 68 t Hw) as [-> Hs]. unfold mret, io_ret. cbn [fst snd].
  set (c1 := with_gdtr _ c).
  assert (H1 : far_jump m code_seg long_mode_start c1 = Some (with_code code_seg true false long_mode_start c1)).
  { unfold far_jump. change code_seg with (8 * Z.of_nat 1).
    rewrite (gdt64_descriptor m c1 1 _ Hm Hg Hc eq_refl eq_refl). cbn [mbind option_bind].
    match goal with |- context [present ?d && code_or_data ?d] => set (d' := d);
      assert (Hd : present d' = true ∧ code_or_data d' = true ∧ executable d' = true ∧ long_code d' = true ∧
        default_32 d' = false) by (by vm_compute) end.
    destruct Hd as (-> & -> & -> & -> & ->). cbn [andb negb].
    rewrite linear_identity by (done || apply (code_place L)). cbn [mbind option_bind].
    change (efer c1) with (efer c). by rewrite Hlma. }
  rewrite H1. cbn [mbind option_bind]. set (c2 := with_code _ _ _ _ c1).
  unfold long_mode_entry, load_segments. change 0x10 with (8 * Z.of_nat 2).
  rewrite (gdt64_descriptor m c2 2 _ Hm Hg Hc eq_refl eq_refl). cbn [mbind option_bind].
  match goal with |- context [present ?d && code_or_data ?d] =>
    assert (Hd : present d && code_or_data d && negb (executable d) && writable d = true) by (by vm_compute);
    rewrite Hd end.
  cbn [mbind option_bind]. cbv zeta.
  change (sp (with_sp (kernel_stack_top - 8) _)) with (kernel_stack_top - 8).
  destruct (kernel_stack_place L). pose proof (p4_low L).
  rewrite linear_identity by (done || lia). cbn [mbind option_bind].
  eexists. split; [done|]. split; [done|]. exact Hs.
Qed.

Lemma pg_mask v : Z.testbit v PG = false → Z.land v 0x80000000 = 0.
Proof.
  intros H. apply Z.bits_inj'. intros i Hi. rewrite Z.land_spec, Z.bits_0. change 0x80000000 with (2 ^ 31).
  rewrite Z.pow2_bits_eqb by lia. destruct (Z.eqb_spec 31 i) as [<-|]; [|by rewrite andb_false_r].
  unfold PG in H. by rewrite H.
Qed.

(** The memory [kernel_main] starts with. *)
Definition entered_memory (m : mem) : mem :=
  let m := Memory.store m 0xB8000 4 0x0F410F4D in
  let m := Memory.store m (stack_top - 4) 4 return_B in
  let m := setup_page_tables m p4_table p3_table p2_table in
  let m := Memory.store m (stack_top - 4) 4 return_C in
  Memory.store m (kernel_stack_top - 8) 8 return_K.

Lemma start_real_enters polls m c t :
  (∀ t, (wait_set polls 0x3FD 0x20 t).1 = true) → gdt64_loaded m →
  Z.testbit (cr0 c) PE = true → Z.testbit (cr0 c) PG = false →
  ∃ c1 c', (start_real polls m c t).1 = Some (Some (entered_memory m, c')) ∧
    paged (with_sp stack_top c) c1 ∧ entered c1 c' ∧
    sent (trace (start_real polls m c) t) = sent t ++ [65; 66; 67; 68].
Proof.
  intros Hw Hg Hpe Hpg. pose proof L as []. unfold start_real, entered_memory. cbv zeta. unfold trace.
  rewrite !run_bind. destruct (putc_sends polls 65 t Hw) as [-> Hs1]. cbn iota.
  change (cr0 (with_sp stack_top c)) with (cr0 c). rewrite (pg_mask _ Hpg). cbn [Z.eqb negb].
  set (ta := trace (putc polls 65) t) in *. clearbody ta.
  set (m1 := Memory.store m 0xB8000 4 0x0F410F4D). set (m2 := Memory.store m1 (stack_top - 4) 4 return_B).
  remember (setup_page_tables m2 p4_table p3_table p2_table) as m3 eqn:E3.
  pose proof (λ a, setup_frame m2 p4_table p3_table p2_table eq_refl eq_refl m3 a E3) as Hf3.
  pose proof (boot_entries m2 p4_table p3_table p2_table ltac:(assumption) ltac:(assumption) eq_refl eq_refl m3 E3)
    as Hm3.
  rewrite (call_returns _ _ _ _ m3 (with_sp (stack_top - 4) c)); cbn [sp with_sp]; [|lia|lia|..].
  2: { change (sp (with_sp stack_top c)) with stack_top. rewrite E3. reflexivity. }
  2: reflexivity.
  2: { unfold linear. change (cr0 (with_sp _ c)) with (cr0 c). by rewrite Hpg. }
  2: { intros a Ha. apply Hf3. lia. }
  clear E3. change (sp (with_sp stack_top c)) with stack_top. rewrite with_sp_sp, !run_bind.
  destruct (putc_sends polls 66 ta Hw) as [-> Hs2]. cbn iota.
  set (tb := trace (putc polls 66) ta) in *. clearbody tb.
  set (m4 := Memory.store m3 (stack_top - 4) 4 return_C).
  assert (Hm4 : boot_mapped p4_table p3_table p2_table m4).
  { eapply boot_mapped_ext; [reflexivity|reflexivity|exact Hm3|]. intros a Ha. apply rd_store_out. simpl. lia. }
  destruct (enable_paging_spec m4 (with_sp (stack_top - 4) c) Hpe Hpg) as (c1 & He & Hp).
  rewrite (call_returns _ _ _ _ m4 c1); cbn [sp with_sp]; [|lia|lia|..].
  2: exact He.
  2: by rewrite Hp.
  2: { apply linear_identity; [exact Hm4| |lia]. by rewrite Hp. }
  2: done.
  change (sp (with_sp stack_top c)) with stack_top. rewrite !run_bind.
  destruct (putc_sends polls 67 tb Hw) as [-> Hs3]. cbn iota.
  set (tc := trace (putc polls 67) tb) in *. clearbody tc.
  destruct (paging_on_spec polls m4 (with_sp stack_top c1) tc Hw Hm4) as (c' & E & Hc' & Hs4).
  - apply (gdt64_loaded_ext m); [done|]. intros a Ha. unfold m4. rewrite rd_store_out by (simpl; lia).
    rewrite Hf3 by lia. unfold m2, m1. by rewrite !rd_store_out by (simpl; lia).
  - by rewrite Hp.
  - rewrite Hp. cbn [efer with_sp with_cr0 with_efer]. by rewrite Z.setbit_eq.
  - exists (with_sp stack_top c1), c'. split; [exact E|]. split; [by rewrite Hp|]. split; [exact Hc'|].
    unfold trace in Hs4. rewrite Hs4, Hs3, Hs2, Hs1. by rewrite <- !app_assoc.
Qed.

Lemma entered_bytes m : bytes m → bytes (entered_memory m).
Proof.
  intros Hm. unfold entered_memory. cbv zeta. do 2 apply bytes_store.
  unfold setup_page_tables, clear_table, store32. cbv zeta.
  apply (for_each_rule (λ _ m, bytes m)); [lia| |].
  - repeat first [apply bytes_store|apply bytes_write_zeros]. done.
  - intros i m' _ Hm'. by apply bytes_store.
Qed.

Lemma entered_mapped m : boot_mapped p4_table p3_table p2_table (entered_memory m).
Proof.
  pose proof L as []. unfold entered_memory. cbv zeta.
  match goal with |- context [setup_page_tables ?m2 _ _ _] => set (m' := m2) end.
  remember (setup_page_tables m' p4_table p3_table p2_table) as m3 eqn:E3.
  pose proof (boot_entries m' p4_table p3_table p2_table ltac:(assumption) ltac:(assumption) eq_refl eq_refl m3 E3)
    as Hm3.
  eapply boot_mapped_ext; [reflexivity|reflexivity|exact Hm3|]. intros a Ha.
  rewrite !rd_store_out by (simpl; lia). done.
Qed.

End Entry.

(** A kernel linked with its tables at 2 MB. *)
Definition demo_gdt : mem :=
  Memory.store (Memory.store (Memory.store ∅ 0x180000 8 0) 0x180008 8 (gdt64 !!! 1%nat)) 0x180010 8 (gdt64 !!! 2%nat).
Definition demo_cpu : Cpu := mkCpu 0x11 0 0 0 (0, 0) 8 false true 0x10 0x10 0x10 0x10 0x10 0x90000 0 0 0x100000.
Definition demo_machine (m : mem) : Boot.Boot.Machine :=
  Boot.Boot.on_system (Boot.Boot.set_memory m) Boot.Boot.demo_machine.

Definition demo_entry := start_real (D := Apic.demo_pit) 0x200000 0x207000 0x180000 0x101100 0x400000 0x102000
  0x101020 0x101040 0x101200 1 demo_gdt demo_cpu [].


End LongMode.

(** ** The multiboot headers *)

Module Multiboot.

(** The section [.multiboot]: the jump to the entry with its displacement, two
    [nop]s, and the headers. *)
Definition multiboot_section (rel : Z) : list Z :=
  [0xE9] ++ le_bytes 4 rel ++ [0x90; 0x90] ++
  le_bytes 4 0x1BADB002 ++ le_bytes 4 0x00000003 ++ le_bytes 4 (- (0x1BADB002 + 0x00000003)) ++
  le_bytes 4 0xE85250D6 ++ le_bytes 4 0 ++ le_bytes 4 8 ++ le_bytes 4 (- (0xE85250D6 + 0 + 8)) ++
  (le_bytes 2 0 ++ le_bytes 2 0 ++ le_bytes 4 8).

(** The section up to the code, which the linker puts at the next page. *)
Definition image (rel : Z) : list Z :=
  multiboot_section rel ++ replicate (4096 - length (multiboot_section rel)) 0.

(** The 32-bit word at an offset. *)
Definition word (l : list Z) (off : nat) : Z :=
  let byte i := default 0 (l !! i) in
  byte off + 256 * byte (off + 1)%nat + 65536 * byte (off + 2)%nat + 16777216 * byte (off + 3)%nat.

(** The headers the two specifications describe: magic numbers, and a checksum
    that makes the sum zero. *)
Definition multiboot1_at (l : list Z) (off : nat) : bool :=
  (word l off =? 0x1BADB002) && (wrap 32 (word l off + word l (off + 4) + word l (off + 8)) =? 0).
Definition multiboot2_at (l : list Z) (off : nat) : bool :=
  (word l off =? 0xE85250D6) && (word l (off + 4) =? 0) &&
  (wrap 32 (word l off + word l (off + 4) + word l (off + 8) + word l (off + 12)) =? 0).

(** What a loader looks for: the first header at a multiple of 4, or of 8 for the
    second kind; here in the page in front of the code. *)
Definition find_header (check : list Z → nat → bool) (align : nat) (l : list Z) : option nat :=
  head (filter (λ off, check l off = true) ((λ k, (align * k)%nat) <$> seq 0 (4096 / align))).

Lemma zeros_word l n off :
  (length l ≤ off)%nat → word (l ++ replicate n 0) off = 0.
Proof.
  intros H. assert (Hz : ∀ i, (length l ≤ i)%nat → default 0 ((l ++ replicate n 0) !! i) = 0).
  { intros i Hi. rewrite lookup_app_r by lia. destruct (_ !! _) as [v|] eqn:E; [|done].
    by apply lookup_replicate in E as [-> _]. }
  unfold word. by rewrite !Hz by lia.
Qed.

Lemma find_header_none check align l :
  (∀ k, check l (align * k)%nat = false) → find_header check align l = None.
Proof.
  intros H. unfold find_header. generalize (seq 0 (4096 / align)). intros ks.
  induction ks as [|k ks IH]; [done|]. rewrite fmap_cons, filter_cons_False; [exact IH|]. by rewrite H.
Qed.

(** Both headers of boot.asm have their magic numbers and correct checksums, but
    no loader finds them: the jump in front is 5 bytes long and the two [nop]s
    make it 7, so the first header is at no multiple of 4 and the second at no
    multiple of 8.  And the length the second one gives is that of its last tag
    alone, not of the header. *)
Theorem multiboot_headers_unaligned rel :
  multiboot1_at (image rel) 7 = true ∧ multiboot2_at (image rel) 19 = true ∧
  find_header multiboot1_at 4 (image rel) = None ∧ find_header multiboot2_at 8 (image rel) = None ∧
  word (image rel) (19 + 8) = 8 ∧ length (multiboot_section rel) = (19 + 24)%nat.
Proof.
  unfold image. assert (Hl : length (multiboot_section rel) = 43%nat) by done. rewrite Hl.
  change (4096 - 43)%nat with 4053%nat.
  pose proof (le_bytes_range 4 rel) as Hr. unfold multiboot_section in *.
  destruct (le_bytes 4 rel) as [|a [|b [|c [|d [|? ?]]]]] eqn:E;
    try (apply (f_equal length) in E; rewrite le_bytes_length in E; discriminate E).
  rewrite !Forall_cons in Hr. destruct Hr as (Ha & Hb & Hc & Hd & _). clear E.
  match type of Hl with length ?x = _ => let v := eval vm_compute in x in change x with v in * end.
  match type of Hl with length ?x = _ => set (l := x) in * end.
  assert (H1 : ∀ j, word (l ++ replicate 4053 0) (4 * j) ≠ 0x1BADB002).
  { intros j. destruct (decide (11 ≤ j)%nat); [rewrite zeros_word by (rewrite Hl; lia); done|].
    do 11 (destruct j as [|j]; [unfold word; simpl; lia|]). lia. }
  assert (H2 : ∀ j, word (l ++ replicate 4053 0) (8 * j) ≠ 0xE85250D6).
  { intros j. destruct (decide (6 ≤ j)%nat); [rewrite zeros_word by (rewrite Hl; lia); done|].
    do 6 (destruct j as [|j]; [unfold word; simpl; lia|]). lia. }
  split_and!; [reflexivity|reflexivity| | |reflexivity|reflexivity].
  - apply find_header_none. intros k. unfold multiboot1_at. by rewrite (proj2 (Z.eqb_neq _ _) (H1 k)).
  - apply find_header_none. intros k. unfold multiboot2_at. by rewrite (proj2 (Z.eqb_neq _ _) (H2 k)).
Qed.

End Multiboot.
