(* ===== verification/Mbr.v ===== *)
(** * The boot sector and the disk image (boot/mbr.asm, build_img.py)

    Module [Mbr] is the boot sector, from the first instruction to the far return
    into the loaded kernel; the BIOS's disk service is a parameter.  Module [Image]
    is build_img.py, which puts the sector and the kernel on a disk. *)

From stdpp Require Import base numbers list gmap strings.
From S2P Require Import Prelude Memory Text Device Apic Startup.
Import Device.
Open Scope Z_scope.


Module Mbr.
Import Processor.

(** The variables of the boot sector, the memory, the registers and the
    characters the BIOS has written to the screen. *)
Record Sector := mkSector {
  memory : mem;
  boot_drv : Z; tgt : Z; clba : Z; sleft : Z; dcnt : Z; dlba : Z;
  cpu : Cpu;
  screen : list Z
}.

Definition on_cpu (f : Cpu → Cpu) (s : Sector) : Sector :=
  mkSector (memory s) (boot_drv s) (tgt s) (clba s) (sleft s) (dcnt s) (dlba s) (f (cpu s)) (screen s).
Definition set_memory (m : mem) (s : Sector) : Sector :=
  mkSector m (boot_drv s) (tgt s) (clba s) (sleft s) (dcnt s) (dlba s) (cpu s) (screen s).
Definition set_drive (d : Z) (s : Sector) : Sector :=
  mkSector (memory s) d (tgt s) (clba s) (sleft s) (dcnt s) (dlba s) (cpu s) (screen s).
Definition set_load (target lba left_ : Z) (s : Sector) : Sector :=
  mkSector (memory s) (boot_drv s) target lba left_ (dcnt s) (dlba s) (cpu s) (screen s).
Definition set_packet (count lba : Z) (s : Sector) : Sector :=
  mkSector (memory s) (boot_drv s) (tgt s) (clba s) (sleft s) count lba (cpu s) (screen s).

(** [int 0x10] with [ah = 0x0E]. *)
Definition teletype (l : list Z) (s : Sector) : Sector :=
  mkSector (memory s) (boot_drv s) (tgt s) (clba s) (sleft s) (dcnt s) (dlba s) (cpu s) (screen s ++ l).

(** How the boot sector ends: in the kernel, with an error on the screen, or with a
    fault. *)
Inductive ending := Jumped (s : Sector) | DiskError (s : Sector) | Fault (s : Sector).

(** Where the DAP tells the BIOS to put the sectors, 0x8000:0. *)
Definition BUFFER : Z := 0x8000 * 16.

(** The descriptor tables. *)
Definition ugdt : list Z := le_bytes 8 0 ++ le_bytes 8 0x00CF92000000FFFF.
Definition pgdt : list Z :=
  le_bytes 8 0 ++
  (le_bytes 2 0xFFFF ++ le_bytes 2 0 ++ [0; 0x9A; 0xCF; 0]) ++
  (le_bytes 2 0xFFFF ++ le_bytes 2 0 ++ [0; 0x92; 0xCF; 0]).

Section Sector.
Context {D : Device}.

(** The BIOS's extended read, [int 0x13] with [ah = 0x42]: the memory after reading
    [count] sectors from [lba] of a drive to an address, or [None] with the carry
    flag set. *)
Context (int13 : mem → Z → Z → Z → Z → option mem).

(** Whether the processor checks the limit of a segment in real mode, which
    emulators may leave out; and the places of the two descriptor tables. *)
Context (limits : bool) (ugdt_addr pgdt_addr : Z).

(** DS has the limit of real mode. *)
Definition ds_faults (a n : Z) : bool := limits && (0xFFFF <? a + n - 1).

(** [cmp ax, 32; jle]: the comparison is signed. *)
Definition chunk (left_ : Z) : Z := if swrap 16 left_ <=? 32 then left_ else 32.

(** [.cpy]: the loop ends when ECX becomes zero. *)
Definition copy (m : mem) (ecx target : Z) : mem + unit :=
  for_loop 0 (if ecx =? 0 then 2 ^ 32 else ecx) (λ i m,
    let esi := wrap 32 (BUFFER + 4 * i) in
    let edi := wrap 32 (target + 4 * i) in
    if ds_faults esi 4 then inr tt else Datatypes.inl (Memory.store m edi 4 (Memory.load m esi 4))) m.

(** [.rl]; a turn loads at least one sector. *)
Fixpoint read_loop (fuel : nat) (s : Sector) : option ending :=
  match fuel with
  | O => None
  | S fuel =>
      if sleft s =? 0 then Some (Jumped s)
      else
        let s := set_packet (chunk (sleft s)) (clba s) s in
        match int13 (memory s) (boot_drv s) (dcnt s) BUFFER (dlba s) with
        | None => Some (DiskError (teletype (Text.str "Disk error!") s))
        | Some m =>
            let s := set_memory m s in
            let ecx := Z.shiftr (wrap 32 (Z.shiftl (dcnt s) 9)) 2 in
            match copy m ecx (tgt s) with
            | inr _ => Some (Fault s)
            | Datatypes.inl m =>
                let s := set_memory m s in
                let edi := wrap 32 (tgt s + 4 * ecx) in
                read_loop fuel
                  (set_load edi (wrap 32 (clba s + dcnt s)) (wrap 16 (sleft s - dcnt s)) s)
            end
        end
  end.

(** The load of [sectors] sectors; the loop has at most that many turns. *)
Definition load_kernel (sectors : Z) (s : Sector) : option ending :=
  read_loop (S (Z.to_nat sectors)) (set_load 0x100000 1 sectors s).

(** COM1 at 115200 baud. *)
Definition init_com1 : io unit :=
  outb 0x3F9 0x00;;
  outb 0x3FB 0x80;;
  outb 0x3F8 0x01;;
  outb 0x3F9 0x00;;
  outb 0x3FA 0xC7;;
  outb 0x3FB 0x03;;
  outb 0x3FC 0x0B.

Definition enable_a20 : io unit :=
  v ← inb 0x92; outb 0x92 (Z.land (Z.lor v 2) 0xFE).

Definition set_fs (sel : Z) (c : Cpu) : Cpu :=
  mkCpu (cr0 c) (cr3 c) (cr4 c) (efer c) (gdtr c) (cs c) (cs_long c) (cs_32 c) (ds c) (es c) sel (gs c) (ss c)
    (sp c) (di c) (si c) (ip c).

(** FS gets a limit of 4 GB while protected mode is on for a moment. *)
Definition unreal_mode (s : Sector) : option Sector :=
  let c := with_gdtr (ugdt_addr, Z.of_nat (length ugdt) - 1) (cpu s) in
  let eax := wrap 32 (cr0 c + 1) in
  c ← write_cr0 eax c;
  c ← load_segments (memory s) set_fs 8 c;
  c ← write_cr0 (wrap 32 (eax - 1)) c;
  Some (on_cpu (λ _, c) s).

(** Protected mode with flat segments. *)
Definition protected_mode (s : Sector) : option Sector :=
  let c := with_gdtr (pgdt_addr, Z.of_nat (length pgdt) - 1) (cpu s) in
  c ← write_cr0 (wrap 32 (cr0 c + 1)) c;
  c ← load_segments (memory s) set_ds_es_ss 0x10 c;
  Some (on_cpu (λ _, with_sp 0x90000 c) s).

(** The two pushes and the 32-bit far return, which takes the low half of the word
    it pops for CS. *)
Definition far_return (s : Sector) : option Sector :=
  let esp := sp (cpu s) - 2 in
  let m := Memory.store (memory s) esp 2 0x08 in
  let esp := esp - 4 in
  let m := Memory.store m esp 4 0x100000 in
  let eip := Memory.load m esp 4 in
  let sel := Memory.load m (esp + 4) 2 in
  c ← far_jump m sel eip (with_sp (esp + 8) (cpu s));
  Some (set_memory m (on_cpu (λ _, c) s)).

(** From [.ldone]. *)
Definition loaded (polls : nat) (s : Sector) : io (option ending) :=
  w ← putc polls 75;
  match w with
  | None => mret None
  | Some _ =>
      let s := teletype [75] s in
      match protected_mode s with
      | None => mret (Some (Fault s))
      | Some s =>
          w ← putc polls 74;
          match w with
          | None => mret None
          | Some _ =>
              mret (Some (match far_return s with Some s => Jumped s | None => Fault s end))
          end
      end
  end.

(** The whole sector; [dl] is the drive it was read from, [sectors] what stands for
    [KERNEL_SECTORS].  [None] while it waits for the serial port. *)
Definition start (polls : nat) (sectors dl : Z) (s : Sector) : io (option ending) :=
  let s := on_cpu (λ c, with_sp 0x7C00 (set_ds_es_ss 0 c)) s in
  let s := set_drive dl s in
  init_com1;;
  w ← putc polls 77;
  match w with
  | None => mret None
  | Some _ =>
      enable_a20;;
      match unreal_mode s with
      | None => mret (Some (Fault s))
      | Some s =>
          match load_kernel sectors s with
          | Some (Jumped s) => loaded polls s
          | r => mret r
          end
      end
  end.

(** *** Loading the kernel *)

(** The documented behaviour of the extended read on a disk of [total] sectors with
    the bytes [disk]: the sectors come to the buffer, and the memory of the boot
    sector and above the first megabyte stays as it is. *)
Definition reads_disk (disk : Z → Z) (total : Z) : Prop :=
  ∀ m drive count lba, 0 < count ≤ 127 → 0 ≤ lba → lba + count ≤ total →
    ∃ m', int13 m drive count BUFFER lba = Some m' ∧
      (∀ i, 0 ≤ i < 512 * count → rd m' (BUFFER + i) = disk (512 * lba + i)) ∧
      ∀ a, 0x7C00 ≤ a < 0x7E00 ∨ 0x100000 ≤ a → rd m' a = rd m a.

Context (disk : Z → Z) (total : Z).
Context (Hdisk : ∀ i, 0 ≤ disk i < 256) (Hbios : reads_disk disk total).

Lemma copy_spec m ecx target :
  limits = false → 0 < ecx ≤ 0x1000 → 0x100000 ≤ target → target + 4 * ecx ≤ 2 ^ 32 →
  (∀ i, 0 ≤ i < 4 * ecx → 0 ≤ rd m (BUFFER + i) < 256) →
  ∃ m', copy m ecx target = Datatypes.inl m' ∧
    (∀ i, 0 ≤ i < 4 * ecx → rd m' (target + i) = rd m (BUFFER + i)) ∧
    ∀ a, ¬ (target ≤ a < target + 4 * ecx) → rd m' a = rd m a.
Proof.
  intros Hlim He Ht Hend Hb. unfold copy. rewrite (proj2 (Z.eqb_neq ecx 0)) by lia.
  assert (Hr : match for_loop 0 ecx (λ i m,
      let esi := wrap 32 (BUFFER + 4 * i) in
      let edi := wrap 32 (target + 4 * i) in
      if ds_faults esi 4 then inr tt else Datatypes.inl (Memory.store m edi 4 (Memory.load m esi 4))) m with
    | Datatypes.inl m' => (∀ i, 0 ≤ i < 4 * ecx → rd m' (target + i) = rd m (BUFFER + i)) ∧
        ∀ a, ¬ (target ≤ a < target + 4 * ecx) → rd m' a = rd m a
    | inr _ => False
    end).
  { apply (for_loop_rule (λ k (m' : mem),
      (∀ i, 0 ≤ i < 4 * k → rd m' (target + i) = rd m (BUFFER + i)) ∧
      ∀ a, ¬ (target ≤ a < target + 4 * k) → rd m' a = rd m a) (λ _ : unit, False));
      [lia|split; intros; [lia|done]|].
    intros k m1 Hk [H1 H2]. unfold ds_faults. rewrite Hlim. cbn [andb]. cbv zeta. unfold BUFFER in *.
    rewrite !wrap_small by lia. split.
    - intros i Hi. destruct (decide (4 * k ≤ i)).
      + rewrite rd_store_load; [rewrite H2 by lia; f_equal; lia| |lia].
        intros j Hj. rewrite H2 by lia. replace j with (0x8000 * 16 + (j - 0x8000 * 16)) by lia. apply Hb. lia.
      + rewrite rd_store_out by lia. apply H1. lia.
    - intros a Ha. rewrite rd_store_out by lia. apply H2. lia. }
  destruct (for_loop _ _ _ _) as [m'|]; [|done]. by exists m'.
Qed.

(** The sectors loaded so far, and what the load leaves alone. *)
Record loading (n : Z) (s0 s : Sector) : Prop := {
  load_pos : 1 ≤ clba s;
  load_left : 0 ≤ sleft s;
  load_sum : clba s - 1 + sleft s = n;
  load_target : tgt s = 0x100000 + 512 * (clba s - 1);
  load_bytes : ∀ i, 0 ≤ i < 512 * (clba s - 1) → rd (memory s) (0x100000 + i) = disk (512 + i);
  load_cpu : cpu s = cpu s0 ∧ screen s = screen s0;
  load_sector : ∀ a, 0x7C00 ≤ a < 0x7E00 → rd (memory s) a = rd (memory s0) a
}.

Lemma read_loop_spec n s0 : limits = false → n < 0x8000 → n + 1 ≤ total → ∀ fuel s,
  loading n s0 s → (Z.to_nat (sleft s) < fuel)%nat →
  ∃ s', read_loop fuel s = Some (Jumped s') ∧ sleft s' = 0 ∧ loading n s0 s'.
Proof.
  intros Hlim Hn Htot. induction fuel as [|fuel IH]; intros s Hs Hf; [lia|]. cbn [read_loop].
  destruct (sleft s =? 0) eqn:E0; break_cmp; [by exists s|]. destruct Hs.
  set (k := Z.min (sleft s) 32).
  assert (Hk : chunk (sleft s) = k).
  { unfold chunk, k. rewrite swrap_small by lia. destruct (_ <=? _) eqn:E; break_cmp; lia. }
  cbv zeta. rewrite Hk. cbn [set_packet memory boot_drv dcnt dlba tgt clba sleft set_memory].
  destruct (Hbios (memory s) (boot_drv s) k (clba s)) as (m1 & -> & Hbuf & Hframe); [lia..|].
  assert (Hecx : Z.shiftr (wrap 32 (Z.shiftl k 9)) 2 = 128 * k).
  { rewrite Z.shiftl_mul_pow2 by lia. rewrite wrap_small by lia. rewrite Z.shiftr_div_pow2 by lia. dlia. }
  rewrite Hecx. destruct (copy_spec m1 (128 * k) (tgt s)) as (m2 & -> & Hcopy & Hout); [done|lia..| |].
  { intros i Hi. rewrite Hbuf by lia. apply Hdisk. }
  apply IH; cbn [set_load set_packet set_memory memory boot_drv dcnt dlba tgt clba sleft cpu screen].
  - rewrite !wrap_small by lia. split; cbn; try lia; [|done|].
    + intros i Hi. destruct (decide (i < 512 * (clba s - 1))) as [Hlt|Hge].
      * rewrite Hout, Hframe by lia. apply load_bytes0. lia.
      * replace (0x100000 + i) with (tgt s + (i - 512 * (clba s - 1))) by lia.
        rewrite Hcopy, Hbuf by lia. f_equal. lia.
    + intros a Ha. rewrite Hout, Hframe by lia. by apply load_sector0.
  - rewrite wrap_small by lia. lia.
Qed.

Lemma load_kernel_spec n s :
  limits = false → 0 ≤ n < 0x8000 → n + 1 ≤ total →
  ∃ s', load_kernel n s = Some (Jumped s') ∧ clba s' = n + 1 ∧ loading n s s'.
Proof.
  intros Hlim Hn Htot. unfold load_kernel.
  destruct (read_loop_spec n s Hlim ltac:(lia) Htot (S (Z.to_nat n)) (set_load 0x100000 1 n s))
    as (s' & E & H0 & Hl); [|cbn; lia|].
  - split; cbn; try lia; done.
  - exists s'. split; [done|]. split; [|done]. destruct Hl. lia.
Qed.

(** *** The way into the kernel *)

(** The descriptor tables are in the sector. *)
Definition tables_in (m : mem) : Prop :=
  bytes_at m ugdt_addr ugdt ∧ bytes_at m pgdt_addr pgdt ∧
  0x7C00 ≤ ugdt_addr ∧ ugdt_addr + 16 ≤ 0x7E00 ∧ 0x7C00 ≤ pgdt_addr ∧ pgdt_addr + 24 ≤ 0x7E00.

Lemma bytes_at_ext m m' a l :
  bytes_at m a l → (∀ b, a ≤ b < a + Z.of_nat (length l) → rd m' b = rd m b) → bytes_at m' a l.
Proof.
  revert a. induction l as [|x l IH]; intros a H Hext; [done|]. destruct H as [H1 H2].
  cbn [length] in Hext. split; [rewrite Hext by lia; done|]. apply IH; [done|]. intros b Hb. apply Hext. lia.
Qed.

Lemma tables_in_ext m m' :
  tables_in m → (∀ a, 0x7C00 ≤ a < 0x7E00 → rd m' a = rd m a) → tables_in m'.
Proof.
  intros (Hu & Hp & H1 & H2 & H3 & H4) Hext. split_and!; try done.
  - apply (bytes_at_ext m); [done|]. intros b Hb. change (length ugdt) with 16%nat in Hb. apply Hext. lia.
  - apply (bytes_at_ext m); [done|]. intros b Hb. change (length pgdt) with 24%nat in Hb. apply Hext. lia.
Qed.

Lemma table_words m :
  tables_in m →
  Memory.load m (ugdt_addr + 8) 8 = 0x00CF92000000FFFF ∧
  Memory.load m (pgdt_addr + 8) 8 = 0x00CF9A000000FFFF ∧
  Memory.load m (pgdt_addr + 16) 8 = 0x00CF92000000FFFF.
Proof.
  intros (Hu & Hp & _). unfold ugdt in Hu.
  change pgdt with (le_bytes 8 0 ++ le_bytes 8 0x00CF9A000000FFFF ++ le_bytes 8 0x00CF92000000FFFF) in Hp.
  apply bytes_at_app in Hu as [_ Hu]. apply bytes_at_app in Hp as [_ Hp]. apply bytes_at_app in Hp as [Hp1 Hp2].
  rewrite <- Z.add_assoc in Hp2.
  by rewrite (bytes_at_load _ (ugdt_addr + 8) 8 _ Hu), (bytes_at_load _ (pgdt_addr + 8) 8 _ Hp1),
    (bytes_at_load _ (pgdt_addr + 16) 8 _ Hp2).
Qed.

Lemma unpaged_descriptor m c sel base limit :
  Z.testbit (cr0 c) PG = false → gdtr c = (base, limit) → sel + 7 ≤ limit →
  descriptor m c sel = Some (Memory.load m (base + sel) 8).
Proof.
  intros Hpg Hg Hs. unfold descriptor, linear. rewrite Hg, Hpg. cbn [fst snd].
  by rewrite (proj2 (Z.leb_le _ _) Hs).
Qed.

Lemma below_PG v : 0 ≤ v < 2 ^ 31 → Z.testbit v PG = false.
Proof.
  intros Hv. by apply (bits_above 31).
Qed.

(** Real mode: [cr0] even, without paging. *)
Definition real_mode (c : Cpu) : Prop := 0 ≤ cr0 c < 2 ^ 31 ∧ Z.testbit (cr0 c) PE = false.

Lemma real_mode_inc c :
  real_mode c → wrap 32 (cr0 c + 1) = cr0 c + 1 ∧ Z.testbit (cr0 c + 1) PG = false ∧
    Z.testbit (cr0 c + 1) PE = true.
Proof.
  intros [Hc He]. rewrite wrap_small by lia. unfold PE in *. rewrite Z.bit0_odd in *.
  assert (Ho : Z.odd (cr0 c + 1) = true) by (rewrite Z.add_1_r, Z.odd_succ, <- Z.negb_odd; by rewrite He).
  split; [done|]. split; [|done]. apply below_PG. split; [lia|].
  destruct (decide (cr0 c = 2 ^ 31 - 1)) as [E|]; [rewrite E in He; done|lia].
Qed.

Lemma write_cr0_unpaged v c : Z.testbit v PG = false → write_cr0 v c = Some (with_cr0 v c).
Proof. intros H. unfold write_cr0. by rewrite H. Qed.

Lemma unreal_mode_spec s :
  real_mode (cpu s) → tables_in (memory s) →
  ∃ c, unreal_mode s = Some (on_cpu (λ _, c) s) ∧ cr0 c = cr0 (cpu s) ∧ real_mode c.
Proof.
  intros Hr Ht. destruct (real_mode_inc _ Hr) as (Hi & Hpg & Hpe). destruct (table_words _ Ht) as (Hw & _ & _).
  unfold unreal_mode. cbv zeta. cbn [cr0 with_gdtr]. rewrite Hi.
  rewrite write_cr0_unpaged by exact Hpg. cbn [mbind option_bind].
  unfold load_segments. rewrite (unpaged_descriptor _ _ 8 ugdt_addr 15); [|exact Hpg|reflexivity|lia].
  cbn [mbind option_bind]. rewrite Hw.
  change (present _ && code_or_data _ && negb (executable _) && writable _) with true.
  cbn [mbind option_bind]. replace (cr0 (cpu s) + 1 - 1) with (cr0 (cpu s)) by lia.
  destruct Hr as [Hc He]. rewrite wrap_small by lia. rewrite write_cr0_unpaged by (by apply below_PG).
  cbn [mbind option_bind]. eexists. split; [done|]. by split.
Qed.

Lemma protected_mode_spec s :
  real_mode (cpu s) → tables_in (memory s) →
  ∃ c, protected_mode s = Some (on_cpu (λ _, c) s) ∧ cr0 c = cr0 (cpu s) + 1 ∧ sp c = 0x90000 ∧
    gdtr c = (pgdt_addr, 23) ∧ (ds c, es c, ss c) = (0x10, 0x10, 0x10).
Proof.
  intros Hr Ht. destruct (real_mode_inc _ Hr) as (Hi & Hpg & Hpe). destruct (table_words _ Ht) as (_ & _ & Hw).
  unfold protected_mode. cbv zeta. cbn [cr0 with_gdtr]. rewrite Hi.
  rewrite write_cr0_unpaged by exact Hpg. cbn [mbind option_bind].
  unfold load_segments. rewrite (unpaged_descriptor _ _ 0x10 pgdt_addr 23); [|exact Hpg|reflexivity|lia].
  cbn [mbind option_bind]. rewrite Hw.
  change (present _ && code_or_data _ && negb (executable _) && writable _) with true.
  cbn [mbind option_bind]. eexists. split; [done|]. done.
Qed.

Lemma far_return_spec s :
  sp (cpu s) = 0x90000 → gdtr (cpu s) = (pgdt_addr, 23) → Z.testbit (cr0 (cpu s)) PG = false →
  tables_in (memory s) →
  ∃ s', far_return s = Some s' ∧ cs (cpu s') = 8 ∧ ip (cpu s') = 0x100000 ∧ cs_32 (cpu s') = true ∧
    cr0 (cpu s') = cr0 (cpu s) ∧ ds (cpu s') = ds (cpu s) ∧ screen s' = screen s ∧
    ∀ a, 0x100000 ≤ a → rd (memory s') a = rd (memory s) a.
Proof.
  intros Hsp Hg Hpg Ht. unfold far_return. rewrite Hsp. cbv zeta.
  set (m1 := Memory.store (memory s) (0x90000 - 2) 2 8). set (m2 := Memory.store m1 (0x90000 - 2 - 4) 4 0x100000).
  assert (Heip : Memory.load m2 (0x90000 - 2 - 4) 4 = 0x100000) by (by apply load_store_eq).
  assert (Hcs : Memory.load m2 (0x90000 - 2 - 4 + 4) 2 = 8).
  { rewrite (load_ext m2 m1) by (intros b Hb; apply rd_store_out; simpl in *; lia). by apply load_store_eq. }
  rewrite Heip, Hcs. unfold far_jump.
  rewrite (unpaged_descriptor _ _ 8 pgdt_addr 23); [|exact Hpg|exact Hg|lia]. cbn [mbind option_bind].
  assert (Ht2 : tables_in m2).
  { apply (tables_in_ext (memory s)); [done|]. intros a Ha. unfold m2, m1. by rewrite !rd_store_out by (simpl; lia). }
  destruct (table_words _ Ht2) as (_ & -> & _).
  match goal with |- context [present ?d && code_or_data ?d && executable ?d && negb (long_code ?d && default_32 ?d)] =>
    change (present d && code_or_data d && executable d && negb (long_code d && default_32 d)) with true end.
  unfold linear. change (cr0 (with_sp _ (cpu s))) with (cr0 (cpu s)). rewrite Hpg. cbn [mbind option_bind].
  eexists. split; [reflexivity|]. split_and!; try done.
  intros a Ha. cbn [memory set_memory on_cpu]. unfold m2, m1. by rewrite !rd_store_out by (simpl; lia).
Qed.

Lemma init_com1_sent t : sent (trace init_com1 t) = sent t ++ [1].
Proof.
  unfold init_com1, trace, mbind, io_bind, outb, sent. cbn [snd].
  rewrite !omap_app. by rewrite <- !app_assoc.
Qed.

Lemma enable_a20_sent t : sent (trace enable_a20 t) = sent t.
Proof.
  unfold enable_a20, trace, mbind, io_bind, inb, outb, sent. cbn [snd].
  rewrite !omap_app. by rewrite !app_nil_r.
Qed.

Lemma loaded_spec polls s t :
  (∀ t, (wait_set polls 0x3FD 0x20 t).1 = true) → real_mode (cpu s) → tables_in (memory s) →
  ∃ s', (loaded polls s t).1 = Some (Jumped s') ∧ sent (trace (loaded polls s) t) = sent t ++ [75; 74] ∧
    cs (cpu s') = 8 ∧ ip (cpu s') = 0x100000 ∧ cs_32 (cpu s') = true ∧ ds (cpu s') = 0x10 ∧
    Z.testbit (cr0 (cpu s')) PE = true ∧ Z.testbit (cr0 (cpu s')) PG = false ∧
    screen s' = screen s ++ [75] ∧ ∀ a, 0x100000 ≤ a → rd (memory s') a = rd (memory s) a.
Proof.
  intros Hw Hr Ht. unfold loaded, trace. rewrite !run_bind. destruct (putc_sends polls 75 t Hw) as [-> Hs1].
  cbn iota. cbv zeta. set (t1 := trace (putc polls 75) t) in *. clearbody t1.
  destruct (protected_mode_spec (teletype [75] s) Hr Ht) as (c & -> & Hcr & Hsp & Hg & Hds).
  rewrite !run_bind. destruct (putc_sends polls 74 t1 Hw) as [-> Hs2]. cbn iota.
  destruct (real_mode_inc _ Hr) as (_ & Hpg & Hpe).
  change (cr0 (cpu (teletype [75] s))) with (cr0 (cpu s)) in Hcr.
  destruct (far_return_spec (on_cpu (λ _, c) (teletype [75] s)) Hsp Hg) as (s' & -> & H1 & H2 & H3 & H4 & H5 & H6 & H7);
    [by cbn [cpu on_cpu]; rewrite Hcr|done|].
  exists s'. cbn [cpu on_cpu] in *. split; [done|]. split.
  { unfold mret, io_ret. cbn [snd]. rewrite Hs2, Hs1. by rewrite <- app_assoc. }
  rewrite H4, H5, Hcr. injection Hds as -> _ _. by split_and!.
Qed.

Lemma load_and_jump polls n dl s t :
  limits = false → (∀ t, (wait_set polls 0x3FD 0x20 t).1 = true) → 0 ≤ n < 0x8000 → n + 1 ≤ total →
  real_mode (cpu s) → tables_in (memory s) →
  ∃ s' t', start polls n dl s t = (Some (Jumped s'), t') ∧ sent t' = sent t ++ [1; 77; 75; 74] ∧
    cs (cpu s') = 8 ∧ ip (cpu s') = 0x100000 ∧ cs_32 (cpu s') = true ∧
    Z.testbit (cr0 (cpu s')) PE = true ∧ Z.testbit (cr0 (cpu s')) PG = false ∧
    ∀ i, 0 ≤ i < 512 * n → rd (memory s') (0x100000 + i) = disk (512 + i).
Proof.
  intros Hlim Hwait Hn Htot Hreal Hin. unfold start. cbv zeta. rewrite !run_bind.
  set (s1 := set_drive dl _). pose proof (init_com1_sent t) as Hs0. set (t0 := trace init_com1 t) in *. clearbody t0.
  destruct (putc_sends polls 77 t0 Hwait) as [-> Hs1]. cbn iota. rewrite !run_bind.
  set (t1 := trace (putc polls 77) t0) in *. clearbody t1.
  pose proof (enable_a20_sent t1) as Hs2. set (t2 := trace enable_a20 t1) in *. clearbody t2.
  destruct (unreal_mode_spec s1 Hreal Hin) as (c & -> & _ & Hr).
  destruct (load_kernel_spec n (on_cpu (λ _, c) s1) Hlim Hn Htot) as (s2 & -> & Hlba & Hl). destruct Hl.
  destruct load_cpu0 as [Hcpu _].
  destruct (loaded_spec polls s2 t2 Hwait) as (s' & E & Hs3 & H1 & H2 & H3 & _ & H5 & H6 & _ & H8).
  - by rewrite Hcpu.
  - apply (tables_in_ext (memory s)); [done|]. exact load_sector0.
  - unfold trace in Hs3. destruct (loaded polls s2 t2) as [r t3]. cbn [fst snd] in *. subst r.
    exists s', t3. split; [done|]. split; [rewrite Hs3, Hs2, Hs1, Hs0; by rewrite <- !app_assoc|].
    split_and!; try done. intros i Hi. rewrite H8 by lia. apply load_bytes0. lia.
Qed.

(** C8. The boot sector loads the kernel: where segment limits are not checked in
    real mode and the BIOS reads the disk, a sector set up for [n < 32768] sectors
    ends in 32-bit protected mode at 8:0x100000 with paging off, and from 0x100000
    on the memory holds the bytes of the [n] sectors behind the boot sector.  It
    announces itself on the serial port with M, K and J. *)
Theorem mbr_loads_kernel polls n dl s t
    (Hlim : limits = false) (Hwait : ∀ t, (wait_set polls 0x3FD 0x20 t).1 = true)
    (Hn : 0 ≤ n < 0x8000) (Htot : n + 1 ≤ total)
    (Hreal : real_mode (cpu s)) (Hin : tables_in (memory s)) :
  ∃ s' t', start polls n dl s t = (Some (Jumped s'), t') ∧ sent t' = sent t ++ [1; 77; 75; 74] ∧
    cs (cpu s') = 8 ∧ ip (cpu s') = 0x100000 ∧ cs_32 (cpu s') = true ∧
    Z.testbit (cr0 (cpu s')) PE = true ∧ Z.testbit (cr0 (cpu s')) PG = false ∧
    ∀ i, 0 ≤ i < 512 * n → rd (memory s') (0x100000 + i) = disk (512 + i).
Proof. by apply load_and_jump. Qed.

(** Where the processor checks limits, the copy of the first sector faults: DS
    still has the limit of real mode, and the buffer at 0x80000 lies beyond it; only
    FS was given 4 GB.  Nothing has come to 0x100000 by then. *)
Theorem mbr_copy_faults polls n dl s t
    (Hlim : limits = true) (Hwait : ∀ t, (wait_set polls 0x3FD 0x20 t).1 = true)
    (Hn : 0 < n < 0x8000) (Htot : n + 1 ≤ total)
    (Hreal : real_mode (cpu s)) (Hin : tables_in (memory s)) :
  ∃ s', (start polls n dl s t).1 = Some (Fault s') ∧ ∀ a, 0x100000 ≤ a → rd (memory s') a = rd (memory s) a.
Proof.
  unfold start. cbv zeta. rewrite !run_bind. set (s1 := set_drive dl _).
  destruct (putc_sends polls 77 (trace init_com1 t) Hwait) as [-> _]. cbn iota. rewrite !run_bind.
  destruct (unreal_mode_spec s1 Hreal Hin) as (c & -> & _ & _).
  unfold load_kernel. cbn [read_loop sleft set_load]. rewrite (proj2 (Z.eqb_neq n 0)) by lia. cbv zeta.
  assert (Hk : chunk n = Z.min n 32).
  { unfold chunk. rewrite swrap_small by lia. destruct (_ <=? _) eqn:E; break_cmp; lia. }
  cbn [set_packet memory boot_drv dcnt dlba tgt clba sleft set_memory set_load on_cpu]. rewrite Hk.
  destruct (Hbios (memory s1) (boot_drv s1) (Z.min n 32) 1) as (m1 & -> & _ & Hf); [lia..|].
  rewrite Z.shiftl_mul_pow2, wrap_small, Z.shiftr_div_pow2 by lia.
  replace (Z.min n 32 * 2 ^ 9 / 2 ^ 2) with (128 * Z.min n 32) by dlia.
  unfold copy. rewrite (proj2 (Z.eqb_neq _ 0)) by lia. rewrite for_loop_step by lia. cbv zeta.
  replace (ds_faults (wrap 32 (BUFFER + 4 * 0)) 4) with true by (unfold ds_faults; by rewrite Hlim).
  eexists. split; [reflexivity|]. intros a Ha. cbn [memory set_memory]. apply Hf. lia.
Qed.
End Sector.

(** A BIOS that reads a disk. *)
Definition demo_int13 (disk : Z → Z) (m : mem) (drive count addr lba : Z) : option mem :=
  Some (for_each 0 (512 * count) (λ i m, wr m (addr + i) (disk (512 * lba + i))) m).

Lemma demo_reads_disk disk total : reads_disk (demo_int13 disk) disk total.
Proof.
  intros m drive count lba Hc Hl Hend. eexists. split; [reflexivity|].
  assert (H : ∀ m', m' = for_each 0 (512 * count) (λ i m, wr m (BUFFER + i) (disk (512 * lba + i))) m →
    (∀ i, 0 ≤ i < 512 * count → rd m' (BUFFER + i) = disk (512 * lba + i)) ∧
    ∀ a, ¬ (BUFFER ≤ a < BUFFER + 512 * count) → rd m' a = rd m a).
  { intros m' ->. apply (for_each_rule (λ k (m' : mem),
      (∀ i, 0 ≤ i < k → rd m' (BUFFER + i) = disk (512 * lba + i)) ∧
      ∀ a, ¬ (BUFFER ≤ a < BUFFER + k) → rd m' a = rd m a)); [lia|split; intros; [lia|done]|].
    intros k m1 Hk [H1 H2]. split.
    - intros i Hi. destruct (decide (i = k)) as [->|]; [apply rd_wr_eq|]. rewrite rd_wr_ne by lia. apply H1. lia.
    - intros a Ha. rewrite rd_wr_ne by lia. apply H2. lia. }
  destruct (H _ eq_refl) as [H1 H2]. split; [done|]. intros a Ha. apply H2. unfold BUFFER. lia.
Qed.

(** The sector with its tables at 0x7D00 and 0x7D20, as the BIOS starts it. *)
Definition put (m : mem) (a : Z) (l : list Z) : mem := (foldl (λ x b, (wr x.1 x.2 b, x.2 + 1)) (m, a) l).1.
Definition demo_sector : Sector :=
  mkSector (put (put ∅ 0x7D00 ugdt) 0x7D20 pgdt) 0 0 0 0 0 0
    (mkCpu 0x10 0 0 0 (0, 0) 0 false false 0 0 0 0 0 0x7C00 0 0 0x7C00) [].

Lemma demo_sector_ok : real_mode (cpu demo_sector) ∧ tables_in 0x7D00 0x7D20 (memory demo_sector).
Proof.
  split; [split; [cbn; lia|reflexivity]|]. split; [vm_compute; repeat split|]. split; [vm_compute; repeat split|].
  lia.
Qed.

Lemma mbr_loads_kernel_witness :
  ∃ s' t', start (D := Apic.demo_pit) (demo_int13 (λ i, i mod 251)) false 0x7D00 0x7D20 1 40 0x80 demo_sector [] =
      (Some (Jumped s'), t') ∧ sent t' = [1; 77; 75; 74] ∧ rd (memory s') (0x100000 + 20479) = 20991 mod 251.
Proof.
  destruct (mbr_loads_kernel (D := Apic.demo_pit) (demo_int13 (λ i, i mod 251)) false 0x7D00 0x7D20 (λ i, i mod 251) 100
    (λ i, ltac:(pose proof (Z.mod_pos_bound i 251); lia)) (demo_reads_disk _ _) 1 40 0x80 demo_sector [])
    as (s' & t' & E & Hs & _ & _ & _ & _ & _ & Hk).
  - reflexivity.
  - intros t. reflexivity.
  - lia.
  - lia.
  - exact (proj1 demo_sector_ok).
  - exact (proj2 demo_sector_ok).
  - exists s', t'. split; [exact E|]. split; [exact Hs|]. apply (Hk 20479). lia.
Defined.

End Mbr.

(** ** The disk image *)

Module Image.
Import Processor Mbr.

Definition SECTOR_SIZE : Z := 512.
Definition IMG_SIZE_MB : Z := 4.

Definition kernel_sectors (kernel : list Z) : Z := (Z.of_nat (length kernel) + SECTOR_SIZE - 1) / SECTOR_SIZE.

Definition byte (l : list Z) (i : nat) : Z := default 0 (l !! i).

(** Whether [mov word [sleft], 0] is at [i]: C7 06 xx xx 00 00, without the prefix of
    the 32-bit form. *)
Definition patchable (mbr : list Z) (i : nat) : bool :=
  (byte mbr i =? 0xC7) && (byte mbr (i + 1) =? 0x06) && (byte mbr (i + 4) =? 0x00) && (byte mbr (i + 5) =? 0x00) &&
  negb ((0 <? Z.of_nat i) && (byte mbr (i - 1) =? 0x66)).

Definition find_patch (mbr : list Z) : option nat :=
  head (filter (λ i, patchable mbr i = true) (seq 0 (length mbr - 5))).

(** [struct.pack_into('<H', ...)] raises for a number of more than 16 bits; without a
    place to patch the sector stays as it is. *)
Definition patch (mbr : list Z) (sectors : Z) : option (list Z) :=
  match find_patch mbr with
  | None => Some mbr
  | Some i =>
      if 65535 <? sectors then None
      else Some (<[(i + 4)%nat := sectors mod 256]> (<[(i + 5)%nat := sectors / 256]> mbr))
  end.

(** [l[a:b] = x]. *)
Definition slice_assign (l : list Z) (a b : nat) (x : list Z) : list Z := take a l ++ x ++ drop (a `max` b) l.

(** [None] where the script stops with an exception. *)
Definition build_img (mbr kernel : list Z) : option (list Z) :=
  if negb (Z.of_nat (length mbr) =? SECTOR_SIZE) then None
  else
    mbr ← patch mbr (kernel_sectors kernel);
    let img_size := IMG_SIZE_MB * 1024 * 1024 in
    let img := replicate (Z.to_nat img_size) 0 in
    let img := slice_assign img 0 (Z.to_nat SECTOR_SIZE) mbr in
    let kernel_offset := Z.to_nat SECTOR_SIZE in
    Some (slice_assign img kernel_offset (kernel_offset + length kernel) kernel).

(** The image as a disk, and the number of sectors the sector on it loads, the
    immediate of the instruction at [p]. *)
Definition disk_of (img : list Z) (i : Z) : Z := byte img (Z.to_nat i).
Definition immediate (img : list Z) (p : nat) : Z := byte img (p + 4) + 256 * byte img (p + 5).

(** A kernel that fits behind the sector. *)
Definition fits (kernel : list Z) : Prop :=
  Forall (λ b, 0 ≤ b < 256) kernel ∧ Z.of_nat (length kernel) ≤ 4 * 1024 * 1024 - 512.

Lemma sectors_bounds kernel :
  fits kernel → 0 ≤ kernel_sectors kernel < 0x2000 ∧ Z.of_nat (length kernel) ≤ 512 * kernel_sectors kernel.
Proof. intros [_ Hl]. unfold kernel_sectors, SECTOR_SIZE. split; dlia. Qed.

Lemma find_patch_bound mbr p : find_patch mbr = Some p → (p + 5 < length mbr)%nat.
Proof.
  unfold find_patch. intros H. apply head_Some_elem_of in H.
  apply list_elem_of_filter in H as [_ H]. apply elem_of_seq in H. lia.
Qed.

(** The image is the patched sector, the kernel and zeros. *)
Lemma build_img_spec mbr kernel p :
  length mbr = 512%nat → find_patch mbr = Some p → fits kernel →
  ∃ mbr' rest, build_img mbr kernel = Some (mbr' ++ kernel ++ replicate rest 0) ∧ length mbr' = 512%nat ∧
    (512 + length kernel + rest = Z.to_nat (4 * 1024 * 1024))%nat ∧
    mbr' = <[(p + 4)%nat := kernel_sectors kernel mod 256]> (<[(p + 5)%nat := kernel_sectors kernel / 256]> mbr).
Proof.
  intros Hm Hp Hk. destruct (sectors_bounds kernel Hk) as [Hs _]. destruct Hk as [_ Hl].
  unfold build_img, patch. rewrite Hm, Hp. cbn [negb Z.eqb].
  change (negb (Z.of_nat 512 =? SECTOR_SIZE)) with false. cbn iota.
  rewrite (proj2 (Z.ltb_ge _ _)) by lia. cbn [mbind option_bind].
  set (mbr' := <[(p + 4)%nat := _]> _). assert (Hlen : length mbr' = 512%nat)
    by (unfold mbr'; by rewrite !length_insert). clearbody mbr'.
  change (Z.to_nat SECTOR_SIZE) with 512%nat. change (IMG_SIZE_MB * 1024 * 1024) with (4 * 1024 * 1024).
  set (size := Z.to_nat (4 * 1024 * 1024)). assert (Hsz : Z.of_nat size = 4 * 1024 * 1024) by (unfold size; lia).
  clearbody size. exists mbr', (size - 512 - length kernel)%nat. split_and!; [|done|lia|done].
  f_equal. unfold slice_assign. rewrite take_0, app_nil_l, Nat.max_0_l, drop_replicate.
  rewrite take_app_length' by done. rewrite drop_app_ge by lia.
  rewrite drop_replicate. f_equal. f_equal. f_equal. lia.
Qed.

Section Boots.
Context {D : Device} (int13 : mem → Z → Z → Z → Z → option mem) (ugdt_addr pgdt_addr : Z).

End Boots.

(** A sector with the three instructions in front of the load loop, and a kernel that
    begins with the jump of boot.asm. *)
Definition demo_mbr : list Z :=
  [0x66; 0xC7; 0x06; 0xF0; 0x7C; 0x00; 0x00; 0x10; 0x00] ++ [0x66; 0xC7; 0x06; 0xF4; 0x7C; 0x01; 0x00; 0x00; 0x00] ++
  [0xC7; 0x06; 0xF8; 0x7C; 0x00; 0x00] ++ replicate 488 0.
Definition demo_kernel : list Z := [0xE9; 0xFB; 0x0F; 0x00; 0x00; 0x90; 0x90].

(** The demo BIOS on whatever image the script makes. *)
Definition demo_bios : mem → Z → Z → Z → Z → option mem :=
  demo_int13 (disk_of (default [] (build_img demo_mbr demo_kernel))).


End Image.
