(* ===== verification/Segments.v ===== *)
(** * Loading the segment descriptors (src/arch/gdt.rs)

    [gdt::init] on the processor: the table and the task state segment in memory,
    [lgdt], the reload of the segment registers through a far return, and [ltr].
    The contents of the table are those of [Arch.Gdt]; the processor is that of
    [Startup]. *)

From stdpp Require Import base numbers list gmap strings.
From S2P Require Import Prelude Memory Vmm Arch Boot Startup.
Import Arch.Gdt Processor PageTables.
Open Scope Z_scope.

Module Segments.

(** A descriptor in memory: the fields of [GdtEntry], packed. *)
Definition bits (e : GdtEntry) : Z :=
  limit_low e + 2 ^ 16 * base_low e + 2 ^ 32 * base_middle e + 2 ^ 40 * access e +
  2 ^ 48 * flags_limit_high e + 2 ^ 56 * base_high e.

(** The static [GDT]. *)
Fixpoint store_table (m : mem) (a : Z) (l : list GdtEntry) : mem :=
  match l with
  | [] => m
  | e :: l => store_table (store m a 8 (bits e)) (a + 8) l
  end.

(** The offset of a field of [Tss]. *)
Definition offset (i : nat) : Z := nth i Tss_offsets 0.

(** What [init] writes to its two statics. *)
Definition init_memory (m : mem) (gdt_addr tss_addr stack_top : Z) : mem :=
  let '(gdt, _, tss) := Gdt.init tss_addr stack_top in
  let m := store_table m gdt_addr gdt in
  let m := store m (tss_addr + offset 1) 8 (nth 0 (rsp tss) 0) in
  store m (tss_addr + offset 6) 2 (iomap_base tss).

(** [retfq] takes the target and the selector that were pushed; [None] is a fault. *)
Definition reload_segments (return_ : Z) (m : mem) (c : Cpu) : option (mem * Cpu) :=
  a ← linear m c (sp c - 8);
  let m := store m a 8 0x08 in
  b ← linear m c (sp c - 16);
  let m := store m b 8 return_ in
  c ← far_jump m (wrap 16 (load m a 8)) (load m b 8) c;
  c ← load_segments m set_all_data 0x10 c;
  Some (m, c).

(** The task register and the hidden part of it. *)
Record TaskRegister := mkTr { tr : Z; tr_base : Z; tr_limit : Z }.

(** [ltr]: the descriptor, of two slots, must be that of an available task; it is
    marked busy. *)
Definition ltr (m : mem) (sel : Z) (c : Cpu) : option (mem * TaskRegister) :=
  if sel + 15 <=? (gdtr c).2 then
    a ← linear m c ((gdtr c).1 + sel);
    b ← linear m c ((gdtr c).1 + sel + 8);
    let d := load m a 8 in
    let h := load m b 8 in
    if present d && negb (code_or_data d) && (Z.land (Z.shiftr d 40) 0xF =? 9) then
      Some (store m a 8 (Z.setbit d 41),
            mkTr sel (Z.land (Z.shiftr d 16) 0xFFFFFF + 2 ^ 24 * Z.land (Z.shiftr d 56) 0xFF +
                      2 ^ 32 * Z.land h 0xFFFFFFFF)
                 (Z.land d 0xFFFF + 2 ^ 16 * Z.land (Z.shiftr d 48) 0xF))
    else None
  else None.

(** [gdt::init]; [gdt_addr] and [tss_addr] are the addresses of the statics,
    [return_] that of the label behind the far return. *)
Definition init (gdt_addr tss_addr stack_top return_ : Z) (m : mem) (c : Cpu)
    : option (mem * Cpu * TaskRegister) :=
  let m := init_memory m gdt_addr tss_addr stack_top in
  let c := with_gdtr (gdt_addr, (Gdt.init tss_addr stack_top).1.2) c in
  r ← reload_segments return_ m c;
  t ← ltr r.1 0x28 r.2;
  Some (t.1, r.2, t.2).

(** The stack pointer the processor takes from the task state segment when an
    interrupt arrives in user mode. *)
Definition privilege_stack (m : mem) (t : TaskRegister) : Z := load m (tr_base t + 4) 8.

(** ** The table in memory *)

Lemma store_table_out m a l b :
  b < a ∨ a + 8 * Z.of_nat (length l) ≤ b → rd (store_table m a l) b = rd m b.
Proof.
  revert m a. induction l as [|e l IH]; intros m a Hb; [done|]. cbn [store_table length] in *.
  rewrite IH by lia. apply rd_store_out. cbn. lia.
Qed.

Lemma store_table_load m a l k e :
  l !! k = Some e → 0 ≤ bits e < 2 ^ 64 → load (store_table m a l) (a + 8 * Z.of_nat k) 8 = bits e.
Proof.
  revert m a k. induction l as [|x l IH]; intros m a [|k] Hk Hb; [done|done|..]; cbn [store_table].
  - injection Hk as ->. rewrite (load_ext _ (store m a 8 (bits e))).
    + rewrite Z.add_0_r. by apply load_store_eq.
    + intros i Hi. apply store_table_out. lia.
  - replace (a + 8 * Z.of_nat (S k)) with (a + 8 + 8 * Z.of_nat k) by lia. by apply IH.
Qed.

Lemma code_bits : bits (create_code_entry 0) = 0x00209A0000000000.
Proof. reflexivity. Qed.

Lemma data_bits : bits (create_data_entry 0) = 0x0000920000000000.
Proof. reflexivity. Qed.

Lemma tss_low_bits base limit :
  0 ≤ base < 2 ^ 32 → bits (create_tss_entry_low base limit) =
  limit + 2 ^ 16 * (base mod 2 ^ 24) + 2 ^ 40 * 0x89 + 2 ^ 56 * (base / 2 ^ 24).
Proof.
  intros Hb. unfold bits, create_tss_entry_low. cbn [limit_low base_low base_middle base_high access flags_limit_high].
  change 0xFFFF with (Z.ones 16). change 0xFF with (Z.ones 8).
  rewrite !Z.land_ones, !Z.shiftr_div_pow2 by lia. unfold wrap. rewrite !Zmod_mod.
  change (2 ^ 8) with 256. change (2 ^ 16) with 65536. change (2 ^ 24) with 16777216. dlia.
Qed.

Lemma tss_high_bits base : 0 ≤ base < 2 ^ 32 → bits (create_tss_entry_high base) = 0.
Proof.
  intros Hb. unfold bits, create_tss_entry_high. cbn [limit_low base_low base_middle base_high access flags_limit_high].
  rewrite !Z.shiftr_div_pow2 by lia. rewrite !Z.div_small by lia. reflexivity.
Qed.

(** The first bytes of a stored value. *)
Lemma load_store_low m a n k v :
  (k ≤ n)%nat → load (store m a n v) a k = v mod 256 ^ Z.of_nat k.
Proof.
  revert m a k v. induction n as [|n IH]; intros m a [|k] v Hk; [by rewrite Z.mod_1_r|lia|by rewrite Z.mod_1_r|].
  cbn [load store]. rewrite rd_store_out, rd_wr_eq, IH by lia.
  rewrite Nat2Z.inj_succ, Z.pow_succ_r by lia. rewrite Z.rem_mul_r by lia. lia.
Qed.

Lemma load_split m a n k : load m a (n + k) = load m a n + 256 ^ Z.of_nat n * load m (a + Z.of_nat n) k.
Proof.
  revert a. induction n as [|n IH]; intros a; cbn [load Nat.add].
  - rewrite Z.add_0_r. change (256 ^ Z.of_nat 0) with 1. lia.
  - rewrite IH, Nat2Z.inj_succ, Z.pow_succ_r by lia.
    replace (a + 1 + Z.of_nat n) with (a + Z.succ (Z.of_nat n)) by lia. lia.
Qed.

(** ** The processor after [init] *)

Section Init.
Context (p4 gdt_addr tss_addr stack_top return_ : Z) (m : mem) (c : Cpu).

(** Where the statics and the stack are: in the gigabyte boot.asm maps, apart from
    the page tables and from each other. *)
Record placed : Prop := {
  p4_place : 0 < p4 ∧ p4 + 0x3000 ≤ 0x500000 ∧ p4 mod PAGE_SIZE = 0;
  gdt_place : p4 + 0x3000 ≤ gdt_addr ∧ gdt_addr + 56 ≤ tss_addr;
  stack_place : tss_addr + 112 ≤ sp c - 16 ∧ sp c ≤ 2 ^ 30;
  return_place : 0 ≤ return_ < 2 ^ 30;
  stack_top_64 : 0 ≤ stack_top < 2 ^ 64;
  tables_mapped : boot_mapped p4 (p4 + 0x1000) (p4 + 0x2000) m;
  tables_used : cr3 c = p4;
  long_mode : Z.testbit (efer c) LMA = true
}.

Context (P : placed).

(** A memory in which the page tables are still the ones of boot.asm. *)
Lemma linear_low m' c' a :
  (∀ x, p4 ≤ x < p4 + 0x3000 → rd m' x = rd m x) → cr3 c' = p4 → 0 ≤ a < 2 ^ 30 → linear m' c' a = Some a.
Proof.
  intros Hm Hc Ha. destruct P as [H1 H2 H3 H4 H5 H6 H7 H8]. unfold linear. destruct (Z.testbit (cr0 c') PG); [|done]. rewrite Hc.
  rewrite (boot_translate p4 (p4 + 0x1000) (p4 + 0x2000)); [|lia|lia|tauto|done|done| |lia].
  - by rewrite (proj2 (Z.ltb_lt _ _)) by lia.
  - apply (boot_mapped_ext p4 (p4 + 0x1000) (p4 + 0x2000) eq_refl eq_refl m); [exact H6|]. intros x Hx. apply Hm. lia.
Qed.

Lemma init_memory_out x :
  ¬ (gdt_addr ≤ x < gdt_addr + 56) → ¬ (tss_addr ≤ x < tss_addr + 112) →
  rd (init_memory m gdt_addr tss_addr stack_top) x = rd m x.
Proof.
  intros H1 H2. unfold init_memory. cbn [Gdt.init]. rewrite !rd_store_out by (vm_compute (offset _); cbn; lia).
  apply store_table_out. cbn [length]. lia.
Qed.

Lemma init_memory_pad x :
  gdt_addr + 56 ≤ tss_addr → tss_addr ≤ x < tss_addr + 8 → rd (init_memory m gdt_addr tss_addr stack_top) x = rd m x.
Proof.
  intros H1 H2. unfold init_memory. cbn [Gdt.init]. rewrite !rd_store_out by (vm_compute (offset _); cbn; lia).
  apply store_table_out. cbn [length]. lia.
Qed.

Lemma init_memory_stack :
  load (init_memory m gdt_addr tss_addr stack_top) (tss_addr + 8) 4 = stack_top mod 2 ^ 32.
Proof.
  unfold init_memory. cbn [Gdt.init set_kernel_stack rsp nth insert list_insert TSS replicate].
  change (offset 1) with 8. change (offset 6) with 106.
  rewrite (load_ext _ (store (store_table m gdt_addr (Gdt.init tss_addr stack_top).1.1) (tss_addr + 8) 8 stack_top)).
  - by rewrite load_store_low by lia.
  - intros i Hi. apply rd_store_out. cbn. lia.
Qed.

(** What the statics hold. *)
Lemma init_memory_holds :
  let m1 := init_memory m gdt_addr tss_addr stack_top in
  load m1 (gdt_addr + 0x08) 8 = 0x00209A0000000000 ∧ load m1 (gdt_addr + 0x10) 8 = 0x0000920000000000 ∧
  load m1 (gdt_addr + 0x28) 8 = bits (create_tss_entry_low tss_addr 111) ∧ load m1 (gdt_addr + 0x30) 8 = 0 ∧
  load m1 (tss_addr + 8) 8 = stack_top.
Proof.
  destruct P as [H1 H2 H3 H4 H5 H6 H7 H8]. intros m1.
  assert (Hg : ∀ k e, (Gdt.init tss_addr stack_top).1.1 !! k = Some e → 0 ≤ bits e < 2 ^ 64 →
                 load m1 (gdt_addr + 8 * Z.of_nat k) 8 = bits e).
  { intros k e Hk Hb. rewrite <- (store_table_load m gdt_addr _ k e Hk Hb). apply load_ext. intros i Hi.
    apply lookup_lt_Some in Hk. cbn [Gdt.init fst length] in Hk. unfold m1, init_memory. cbn [Gdt.init].
    rewrite !rd_store_out by (vm_compute (offset _); cbn; lia). done. }
  assert (Hlow : 0 ≤ bits (create_tss_entry_low tss_addr 111) < 2 ^ 64).
  { rewrite tss_low_bits by lia. change (2 ^ 24) with 16777216. dlia. }
  split; [apply (Hg 1%nat (create_code_entry 0)); [done|rewrite code_bits; lia]|].
  split; [apply (Hg 2%nat (create_data_entry 0)); [done|rewrite data_bits; lia]|].
  split; [by apply (Hg 5%nat (create_tss_entry_low tss_addr 111))|].
  split; [rewrite <- (tss_high_bits tss_addr) by lia; apply (Hg 6%nat (create_tss_entry_high tss_addr)); [done|rewrite tss_high_bits; lia]|].
  unfold m1, init_memory. cbn [Gdt.init set_kernel_stack rsp nth insert list_insert TSS replicate].
  change (offset 1) with 8. change (offset 6) with 106.
  rewrite (load_ext _ (store (store_table m gdt_addr (Gdt.init tss_addr stack_top).1.1) (tss_addr + 8) 8 stack_top)).
  - rewrite load_store_eq by (cbn; lia). done.
  - intros i Hi. apply rd_store_out. cbn. lia.
Qed.

(** The memory when the segment registers are loaded. *)
Definition reloading : mem :=
  store (store (init_memory m gdt_addr tss_addr stack_top) (sp c - 8) 8 0x08) (sp c - 16) 8 return_.

Lemma reloading_low x :
  x < sp c - 16 → rd reloading x = rd (init_memory m gdt_addr tss_addr stack_top) x.
Proof. intros Hx. unfold reloading. by rewrite !rd_store_out by (cbn; lia). Qed.

Lemma linear_reloading c' a : cr3 c' = p4 → 0 ≤ a < 2 ^ 30 → linear reloading c' a = Some a.
Proof.
  destruct P as [H1 H2 H3 H4 H5 H6 H7 H8]. intros Hc Ha. apply linear_low; [|done|done]. intros x Hx.
  rewrite reloading_low by lia. apply init_memory_out; lia.
Qed.

Lemma descriptor_reloading c' sel :
  cr3 c' = p4 → gdtr c' = (gdt_addr, 55) → 0 ≤ sel ≤ 48 →
  descriptor reloading c' sel = Some (load (init_memory m gdt_addr tss_addr stack_top) (gdt_addr + sel) 8).
Proof.
  destruct P as [H1 H2 H3 H4 H5 H6 H7 H8]. intros Hc Hg Hs. unfold descriptor. rewrite Hg. cbn [fst snd].
  rewrite (proj2 (Z.leb_le _ _)) by lia. rewrite linear_reloading by (done || lia). cbn [mbind option_bind].
  f_equal. apply load_ext. intros x Hx. apply reloading_low. lia.
Qed.

Lemma reload_segments_loads c1 :
  c1 = with_gdtr (gdt_addr, 55) c →
  reload_segments return_ (init_memory m gdt_addr tss_addr stack_top) c1 =
  Some (reloading, set_all_data 0x10 (with_code 0x08 true false return_ c1)).
Proof.
  intros E1. destruct init_memory_holds as (Hcode & Hdata & _).
  destruct P as [H1 H2 H3 H4 H5 H6 H7 H8].
  assert (Hsp : sp c1 = sp c) by (by rewrite E1). assert (Hcr : cr3 c1 = p4) by (by rewrite E1).
  assert (Hgd : gdtr c1 = (gdt_addr, 55)) by (by rewrite E1). assert (Hef : efer c1 = efer c) by (by rewrite E1).
  unfold reload_segments. rewrite Hsp.
  rewrite linear_low; [|intros x Hx; apply init_memory_out; lia|done|lia]. cbn [mbind option_bind].
  rewrite linear_low; [|intros x Hx; rewrite rd_store_out by (cbn; lia); apply init_memory_out; lia|done|lia].
  cbn [mbind option_bind]. fold reloading.
  assert (L1 : load reloading (sp c - 16) 8 = return_) by (unfold reloading; apply load_store_eq; cbn; lia).
  assert (L2 : load reloading (sp c - 8) 8 = 8).
  { unfold reloading. rewrite (load_ext _ (store (init_memory m gdt_addr tss_addr stack_top) (sp c - 8) 8 8)).
    - apply load_store_eq. cbn. lia.
    - intros x Hx. apply rd_store_out. cbn. lia. }
  rewrite L1, L2. change (wrap 16 8) with 8.
  unfold far_jump. rewrite descriptor_reloading by (done || lia). cbn [mbind option_bind]. rewrite Hcode.
  change (long_code 0x00209A0000000000) with true. change (default_32 0x00209A0000000000) with false.
  change (present 0x00209A0000000000 && code_or_data 0x00209A0000000000 && executable 0x00209A0000000000 &&
          negb (true && false)) with true. cbn [andb].
  rewrite linear_reloading by (done || lia). cbn [mbind option_bind]. rewrite Hef, H8.
  unfold load_segments. rewrite descriptor_reloading; [|by destruct c1|by destruct c1|lia]. cbn [mbind option_bind].
  rewrite Hdata. reflexivity.
Qed.

(** The descriptor of the task state segment. *)
Lemma tss_descriptor d :
  0 ≤ tss_addr < 2 ^ 30 → d = bits (create_tss_entry_low tss_addr 111) →
  present d = true ∧ code_or_data d = false ∧ Z.land (Z.shiftr d 40) 0xF = 9 ∧ 0 ≤ d < 2 ^ 64 ∧
  Z.land (Z.shiftr d 16) 0xFFFFFF + 2 ^ 24 * Z.land (Z.shiftr d 56) 0xFF = tss_addr ∧
  Z.land d 0xFFFF + 2 ^ 16 * Z.land (Z.shiftr d 48) 0xF = 111.
Proof.
  intros Ht ->. rewrite tss_low_bits by lia. unfold present, code_or_data.
  change 0xFFFFFF with (Z.ones 24). change 0xFFFF with (Z.ones 16). change 0xFF with (Z.ones 8). change 0xF with (Z.ones 4).
  rewrite !Z.land_ones, !Z.shiftr_div_pow2 by lia. rewrite Z.testbit_true, Z.testbit_false by lia.
  change (2 ^ 4) with 16. change (2 ^ 8) with 256. change (2 ^ 16) with 65536. change (2 ^ 24) with 16777216.
  change (2 ^ 40) with 1099511627776. change (2 ^ 44) with 17592186044416. change (2 ^ 47) with 140737488355328.
  change (2 ^ 48) with 281474976710656. change (2 ^ 56) with 72057594037927936.
  change (2 ^ 64) with 18446744073709551616. change (2 ^ 30) with 1073741824 in Ht.
  assert (0 ≤ tss_addr / 16777216 < 64) by dlia. pose proof (Z.mod_pos_bound tss_addr 16777216 ltac:(lia)) as Hm.
  pose proof (Z.div_mod tss_addr 16777216 ltac:(lia)) as Ed.
  set (q := tss_addr / 16777216) in *. set (r := tss_addr mod 16777216) in *. clearbody q r.
  split_and!; dlia.
Qed.

(** The processor goes on behind the far return in the 64-bit code segment 0x08,
    with 0x10 in all the other segment registers and the task state segment loaded. *)
Lemma init_loads c' :
  c' = set_all_data 0x10 (with_code 0x08 true false return_ (with_gdtr (gdt_addr, 55) c)) →
  ∃ m', init gdt_addr tss_addr stack_top return_ m c = Some (m', c', mkTr 0x28 tss_addr 111) ∧
    (∀ x, ¬ (gdt_addr + 0x28 ≤ x < gdt_addr + 0x30) → ¬ (sp c - 16 ≤ x < sp c) →
       rd m' x = rd (init_memory m gdt_addr tss_addr stack_top) x).
Proof.
  intros Ec'. destruct init_memory_holds as (_ & _ & Hlow & Hhigh & _).
  destruct P as [H1 H2 H3 H4 H5 H6 H7 H8].
  assert (Hcr : cr3 c' = p4) by (by rewrite Ec'). assert (Hgd : gdtr c' = (gdt_addr, 55)) by (by rewrite Ec').
  unfold init. change (Gdt.init tss_addr stack_top).1.2 with 55. rewrite (reload_segments_loads _ eq_refl), <- Ec'.
  cbn [mbind option_bind fst snd]. unfold ltr. rewrite Hgd. cbn [fst snd]. change (0x28 + 15 <=? 55) with true. cbn iota.
  rewrite !linear_reloading by (done || lia). cbn [mbind option_bind].
  rewrite (load_ext reloading (init_memory m gdt_addr tss_addr stack_top)) by (intros x Hx; apply reloading_low; lia).
  rewrite (load_ext reloading (init_memory m gdt_addr tss_addr stack_top) (gdt_addr + 40 + 8))
    by (intros x Hx; apply reloading_low; lia).
  replace (gdt_addr + 40 + 8) with (gdt_addr + 48) by lia. rewrite Hhigh, Hlow.
  remember (bits (create_tss_entry_low tss_addr 111)) as d eqn:Ed.
  destruct (tss_descriptor d ltac:(lia) Ed) as (-> & -> & -> & _ & Eb & ->). cbn [negb andb Z.eqb Pos.eqb].
  rewrite Eb. rewrite Z.land_0_l, Z.mul_0_r, Z.add_0_r. cbn [mbind option_bind fst snd].
  eexists. split; [reflexivity|]. intros x Hx Hy. rewrite rd_store_out by (cbn; lia).
  unfold reloading. by rewrite !rd_store_out by (cbn; lia).
Qed.
End Init.

(** [gdt::init] runs without a fault on the tables and in the mode boot.asm leaves:
    the far return goes on in the 64-bit code segment 0x08, every other segment
    register holds 0x10, the task register the task state segment with its limit, and
    no byte outside the two statics and the two words pushed changes.  The stack
    pointer the processor takes from that segment, four bytes in front of the field
    the kernel sets, is not the kernel's stack but its low half shifted up. *)
Lemma gdt_init_loads p4 gdt_addr tss_addr stack_top return_ m c
    (P : placed p4 gdt_addr tss_addr stack_top return_ m c)
    (Hpad : ∀ x, tss_addr + 4 ≤ x < tss_addr + 8 → rd m x = 0) :
  ∃ m' c', init gdt_addr tss_addr stack_top return_ m c = Some (m', c', mkTr 0x28 tss_addr 111) ∧
    cs c' = 0x08 ∧ cs_long c' = true ∧ cs_32 c' = false ∧ ip c' = return_ ∧ sp c' = sp c ∧
    ds c' = 0x10 ∧ es c' = 0x10 ∧ fs c' = 0x10 ∧ gs c' = 0x10 ∧ ss c' = 0x10 ∧ gdtr c' = (gdt_addr, 55) ∧
    (∀ x, ¬ (gdt_addr ≤ x < gdt_addr + 56) → ¬ (tss_addr ≤ x < tss_addr + 112) →
          ¬ (sp c - 16 ≤ x < sp c) → rd m' x = rd m x) ∧
    load m' (gdt_addr + 0x08) 8 = 0x00209A0000000000 ∧ load m' (tss_addr + 8) 8 = stack_top ∧
    privilege_stack m' (mkTr 0x28 tss_addr 111) = 2 ^ 32 * (stack_top mod 2 ^ 32).
Proof.
  destruct (init_loads _ _ _ _ _ _ _ P _ eq_refl) as (m' & E & Hf). eexists m', _. split; [exact E|].
  do 11 (split; [by destruct c|]). destruct (init_memory_holds _ _ _ _ _ _ _ P) as (Hcode & _ & _ & _ & Hst).
  destruct P as [H1 H2 H3 H4 H5 H6 H7 H8]. set (m1 := init_memory m gdt_addr tss_addr stack_top) in *.
  assert (Htss : ∀ x, tss_addr ≤ x < tss_addr + 112 → rd m' x = rd m1 x) by (intros x Hx; apply Hf; lia).
  split; [|split; [|split]].
  - intros x Hx Hy Hz. rewrite Hf by lia. by apply init_memory_out.
  - rewrite (load_ext m' m1) by (intros x Hx; apply Hf; lia). exact Hcode.
  - rewrite (load_ext m' m1) by (intros x Hx; apply Htss; lia). exact Hst.
  - unfold privilege_stack. cbn [tr_base]. rewrite (load_ext m' m1) by (intros x Hx; apply Htss; lia).
    change 8%nat with (4 + 4)%nat. rewrite load_split. change (Z.of_nat 4) with 4.
    replace (tss_addr + 4 + 4) with (tss_addr + 8) by lia. unfold m1.
    rewrite init_memory_stack by lia. rewrite (load_ext _ m (tss_addr + 4) 4).
    + by replace (load m (tss_addr + 4) 4) with 0 by (cbn [load]; rewrite !Hpad by lia; done).
    + intros x Hx. apply init_memory_pad; lia.
Qed.


(** ** The interrupt table *)

(** A gate in memory: the fields of [IdtEntry], packed into two words. *)
Definition gate_low (e : Idt.IdtEntry) : Z :=
  Idt.offset_low e + 2 ^ 16 * Idt.selector e + 2 ^ 32 * Idt.ist e + 2 ^ 40 * Idt.attributes e +
  2 ^ 48 * Idt.offset_middle e.
Definition gate_high (e : Idt.IdtEntry) : Z := Idt.offset_high e + 2 ^ 32 * Idt.reserved e.

(** The static [IDT]. *)
Fixpoint store_gates (m : mem) (a : Z) (l : list Idt.IdtEntry) : mem :=
  match l with
  | [] => m
  | e :: l => store_gates (store (store m a 8 (gate_low e)) (a + 8) 8 (gate_high e)) (a + 16) l
  end.

(** [idt::init]: the memory, and the base and limit [lidt] loads. *)
Definition idt_init (isr : Z → Z) (timer_isr spurious_isr idt_addr : Z) (m : mem) : mem * (Z * Z) :=
  let '(idt, (limit, base)) := Idt.init isr timer_isr spurious_isr idt_addr in
  (store_gates m base idt, (base, limit)).

(** The processor takes interrupt [vector], by [int] at level [cpl] when [int_n];
    whether interrupts are off in the handler.  [None] is a fault. *)
Definition enter (m : mem) (idtr : Z * Z) (vector : Z) (int_n : bool) (cpl : Z) (c : Cpu)
    : option (Cpu * bool) :=
  if 16 * vector + 15 <=? idtr.2 then
    a ← linear m c (idtr.1 + 16 * vector);
    b ← linear m c (idtr.1 + 16 * vector + 8);
    let lo := load m a 8 in
    let hi := load m b 8 in
    let type := Z.land (Z.shiftr lo 40) 0x1F in
    let dpl := Z.land (Z.shiftr lo 45) 3 in
    if present lo && ((type =? 0xE) || (type =? 0xF)) && negb (int_n && (dpl <? cpl)) then
      c ← far_jump m (Z.land (Z.shiftr lo 16) 0xFFFF)
            (Z.land lo 0xFFFF + 2 ^ 16 * Z.land (Z.shiftr lo 48) 0xFFFF + 2 ^ 32 * Z.land hi 0xFFFFFFFF) c;
      Some (c, type =? 0xE)
    else None
  else None.

Lemma store_gates_out m a l b :
  b < a ∨ a + 16 * Z.of_nat (length l) ≤ b → rd (store_gates m a l) b = rd m b.
Proof.
  revert m a. induction l as [|e l IH]; intros m a Hb; [done|]. cbn [store_gates length] in *.
  rewrite IH by lia. by rewrite !rd_store_out by (cbn; lia).
Qed.

Lemma store_gates_load m a l k e :
  l !! k = Some e → 0 ≤ gate_low e < 2 ^ 64 → 0 ≤ gate_high e < 2 ^ 64 →
  load (store_gates m a l) (a + 16 * Z.of_nat k) 8 = gate_low e ∧
  load (store_gates m a l) (a + 16 * Z.of_nat k + 8) 8 = gate_high e.
Proof.
  revert m a k. induction l as [|x l IH]; intros m a [|k] Hk H1 H2; [done|done|..]; cbn [store_gates].
  - injection Hk as ->. rewrite Z.add_0_r. set (m1 := store (store m a 8 (gate_low e)) (a + 8) 8 (gate_high e)).
    rewrite !(load_ext (store_gates m1 (a + 16) l) m1) by (intros i Hi; apply store_gates_out; lia). unfold m1. split.
    + rewrite (load_ext _ (store m a 8 (gate_low e))) by (intros i Hi; apply rd_store_out; cbn; lia).
      by apply load_store_eq.
    + by apply load_store_eq.
  - replace (a + 16 * Z.of_nat (S k)) with (a + 16 + 16 * Z.of_nat k) by lia. by apply IH.
Qed.

(** The gates the kernel makes. *)
Record gate_ok (e : Idt.IdtEntry) : Prop := {
  low_ok : 0 ≤ Idt.offset_low e < 2 ^ 16;
  middle_ok : 0 ≤ Idt.offset_middle e < 2 ^ 16;
  high_ok : 0 ≤ Idt.offset_high e < 2 ^ 32;
  rest_ok : Idt.ist e = 0 ∧ Idt.reserved e = 0;
  kind_ok : (Idt.attributes e = 0 ∧ Idt.selector e = 0) ∨
            ((Idt.attributes e = 0x8E ∨ Idt.attributes e = 0xEF) ∧ Idt.selector e = 8)
}.

Lemma set_handler_ok idt v h a :
  Forall gate_ok idt → a = Idt.kernel_gate ∨ a = Idt.user_gate → Forall gate_ok (Idt.set_handler idt v h a).
Proof.
  intros Hl Ha. unfold Idt.set_handler. destruct (_ <=? v); [done|]. apply Forall_insert; [done|].
  split; cbn [Idt.offset_low Idt.offset_middle Idt.offset_high Idt.ist Idt.reserved Idt.attributes Idt.selector];
    try apply wrap_bounds; try lia.
  right. split; [|done]. by destruct Ha as [-> | ->]; [left|right].
Qed.

Lemma init_gates_ok isr timer spurious : Forall gate_ok (Idt.init_gates isr timer spurious).
Proof.
  unfold Idt.init_gates. cbv zeta.
  do 2 (apply set_handler_ok; [|by auto]).
  apply (for_each_rule (λ _ l, Forall gate_ok l)); [lia| |intros i l _ Hl; apply set_handler_ok; by auto].
  apply set_handler_ok; [|by auto].
  apply (for_each_rule (λ _ l, Forall gate_ok l)); [lia| |intros i l _ Hl; apply set_handler_ok; by auto].
  apply Forall_replicate. split; cbn; lia || by left.
Qed.

(** What a gate leads to. *)
Lemma gate_fields e lo hi :
  gate_ok e → lo = gate_low e → hi = gate_high e →
  0 ≤ lo < 2 ^ 64 ∧ 0 ≤ hi < 2 ^ 64 ∧
  present lo = negb (Idt.attributes e =? 0) ∧
  (Idt.attributes e ≠ 0 →
   Z.land (Z.shiftr lo 40) 0x1F = (if Idt.attributes e =? 0x8E then 0xE else 0xF) ∧
   Z.land (Z.shiftr lo 45) 3 = (if Idt.attributes e =? 0x8E then 0 else 3) ∧
   Z.land (Z.shiftr lo 16) 0xFFFF = 8) ∧
  Z.land lo 0xFFFF + 2 ^ 16 * Z.land (Z.shiftr lo 48) 0xFFFF + 2 ^ 32 * Z.land hi 0xFFFFFFFF = Idt.gate_offset e.
Proof.
  intros [H1 H2 H3 [H4 H5] H6] -> ->. unfold gate_low, gate_high, Idt.gate_offset, present. rewrite H4, H5.
  change 0xFFFFFFFF with (Z.ones 32). change 0xFFFF with (Z.ones 16). change 0x1F with (Z.ones 5). change 3 with (Z.ones 2).
  rewrite !Z.land_ones, !Z.shiftr_div_pow2, !Z.shiftl_mul_pow2 by lia. rewrite Z.testbit_eqb by lia.
  destruct H6 as [[-> ->]|[[-> | ->] ->]]; cbn [Z.eqb Pos.eqb negb];
    change (Z.ones 2) with 3;
    repeat match goal with |- context [2 ^ ?k] => let v := eval vm_compute in (2 ^ k) in change (2 ^ k) with v end;
    repeat match goal with H : context [2 ^ ?k] |- _ => let v := eval vm_compute in (2 ^ k) in change (2 ^ k) with v in H end;
    split_and!; try lia; try (intros _; split_and!); try dlia; try (intros ?; done); try (apply Z.eqb_neq; dlia); try (apply Z.eqb_eq; dlia).
Qed.

Lemma enter_gate m c idt_addr gdt_addr v int_n cpl e :
  gate_ok e → 0 ≤ v < 256 → gdtr c = (gdt_addr, 55) → Z.testbit (efer c) LMA = true →
  load m (idt_addr + 16 * v) 8 = gate_low e → load m (idt_addr + 16 * v + 8) 8 = gate_high e →
  load m (gdt_addr + 8) 8 = 0x00209A0000000000 →
  (∀ a, a = gdt_addr + 8 ∨ idt_addr ≤ a < idt_addr + 4096 ∨ (Idt.attributes e ≠ 0 ∧ a = Idt.gate_offset e) →
     linear m c a = Some a) →
  enter m (idt_addr, 4095) v int_n cpl c =
  if Idt.attributes e =? 0 then None
  else if int_n && ((if Idt.attributes e =? 0x8E then 0 else 3) <? cpl) then None
  else Some (with_code 0x08 true false (Idt.gate_offset e) c, Idt.attributes e =? 0x8E).
Proof.
  intros He Hv Hg Hlma L1 L2 Hcode Hlin.
  destruct (gate_fields e _ _ He eq_refl eq_refl) as (_ & _ & Hp & Hf & Ho).
  unfold enter. cbn [fst snd]. rewrite (proj2 (Z.leb_le _ _)) by lia.
  rewrite !Hlin by lia. cbn [mbind option_bind]. rewrite L1, L2, Hp, Ho.
  destruct (Z.eqb_spec (Idt.attributes e) 0) as [|Hne]; [done|]. destruct (Hf Hne) as (-> & -> & ->). cbn [negb andb].
  replace (((if Idt.attributes e =? 142 then 14 else 15) =? 14) || ((if Idt.attributes e =? 142 then 14 else 15) =? 15))
    with true by (by destruct (Idt.attributes e =? 142)).
  cbn [andb]. destruct (int_n && _); [done|]. cbn [negb].
  assert (Ej : far_jump m 8 (Idt.gate_offset e) c = Some (with_code 8 true false (Idt.gate_offset e) c)).
  { unfold far_jump, descriptor. rewrite Hg. cbn [fst snd]. change (8 + 7 <=? 55) with true. cbn iota.
    rewrite (Hlin (gdt_addr + 8)) by auto. cbn [mbind option_bind]. rewrite Hcode.
    change (long_code 0x00209A0000000000) with true. change (default_32 0x00209A0000000000) with false.
    change (present 0x00209A0000000000 && code_or_data 0x00209A0000000000 && executable 0x00209A0000000000 &&
            negb (true && false)) with true. cbn [andb].
    rewrite (Hlin (Idt.gate_offset e)) by auto. cbn [mbind option_bind]. by rewrite Hlma. }
  rewrite Ej. cbn [mbind option_bind]. by destruct (Idt.attributes e =? 142).
Qed.

(** The handler a vector is to lead to, and its level: 3 for system calls. *)
Definition handler_of (isr : Z → Z) (timer_isr spurious_isr v : Z) : option (Z * Z) :=
  if v <? 32 then Some (isr v, 0)
  else if v =? 32 then Some (timer_isr, 0)
  else if v <? 48 then Some (isr (v - 1), 0)
  else if v =? 0x80 then Some (isr 128, 3)
  else if v =? 0xFF then Some (spurious_isr, 0)
  else None.

(** Where the interrupt table is. *)
Record idt_placed (p4 gdt_addr tss_addr idt_addr : Z) : Prop := {
  idt_low : 0 ≤ idt_addr ∧ idt_addr + 4096 ≤ 2 ^ 30;
  idt_tables : idt_addr + 4096 ≤ p4 ∨ p4 + 0x3000 ≤ idt_addr;
  idt_gdt : idt_addr + 4096 ≤ gdt_addr ∨ gdt_addr + 56 ≤ idt_addr;
  idt_tss : idt_addr + 4096 ≤ tss_addr ∨ tss_addr + 112 ≤ idt_addr
}.

(** C39. After [gdt::init] and [idt::init], which run without a fault, the processor
    finds through both tables, from whatever code it interrupts, the handler of every
    vector the kernel sets: the stub of the vector for exceptions, the timer, the
    stub one below for the other hardware interrupts, the system call and the spurious
    handler.  It enters it in the 64-bit segment 0x08, with interrupts off except for
    a system call, which alone can be made from user mode; every other vector is a
    fault.  But the stack it would take from the task state segment is not the
    kernel's: the low half of that address, shifted up. *)
Theorem tables_dispatch p4 gdt_addr tss_addr idt_addr stack_top return_ m c isr timer_isr spurious_isr
    (P : placed p4 gdt_addr tss_addr stack_top return_ m c) (Q : idt_placed p4 gdt_addr tss_addr idt_addr)
    (Hpad : ∀ x, tss_addr + 4 ≤ x < tss_addr + 8 → rd m x = 0)
    (Hisr : ∀ i, 0 ≤ isr i < 2 ^ 30) (Ht : 0 ≤ timer_isr < 2 ^ 30) (Hs : 0 ≤ spurious_isr < 2 ^ 30) :
  ∃ m1 c1 t, init gdt_addr tss_addr stack_top return_ m c = Some (m1, c1, t) ∧
    let '(m2, idtr) := idt_init isr timer_isr spurious_isr idt_addr m1 in
    (∀ m' c', (∀ x, (p4 ≤ x < p4 + 0x3000) ∨ (gdt_addr ≤ x < gdt_addr + 56) ∨ (idt_addr ≤ x < idt_addr + 4096) →
                  rd m' x = rd m2 x) →
       cr3 c' = cr3 c1 → gdtr c' = gdtr c1 → efer c' = efer c1 →
     ∀ v int_n cpl, 0 ≤ v < 256 → 0 ≤ cpl ≤ 3 →
       enter m' idtr v int_n cpl c' =
       match handler_of isr timer_isr spurious_isr v with
       | Some (h, level) =>
           if int_n && (level <? cpl) then None else Some (with_code 0x08 true false h c', level =? 0)
       | None => None
       end) ∧
    privilege_stack m2 t = 2 ^ 32 * (stack_top mod 2 ^ 32).
Proof.
  destruct (gdt_init_loads _ _ _ _ _ _ _ P Hpad) as (m1 & c1 & E & _ & _ & _ & _ & _ & _ & _ & _ & _ & _ & Hg & Hfr & Hcode & _ & Hps).
  assert (Hc1 : cr3 c1 = p4 ∧ Z.testbit (efer c1) LMA = true).
  { destruct (init_loads _ _ _ _ _ _ _ P _ eq_refl) as (m1' & E' & _). rewrite E in E'. injection E' as _ ->.
    split; [apply (tables_used _ _ _ _ _ _ _ P)|apply (long_mode _ _ _ _ _ _ _ P)]. }
  destruct Hc1 as [Hcr Hlma]. exists m1, c1, (mkTr 0x28 tss_addr 111). split; [exact E|].
  unfold idt_init, Idt.init. pose proof (init_gates_ok isr timer_isr spurious_isr) as Hok.
  pose proof (λ v, Idt.idt_gates isr timer_isr spurious_isr idt_addr v) as Hgates. unfold Idt.init in Hgates. cbn [fst] in Hgates.
  assert (Hlen : length (Idt.init_gates isr timer_isr spurious_isr) = 256%nat) by (vm_compute; reflexivity).
  set (idt := Idt.init_gates isr timer_isr spurious_isr) in *. clearbody idt. rewrite Hlen.
  change (wrap 16 (Z.of_nat 256 * 16 - 1)) with 4095.
  destruct Q as [Q1 Q2 Q3 Q4]. pose proof P as [H1 H2 H3 H4 H5 H6 H7 H8].
  assert (Hout : ∀ x, ¬ (idt_addr ≤ x < idt_addr + 4096) → rd (store_gates m1 idt_addr idt) x = rd m1 x)
    by (intros x Hx; apply store_gates_out; rewrite Hlen; lia).
  split.
  - intros m' c' Hm' Ecr Egd Eef v int_n cpl Hv Hcpl. rewrite Hcr in Ecr. rewrite Hg in Egd. rewrite <- Eef in Hlma.
    destruct (lookup_lt_is_Some_2 idt (Z.to_nat v)) as [e He]; [lia|].
    pose proof (proj1 (Forall_lookup _ _) Hok _ _ He) as Hge.
    specialize (Hgates v ltac:(intros i; specialize (Hisr i); lia) ltac:(lia) ltac:(lia) Hv).
    unfold Idt.gate in Hgates. rewrite He in Hgates. cbn [mbind option_bind] in Hgates.
    assert (Hoff : Idt.attributes e ≠ 0 → 0 ≤ Idt.gate_offset e < 2 ^ 30).
    { intros Hne. rewrite (proj2 (Z.eqb_neq _ _)) in Hgates by done.
      pose proof (Hisr v). pose proof (Hisr (v - 1)). pose proof (Hisr 128).
      repeat match type of Hgates with _ = (if ?b then _ else _) => destruct b end; injection Hgates as -> _ || done; lia. }
    destruct (gate_fields e _ _ Hge eq_refl eq_refl) as (B1 & B2 & _).
    destruct (store_gates_load m1 idt_addr idt (Z.to_nat v) e He B1 B2) as [L1 L2]. rewrite Z2Nat.id in L1, L2 by lia.
    rewrite (enter_gate m' c' idt_addr gdt_addr v int_n cpl e); [|done|done|done|done|..].
    + unfold handler_of. destruct (Idt.attributes e =? 0).
      { repeat match type of Hgates with _ = (if ?b then _ else _) => destruct b end; done. }
      repeat match type of Hgates with _ = (if ?b then _ else _) => destruct b end;
        try discriminate Hgates; injection Hgates as -> ->; done.
    + rewrite <- L1. apply load_ext. intros x Hx. apply Hm'. lia.
    + rewrite <- L2. apply load_ext. intros x Hx. apply Hm'. lia.
    + rewrite <- Hcode. apply load_ext. intros x Hx. rewrite Hm' by lia. apply Hout. lia.
    + intros a Ha. apply (linear_low _ _ _ _ _ _ _ P); [|done|].
      * intros x Hx. rewrite Hm', Hout by lia. apply Hfr; lia.
      * destruct Ha as [-> |[Ha|[Hne ->]]]; [lia|lia|by apply Hoff].
  - unfold privilege_stack. rewrite (load_ext _ m1) by (intros x Hx; apply Hout; cbn in Hx; lia). exact Hps.
Qed.


Lemma tables_dispatch_witness :
  let m := setup_page_tables ∅ 0x200000 0x201000 0x202000 in
  let c := mkCpu 0x80000011 0x200000 0x20 0x500 (0x100000, 23) 8 true false 16 16 16 16 16 0x400000 0 0 0x101000 in
  let isr := λ i, 0x100000 + 16 * (i mod 256) in
  ∃ m1 c1 t, init 0x300000 0x300040 0x123456 0x101100 m c = Some (m1, c1, t) ∧
    let '(m2, idtr) := idt_init isr 0x102000 0x102100 0x301000 m1 in
    enter m2 idtr 33 false 0 c1 = Some (with_code 0x08 true false 0x100200 c1, true) ∧
    enter m2 idtr 0x80 true 3 c1 = Some (with_code 0x08 true false 0x100800 c1, false) ∧
    enter m2 idtr 3 true 3 c1 = None ∧ enter m2 idtr 0x50 false 0 c1 = None.
Proof.
  intros m c isr.
  assert (Hx : ∀ x, 0x300044 ≤ x < 0x300048 → rd m x = 0).
  { intros x Hx. unfold m. rewrite (setup_frame ∅ 0x200000 0x201000 0x202000 eq_refl eq_refl _ x eq_refl) by lia. done. }
  assert (Hm : boot_mapped 0x200000 (0x200000 + 0x1000) (0x200000 + 0x2000) m)
    by (apply (boot_entries ∅ 0x200000 0x201000 0x202000); done || lia).
  clearbody m.
  assert (Hisr : ∀ i, 0 ≤ isr i < 2 ^ 30) by (intros i; unfold isr; pose proof (Z.mod_pos_bound i 256); lia).
  assert (P : placed 0x200000 0x300000 0x300040 0x123456 0x101100 m c).
  { split; [split; [lia|split; [lia|reflexivity]]|lia|cbn; lia|lia|lia|exact Hm|reflexivity|reflexivity]. }
  destruct (tables_dispatch 0x200000 0x300000 0x300040 0x301000 0x123456 0x101100 m c isr 0x102000 0x102100 P)
    as (m1 & c1 & t & E & H).
  - split; lia.
  - exact Hx.
  - exact Hisr.
  - lia.
  - lia.
  - exists m1, c1, t. split; [exact E|]. destruct (idt_init _ _ _ _ _) as [m2 idtr]. destruct H as [H _].
    specialize (H m2 c1 (λ _ _, eq_refl) eq_refl eq_refl eq_refl).
    split; [exact (H 33 false 0 ltac:(lia) ltac:(lia))|]. split; [exact (H 0x80 true 3 ltac:(lia) ltac:(lia))|].
    split; [exact (H 3 true 3 ltac:(lia) ltac:(lia))|exact (H 0x50 false 0 ltac:(lia) ltac:(lia))].
Defined.

End Segments.
