(* ===== verification/Live.v ===== *)
(** * The running kernel (src/lib.rs, src/interrupts.rs, src/sched)

    Everything together after the boot: the shell's loop, the two interrupt
    handlers, the switches they ask for and the tasks' own writes to memory, as
    one step relation.  Module [Calm] is the part of the scheduler's state that
    signals would change; Module [Live] has the steps, what holds between them,
    and the states they reach from [kernel_main]. *)

From stdpp Require Import base numbers list gmap strings.
From S2P Require Import Prelude Memory Text Pmm Heap Vmm Task Scheduler Console Timer Device Acpi Apic Syscall.
From S2P Require Import Interrupts Switch Shell Boot.
Open Scope Z_scope.

Module Calm.
Import Task Scheduler.

(** No signal is pending for a task, and none was ever delivered. *)
Definition undisturbed (t : Task) : Prop := pending_signals t = 0 ∧ foreground t = Foreground.

Definition calm (s : Scheduler) : Prop := map_Forall (λ _ t, undisturbed t) (arcs s).

Lemma calm_modify h f s : calm s → (∀ t, undisturbed t → undisturbed (f t)) → calm (modify h f s).
Proof.
  intros Hs Hf j t. cbn [arcs modify set_arcs]. destruct (decide (h = j)) as [->|Hne].
  - rewrite lookup_alter_eq. intros (t0 & Ht & ->)%fmap_Some. apply Hf. exact (Hs j t0 Ht).
  - rewrite lookup_alter_ne by done. apply Hs.
Qed.

Lemma pick_calm s : calm s → calm (pick_next_task s).1.
Proof.
  intros Hs. unfold pick_next_task. destruct (ready_queue s); [done|].
  destruct (_ !! _); [|done]. by destruct (state_is s _ Ready).
Qed.

(** A task that is resumed takes the processor. *)
Lemma resume_calm s n : calm s → calm (set_current (Some n) (modify n (set_state Running) s)).
Proof. intros Hs. by apply (calm_modify n (set_state Running)). Qed.

Lemma schedule_calm s : calm s → calm (schedule s).1.
Proof.
  intros Hs. unfold schedule. cbv zeta.
  set (s1 := match current (set_need false s) with Some _ => _ | None => _ end).
  assert (H1 : calm s1).
  { unfold s1. destruct (current _) as [h|]; [|done]. destruct (state_is _ _ _); [|done].
    by apply (calm_modify h (λ t, reset_time_slice (set_state Ready t)) s). }
  clearbody s1. pose proof (pick_calm s1 H1) as H2. destruct (pick_next_task s1) as [s2 [n|]]; [|done].
  by apply resume_calm.
Qed.

Lemma preempt_calm s rsp : calm s → calm (preempt_schedule s rsp).1.
Proof.
  intros Hs. unfold preempt_schedule. destruct (preempt_enabled s); [|done]. cbn [negb]. cbv zeta.
  set (s1 := match current s with Some _ => _ | None => _ end).
  assert (H1 : calm s1).
  { unfold s1. destruct (current s) as [h|]; [|done].
    by apply (calm_modify h (λ t, reset_time_slice (set_state Ready (set_saved_rsp rsp t))) s). }
  clearbody s1. pose proof (pick_calm s1 H1) as H2. destruct (pick_next_task s1) as [s2 [n|]].
  - by apply (resume_calm s2).
  - cbn [fst]. destruct (current s2) as [h|]; [|done]. by apply calm_modify.
Qed.

Lemma tick_calm s : calm s → calm (tick s).1.
Proof.
  intros Hs. unfold tick. cbv zeta. set (s0 := mkSched _ _ _ _ _ _ _ _ _ _ _).
  assert (H0 : calm s0) by exact Hs. clearbody s0.
  destruct (preempt_enabled s0); [|done]. cbn [negb].
  set (x := match current s0 with Some _ => _ | None => _ end).
  assert (Hx : calm x.1).
  { unfold x. destruct (current s0) as [h|]; [|done]. destruct (arcs s0 !! h) as [t|] eqn:Et; [|done].
    destruct (H0 h t Et) as [Hp Hf]. unfold tick_signals. rewrite Hp. cbn [Z.eqb].
    destruct (negb _); [by apply (calm_modify h (λ _, t))|].
    assert (Ha : undisturbed (tick_account t).1).
    { unfold tick_account. cbv zeta. cbn [fst]. by destruct (0 <? _). }
    destruct (tick_account t) as [t' over]. destruct over; by apply (calm_modify h (λ _, t')). }
  clearbody x. destruct x as [s1 returned]. cbn [fst] in Hx. destruct returned; [done|].
  destruct (need_reschedule s1); [by apply schedule_calm|done].
Qed.

Lemma terminate_calm s i code : calm s → calm (terminate_task s i code).1.
Proof.
  intros Hs. unfold terminate_task. case_if; [done|]. destruct (find_task _ _) as [h|]; [|done].
  by apply (calm_modify h (λ t, set_exit_code code (set_state Terminated t)) s).
Qed.

Lemma switch_calm m c s d cur n : calm s → calm (do_context_switch m c s d cur n).1.1.
Proof.
  intros Hs. unfold do_context_switch. destruct (arcs s !! n) as [t|]; [|done].
  destruct (context_switch m c (regs t)) as [saved c']. destruct cur; [|done]. by apply calm_modify.
Qed.

Lemma add_calm m t now s : calm s → undisturbed t → calm (add_task m t now s).1.2.
Proof.
  intros Hs Ht. unfold add_task. rewrite setup_initial_stack_push. cbn [fst snd arcs].
  intros j u. cbn [arcs]. intros [[_ <-]|[_ H]]%lookup_insert_Some; [exact Ht|exact (Hs j u H)].
Qed.

Lemma new_kernel_undisturbed g entry nm : undisturbed (new_kernel g entry nm).2.
Proof. unfold new_kernel. cbn [fetch_id]. by destruct (alloc_stack _ _). Qed.

Lemma create_calm g s entry nm now : calm s → calm (create_kernel_task g s entry nm now).1.2.
Proof.
  intros Hs. unfold create_kernel_task. pose proof (new_kernel_undisturbed g entry nm) as Ht.
  destruct (new_kernel g entry nm) as [g1 t]. pose proof (add_calm (gmem g1) t now s Hs Ht) as H.
  by destruct (add_task (gmem g1) t now s) as [[m s1] i].
Qed.

Lemma create_idle_calm g idle now : calm (create_idle_task g Scheduler_new idle now).1.2.
Proof.
  unfold create_idle_task, create_kernel_task_with_priority, new_kernel_with_priority.
  pose proof (new_kernel_undisturbed g idle "idle") as Ht.
  destruct (new_kernel g idle "idle") as [g1 t]. cbn [snd] in Ht.
  assert (H0 : calm Scheduler_new) by (intros j u; cbn; by rewrite lookup_empty).
  pose proof (add_calm (gmem g1) (set_priority Low t) now Scheduler_new H0 Ht) as H.
  by destruct (add_task _ _ now _) as [[m s1] i].
Qed.

(** Job control has nothing to do: no task is stopped, and all are in the
    foreground. *)
Lemma background_refused s i : calm s → background_task s i = (s, Err InvalidArgument).
Proof.
  intros Hs. unfold background_task. destruct (find_task _ _) as [h|]; [|done].
  destruct (arcs s !! h) as [t|] eqn:Et; [|done]. destruct (Hs h t Et) as [_ ->].
  by rewrite bool_decide_eq_false_2.
Qed.

Lemma foreground_refused s i : calm s → foreground_task s i = (s, Err InvalidArgument).
Proof.
  intros Hs. unfold foreground_task. destruct (find_task _ _) as [h|]; [|done].
  destruct (arcs s !! h) as [t|] eqn:Et; [|done]. destruct (Hs h t Et) as [_ ->].
  by rewrite bool_decide_eq_true_2.
Qed.

End Calm.

Module Commands.
Import Text.Text Device.Device Console.Console Interrupts.Interrupts Shell.Shell.

(** The result of an action has the property [P]. *)
Definition gives {A} (P : A → Prop) (x : io A) : Prop := ∀ t, P (x t).1.

Lemma gives_ret {A} (P : A → Prop) a : P a → gives P (mret a).
Proof. by intros H t. Qed.

Lemma gives_any {A B} (P : B → Prop) (x : io A) (k : A → io B) :
  (∀ a, gives P (k a)) → gives P (x ≫= k).
Proof. intros H t. rewrite run_bind. apply H. Qed.

Lemma gives_bind {A B} (Q : A → Prop) (P : B → Prop) (x : io A) (k : A → io B) :
  gives Q x → (∀ a, Q a → gives P (k a)) → gives P (x ≫= k).
Proof. intros Hx H t. rewrite run_bind. apply H, Hx. Qed.

(** A property that printing and the developer mode do not touch. *)
Class Printable (P : System → Prop) := {
  keeps_console f s : P s → (∀ c, on_screen c → on_screen (f c)) → P (with_console f s);
  keeps_dev_mode d s : P s → P (set_dev_mode d s)
}.

Section Printing.
Context (P : System → Prop) `{!Printable P}.

Lemma keeps_print msg s : P s → P (print msg s).
Proof. intros H. apply (keeps_console (λ c, vga_print c msg)); [done|]. intros c Hc. by apply vga_print_serial. Qed.

Lemma keeps_println msg s : P s → P (println msg s).
Proof. apply keeps_print. Qed.

Lemma keeps_foldl {A} (f : System → A → System) l s :
  (∀ s x, P s → P (f s x)) → P s → P (foldl f s l).
Proof. intros Hf. revert s. induction l as [|x l IH]; intros s Hs; [done|]. cbn [foldl]. auto. Qed.

Lemma keeps_print_lines l s : P s → P (print_lines l s).
Proof. apply keeps_foldl. intros s' x. apply keeps_println. Qed.

Lemma keeps_set_color fg bg s : P s → P (set_color fg bg s).
Proof. intros H. by apply keeps_console. Qed.
End Printing.

(** A command that only prints, whichever of its branches it takes. *)
Ltac printing :=
  repeat match goal with
    | H : ?P ?s |- ?P ?s => exact H
    | |- gives _ (mret _) => apply gives_ret
    | |- gives _ (_ ≫= _) => apply gives_any; intros ?
    | |- ?P (println _ _) => apply (keeps_println P)
    | |- ?P (print _ _) => apply (keeps_print P)
    | |- ?P (print_lines _ _) => apply (keeps_print_lines P)
    | |- ?P (set_color _ _ _) => apply (keeps_set_color P)
    | |- ?P (set_dev_mode _ _) => apply keeps_dev_mode
    | |- _ => progress cbv zeta
    | |- _ => case_match
    end.

Section Commands.
Context {D : Device}.
Context (demo_task counter_task idle_test_task kernel_end : Z) (cr0 cr2 cr3 cr4 : Z).
Context (P : System → Prop) `{!Printable P}.

Lemma keeps_info s : P s → gives P (cmd_info s).
Proof.
  intros H. unfold cmd_info. cbv zeta. apply (gives_bind P).
  - printing.
  - intros s1 H1. printing.
Qed.

Lemma keeps_time s : P s → gives P (cmd_time s).
Proof. intros H. unfold cmd_time. printing. Qed.

Lemma keeps_dev s : P s → P (cmd_dev kernel_end s).
Proof. intros H. unfold cmd_dev. cbv zeta. printing. Qed.

Lemma keeps_dev_mem args s : P s → P (cmd_dev_mem args s).
Proof.
  intros H. unfold cmd_dev_mem. destruct args as [|? [|arg ?]]; [printing..|]. cbv zeta.
  destruct (_ =? 0); [printing|]. apply (keeps_print P).
  apply (for_each_rule (λ _ s, P s)); [lia|printing|]. intros i s' _ Hs'. cbv zeta.
  printing.
Qed.

Lemma keeps_dev_io args s : P s → gives P (cmd_dev_io args s).
Proof. intros H. unfold cmd_dev_io. printing. Qed.

Lemma keeps_ps s : P s → P (cmd_ps s).
Proof.
  intros H. unfold cmd_ps. destruct (scheduler _) as [sc|]; [|printing]. cbv zeta.
  destruct (Scheduler.list_tasks sc); [printing|]. apply (keeps_println P), (keeps_foldl P); [intros; printing|printing].
Qed.

Lemma keeps_help s : P s → P (cmd_help s).
Proof.
  intros H. unfold cmd_help. cbv zeta. apply (keeps_print_lines P help_lines) in H.
  destruct (DEV_MODE _); [|exact H]. by apply (keeps_set_color P), (keeps_print_lines P), (keeps_set_color P).
Qed.

Lemma keeps_sched s : P s → P (cmd_sched s).
Proof. intros H. unfold cmd_sched. cbv zeta. destruct (scheduler _); printing. Qed.

Lemma keeps_dev_regs s : P s → P (cmd_dev_regs cr0 cr2 cr3 cr4 s).
Proof. intros H. unfold cmd_dev_regs. printing. Qed.

Lemma keeps_dev_pmm s : P s → P (cmd_dev_pmm s).
Proof. intros H. unfold cmd_dev_pmm. destruct (pmm s); printing. Qed.

Lemma keeps_dev_apic s : P s → gives P (cmd_dev_apic s).
Proof. intros H. unfold cmd_dev_apic. printing. Qed.

Lemma keeps_dev_only cmd s x : P s → gives P x → gives P (dev_only cmd s x).
Proof. intros H Hx. unfold dev_only. destruct (DEV_MODE s); [done|]. by apply gives_ret, (keeps_println P). Qed.

Lemma dispatch_gives cmd args s :
  P s → P (cmd_kill args s) → P (cmd_run demo_task counter_task idle_test_task args s) →
  P (cmd_bg args s) → P (cmd_fg args s) →
  gives P (dispatch demo_task counter_task idle_test_task kernel_end cr0 cr2 cr3 cr4 cmd args s).
Proof.
  intros H Hkill Hrun Hbg Hfg. unfold dispatch.
  case_bool_decide; [by apply keeps_info|].
  case_bool_decide; [by apply keeps_time|].
  case_bool_decide; [by apply gives_ret, keeps_dev|].
  case_bool_decide; [by apply gives_ret, keeps_help|].
  case_bool_decide; [by apply gives_ret, keeps_console|].
  case_bool_decide; [by apply gives_any; intros ?; apply gives_ret|].
  case_bool_decide; [by apply gives_ret, keeps_ps|].
  case_bool_decide; [by apply gives_ret|].
  case_bool_decide; [by apply gives_ret|].
  case_bool_decide; [by apply gives_ret|].
  case_bool_decide; [by apply gives_ret|].
  case_bool_decide; [by apply gives_ret, keeps_sched|].
  case_bool_decide; [by apply keeps_dev_only, gives_ret, keeps_dev_mem|].
  case_bool_decide; [by apply keeps_dev_only, gives_ret, keeps_dev_regs|].
  case_bool_decide; [by apply keeps_dev_only, keeps_dev_io|].
  case_bool_decide; [by apply keeps_dev_only, gives_ret, keeps_dev_pmm|].
  case_bool_decide; [by apply keeps_dev_only, keeps_dev_apic|].
  by apply gives_ret, (keeps_println P).
Qed.

Lemma execute_gives line s :
  P s → (∀ args, P (cmd_kill args s)) → (∀ args, P (cmd_run demo_task counter_task idle_test_task args s)) →
  (∀ args, P (cmd_bg args s)) → (∀ args, P (cmd_fg args s)) →
  gives P (execute_command demo_task counter_task idle_test_task kernel_end cr0 cr2 cr3 cr4 line s).
Proof.
  intros H Hkill Hrun Hbg Hfg. unfold execute_command. cbv zeta.
  destruct (trim line) as [|ch rest]; [by apply gives_ret|].
  destruct (split_nonempty 32 _) as [|cmd args]; [by apply gives_ret|]. by apply dispatch_gives.
Qed.
End Commands.
End Commands.

Module Live.
Import Text.Text Device.Device Console.Console Interrupts.Keyboard Interrupts.Interrupts Shell.Shell Calm Commands.

(** ** What holds between steps *)

Section Steady.
(** The addresses below the stacks that what runs in between leaves alone; the
    memory and the memory managers the shell starts with. *)
Context (own : Z → Prop) (Hown : ∀ a, own a → a < TASK_STACKS_BASE).
Context (m0 : mem) (p0 : option Pmm.Pmm) (root0 : option Z).

(** [b] bounds the identifiers handed out so far. *)
Record ok (b : Z) (s : System) : Prop := {
  ok_screen : on_screen (console (kernel s));
  ok_keys : Keyboard.wf (keyboard (kernel s));
  ok_timer : Timer.TIMER_HZ (timer (kernel s)) = 100;
  ok_managers : pmm s = p0 ∧ vmm s = root0;
  ok_bytes : bytes (Task.gmem (globals s));
  ok_frame : ∀ a, own a → rd (Task.gmem (globals s)) a = rd m0 a;
  ok_tasks : ∃ sc, scheduler (kernel s) = Some sc ∧ Scheduler.reachable (globals s, sc) ∧ calm sc;
  ok_ids : Task.next_id (globals s) ≤ b
}.

(** The line buffer is never written outside its 256 bytes. *)
Definition editing (e : Editor) : Prop := length (input_buf e) = 256%nat ∧ 0 ≤ input_pos e < 256.

Lemma ok_mono b b' s : ok b s → b ≤ b' → ok b' s.
Proof. intros [] Hb. split; try assumption. lia. Qed.

Lemma ok_console b s f : ok b s → (∀ c, on_screen c → on_screen (f c)) → ok b (with_console f s).
Proof. intros [] Hf. split; try assumption. by apply Hf. Qed.

#[export] Instance ok_printable b : Printable (ok b).
Proof.
  split; [intros f s H Hf; by apply ok_console|]. intros d s []. by split.
Qed.

Lemma ok_scheduler b sc sc' s :
  ok b s → scheduler (kernel s) = Some sc →
  (Scheduler.reachable (globals s, sc) → calm sc → Scheduler.step (globals s, sc) (globals s, sc') ∧ calm sc') →
  ok b (with_scheduler sc' s).
Proof.
  intros [] Hsc Hstep. split; try assumption. destruct ok_tasks0 as (sc0 & E & Hr & Hc).
  rewrite Hsc in E. injection E as <-. exists sc'. split; [done|]. destruct (Hstep Hr Hc) as [Hs' Hc'].
  split; [by eapply Scheduler.reach_step|done].
Qed.

(** A new task changes the memory of the stacks only, or, when none is left, the
    last bytes of the address space. *)
Lemma push_words_frame l m top :
  (length l ≤ 1024)%nat → top = 0 ∨ 0xA10000 ≤ top ≤ 0x2000000 → bytes m →
  bytes (foldl Task.push (m, top) l).1 ∧
  ∀ a, a < TASK_STACKS_BASE → rd (foldl Task.push (m, top) l).1 a = rd m a.
Proof.
  unfold TASK_STACKS_BASE. intros Hl Htop Hb. destruct Htop as [->|Htop].
  - destruct l as [|v l]; [done|]. cbn [length] in Hl. cbn [foldl]. unfold Task.push at 2 4. cbn [fst snd].
    change ((0 - 8)%usize) with (2 ^ 64 - 8).
    destruct (Task.push_all_frame l (store64 m (2 ^ 64 - 8) v) (2 ^ 64 - 8)) as [Hb' Hf]; [lia|].
    split; [by apply Hb', bytes_store|]. intros a Ha. rewrite Hf by lia. apply rd_store_out. lia.
  - destruct (Task.push_all_frame l m top) as [Hb' Hf]; [lia|].
    split; [by apply Hb'|]. intros a Ha. apply Hf. lia.
Qed.

Lemma new_kernel_frame g entry nm :
  bytes (Task.gmem g) → Task.region_ok g →
  let x := Task.new_kernel g entry nm in
  bytes (Task.gmem x.1) ∧ (∀ a, a < TASK_STACKS_BASE → rd (Task.gmem x.1) a = rd (Task.gmem g) a) ∧
  Task.next_id x.1 = (Task.next_id g + 1)%usize ∧
  (Task.stack_top x.2 = 0 ∨ 0xA10000 ≤ Task.stack_top x.2 ≤ 0x2000000).
Proof.
  intros Hb Hreg x. unfold x, Task.new_kernel. cbn [Task.fetch_id].
  unfold Task.alloc_stack. cbn [Task.next_stack Task.gmem Task.next_id].
  unfold Task.region_ok, Task.STACK_REGION_END in *. change Task.TASK_STACK_SIZE with 0x10000.
  rewrite usize_small by lia.
  destruct (0x2000000 <? _) eqn:E; break_cmp; cbn [fst snd Task.gmem Task.next_id Task.stack_top].
  - split_and!; try done. by left.
  - split; [by apply bytes_write_zeros|]. split; [|split; [done|right; lia]].
    unfold TASK_STACKS_BASE. intros a Ha. apply rd_write_zeros_out. lia.
Qed.

Lemma create_frame g s entry nm now g' s' i :
  bytes (Task.gmem g) → Task.region_ok g →
  Scheduler.create_kernel_task g s entry nm now = (g', s', i) →
  bytes (Task.gmem g') ∧ (∀ a, a < TASK_STACKS_BASE → rd (Task.gmem g') a = rd (Task.gmem g) a) ∧
  Task.next_id g' = (Task.next_id g + 1)%usize.
Proof.
  intros Hb Hreg. unfold Scheduler.create_kernel_task.
  destruct (new_kernel_frame g entry nm Hb Hreg) as (Hb1 & Hf1 & Hid & Htop).
  destruct (Task.new_kernel g entry nm) as [g1 t]. cbn [fst snd] in *.
  unfold Scheduler.add_task. rewrite Task.setup_initial_stack_push. cbv zeta.
  destruct (push_words_frame (Task.initial_words t) (Task.gmem g1) (Task.stack_top t) ltac:(cbn; lia) Htop Hb1)
    as [Hb2 Hf2].
  destruct (foldl Task.push _ _) as [m2 sp]. cbn [fst snd] in *. intros [= <- <- <-].
  cbn [Scheduler.with_mem Task.gmem Task.next_id]. split; [done|]. split; [|done].
  intros a Ha. by rewrite Hf2, Hf1.
Qed.

(** ** The commands of the shell *)

Section Commands.
Context {D : Device}.
Context (demo_task counter_task idle_test_task kernel_end : Z) (cr0 cr2 cr3 cr4 : Z).

Lemma ok_kill b args s : ok b s → ok b (cmd_kill args s).
Proof.
  intros H. unfold cmd_kill. destruct args as [|arg args]; [printing|]. cbv zeta.
  destruct (_ =? 0); [printing|]. destruct (scheduler (kernel s)) as [sc|] eqn:E; [|done].
  assert (H1 : ok b (with_scheduler (Scheduler.terminate_task sc (parse_int arg) (-9)).1 s)).
  { apply (ok_scheduler b sc); [done..|]. intros _ Hc.
    split; [apply Scheduler.st_kill|by apply terminate_calm]. }
  destruct (Scheduler.terminate_task sc _ _) as [sc' [|[]]]; printing.
Qed.

Lemma with_scheduler_same s sc : scheduler (kernel s) = Some sc → with_scheduler sc s = s.
Proof. destruct s as [[] ? ? ? ?]. cbn. by intros ->. Qed.

(** Nothing is in the background or stopped, so [bg] and [fg] only answer. *)
Lemma bg_refused b arg args s :
  ok b s → cmd_bg (arg :: args) s =
    println (str "Process " ++ fmt_dec (parse_int arg) ++ str " not found or not stopped") s.
Proof.
  intros []. destruct ok_tasks0 as (sc & E & _ & Hc). unfold cmd_bg. cbv zeta. rewrite E.
  rewrite background_refused by done. by rewrite with_scheduler_same.
Qed.

Lemma fg_refused b arg args s :
  ok b s → cmd_fg (arg :: args) s =
    println (str "Process " ++ fmt_dec (parse_int arg) ++ str " not found or already foreground") s.
Proof.
  intros []. destruct ok_tasks0 as (sc & E & _ & Hc). unfold cmd_fg. cbv zeta. rewrite E.
  rewrite foreground_refused by done. by rewrite with_scheduler_same.
Qed.

Lemma ok_run b args s :
  b < 2 ^ 64 - 1 → ok b s → ok (b + 1) (cmd_run demo_task counter_task idle_test_task args s).
Proof.
  intros Hb H. assert (H1 : ok (b + 1) s) by (apply (ok_mono b); [done|lia]).
  unfold cmd_run. destruct args as [|nm args]; [printing|].
  destruct (run_entry _ _ _ nm) as [[entry name]|]; [|printing].
  destruct (scheduler (kernel s)) as [sc|] eqn:E; [|printing]. clear H1.
  destruct H. destruct ok_tasks0 as (sc0 & E0 & Hr & Hc). rewrite E in E0. injection E0 as <-.
  set (now := Timer.tick_count _).
  pose proof (Scheduler.st_create_kernel (globals s) sc entry name now ltac:(lia)) as Hstep.
  pose proof (Switch.Stacks.so_region _ _ (Switch.Stacks.reachable_stacks_ok _ Hr)) as Hreg.
  pose proof (create_calm (globals s) sc entry name now Hc) as Hc'.
  destruct (Scheduler.create_kernel_task (globals s) sc entry name now) as [[g sc'] i] eqn:Ec.
  cbn [fst snd] in Hstep, Hc', Hreg.
  apply create_frame in Ec as (Hb' & Hf & Hid); [|done|exact Hreg].
  apply (keeps_println (ok _)). split; try assumption; cbn [kernel globals pmm scheduler set_scheduler].
  - intros a Ha. rewrite Hf by (by apply Hown). by apply ok_frame0.
  - exists sc'. split; [done|]. split; [by eapply Scheduler.reach_step|done].
  - destruct (Scheduler.sched_reachable_inv _ Hr) as [_ Hpos]. cbn [fst] in Hpos.
    rewrite Hid, usize_small by lia. lia.
Qed.

Lemma ok_bg b args s : ok b s → ok b (cmd_bg args s).
Proof. intros H. destruct args; [unfold cmd_bg; printing|]. rewrite (bg_refused b) by done. printing. Qed.

Lemma ok_fg b args s : ok b s → ok b (cmd_fg args s).
Proof. intros H. destruct args; [unfold cmd_fg; printing|]. rewrite (fg_refused b) by done. printing. Qed.

Lemma ok_execute b line s :
  b < 2 ^ 64 - 1 → ok b s →
  gives (ok (b + 1)) (execute_command demo_task counter_task idle_test_task kernel_end cr0 cr2 cr3 cr4 line s).
Proof.
  intros Hb H. assert (H1 : ok (b + 1) s) by (apply (ok_mono b); [done|lia]).
  apply execute_gives; [apply _|done|..]; intros args;
    [by apply ok_kill|by apply ok_run|by apply ok_bg|by apply ok_fg].
Qed.

(** ** The line editor *)

Lemma put_in_line e i v :
  editing e → 0 ≤ i < 256 →
  ∃ b, put (input_buf e) i v = Some b ∧ length b = 256%nat.
Proof.
  intros [Hl _] Hi. unfold put. rewrite Hl.
  rewrite (proj2 (Z.leb_le 0 _)), (proj2 (Z.ltb_lt _ _)) by lia. cbn [andb].
  eexists. split; [done|]. by rewrite length_insert.
Qed.

Lemma ok_prompt b s e :
  ok b s → editing e → ∃ s' e', shell_prompt s e = Ret (s', e') ∧ ok b s' ∧ editing e'.
Proof.
  intros H He. unfold shell_prompt. cbv zeta.
  destruct (put_in_line e 0 0 He ltac:(lia)) as (l & -> & Hl). eexists _, _. split; [done|].
  split; [|split; [exact Hl|cbn; lia]]. printing.
Qed.

Lemma ok_key b s e ch t :
  b < 2 ^ 64 - 1 → ok b s → editing e →
  ∃ s' e' t', shell_key demo_task counter_task idle_test_task kernel_end cr0 cr2 cr3 cr4 s e ch t =
    (Ret (s', e'), t') ∧ ok (b + 1) s' ∧ editing e'.
Proof.
  intros Hb H He. assert (H1 : ok (b + 1) s) by (apply (ok_mono b); [done|lia]).
  pose proof He as [Hl Hpos]. unfold shell_key. destruct (ch =? 10).
  { destruct (put_in_line e (input_pos e) 0 He ltac:(lia)) as (l & -> & Hl'). rewrite run_bind. cbv zeta.
    pose proof (ok_execute b (take (Z.to_nat (input_pos e)) l) (println [] s) Hb ltac:(printing) t) as Hx.
    destruct (execute_command _ _ _ _ _ _ _ _ _ _ t) as [s1 t1]. cbn [fst] in Hx.
    destruct (ok_prompt (b + 1) s1 (mkEditor l (input_pos e)) Hx) as (s2 & e2 & E & H2 & He2); [done|].
    cbn [fst]. rewrite E. by eexists s2, e2, _. }
  destruct (ch =? 8).
  { destruct (0 <? input_pos e) eqn:E; break_cmp; [|by eexists s, e, t].
    destruct (put_in_line e (input_pos e - 1) 0 He ltac:(lia)) as (l & E1 & Hl'). cbv zeta. rewrite E1.
    eexists _, _, t. split; [done|]. split; [|split; [exact Hl'|cbn; lia]].
    apply ok_console; [done|]. intros c Hc. cbn [foldl]. unfold vga_print_char.
    by do 3 apply vga_print_serial. }
  destruct ((32 <=? ch) && (input_pos e <? 255)) eqn:E; [|by eexists s, e, t].
  apply andb_true_iff in E as [_ E]. break_cmp.
  destruct (put_in_line e (input_pos e) ch He ltac:(lia)) as (l & -> & Hl').
  eexists _, _, t. split; [done|]. split; [|split; [exact Hl'|cbn; lia]].
  apply ok_console; [done|]. intros c Hc. by apply vga_print_serial.
Qed.

Lemma ok_keyboard b s k : ok b s → Keyboard.wf k → ok b (with_kernel (set_keyboard k) s).
Proof. intros [] Hk. by split. Qed.

Lemma read_char_wf k : Keyboard.wf k → Keyboard.wf (keyboard_read_char k).1.
Proof.
  intros (Hl & Hh & Ht). unfold keyboard_read_char. destruct (_ =? _); [done|].
  split; [exact Hl|]. split; [exact Hh|]. cbn. apply Z.mod_pos_bound. lia.
Qed.

Lemma scancode_wf k c : Keyboard.wf k → Keyboard.wf (handle_keyboard_scancode k c).
Proof.
  intros Hk. pose proof Hk as (Hl & Hh & Ht). unfold handle_keyboard_scancode. cbv zeta.
  repeat (case_match; try exact Hk).
  split; [cbn; by rewrite length_insert|]. split; [|exact Ht]. cbn. apply Z.mod_pos_bound. lia.
Qed.

Lemma ok_wake b s e t :
  b < 2 ^ 64 - 1 → ok b s → editing e →
  ∃ s' e' t', shell_wake demo_task counter_task idle_test_task kernel_end cr0 cr2 cr3 cr4 s e t =
    (Ret (s', e'), t') ∧ ok (b + 1) s' ∧ editing e'.
Proof.
  intros Hb H He. unfold shell_wake. destruct (keyboard_has_data _).
  2: { eexists s, e, t. split; [done|]. split; [|done]. apply (ok_mono b); [done|lia]. }
  pose proof (read_char_wf _ (ok_keys _ _ H)) as Hk.
  destruct (keyboard_read_char (keyboard (kernel s))) as [k ch].
  apply ok_key; [done| |done]. by apply ok_keyboard.
Qed.

(** ** The interrupt handlers *)

Lemma on_tick t : Timer.TIMER_HZ t = 100 → ∃ t', Timer.on_timer_tick t = Ret t' ∧ Timer.TIMER_HZ t' = 100.
Proof. intros Ht. unfold Timer.on_timer_tick. rewrite Ht. eexists. by split. Qed.

Lemma ok_set_timer b s t : ok b s → Timer.TIMER_HZ t = 100 → ok b (with_kernel (set_timer t) s).
Proof. intros [] Ht. by split. Qed.

Lemma ok_same_kernel b s : ok b s → ok b (with_kernel (λ _, kernel s) s).
Proof. by destruct s. Qed.

(** The system call that does not return. *)
Definition exits (ctx : InterruptContext) : Prop :=
  vector ctx = 128 ∧ rax ctx = 21.

Lemma exit_number nr : Syscall.SyscallNumber_from nr = Syscall.Exit → nr = 21.
Proof. unfold Syscall.SyscallNumber_from. repeat case_match; done. Qed.

Lemma ok_syscall b s m nr a1 a2 a3 a4 :
  ok b s →
  match Syscall.rust_syscall_handler m (console (kernel s)) nr a1 a2 a3 a4 with
  | Returns (c, _) => ok b (with_console (λ _, c) s)
  | Halts => nr = 21
  | Panics => False
  end.
Proof.
  intros H. pose proof (ok_screen _ _ H) as Hc.
  assert (Hb : ∀ l, ok b (with_console (λ _, Syscall.print_bytes (console (kernel s)) l) s)).
  { intros l. apply (ok_console b s (λ _, Syscall.print_bytes (console (kernel s)) l)); [done|].
    intros _ _. by apply Syscall.print_bytes_serial. }
  assert (Hs : ok b (with_console (λ _, console (kernel s)) s)) by by apply ok_console.
  unfold Syscall.rust_syscall_handler, Syscall.sys_write, Syscall.sys_print.
  destruct (Syscall.SyscallNumber_from nr) eqn:En; cbv beta iota zeta; try exact Hs; try by apply exit_number.
  all: repeat case_match; simplify_eq; first [exact Hs|apply Hb].
Qed.

Lemma ok_isr_branch m addr ctx b s t :
  ok b s →
  match (isr_branch m addr ctx (kernel s) t).1 with
  | Returns (ctx', k', sw) => ok b (with_kernel (λ _, k') s)
  | Halts => vector ctx = 8 ∨ exits ctx
  | Panics => False
  end.
Proof.
  intros H. pose proof (ok_same_kernel b s H) as Hs.
  assert (Hp : ∀ msg, ok b (with_kernel (λ _, kprint msg (kernel s)) s)) by (intros msg; exact (keeps_print (ok b) msg s H)).
  unfold isr_branch.
  destruct (vector ctx =? 0); [apply Hp|].
  destruct (vector ctx =? 6); [apply Hp|].
  destruct (vector ctx =? 8) eqn:E8; [break_cmp; by left|].
  destruct (vector ctx =? 13); [apply Hp|].
  destruct (vector ctx =? 14); [apply Hp|].
  destruct (vector ctx =? 32).
  { destruct (on_tick _ (ok_timer _ _ H)) as (t' & -> & Ht'). cbv zeta.
    pose proof (ok_set_timer b s t' H Ht') as H1. destruct (ok_tasks _ _ H) as (sc & Esc & _ & _).
    change (scheduler (set_timer t' (kernel s))) with (scheduler (kernel s)). rewrite Esc.
    assert (H2 : ok b (with_scheduler (Scheduler.tick sc).1 (with_kernel (set_timer t') s))).
    { apply (ok_scheduler b sc); [exact H1|exact Esc|]. intros _ Hc.
      split; [apply Scheduler.st_tick|by apply tick_calm]. }
    destruct (Scheduler.tick sc) as [sc' [sw|]]; [exact H2|]. rewrite run_bind. exact H2. }
  destruct (vector ctx =? 33).
  { rewrite !run_bind. apply (ok_keyboard b s); [done|]. apply scancode_wf, (ok_keys _ _ H). }
  destruct (_ || _); [exact Hs|].
  destruct (vector ctx =? 128) eqn:E128.
  { pose proof (ok_syscall b s m (rax ctx) (rdi ctx) (rsi ctx) (rdx ctx) (r10 ctx) H) as Hx. break_cmp.
    destruct (Syscall.rust_syscall_handler _ _ _ _ _ _ _) as [[c r]| |]; [exact Hx|right; by split|exact Hx]. }
  destruct (vector ctx =? 255); [exact Hs|].
  destruct (vector ctx <? 32); [apply Hp|exact Hs].
Qed.

Lemma ok_isr m addr ctx b s t :
  ok b s →
  match (rust_isr_handler m addr ctx (kernel s) t).1 with
  | Returns (ctx', k', sw) => ok b (with_kernel (λ _, k') s)
  | Halts => vector ctx = 8 ∨ exits ctx
  | Panics => False
  end.
Proof.
  intros H. pose proof (ok_isr_branch m addr ctx b s t H) as Hb. unfold rust_isr_handler. rewrite run_bind.
  destruct (isr_branch m addr ctx (kernel s) t).1 as [[[ctx1 k1] sw1]| |]; [|exact Hb|done].
  by rewrite run_bind.
Qed.

Lemma ok_timer_isr sp b s t :
  ok b s →
  match (rust_timer_handler (kernel s) sp t).1 with
  | Returns (k', _) => ok b (with_kernel (λ _, k') s)
  | _ => False
  end.
Proof.
  intros H. unfold rust_timer_handler. destruct (on_tick _ (ok_timer _ _ H)) as (t' & -> & Ht'). cbv zeta.
  pose proof (ok_set_timer b s t' H Ht') as H1. destruct (ok_tasks _ _ H) as (sc & Esc & _ & _).
  rewrite run_bind. change (scheduler (set_timer t' (kernel s))) with (scheduler (kernel s)). rewrite Esc.
  destruct (Scheduler.preempt_enabled sc); [|exact H1].
  assert (H2 : ok b (with_scheduler (Scheduler.preempt_schedule sc sp).1 (with_kernel (set_timer t') s))).
  { apply (ok_scheduler b sc); [exact H1|exact Esc|]. intros _ Hc.
    split; [apply Scheduler.st_preempt|by apply preempt_calm]. }
  by destruct (Scheduler.preempt_schedule sc sp) as [sc' sp'].
Qed.

Lemma ok_resumed b s t : ok b s → ok b (with_kernel (λ _, (isr_resumed (kernel s) t).1) s).
Proof.
  intros H. unfold isr_resumed. cbv zeta. rewrite run_bind. cbn [fst mret io_ret].
  destruct (ok_tasks _ _ H) as (sc & Esc & _ & _). rewrite Esc. apply (ok_scheduler b sc); [done..|].
  intros _ Hc. split; [apply Scheduler.st_resumed|exact Hc].
Qed.

(** ** Steps *)

(** The system, the shell's line, and the device accesses so far. *)
Record State := mkState {
  system : System;
  editor : Editor;
  accesses : list event
}.

(** What the scheduler holds after the switch the handler asked for: the
    processor [c] and [DUMMY_REGS] may hold anything. *)
Definition switched (sw : Scheduler.switch) (m : mem) (c : Task.Cpu) (d : Task.SavedRegisters)
    (s : System) : System :=
  match sw, scheduler (kernel s) with
  | Some (cur, n), Some sc => with_scheduler (Scheduler.do_context_switch m c sc d cur n).1.1 s
  | _, _ => s
  end.

(** A round of the shell's loop; an interrupt or exception of any vector, from
    any context, with the switch it ends in; the rest of such a handler; an
    interrupt of the timer's own stub; a line printed by a task; and any other
    change of memory.  A round of the shell and a handler are each taken as a
    whole: what an interrupt finds in the middle of one is the subject of
    [Locks], and where the processor goes on after a handler that of [Switch]. *)
Inductive step : State → State → Prop :=
  | step_shell s e t s' e' t' :
      shell_wake demo_task counter_task idle_test_task kernel_end cr0 cr2 cr3 cr4 s e t = (Ret (s', e'), t') →
      step (mkState s e t) (mkState s' e' t')
  | step_interrupt s e t addr ctx ctx' k' sw t' c d :
      rust_isr_handler (Task.gmem (globals s)) addr ctx (kernel s) t = (Returns (ctx', k', sw), t') →
      step (mkState s e t) (mkState (switched sw (Task.gmem (globals s)) c d (with_kernel (λ _, k') s)) e t')
  | step_resumed s e t k' t' :
      isr_resumed (kernel s) t = (k', t') →
      step (mkState s e t) (mkState (with_kernel (λ _, k') s) e t')
  | step_timer s e t sp k' sp' t' :
      rust_timer_handler (kernel s) sp t = (Returns (k', sp'), t') →
      step (mkState s e t) (mkState (with_kernel (λ _, k') s) e t')
  | step_print s e t msg : step (mkState s e t) (mkState (println msg s) e t)
  | step_memory s e t m :
      bytes m → (∀ a, own a → rd m a = rd (Task.gmem (globals s)) a) →
      step (mkState s e t) (mkState (Boot.set_memory m s) e t).

Definition live (b : Z) (x : State) : Prop := ok b (system x) ∧ editing (editor x).

Lemma ok_switched b sw m c d s : ok b s → ok b (switched sw m c d s).
Proof.
  intros H. unfold switched. destruct sw as [[cur n]|]; [|done].
  destruct (scheduler (kernel s)) as [sc|] eqn:E; [|done]. apply (ok_scheduler b sc); [done..|].
  intros _ Hc. split; [apply Scheduler.st_switch|by apply switch_calm].
Qed.

Lemma ok_memory b s m :
  ok b s → bytes m → (∀ a, own a → rd m a = rd (Task.gmem (globals s)) a) →
  ok b (Boot.set_memory m s).
Proof.
  intros [] Hb Hm. split; try assumption.
  - intros a Ha. cbn. rewrite Hm by done. by apply ok_frame0.
  - destruct ok_tasks0 as (sc & E & Hr & Hc). exists sc. split; [done|]. split; [|done].
    eapply Scheduler.reach_step; [exact Hr|]. apply Scheduler.st_memory.
Qed.

Lemma step_live b x y : b < 2 ^ 64 - 1 → step x y → live b x → live (b + 1) y.
Proof.
  intros Hb Hs [H He]. assert (Hm : ∀ s, ok b s → ok (b + 1) s) by (intros s0 H0; apply (ok_mono b); [done|lia]).
  destruct Hs as [s e t s' e' t' E|s e t addr ctx ctx' k' sw t' c d E|s e t k' t' E|s e t sp k' sp' t' E|s e t msg|s e t m Hby Hmem];
    cbn [system editor] in *; (split; [|try exact He]); cbn [system editor].
  - destruct (ok_wake b s e t Hb H He) as (s1 & e1 & t1 & E1 & H1 & _). rewrite E in E1. by injection E1 as -> -> ->.
  - destruct (ok_wake b s e t Hb H He) as (s1 & e1 & t1 & E1 & _ & H1). rewrite E in E1. by injection E1 as -> -> ->.
  - apply ok_switched, Hm. pose proof (ok_isr (Task.gmem (globals s)) addr ctx b s t H) as Hi. by rewrite E in Hi.
  - apply Hm. pose proof (ok_resumed b s t H) as Hi. by rewrite E in Hi.
  - apply Hm. pose proof (ok_timer_isr sp b s t H) as Hi. by rewrite E in Hi.
  - by apply Hm, (keeps_println (ok b)).
  - by apply Hm, ok_memory.
Qed.

Lemma steps_live n b x y :
  b + Z.of_nat n ≤ 2 ^ 64 - 1 → nsteps step n x y → live b x → live (b + Z.of_nat n) y.
Proof.
  intros Hb Hn. revert b Hb. induction Hn as [x|n x y z Hs Hn IH]; intros b Hb Hx.
  - by rewrite Z.add_0_r.
  - rewrite Nat2Z.inj_succ in *. replace (b + Z.succ (Z.of_nat n)) with (b + 1 + Z.of_nat n) by lia.
    apply IH; [lia|]. apply (step_live b x); [lia|done..].
Qed.

End Commands.
End Steady.

(** ** From the boot *)

(** The cursor and the queue of the keyboard. *)
Definition shown (s : System) : Prop := on_screen (console (kernel s)) ∧ Keyboard.wf (keyboard (kernel s)).

Lemma shown_println msg s : shown s → shown (println msg s).
Proof. intros [Hc Hk]. split; [|done]. by apply vga_print_serial. Qed.

Lemma shown_on f s : (∀ x, shown x → shown (f x)) → shown (Boot.system s) → shown (Boot.system (Boot.on_system f s)).
Proof. intros Hf. apply Hf. Qed.

Lemma shown_say l s : shown (Boot.system s) → shown (Boot.system (Boot.say l s)).
Proof. apply (shown_println (str l)). Qed.

Lemma shown_prints lines s : shown (Boot.system s) → shown (Boot.system (Boot.prints lines s)).
Proof.
  revert s. induction lines as [|l lines IH]; intros s Hs; [done|].
  apply (IH (Boot.on_system (println l) s)). by apply shown_println.
Qed.

Lemma shown_machine x g i h a v mm : shown x → shown (Boot.system (Boot.mkMachine x g i h a v mm)).
Proof. done. Qed.

Lemma shown_memory m x : shown x → shown (Boot.set_memory m x).
Proof. done. Qed.

(** Goes back through what a phase prints and sets. *)
Ltac showing :=
  repeat match goal with
    | |- shown (Boot.system (Boot.say _ _)) => apply shown_say
    | |- shown (Boot.system (Boot.on_system (println _) _)) => apply shown_on; [exact (shown_println _)|]
    | |- shown (Boot.system (Boot.prints _ _)) => apply shown_prints
    | |- shown (Boot.system (Boot.mkMachine _ _ _ _ _ _ _)) => apply shown_machine
    | |- shown (Boot.set_memory _ _) => apply shown_memory
    | |- shown (Boot.system (Boot.on_system _ _)) => apply shown_on; [intros ? Hx; exact Hx|]
    | H : shown ?x |- shown ?x => exact H
    end.

Section FromBoot.
Context {D : Device}.
Context (isr : Z → Z) (timer_isr spurious_isr idt_base tss_base stack_top kernel_end idle_task : Z).
Context (addr_of : string → Z) (cr3 : Z).

Lemma setup_cpu_shown s t :
  shown (Boot.system s) →
  shown (Boot.system (Boot.setup_cpu isr timer_isr spurious_isr idt_base tss_base stack_top s t).1).
Proof. intros H. unfold Boot.setup_cpu. rewrite run_bind. cbv zeta. cbn [fst mret io_ret]. showing. Qed.

Lemma setup_memory_shown s :
  shown (Boot.system s) →
  match Boot.setup_memory kernel_end cr3 s with Ret s' => shown (Boot.system s') | Panic => True end.
Proof.
  intros H. unfold Boot.setup_memory. cbv zeta. destruct (Boot.boot_pmm _ _) as [m p].
  set (s1 := if PMM_BITMAP_BASE <=? kernel_end then _ else _).
  assert (H1 : shown (Boot.system s1)) by (unfold s1; destruct (_ <=? _); showing). clearbody s1.
  destruct (Heap.init _ _ _ _ _) as [[[m2 fl] h]|]; [|done]. showing.
Qed.

Lemma setup_acpi_shown s : shown (Boot.system s) → shown (Boot.system (Boot.setup_acpi s)).
Proof.
  intros H. unfold Boot.setup_acpi. cbv zeta. destruct (Acpi.parse _ _) as [p [u|e]]; showing.
Qed.

Lemma setup_timer_shown s t : shown (Boot.system s) → shown (Boot.system (Boot.setup_timer s t).1).
Proof.
  intros H. unfold Boot.setup_timer. rewrite run_bind. destruct (logged _ t).1 as [tm lines].
  cbv zeta. cbn [fst mret io_ret]. showing.
Qed.

Lemma setup_apic_shown polls s t :
  shown (Boot.system s) →
  match (Boot.setup_apic polls s t).1 with Some (Ret s') => shown (Boot.system s') | _ => True end.
Proof.
  intros H. unfold Boot.setup_apic. rewrite run_bind. cbv zeta.
  destruct ((logged (Apic.LocalApic_init _ _) t).1) as [[a1 r1] l1].
  set (s1 := Boot.prints l1 _). assert (H1 : shown (Boot.system s1)) by (unfold s1; showing). clearbody s1.
  destruct r1 as [u|e]; [|cbn [fst mret io_ret]; showing]. rewrite run_bind.
  destruct ((logged (Apic.setup_timer _ _ _) _).1) as [[[u2|]|] l2]; [|done|done].
  set (s2 := Boot.prints l2 _). assert (H2 : shown (Boot.system s2)) by (unfold s2; showing). clearbody s2.
  destruct (_ =? 0); [cbn [fst mret io_ret]; showing|]. rewrite run_bind.
  destruct ((logged (Apic.IoApic_init _ _) _).1) as [[a2 r2] l3].
  set (s3 := Boot.prints l3 _). assert (H3 : shown (Boot.system s3)) by (unfold s3; showing). clearbody s3.
  destruct r2 as [u3|e3]; [|cbn [fst mret io_ret]; showing]. rewrite run_bind. cbv zeta. cbn [fst mret io_ret]. showing.
Qed.

Lemma idle_task_next_id m now :
  Task.next_id (Scheduler.create_idle_task (Task.Globals_init m) Scheduler.Scheduler_new idle_task now).1.1 = 2.
Proof. reflexivity. Qed.

Lemma setup_tasks_ends s m :
  globals (Boot.system s) = Task.Globals_init m → shown (Boot.system s) →
  let s' := Boot.system (Boot.setup_tasks idle_task addr_of s) in
  shown s' ∧ Task.next_id (globals s') = 2 ∧ ∃ sc, scheduler (kernel s') = Some sc ∧ calm sc.
Proof.
  intros Hg Hs. unfold Boot.setup_tasks. cbv zeta.
  match goal with |- context [Scheduler.create_idle_task (globals ?x) _ _ ?now] =>
    change (globals x) with (globals (Boot.system s)); rewrite Hg;
    pose proof (idle_task_next_id m now) as Hid;
    pose proof (create_idle_calm (Task.Globals_init m) idle_task now) as Hc;
    destruct (Scheduler.create_idle_task (Task.Globals_init m) Scheduler.Scheduler_new idle_task now)
      as [[g sc] i] end.
  cbn [fst snd] in Hid, Hc.
  match goal with |- context [match scheduler ?k with Some _ => _ | None => _ end] =>
    change (scheduler k) with (Some sc) end. cbv iota. split; [showing|]. split; [exact Hid|].
  exists (Scheduler.enable_preemption sc). split; [reflexivity|exact Hc].
Qed.

Lemma kernel_main_ends polls magic s m t
    (Hg : globals (Boot.system s) = Task.Globals_init m) (Hb : bytes m)
    (Hh : Boot.heap s = (false, Heap.SlabAllocator_new)) (Hk : kernel_end ≤ 0xE00000)
    (Hpit : ∀ t, (Apic.wait_pit polls t).1 = true)
    (Hkeys : Keyboard.wf (keyboard (kernel (Boot.system s)))) :
  match (Boot.kernel_main isr timer_isr spurious_isr idt_base tss_base stack_top kernel_end idle_task addr_of
           cr3 polls magic s t).1 with
  | Some (Returns s') =>
      shown (Boot.system s') ∧ Task.next_id (globals (Boot.system s')) = 2 ∧
      ∃ sc, scheduler (kernel (Boot.system s')) = Some sc ∧ calm sc
  | _ => True
  end.
Proof.
  unfold Boot.kernel_main. rewrite run_bind. cbv zeta.
  destruct (negb (magic =? 0x36D76289) && negb (magic =? 0x2BADB002)); [done|].
  rewrite run_bind. match goal with |- context [Boot.setup_cpu _ _ _ _ _ _ ?x ?u] => set (s0 := x); generalize u; intros t0 end.
  assert (Hg0 : globals (Boot.system s0) = Task.Globals_init m) by exact Hg.
  assert (Hh0 : Boot.heap s0 = (false, Heap.SlabAllocator_new)) by exact Hh.
  assert (H0 : shown (Boot.system s0)).
  { unfold s0. showing. split; [|exact Hkeys]. unfold on_screen. cbn. unfold VGA_H, VGA_W. lia. }
  clearbody s0. pose proof (setup_cpu_shown s0 t0 H0) as S1.
  destruct (Boot.setup_cpu_spec isr timer_isr spurious_isr idt_base tss_base stack_top s0 t0) as (H1 & H2 & _).
  cbv zeta in *. rewrite Hg0 in H1. rewrite Hh0 in H2.
  unfold trace. destruct (Boot.setup_cpu _ _ _ _ _ _ s0 t0) as [s1 t1]. cbn [fst snd] in *.
  pose proof (setup_memory_shown s1 S1) as S2.
  destruct (Boot.setup_memory_spec kernel_end cr3 s1 m H1 Hb H2 Hk) as (s2 & m2 & p & h & E2 & Hc & _).
  rewrite E2 in *. rewrite run_bind.
  pose proof (setup_acpi_shown s2 S2) as S3. rewrite <- (Boot.setup_acpi_spec s2) in Hc.
  pose proof (setup_timer_shown (Boot.setup_acpi s2) t1 S3) as S4.
  destruct (Boot.setup_timer_spec (Boot.setup_acpi s2) t1) as [H5 _]. rewrite <- H5 in Hc.
  unfold trace. destruct (Boot.setup_timer (Boot.setup_acpi s2) t1) as [s3 t3]. cbn [fst snd] in *. rewrite run_bind.
  pose proof (setup_apic_shown polls s3 t3 S4) as S5.
  destruct (Boot.setup_apic_spec polls s3 t3 Hpit) as (s4 & E4 & H7 & _). rewrite E4 in *.
  rewrite <- H7 in Hc. unfold Boot.core in Hc. injection Hc as Hg4 _ _ _ _ _.
  cbn [fst mret io_ret]. exact (setup_tasks_ends s4 m2 Hg4 S5).
Qed.

Context (demo_task counter_task idle_test_task cr0 cr2 cr4 : Z).

(** Among the bytes nothing else writes are those of the allocator's bitmap. *)
Context (own : Z → Prop) (Hown : ∀ a, own a → a < TASK_STACKS_BASE).
Context (Hbitmap : ∀ a, Pmm.BITMAP_BASE ≤ a < Pmm.BITMAP_BASE + Pmm.BITMAP_SIZE → own a).

Lemma start_live s t :
  ok own (Task.gmem (globals s)) (pmm s) (vmm s) 2 s →
  ∃ s1 e1, shell_start s = Ret (s1, e1) ∧
    live own (Task.gmem (globals s)) (pmm s) (vmm s) 2 (mkState s1 e1 t).
Proof.
  intros H. unfold shell_start. cbv zeta. eapply (keeps_print_lines (ok _ _ _ _ _)) in H.
  destruct (ok_prompt _ _ _ _ _ _ (mkEditor (replicate 256 0) 0) H) as (s1 & e1 & E & H1 & H2);
    [split; [reflexivity|cbn; lia]|].
  exists s1, e1. split; [exact E|]. by split.
Qed.

(** A round of the shell, an interrupt or exception, and a tick of the timer all
    return from the state [x]: there is no panic, and only a double fault and
    the system call [exit] stop the processor. *)
Definition never_panics (x : State) : Prop :=
  (∃ s' e', (shell_wake demo_task counter_task idle_test_task kernel_end cr0 cr2 cr3 cr4
               (system x) (editor x) (accesses x)).1 = Ret (s', e')) ∧
  (∀ addr ctx,
     match (rust_isr_handler (Task.gmem (globals (system x))) addr ctx (kernel (system x)) (accesses x)).1 with
     | Returns _ => True
     | Halts => vector ctx = 8 ∨ exits ctx
     | Panics => False
     end) ∧
  ∀ sp, ∃ k sp', (rust_timer_handler (kernel (system x)) sp (accesses x)).1 = Returns (k, sp').

Lemma live_never_panics m p root b x : b < 2 ^ 64 - 1 → live own m p root b x → never_panics x.
Proof.
  intros Hb [H He]. split; [|split].
  - destruct (ok_wake own Hown _ _ _ demo_task counter_task idle_test_task kernel_end cr0 cr2 cr3 cr4 b _ _ (accesses x) Hb H He)
      as (s' & e' & t' & -> & _). by exists s', e'.
  - intros addr ctx.
    pose proof (ok_isr own _ _ _ (Task.gmem (globals (system x))) addr ctx b _ (accesses x) H) as Hi.
    by destruct (rust_isr_handler _ _ _ _ _).1 as [[[ctx' k'] sw]| |].
  - intros sp. pose proof (ok_timer_isr own _ _ _ sp b _ (accesses x) H) as Hi.
    destruct (rust_timer_handler _ _ _).1 as [[k' sp']| |]; [by exists k', sp'|done..].
Qed.

(** Between two steps, [s'] being the machine the boot hands to the shell: the
    cursor, the line buffer and the queue of the keyboard are within their
    bounds; the page allocator is well formed and has the same pages in use; the
    bytes nothing else writes are what they were; and the tasks are those of a
    reachable scheduler, none of them stopped or signalled. *)
Record kept (s' : Boot.Machine) (x : State) : Prop := {
  kept_screen : on_screen (console (kernel (system x)));
  kept_line : editing (editor x);
  kept_keys : Keyboard.wf (keyboard (kernel (system x)));
  kept_pages : ∃ p, pmm (system x) = Some p ∧
    Boot.pmm_uses (Task.gmem (globals (system x))) p (λ a, a < 0xE00000);
  kept_root : vmm (system x) = Some (Vmm.Vmm.new cr3);
  kept_memory : ∀ a, own a → rd (Task.gmem (globals (system x))) a = rd (Boot.memory s') a;
  kept_tasks : ∃ sc, scheduler (kernel (system x)) = Some sc ∧
    Scheduler.reachable (globals (system x), sc) ∧ calm sc
}.

Lemma runs_kept polls magic s m t s' t'
    (Hg : globals (Boot.system s) = Task.Globals_init m) (Hb : bytes m)
    (Hh : Boot.heap s = (false, Heap.SlabAllocator_new)) (Hk : kernel_end ≤ 0xE00000)
    (Hpit : ∀ t, (Apic.wait_pit polls t).1 = true)
    (Hkeys : Keyboard.wf (keyboard (kernel (Boot.system s))))
    (Hboot : Boot.kernel_main isr timer_isr spurious_isr idt_base tss_base stack_top kernel_end idle_task addr_of
               cr3 polls magic s t = (Some (Returns s'), t')) :
  ∃ s1 e1, shell_start (Boot.system s') = Ret (s1, e1) ∧
    ∀ n x, Z.of_nat n < 2 ^ 63 →
      nsteps (step own demo_task counter_task idle_test_task kernel_end cr0 cr2 cr3 cr4) n (mkState s1 e1 t') x →
      kept s' x ∧ ∃ m p root, live own m p root (2 + Z.of_nat n) x.
Proof.
  pose proof (Boot.kernel_main_boots isr timer_isr spurious_isr idt_base tss_base stack_top kernel_end idle_task
    addr_of cr3 polls magic s m t Hg Hb Hh Hk Hpit) as H1.
  pose proof (kernel_main_ends polls magic s m t Hg Hb Hh Hk Hpit Hkeys) as H2.
  rewrite Hboot in H1, H2. cbn [fst] in H1, H2. destruct H1 as [_ H1]. destruct H2 as ([Hsc Hkb] & Hid & sc & Esc & Hc).
  destruct (Boot.booted_pmm _ _ _ _ _ _ _ _ _ _ H1) as (p & Hp & Huse).
  pose proof (Boot.booted_vmm _ _ _ _ _ _ _ _ _ _ H1) as Hv.
  destruct (Boot.booted_tasks _ _ _ _ _ _ _ _ _ _ H1) as (sc' & Esc' & Hr & _). rewrite Esc in Esc'. injection Esc' as <-.
  pose proof (Boot.booted_timer _ _ _ _ _ _ _ _ _ _ H1) as Hhz. clear H1 Hboot.
  assert (Hok : ok own (Boot.memory s') (pmm (Boot.system s')) (vmm (Boot.system s')) 2 (Boot.system s')).
  { split; try done; [apply Huse|by exists sc|lia]. }
  destruct (start_live (Boot.system s') t' Hok) as (s1 & e1 & E1 & Hl1). exists s1, e1. split; [exact E1|].
  intros n x Hn Hx. eapply (steps_live own Hown _ _ _ _ _ _ _ _ _ _ _ n 2) in Hx; [|lia|exact Hl1]. split; [|by eauto].
  destruct Hx as [[] He]. destruct ok_managers0 as [Hp' Hv'].
  split; [done..| | |done|done].
  - exists p. rewrite Hp'. split; [done|]. eapply Boot.pmm_uses_ext; [exact Huse|done|].
    intros a Ha. by apply ok_frame0, Hbitmap.
  - by rewrite Hv'.
Qed.


(** The job control of the shell never does anything: nothing in the kernel
    sends the signal that stops a task, or creates one in the background, so in
    every state the kernel reaches [bg] and [fg] refuse every process, and
    change nothing but the screen. *)
Theorem job_control_refused polls magic s m t s' t' n s1 e1 x arg args
    (Hg : globals (Boot.system s) = Task.Globals_init m) (Hb : bytes m)
    (Hh : Boot.heap s = (false, Heap.SlabAllocator_new)) (Hk : kernel_end ≤ 0xE00000)
    (Hpit : ∀ t, (Apic.wait_pit polls t).1 = true)
    (Hkeys : Keyboard.wf (keyboard (kernel (Boot.system s))))
    (Hboot : Boot.kernel_main isr timer_isr spurious_isr idt_base tss_base stack_top kernel_end idle_task addr_of
               cr3 polls magic s t = (Some (Returns s'), t'))
    (Hstart : shell_start (Boot.system s') = Ret (s1, e1)) (Hn : Z.of_nat n < 2 ^ 63)
    (Hx : nsteps (step own demo_task counter_task idle_test_task kernel_end cr0 cr2 cr3 cr4) n (mkState s1 e1 t') x) :
  cmd_bg (arg :: args) (system x) =
    println (str "Process " ++ fmt_dec (parse_int arg) ++ str " not found or not stopped") (system x) ∧
  cmd_fg (arg :: args) (system x) =
    println (str "Process " ++ fmt_dec (parse_int arg) ++ str " not found or already foreground") (system x).
Proof.
  destruct (runs_kept polls magic s m t s' t' Hg Hb Hh Hk Hpit Hkeys Hboot) as (s2 & e2 & E & H).
  rewrite Hstart in E. injection E as <- <-. destruct (H n x Hn Hx) as (_ & m1 & p1 & r1 & Hl & _).
  split; [by eapply bg_refused|by eapply fg_refused].
Qed.

End FromBoot.

(** ** A boot *)

(** The bitmap, the new page tables and the heap. *)
Definition demo_own (a : Z) : Prop := 0x500000 ≤ a < 0xA00000.

Definition demo_step : State → State → Prop :=
  step (D := Apic.demo_pit) demo_own 0x210000 0x210100 0x210200 0x400000 0x80000011 0 0x330000 0x20.

Lemma demo_boots :
  ∃ s' t', Boot.kernel_main (D := Apic.demo_pit) Interrupts.demo_stubs 0x200000 0x200100 0x300000 0x310000 0x320000
    0x400000 0x200200 (λ _, 0) 0x330000 1 0x36D76289 Boot.demo_machine [] =
    (Some (Returns s'), t').
Proof.
  pose proof (Boot.kernel_main_boots (D := Apic.demo_pit) Interrupts.demo_stubs 0x200000 0x200100 0x300000 0x310000
    0x320000 0x400000 0x200200 (λ _, 0) 0x330000 1 0x36D76289 Boot.demo_machine ∅ [] eq_refl bytes_empty eq_refl
    ltac:(lia) ltac:(reflexivity)) as H.
  destruct (Boot.kernel_main _ _ _ _ _ _ _ _ _ _ _ _ _ _) as [[[s'| |]|] t']; cbn [fst] in H.
  - by exists s', t'.
  - destruct H as [H _]. contradiction H. reflexivity.
  - contradiction.
  - contradiction.
Qed.

Lemma demo_keys : Keyboard.wf (keyboard (kernel (Boot.system Boot.demo_machine))).
Proof. split; [reflexivity|]. cbn. lia. Qed.

Lemma demo_own_below a : demo_own a → a < TASK_STACKS_BASE.
Proof. unfold demo_own, TASK_STACKS_BASE. lia. Qed.

Lemma demo_own_bitmap a : Pmm.BITMAP_BASE ≤ a < Pmm.BITMAP_BASE + Pmm.BITMAP_SIZE → demo_own a.
Proof. unfold demo_own, Pmm.BITMAP_BASE, PMM_BITMAP_BASE. change Pmm.BITMAP_SIZE with 0x200000. lia. Qed.


Lemma job_control_refused_witness :
  ∃ s' t' s1 e1, Boot.kernel_main (D := Apic.demo_pit) Interrupts.demo_stubs 0x200000 0x200100 0x300000 0x310000 0x320000
    0x400000 0x200200 (λ _, 0) 0x330000 1 0x36D76289 Boot.demo_machine [] =
    (Some (Returns s'), t') ∧ shell_start (Boot.system s') = Ret (s1, e1) ∧
    cmd_bg [str "1"] s1 = println (str "Process 1 not found or not stopped") s1.
Proof.
  destruct demo_boots as (s' & t' & Eb).
  destruct (runs_kept (D := Apic.demo_pit) Interrupts.demo_stubs 0x200000 0x200100 0x300000 0x310000
    0x320000 0x400000 0x200200 (λ _, 0) 0x330000 0x210000 0x210100 0x210200 0x80000011 0 0x20 demo_own demo_own_below
    demo_own_bitmap 1 0x36D76289 Boot.demo_machine ∅ [] s' t' eq_refl bytes_empty eq_refl ltac:(lia)
    ltac:(reflexivity) demo_keys Eb) as (s1 & e1 & Es & _).
  exists s', t', s1, e1. split; [exact Eb|]. split; [exact Es|].
  exact (proj1 (job_control_refused (D := Apic.demo_pit) Interrupts.demo_stubs 0x200000 0x200100 0x300000 0x310000
    0x320000 0x400000 0x200200 (λ _, 0) 0x330000 0x210000 0x210100 0x210200 0x80000011 0 0x20 demo_own demo_own_below
    demo_own_bitmap 1 0x36D76289 Boot.demo_machine ∅ [] s' t' 0 s1 e1 (mkState s1 e1 t') (str "1") [] eq_refl
    bytes_empty eq_refl ltac:(lia) ltac:(reflexivity) demo_keys Eb Es ltac:(lia) (nsteps_O _ _))).
Defined.

End Live.
