(* ===== verification/Typing.v ===== *)
(** * From the keys to the command (src/interrupts.rs, src/lib.rs)

    The keyboard interrupt, the queue and the line editor together: a desk, that
    is the characters typed and not yet read and the line as edited so far, and
    what each step of the running kernel does to it.  The code follows the desk
    through every interleaving, and runs the line on it when the newline comes. *)

From stdpp Require Import base numbers list gmap strings.
From S2P Require Import Prelude Memory Text Task Scheduler Console Timer Device Acpi Apic Syscall.
From S2P Require Import Interrupts Shell Boot Live.
Open Scope Z_scope.

Module Typing.
Import Text.Text Device.Device Console.Console Interrupts.Keyboard Interrupts.Interrupts Shell.Shell.
Import Live.Commands Live.Live.

(** ** The desk *)

(** The queue with the state of the shift keys, and the line. *)
Definition desk : Type := queue * list Z.

(** The shell takes the next character, if there is one. *)
Definition spec_round (d : desk) : desk :=
  match d with
  | ((ch :: rest, shift), line) => ((rest, shift), if ch =? 10 then [] else edit line ch)
  | _ => d
  end.

Definition at_desk (x : State) (d : desk) : Prop :=
  implements (keyboard (kernel (system x))) d.1 ∧ holds (editor x) d.2.

(** ** The commands and the keyboard *)

Definition keys_are (k : Keyboard) (s : System) : Prop := keyboard (kernel s) = k.

#[export] Instance keys_are_printable k : Printable (keys_are k).
Proof. by split. Qed.

Section Typing.
Context {D : Device}.
Context (demo_task counter_task idle_test_task kernel_end : Z) (cr0 cr2 cr3 cr4 : Z).

Lemma execute_keys line s t k :
  keys_are k s →
  keys_are k (execute_command demo_task counter_task idle_test_task kernel_end cr0 cr2 cr3 cr4 line s t).1.
Proof.
  intros H. revert t. apply execute_gives; [apply _|done|..]; intros [|arg args].
  - unfold cmd_kill. printing.
  - unfold cmd_kill. cbv zeta. destruct (_ =? 0); [printing|]. destruct (scheduler _) as [sc|]; [|done].
    destruct (Scheduler.terminate_task sc _ _) as [sc' r].
    assert (H1 : keys_are k (with_scheduler sc' s)) by exact H. destruct r as [|[]]; printing.
  - unfold cmd_run. printing.
  - unfold cmd_run. destruct (run_entry _ _ _ arg) as [[entry nm]|]; [|printing].
    destruct (scheduler _) as [sc|]; [|printing].
    destruct (Scheduler.create_kernel_task _ _ _ _ _) as [[g sc'] i]. by apply (keeps_println (keys_are k)).
  - unfold cmd_bg. printing.
  - unfold cmd_bg. cbv zeta. destruct (scheduler _) as [sc|]; [|done].
    destruct (Scheduler.background_task sc _) as [sc' r].
    assert (H1 : keys_are k (with_scheduler sc' s)) by exact H. destruct r as [|[]]; printing.
  - unfold cmd_fg. printing.
  - unfold cmd_fg. cbv zeta. destruct (scheduler _) as [sc|]; [|done].
    destruct (Scheduler.foreground_task sc _) as [sc' r].
    assert (H1 : keys_are k (with_scheduler sc' s)) by exact H. destruct r as [|[]]; printing.
Qed.

(** ** The handler and the keyboard *)

Lemma isr_branch_keys m addr ctx k t :
  match (isr_branch m addr ctx k t).1 with
  | Returns (_, k', _) =>
      keyboard k' = if vector ctx =? 33 then handle_keyboard_scancode (keyboard k) (answer t (AskB 0x60))
                    else keyboard k
  | _ => True
  end.
Proof.
  unfold isr_branch. destruct (vector ctx =? 33) eqn:E33; break_cmp.
  { rewrite E33. change (33 =? 0) with false. change (33 =? 6) with false. change (33 =? 8) with false.
    change (33 =? 13) with false. change (33 =? 14) with false. change (33 =? 32) with false. cbn iota.
    rewrite !run_bind. done. }
  do 5 (destruct (vector ctx =? _); [done|]).
  destruct (vector ctx =? 32).
  { destruct (Timer.on_timer_tick _) as [tm|]; [|done]. cbv zeta.
    destruct (scheduler (set_timer tm k)) as [sc|]; [destruct (Scheduler.tick sc) as [sc' [sw|]]|];
      [done|by rewrite run_bind..]. }
  destruct (_ || _); [done|].
  destruct (vector ctx =? 128); [by destruct (Syscall.rust_syscall_handler _ _ _ _ _ _ _) as [[c r]| |]|].
  destruct (vector ctx =? 255); [done|]. by destruct (vector ctx <? 32).
Qed.

Lemma isr_keys m addr ctx k t ctx' k' sw t' :
  rust_isr_handler m addr ctx k t = (Returns (ctx', k', sw), t') →
  keyboard k' = if vector ctx =? 33 then handle_keyboard_scancode (keyboard k) (answer t (AskB 0x60))
                else keyboard k.
Proof.
  intros E. pose proof (isr_branch_keys m addr ctx k t) as Hk.
  assert (E1 : (rust_isr_handler m addr ctx k t).1 = Returns (ctx', k', sw)) by by rewrite E.
  unfold rust_isr_handler in E1. rewrite run_bind in E1.
  destruct (isr_branch m addr ctx k t).1 as [[[ctx1 k1] sw1]| |]; [|done|done].
  rewrite run_bind in E1. by injection E1 as -> -> ->.
Qed.

Lemma timer_keys k sp t k' sp' t' :
  rust_timer_handler k sp t = (Returns (k', sp'), t') → keyboard k' = keyboard k.
Proof.
  unfold rust_timer_handler. destruct (Timer.on_timer_tick _) as [tm|]; [|done]. cbv zeta. rewrite run_bind.
  destruct (scheduler (set_timer tm k)) as [sc|]; [|by intros [= <- _ _]].
  destruct (Scheduler.preempt_enabled sc); [|by intros [= <- _ _]].
  destruct (Scheduler.preempt_schedule sc sp) as [sc1 sp1]. by intros [= <- _ _].
Qed.

Lemma resumed_keys k t k' t' : isr_resumed k t = (k', t') → keyboard k' = keyboard k.
Proof.
  unfold isr_resumed. cbv zeta. rewrite run_bind. intros [= <- _]. by destruct (scheduler k).
Qed.

(** ** Steps *)

Section From.
Context (x0 : State) (d0 : desk).

(** The states the kernel reaches from [x0], with the desk that goes with each:
    a round of the shell takes a character, an interrupt of the keyboard adds
    the one of its scan code, and whatever leaves the keyboard and the line
    alone leaves the desk alone. *)
Inductive typed : State → desk → Prop :=
  | typed_start : typed x0 d0
  | typed_round s e t s' e' t' d :
      typed (mkState s e t) d →
      shell_wake demo_task counter_task idle_test_task kernel_end cr0 cr2 cr3 cr4 s e t = (Ret (s', e'), t') →
      typed (mkState s' e' t') (spec_round d)
  | typed_interrupt s e t addr ctx ctx' k' sw t' c r d :
      typed (mkState s e t) d →
      rust_isr_handler (Task.gmem (globals s)) addr ctx (kernel s) t = (Returns (ctx', k', sw), t') →
      typed (mkState (switched sw (Task.gmem (globals s)) c r (with_kernel (λ _, k') s)) e t')
        (if vector ctx =? 33 then (spec_scan d.1 (answer t (AskB 0x60)), d.2) else d)
  | typed_other s e t s' t' d :
      typed (mkState s e t) d → keyboard (kernel s') = keyboard (kernel s) → typed (mkState s' e t') d.

Lemma switched_keys sw m c r s : keyboard (kernel (switched sw m c r s)) = keyboard (kernel s).
Proof. unfold switched. by destruct sw as [[cur n]|], (scheduler (kernel s)). Qed.

(** Every step of the running kernel is one of these. *)
Lemma step_typed own x y d :
  typed x d → step own demo_task counter_task idle_test_task kernel_end cr0 cr2 cr3 cr4 x y →
  ∃ d', typed y d'.
Proof.
  intros Hx Hs. destruct Hs as [s e t s' e' t' E|s e t addr ctx ctx' k' sw t' c r E|s e t k' t' E|s e t sp k' sp' t' E
    |s e t msg|s e t m Hby Hmem].
  - eexists. by eapply typed_round.
  - eexists. by eapply typed_interrupt.
  - eexists. eapply typed_other; [exact Hx|]. by eapply resumed_keys.
  - eexists. eapply typed_other; [exact Hx|]. by eapply timer_keys.
  - eexists. by eapply typed_other.
  - eexists. by eapply typed_other.
Qed.

(** A character comes out of the queue. *)
Lemma read_desk k ch rest shift :
  implements k (ch :: rest, shift) →
  keyboard_has_data k = true ∧
  ∃ k', keyboard_read_char k = (k', ch) ∧ implements k' (rest, shift).
Proof.
  intros Hi. pose proof (step_implements k _ ReadChar I Hi) as Hr.
  pose proof (step_implements k _ HasData I Hi) as Hd. cbn [code_step spec_step fst snd] in *.
  destruct (keyboard_read_char k) as [k' r]. destruct Hr as [Hi' ->].
  destruct Hd as [_ Hd]. split; [by destruct (keyboard_has_data k)|]. by exists k'.
Qed.

Lemma no_data k shift : implements k ([], shift) → keyboard_has_data k = false.
Proof.
  intros Hi. pose proof (step_implements k _ HasData I Hi) as Hd. cbn [code_step spec_step fst snd] in Hd.
  destruct Hd as [_ Hd]. by destruct (keyboard_has_data k).
Qed.

Lemma console_keys s s' : same_but_console s s' → keyboard (kernel s') = keyboard (kernel s).
Proof. by intros [c ->]. Qed.

(** The round that reads the newline runs the line. *)
Lemma round_runs x rest shift line :
  at_desk x ((10 :: rest, shift), line) →
  ∃ s1 s2 e2,
    same_but_console (with_kernel (set_keyboard (keyboard_read_char (keyboard (kernel (system x)))).1) (system x)) s1 ∧
    shell_wake demo_task counter_task idle_test_task kernel_end cr0 cr2 cr3 cr4 (system x) (editor x) (accesses x) =
      (Ret (s2, e2), (execute_command demo_task counter_task idle_test_task kernel_end cr0 cr2 cr3 cr4 line s1
                        (accesses x)).2) ∧
    same_but_console (execute_command demo_task counter_task idle_test_task kernel_end cr0 cr2 cr3 cr4 line s1
                        (accesses x)).1 s2 ∧
    implements (keyboard (kernel s2)) (rest, shift) ∧ holds e2 [].
Proof.
  intros [Hi Hl]. destruct x as [s e t]. cbn [system editor accesses fst snd] in *.
  destruct (read_desk _ _ _ _ Hi) as (Hd & k' & Er & Hi'). unfold shell_wake. rewrite Hd, Er. cbn [fst].
  set (s0 := with_kernel (set_keyboard k') s).
  destruct (key_newline demo_task counter_task idle_test_task kernel_end cr0 cr2 cr3 cr4 s0 e line t Hl)
    as (s2 & e2 & E & Hs2 & He2).
  exists (println [] s0), s2, e2. split; [by eexists|]. split; [exact E|]. split; [exact Hs2|]. split; [|exact He2].
  rewrite (console_keys _ _ Hs2). rewrite (execute_keys line (println [] s0) t k'); [exact Hi'|reflexivity].
Qed.

Lemma round_desk s e t s' e' t' d :
  at_desk (mkState s e t) d →
  shell_wake demo_task counter_task idle_test_task kernel_end cr0 cr2 cr3 cr4 s e t = (Ret (s', e'), t') →
  at_desk (mkState s' e' t') (spec_round d).
Proof.
  intros Hd E. destruct d as [[[|ch rest] shift] line]; cbn [spec_round].
  { unfold shell_wake in E. rewrite (no_data _ shift) in E by apply Hd. injection E as <- <- <-. exact Hd. }
  destruct (ch =? 10) eqn:Ec; break_cmp.
  - subst ch. destruct (round_runs _ rest shift line Hd) as (s1 & s2 & e2 & _ & E2 & _ & H1 & H2).
    cbn [system editor accesses] in E2. rewrite E in E2. injection E2 as <- <- _. by split.
  - destruct Hd as [Hi Hl]. cbn [system editor fst snd] in *.
    destruct (read_desk _ _ _ _ Hi) as (Hd & k' & Er & Hi'). unfold shell_wake in E. rewrite Hd, Er in E.
    destruct (key_edits demo_task counter_task idle_test_task kernel_end cr0 cr2 cr3 cr4
      (with_kernel (set_keyboard k') s) e line ch t Hl Ec) as (s1 & e1 & E1 & Hs1 & He1).
    rewrite E in E1. injection E1 as -> -> ->. split; [|exact He1]. cbn [system].
    by rewrite (console_keys _ _ Hs1).
Qed.

Lemma typed_at_desk x d :
  (∀ t, 0 ≤ answer t (AskB 0x60) < 256) → at_desk x0 d0 → typed x d → at_desk x d.
Proof.
  intros Hport H0. induction 1 as [|s e t s' e' t' d _ IH E|s e t addr ctx ctx' k' sw t' c r d _ IH E|s e t s' t' d _ IH E].
  - exact H0.
  - by eapply round_desk.
  - destruct IH as [Hi Hl]. cbn [system editor] in *. apply isr_keys in E.
    destruct (vector ctx =? 33); (split; [|exact Hl]); cbn [system]; rewrite switched_keys; cbn [with_kernel kernel];
      rewrite E; [|exact Hi]. by apply scan_implements.
  - destruct IH as [Hi Hl]. split; [|exact Hl]. cbn [system] in *. by rewrite E.
Qed.

(** A round of the shell always returns. *)
Lemma round_returns x d :
  at_desk x d →
  ∃ s' e' t', shell_wake demo_task counter_task idle_test_task kernel_end cr0 cr2 cr3 cr4
    (system x) (editor x) (accesses x) = (Ret (s', e'), t').
Proof.
  intros Hd. destruct d as [[[|ch rest] shift] line].
  { unfold shell_wake. rewrite (no_data _ shift) by apply Hd. by eexists _, _, _. }
  destruct (decide (ch = 10)) as [->|Hc].
  - destruct (round_runs _ _ _ _ Hd) as (s1 & s2 & e2 & _ & E & _). by eexists _, _, _.
  - destruct Hd as [Hi Hl]. destruct (read_desk _ _ _ _ Hi) as (Hd & k' & Er & _).
    unfold shell_wake. rewrite Hd, Er.
    destruct (key_edits demo_task counter_task idle_test_task kernel_end cr0 cr2 cr3 cr4
      (with_kernel (set_keyboard k') (system x)) (editor x) line ch (accesses x) Hl Hc) as (s1 & e1 & E1 & _).
    by eexists _, _, _.
Qed.

(** The state after an interrupt of the keyboard. *)
Definition pressed (x : State) : State :=
  let code := answer (accesses x) (AskB 0x60) in
  mkState (with_kernel (set_keyboard (handle_keyboard_scancode (keyboard (kernel (system x))) code)) (system x))
    (editor x) ((accesses x ++ [InB 0x60 code]) ++ ack (kernel (system x)) 1).

Lemma pressed_typed x d ctx :
  vector ctx = 33 → typed x d → typed (pressed x) (spec_scan d.1 (answer (accesses x) (AskB 0x60)), d.2).
Proof.
  intros Hv Hx. destruct x as [s e t]. unfold pressed. cbn [system editor accesses]. cbv zeta.
  set (code := answer t (AskB 0x60)).
  assert (E : rust_isr_handler (Task.gmem (globals s)) 0 ctx (kernel s) t =
    (Returns (ctx, set_keyboard (handle_keyboard_scancode (keyboard (kernel s)) code) (kernel s), None),
     (t ++ [InB 0x60 code]) ++ ack (kernel s) 1)).
  { unfold rust_isr_handler. rewrite run_bind. unfold isr_branch, trace. rewrite Hv. cbn [Z.eqb Pos.eqb].
    rewrite !run_bind. unfold trace, inb. cbn [fst snd]. rewrite send_eoi_ack. cbn [fst snd].
    cbn [mret io_ret fst snd]. rewrite Hv. by rewrite run_bind. }
  pose proof (typed_interrupt s e t 0 ctx ctx _ None _ (Task.timer_isr_restore ∅ 0)
    (Task.mkRegs 0 0 0 0 0 0 0) d Hx E) as H.
  rewrite Hv in H. exact H.
Qed.


End From.
End Typing.

(** ** A session *)

(** A keyboard on which P, S and Enter are pressed. *)
Definition demo_keyboard : Device :=
  λ t q, match q with
         | AskB port =>
             if port =? 0x60
             then default 0 ([0x19; 0x1F; 0x1C] !! length (omap (λ e, match e with InB _ v => Some v | _ => None end) t))
             else 0
         | _ => 0
         end.

Definition demo_press : InterruptContext :=
  mkContext 0 0 0 0 0 0 0 0 0 0 0 0 0 0 0 33 0 0x200000 8 0x202 0x150000 0x10.

Definition demo_typed : State → desk → Prop :=
  typed (D := demo_keyboard) 0 0 0 0 0 0 0 0 (mkState demo_system demo_editor []) (([], false), []).

Lemma demo_port t : 0 ≤ demo_keyboard t (AskB 0x60) < 256.
Proof.
  unfold demo_keyboard. change (0x60 =? 0x60) with true. cbn iota.
  destruct (_ !! _) as [v|] eqn:E; simpl; [|lia]. apply list_elem_of_lookup_2 in E.
  rewrite !elem_of_cons, elem_of_nil in E. lia.
Qed.

Lemma demo_desk : at_desk (mkState demo_system demo_editor []) (([], false), []).
Proof.
  split; [split; [split; [reflexivity|cbn; lia]|split; reflexivity]|].
  split_and!; [reflexivity|reflexivity|cbn; lia|reflexivity].
Qed.

Lemma demo_round x d : demo_typed x d → ∃ x', demo_typed x' (spec_round d).
Proof.
  intros Hx. pose proof (typed_at_desk (D := demo_keyboard) 0 0 0 0 0 0 0 0 _ _ x d demo_port demo_desk Hx) as Hd.
  destruct (round_returns (D := demo_keyboard) 0 0 0 0 0 0 0 0 x d Hd) as (s & e & t & Hr).
  exists (mkState s e t). destruct x. exact (typed_round _ _ _ _ _ _ _ _ _ _ _ _ _ _ _ _ _ Hx Hr).
Qed.

(** The three keys, then two rounds of the shell. *)
Lemma demo_session : ∃ x, demo_typed x (([10], false), str "ps").
Proof.
  pose proof (pressed_typed (D := demo_keyboard) 0 0 0 0 0 0 0 0 (mkState demo_system demo_editor [])
    (([], false), []) _ _ demo_press eq_refl (typed_start _ _ _ _ _ _ _ _ _ _)) as H1.
  apply (pressed_typed (D := demo_keyboard) 0 0 0 0 0 0 0 0 _ _ _ _ demo_press eq_refl) in H1.
  apply (pressed_typed (D := demo_keyboard) 0 0 0 0 0 0 0 0 _ _ _ _ demo_press eq_refl) in H1.
  match type of H1 with typed _ _ _ _ _ _ _ _ _ _ ?x ?d => set (x1 := x) in H1;
    assert (E : d = (([112; 115; 10], false), [])) by (vm_compute; reflexivity); rewrite E in H1; clear E end.
  clearbody x1.
  apply demo_round in H1 as [x2 H1]. by apply demo_round in H1.
Qed.


End Typing.
